(* ===== verification/_CoqProject ===== *)
-Q . S2P
Prelude.v
Strings.v
Allocator.v
Chain.v
Memory.v
PMM.v
KHeap.v
Vector.v
Events.v
Paging.v
Bits.v
Descriptors.v
Elf.v
Apic.v
Keyboard.v
TempFS.v
Blocks.v
Tasks.v
VFS.v
Mount.v
FileTree.v
FileDrive.v
StartFiles.v
FileCalls.v
Screen.v
Printf.v
Frames.v
Syscalls.v
Process.v
Libc.v
Panic.v
Smp.v
Boot.v
Drivers.v
