(* ===== verification/Prelude.v ===== *)
(** * PotatOS: a verification library for the kernel under [src/src]

    PotatOS is a small x86-64 kernel in C, started by the Limine boot loader.
    [_start] (kernel/entry.c) sets up the page allocator, the heap and the page
    tables, reads the firmware tables and programs the interrupt controller,
    makes the first task, mounts the drives, installs the descriptor tables,
    starts the other processors and runs the shell.  From then on the timer's
    interrupt switches tasks, programs call the kernel through interrupt 0x80,
    and exceptions stop the machine.  This library models the C code of these
    parts, its C library and its programs, and proves what each part promises to
    the others.  Paths below are relative to [src/src] unless they start with
    [src].

    ** How the code is modelled

    A C function is a function of the same name.  A function with effects is a
    computation of the monad [M S A] below: it takes the state it works on and
    ends [Ok] with a result and a new state, or in [Halted] (a call of [halt()],
    which never returns), in [Fault] (an access outside an array or an object,
    through a null or dangling pointer, or a step C leaves undefined), or in
    [Spin] (a loop that has not ended).  Machine integers are [Z] with the
    wrap-around written out ([u8] to [u64], [s32]).  The kernel's memory is a
    function from addresses to bytes (Memory.v); arrays and strings that only
    one call sees are lists of bytes, and pointers into them the list from the
    pointer on.  Linked structures are typed objects at addresses of a store over
    the heap (Allocator.v), so that aliasing, use after [free] and wrong types
    are visible.

    ** The files

    Foundations.
    - Prelude.v: outcomes, the monad, machine words, arrays, tactics ([zlen],
      [divlia], [case_bool]).
    - Bits.v: equations between words made of fields, bit by bit.
    - Memory.v: byte memory, [memset] and [memcpy].
    - Strings.v: utils/string.c.
    - Allocator.v: the class [Allocator], what [malloc] and [free] promise, and
      the store of typed objects over it.
    - Chain.v: linked lists in the store.  Blocks.v: strings in heap blocks.

    Memory.
    - PMM.v: mem/pmm.c.  [Kernel] has the fields of [struct Kernel] the memory
      system uses; [kmalloc] takes pages from the bitmaps of the usable sections.
    - KHeap.v: mem/kheap.c, the list of pools that [malloc] and [free] keep in
      pages of [kmalloc]; [KHeap_Allocator] is the instance of [Allocator].
    - Paging.v: mem/paging.c and mem/map.c; [pt_inv k root T] says that the
      tables of [T] are a tree of distinct pages in use.

    Kernel objects.
    - Vector.v, Events.v: mem/vector.c, tasks/events.c.
    - Tasks.v: tasks/tasklist.c, tasks/end_task.c, tasks/switchutils.c,
      processors/spinlock.c; [sched] says which tasks the list holds.
    - TempFS.v: fs/tempfs.c.  VFS.v: fs/vfs.c, over the class
      [FileSystemLaws].  Mount.v: fs/ustar.c, fs/devices.c, and TempFS.v's
      functions as a file system with these laws.
    - FileTree.v: a drive of TempFS as a tree, a finite map from paths to
      directories, the bytes of files, and devices; [layout_ok] says where in the
      heap it lies.  FileDrive.v: the VFS on such a drive ([mounted], [opened]).
      StartFiles.v: the part of [_start] that sets the files up.  FileCalls.v:
      histories of calls on files.
    - Frames.v: what the calls leave alone (class [FileSystemFrame]).
    - Syscalls.v: tasks/syscalls.c.  Process.v: tasks/mmap.c and the whole of
      tasks/spawn.c; Elf.v: its loading of ELF files.

    Devices and the processor.
    - Descriptors.v: cpu/gdt.c, cpu/idt.c, cpu/tss.c.
    - Apic.v: drivers/apic.c, drivers/pit.c, drivers/acpi.c, over the class
      [Hardware] and the laws [ApicLaws] of the two controllers.
    - Keyboard.v: drivers/keyboard.c.
    - Screen.v: drivers/framebuffer.c, drivers/renderfont.c.
    - Printf.v: utils/printf.c, drivers/serial.c; [emits] says what a
      computation prints.
    - Panic.v: kernel/panic.c.  Smp.v: processors/smp.c.
    - Drivers.v: what [_start] calls of the drivers once: [init_serial],
      [init_font], the device files of the screen and the keyboard.
    - Boot.v: kernel/entry.c, mem/print_mem.c.
    - Libc.v: src/libc and src/userspace, over the classes [System] (the system
      calls as a program sees them) and [Terminal] (a standard output); the
      kernel's console is an instance.

    ** How the parts interact in the model

    The heap is the seam.  The pointer structures are proved over any
    [Allocator]; KHeap.v shows that mem/kheap.c is one, so that Process.v and
    Boot.v can put the objects of the kernel and the bytes of its page tables
    into one memory: [address_space] is a well-formed heap next to a well-formed
    tree of tables.  VFS.v calls file systems through a record of functions, as
    the code does, and is proved from [FileSystemLaws]; with the functions of
    TempFS.v it is the tree of FileTree.v, whose objects lie in the same store as
    the task list and stay apart from it ([working]).  Interrupts and other
    processors are explicit: the keyboard's reads and the timer's waits take the
    sequence of interrupts as an argument, the spinlock and the start of the
    processors are step relations over all interleavings.

    ** What the theorems show

    Every claim C<n> is stated in a comment above its theorem.
    - Memory: pages are handed out once and [kmalloc] finds a run exactly when
      there is one (PMM.v); the heap implements independent arrays over every
      history of calls (KHeap.v); translation, mapping and fresh pages of page
      tables (Paging.v); the address space the kernel boots into (Boot.v), that
      of a program (Elf.v) and the pages of [mmap] (Process.v).
    - Files: over every history of calls the VFS on a drive of TempFS refines a
      tree with a table of open files (FileCalls.v); what is written is read back,
      by any path with the same meaning; the ramdisk is unpacked into the tree of
      its entries, and the kernel starts with the drives [D] and [R] in place.
      The resolution of paths on any file system (VFS.v).  The claims on drives
      have the premises [no_entries], [null_links] (FileTree.v) and [stale_name]
      (FileDrive.v), see below.
    - Objects: vectors against lists, events, creation, selection and end of
      tasks, mutual exclusion of the lock.
    - System calls: in every state that any sequence of read, write, open, close,
      get_cwd, get_errno and task switches reaches, the table of open files is
      well typed (a type theorem with its invariant); open, read, write and close
      of descriptors; events.  Exit, mmap and spawn have theorems of their own
      (Tasks.v, Process.v, Elf.v) and are no steps of that relation.
    - Devices: interrupt routing and calibration, the waits that end exactly when
      enough interrupts come (liveness), the keyboard's line editor, glyphs and
      cursor of the screen, descriptor round trips, the report of an exception,
      the start of all processors.
    - Text: [printf] of the kernel and of the C library against the text that the
      format denotes.
    Where the code fails to do what it means to, the theorem says what it does
    instead: an off-by-one write needs [slack] accessible bytes behind a block,
    a wait may be [Spin], a misuse a [Fault].

    ** Parameters and fuel

    What C leaves open is a parameter: [slack] (accessible bytes behind a block),
    [stale] and the [junk_] functions (what [malloc] leaves in a block or the
    stack in a buffer), [core] (the processor a call runs on), [line_status]
    and [patience] (what the serial port reads, and how many polls it needs).
    Structures of the boot loader and the firmware are arguments; the memory map
    and [KernelImage] are what Limine and the linker provide.  [malloc] clears
    nothing, so the [junk_] functions are arbitrary, up to the lengths of the
    arrays in the records.  The code relies on more in three places, and the
    theorems about it have that as premises: fs/tempfs.c never sets the
    [num_entries] of a root directory ([no_entries]) or the [next_node] of the
    first node of a file ([null_links], [null_next]; without it see the second
    half of [tempfs_write_read]), and [open] looks the type of a file up in the
    path it has freed ([stale_name]).  [printf] is a parameter of VFS.v and
    Syscalls.v, because the console is not in their state: on a drive of TempFS no
    write calls it and nothing is assumed of it; elsewhere it is assumed to leave
    the objects alone that the theorem is about.

    A loop with fuel gets as much as it can use: [malloc] the number of pool
    headers that fit into memory, copies and searches the length of their
    buffers, path loops the length of the path, the archive its number of
    512-byte blocks, file copies the number of nodes, the numerals 65 digits.
    The theorems end in [Ok], so this is enough.  Loops whose end depends on
    others (a frame chain, the records of a firmware table, polls, the
    scheduler's search) take the fuel as an argument, and the theorem says how
    much suffices or that none does.  [get_bitmap_reserved] loops forever on
    sections of 128 MiB and more; the memory theorems are about smaller ones.

    ** Not modelled

    - Assembly: the context switch, the entry of interrupts and system calls, the
      start code; in C with inline assembly: [clear_page_cache], the loads of
      control registers, and the stubs of interrupt 0x80 (src/libc/impl/
      syscalls.c), which are the fields of [System].
    - limine.h, the boot loader's declarations: only its memory-map entry, the
      processors' records and the responses appear, as records.
    - [_start] as a whole: its parts have states of their own; the memory part is
      composed in Boot.v, that from the task list to the ramdisk in StartFiles.v,
      the rest is a sequence of calls that take no results of each other.
    - On the tree of a drive: paths with the components [.] and [..], a file or a
      device in the middle of a path, and calls on opened directories and
      devices; the theorems of VFS.v and TempFS.v cover them one call at a time.
    - Log messages inside other components (status lines, "Ok!") are left out;
      what [printf] and the logging macros do is in Printf.v.
    - The TLB, caches, and interrupts at arbitrary points of kernel code. *)
From Stdlib Require Export ZArith Lia ZifyBool.
From stdpp Require Export base numbers gmap list.

#[global] Open Scope Z_scope.

(** ** Outcomes

    What a call of the C code can do.  [Ok] is a normal return.  [Halted] is a
    call of [halt()] (utils/cpu_utils.c), which never returns.  [Fault] is an
    access the code has no right to make: outside an array, through a null or
    dangling pointer, or an arithmetic step C leaves undefined.  [Spin] is the
    exhaustion of the fuel of a loop: a theorem that a call is [Ok] therefore
    says that its loops end. *)
Inductive outcome (A : Type) : Type :=
  | Ok (a : A)
  | Halted
  | Fault
  | Spin.
Arguments Ok {A} a.
Arguments Halted {A}.
Arguments Fault {A}.
Arguments Spin {A}.

Definition obind {A B} (m : outcome A) (f : A -> outcome B) : outcome B :=
  match m with
  | Ok a => f a
  | Halted => Halted
  | Fault => Fault
  | Spin => Spin
  end.

(** A computation over a state [S]; the state of a call that does not return
    is not observed. *)
Definition M (S A : Type) : Type := S -> outcome (A * S).

Definition ret {S A} (a : A) : M S A := fun s => Ok (a, s).
Definition bind {S A B} (m : M S A) (f : A -> M S B) : M S B :=
  fun s => obind (m s) (fun '(a, s') => f a s').
Definition get {S} : M S S := fun s => Ok (s, s).
Definition modify {S} (f : S -> S) : M S unit := fun s => Ok (tt, f s).
Definition halt {S A} : M S A := fun _ => Halted.
Definition fault {S A} : M S A := fun _ => Fault.
Definition lift {S A} (o : outcome A) : M S A :=
  fun s => obind o (fun a => Ok (a, s)).

Declare Scope kernel_scope.
Delimit Scope kernel_scope with kernel.
Notation "'let+' x ':=' m 'in' k" := (obind m (fun x => k))
  (at level 10, x pattern, m at level 100, k at level 200) : kernel_scope.
Notation "'let*' x ':=' m 'in' k" := (bind m (fun x => k))
  (at level 10, x pattern, m at level 100, k at level 200) : kernel_scope.
Notation "m ;;; k" := (bind m (fun _ => k))
  (at level 199, right associativity) : kernel_scope.
#[global] Open Scope kernel_scope.

(** The value of a call that returns, without its state. *)
Definition value_of {S A} (o : outcome (A * S)) : option A :=
  match o with Ok (a, _) => Some a | _ => None end.

Lemma value_of_some {S A} (o : outcome (A * S)) a :
  value_of o = Some a -> exists s, o = Ok (a, s).
Proof. destruct o as [[b s]| | |]; simpl; intros; simplify_eq; eauto. Qed.

Lemma obind_ok {A B} (m : outcome A) (f : A -> outcome B) b :
  obind m f = Ok b -> exists a, m = Ok a /\ f a = Ok b.
Proof. destruct m; simpl; intros; try discriminate; eauto. Qed.

Lemma bind_ok {S A B} (m : M S A) (f : A -> M S B) s r :
  bind m f s = Ok r -> exists a s', m s = Ok (a, s') /\ f a s' = Ok r.
Proof.
  unfold bind. intros H. apply obind_ok in H as [[a s'] [Hm Hf]]. eauto.
Qed.

Lemma bind_run {S A B} (m : M S A) (f : A -> M S B) s a s' :
  m s = Ok (a, s') -> bind m f s = f a s'.
Proof. intros H. unfold bind. by rewrite H. Qed.

Lemma bind_ret {S A B} (a : A) (f : A -> M S B) s : bind (ret a) f s = f a s.
Proof. done. Qed.
Lemma bind_get {S B} (f : S -> M S B) s : bind get f s = f s s.
Proof. done. Qed.
Lemma bind_modify {S B} g (f : unit -> M S B) s : bind (modify g) f s = f tt (g s).
Proof. done. Qed.

Lemma bind_assoc {S A B C} (m : M S A) (f : A -> M S B) (g : B -> M S C) s :
  bind (bind m f) g s = bind m (fun a => bind (f a) g) s.
Proof. unfold bind. by destruct (m s) as [[a s']| | |]. Qed.

(** Computations that agree state by state. *)
Lemma bind_ext {S A B} (m m' : M S A) (f g : A -> M S B) s :
  m s = m' s -> (forall a s', f a s' = g a s') -> bind m f s = bind m' g s.
Proof. unfold bind. intros -> H. destruct (m' s) as [[a s']| | |]; cbn [obind]; auto. Qed.

Lemma bind_ext_ok {S A B} (m : M S A) (f g : A -> M S B) s :
  (forall a s', m s = Ok (a, s') -> f a s' = g a s') -> bind m f s = bind m g s.
Proof. unfold bind. intros H. destruct (m s) as [[a s']| | |]; cbn [obind]; auto. Qed.

Lemma bind_lift {S A B} (o : outcome A) a (f : A -> M S B) s :
  o = Ok a -> bind (lift o) f s = f a s.
Proof. intros ->. done. Qed.

Create Rewrite HintDb monad.
#[export] Hint Rewrite @bind_ret @bind_get @bind_modify : monad.

(** ** Machine words

    An unsigned C integer of width [w] is a [Z] in [0, 2^w); the code's
    arithmetic wraps, which the definitions write out with these. *)
Definition wrap (w z : Z) : Z := z mod 2 ^ w.
Definition u8 (z : Z) : Z := z mod 2 ^ 8.
Definition u16 (z : Z) : Z := z mod 2 ^ 16.
Definition u32 (z : Z) : Z := z mod 2 ^ 32.
Definition u64 (z : Z) : Z := z mod 2 ^ 64.

(** Conversion of a [size_t] to [int] (two's complement, as GCC defines it). *)
Definition s32 (z : Z) : Z := (z + 2 ^ 31) mod 2 ^ 32 - 2 ^ 31.
(** A [char] is signed on x86-64: the value of the byte [b] as a [char]. *)
Definition schar (b : Z) : Z := if b <? 128 then b else b - 256.

Definition is_u8 (z : Z) : Prop := 0 <= z < 2 ^ 8.
Definition is_u32 (z : Z) : Prop := 0 <= z < 2 ^ 32.
Definition is_u64 (z : Z) : Prop := 0 <= z < 2 ^ 64.

Lemma u64_small z : 0 <= z < 2 ^ 64 -> u64 z = z.
Proof. apply Z.mod_small. Qed.
Lemma u32_small z : 0 <= z < 2 ^ 32 -> u32 z = z.
Proof. apply Z.mod_small. Qed.
Lemma u16_small z : 0 <= z < 2 ^ 16 -> u16 z = z.
Proof. apply Z.mod_small. Qed.
Lemma u8_small z : 0 <= z < 2 ^ 8 -> u8 z = z.
Proof. apply Z.mod_small. Qed.
Lemma u64_range z : 0 <= u64 z < 2 ^ 64.
Proof. apply Z.mod_pos_bound. lia. Qed.
Lemma u8_range z : 0 <= u8 z < 2 ^ 8.
Proof. apply Z.mod_pos_bound. lia. Qed.
Lemma s32_small z : - 2 ^ 31 <= z < 2 ^ 31 -> s32 z = z.
Proof. intros H. unfold s32. rewrite Z.mod_small; lia. Qed.

Create HintDb words.
Create Rewrite HintDb words.
#[export] Hint Rewrite u64_small u32_small u16_small u8_small s32_small
  using lia : words.
#[export] Hint Resolve u64_range u8_range : words.

(** ** Arrays and C strings

    A C array is the list of its bytes (0..255); a [char *] into an array is
    the list of the bytes from the pointer to the end of the array.  Reading
    or writing outside is a [Fault]. *)
Definition rd {A} (l : list A) (i : Z) : outcome A :=
  if i <? 0 then Fault
  else match l !! Z.to_nat i with Some x => Ok x | None => Fault end.
Definition wr {A} (l : list A) (i : Z) (x : A) : outcome (list A) :=
  if (i <? 0) || (Z.of_nat (length l) <=? i) then Fault
  else Ok (<[Z.to_nat i := x]> l).

(** The little-endian field of [n] bytes at [off] of a structure in an array. *)
Fixpoint le_field (n : nat) (buffer : list Z) (off : Z) : outcome Z :=
  match n with
  | O => Ok 0
  | S n' =>
      let+ b := rd buffer off in
      let+ v := le_field n' buffer (off + 1) in
      Ok (b + 256 * v)
  end.

Definition Zlen {A} (l : list A) : Z := Z.of_nat (length l).

Lemma Zlen_nil {A} : Zlen (@nil A) = 0.
Proof. done. Qed.
Lemma Zlen_cons {A} (x : A) l : Zlen (x :: l) = Zlen l + 1.
Proof. unfold Zlen. simpl. lia. Qed.
Lemma Zlen_app {A} (l k : list A) : Zlen (l ++ k) = Zlen l + Zlen k.
Proof. unfold Zlen. rewrite length_app. lia. Qed.
Lemma Zlen_nonneg {A} (l : list A) : 0 <= Zlen l.
Proof. unfold Zlen. lia. Qed.
Lemma Zlen_to_nat {A} (l : list A) : Z.to_nat (Zlen l) = length l.
Proof. unfold Zlen. lia. Qed.
Lemma Zlen_map {A B} (f : A -> B) l : Zlen (map f l) = Zlen l.
Proof. unfold Zlen. by rewrite length_map. Qed.
Lemma Zlen_rev {A} (l : list A) : Zlen (rev l) = Zlen l.
Proof. unfold Zlen. by rewrite length_rev. Qed.
Lemma Zlen_replicate {A} n (x : A) : Zlen (replicate n x) = Z.of_nat n.
Proof. unfold Zlen. by rewrite length_replicate. Qed.

Create Rewrite HintDb zlen.
#[export] Hint Rewrite @Zlen_nil @Zlen_cons @Zlen_app @Zlen_map @Zlen_rev
  @Zlen_replicate : zlen.

(** Arithmetic over lengths: normalise [Zlen], then [lia]. *)
Ltac zlen :=
  autorewrite with zlen in *;
  repeat match goal with
    | _ : context [Zlen ?l] |- _ =>
        lazymatch goal with _ : 0 <= Zlen l |- _ => fail
        | _ => pose proof (Zlen_nonneg l) end
    | |- context [Zlen ?l] =>
        lazymatch goal with _ : 0 <= Zlen l |- _ => fail
        | _ => pose proof (Zlen_nonneg l) end
    end; lia.

(** Case analysis on the tests of the goal, closing the impossible cases. *)
Ltac case_if :=
  match goal with |- context [if ?b then _ else _] => destruct b eqn:? end.
Ltac case_bool := repeat case_if; try done; try zlen.

(** Division and remainder by constants, then [lia]. *)
Ltac divlia := Z.to_euclidean_division_equations; lia.

(** The addresses of a list literal are distinct. *)
Ltac distinct := repeat constructor; rewrite ?not_elem_of_cons; split_and?; first [done | apply not_elem_of_nil | congruence].

Lemma rd_mid {A} (pre post : list A) x i :
  i = Zlen pre -> rd (pre ++ x :: post) i = Ok x.
Proof.
  intros ->. unfold rd. case_match; [zlen|]. by rewrite Zlen_to_nat, list_lookup_middle.
Qed.

Lemma rd_end {A} (l : list A) i : Zlen l <= i -> rd l i = Fault.
Proof.
  intros H. pose proof (Zlen_nonneg l). unfold rd. case_match; [done|].
  rewrite lookup_ge_None_2; [done|]. unfold Zlen in *. lia.
Qed.

Lemma insert_mid {A} (pre post : list A) x y :
  <[length pre := x]> (pre ++ y :: post) = pre ++ x :: post.
Proof. by rewrite <- (Nat.add_0_r (length pre)), insert_app_r. Qed.

Lemma delete_after {A} (pre post : list A) x y :
  delete (S (length pre)) (pre ++ x :: y :: post) = pre ++ x :: post.
Proof. induction pre as [|z pre IH]; [done|]. simpl. by f_equal. Qed.

Lemma wr_mid {A} (pre post : list A) x y i :
  i = Zlen pre -> wr (pre ++ y :: post) i x = Ok (pre ++ x :: post).
Proof.
  intros ->. unfold wr. fold (Zlen (pre ++ y :: post)).
  destruct (_ || _) eqn:E; [zlen|].
  by rewrite Zlen_to_nat, insert_mid.
Qed.

Lemma wr_hd {A} (x y : A) l : wr (y :: l) 0 x = Ok (x :: l).
Proof. exact (wr_mid [] l x y 0 eq_refl). Qed.
Lemma wr_snd {A} (x y z : A) l : wr (z :: y :: l) 1 x = Ok (z :: x :: l).
Proof. exact (wr_mid [z] l x y 1 eq_refl). Qed.

Lemma wr_end {A} (l : list A) x i : Zlen l <= i -> wr l i x = Fault.
Proof.
  intros H. unfold wr. fold (Zlen l). destruct (_ || _) eqn:E; [done|lia].
Qed.

(** Case analysis on a list by its length, and from both ends. *)
Lemma list_ends {A} (l : list A) :
  l = [] \/ (exists x, l = [x]) \/ (exists x m y, l = x :: m ++ [y]).
Proof.
  destruct l as [|x l]; [by left|right].
  destruct l as [|y m _] using rev_ind; [left|right]; eauto.
Qed.

Lemma list_split_at {A} (l : list A) n :
  0 <= n <= Zlen l -> exists a b, l = a ++ b /\ Zlen a = n.
Proof.
  intros H. exists (take (Z.to_nat n) l), (drop (Z.to_nat n) l).
  rewrite take_drop. split; [done|]. unfold Zlen in *. rewrite length_take. lia.
Qed.

Lemma list_alter_at {A} (f : A -> A) (l : list A) i x : l !! i = Some x -> alter f i l = <[i := f x]> l.
Proof. revert i. induction l as [|y l IH]; intros [|i] H; simplify_eq/=; [done|]. f_equal. by apply IH. Qed.
