(* ===== verification/Strings.v ===== *)
(** * utils/string.c: C strings, byte copies and number formatting

    Buffers are lists of bytes (see [Prelude]); a function that writes through
    a [char *] returns the new contents of the array the pointer starts.  The
    reference notions ([digits], [number_value], [decimal], [c_string]) come
    after the definitions that follow the code. *)
From S2P Require Import Prelude.

Definition chr_0 : Z := 48.
Definition chr_A : Z := 65.

(** ** The code *)

(** [int oct2bin(char *str, int size)].  Leaving the range of [int] is
    undefined behaviour in C, hence a [Fault]. *)
Definition int_ok (z : Z) : bool := (- 2 ^ 31 <=? z) && (z <? 2 ^ 31).

Fixpoint oct2bin_loop (size : nat) (c : list Z) (n : Z) : outcome Z :=
  match size with
  | O => Ok n
  | S size' =>
      let+ ch := rd c 0 in
      if int_ok (n * 8) && int_ok (n * 8 + (schar ch - chr_0))
      then oct2bin_loop size' (tail c) (n * 8 + (schar ch - chr_0))
      else Fault
  end.
Definition oct2bin (str : list Z) (size : Z) : outcome Z :=
  oct2bin_loop (Z.to_nat size) str 0.

Fixpoint ku_strlen (str : list Z) : outcome Z :=
  match str with
  | [] => Fault
  | c :: str' => if c =? 0 then Ok 0 else let+ len := ku_strlen str' in Ok (len + 1)
  end.

(** [rep movsb] between two distinct arrays. *)
Definition ku_memcpy (dest from : list Z) (n : Z) : outcome (list Z) :=
  if (n <=? Zlen dest) && (n <=? Zlen from)
  then Ok (take (Z.to_nat n) from ++ drop (Z.to_nat n) dest)
  else Fault.

(** [rep stosb] stores the low byte of [value]. *)
Definition ku_memset (array : list Z) (value size : Z) : outcome (list Z) :=
  if size <=? Zlen array
  then Ok (replicate (Z.to_nat size) (u8 value) ++ drop (Z.to_nat size) array)
  else Fault.

Fixpoint memcmp_loop (n : nat) (str1 str2 : list Z) (c : Z) : outcome bool :=
  match n with
  | O => Ok true
  | S n' =>
      let+ x := rd str1 c in
      let+ y := rd str2 c in
      if negb (x =? y) then Ok false else memcmp_loop n' str1 str2 (c + 1)
  end.
Definition ku_memcmp (str1 str2 : list Z) (size : Z) : outcome bool :=
  memcmp_loop (Z.to_nat size) str1 str2 0.

(** The two lengths are stored in [int]s. *)
Definition ku_strcmp (str1 str2 : list Z) : outcome bool :=
  let+ len1 := ku_strlen str1 in
  let+ len2 := ku_strlen str2 in
  let str1len := s32 len1 in
  let str2len := s32 len2 in
  if negb (str1len =? str2len) then Ok false
  else memcmp_loop (Z.to_nat (Z.min str1len str2len)) str1 str2 0.

Definition ku_add_char_to_string (str : list Z) (c : Z) : outcome (list Z) :=
  let+ i := ku_strlen str in
  let+ str := wr str i c in
  wr str (i + 1) 0.

Fixpoint remove_last_loop (i : nat) (str : list Z) : outcome (list Z) :=
  match i with
  | O => Ok str
  | S i' =>
      let+ c := rd str (Z.of_nat i) in
      if negb (c =? 0) then wr str (Z.of_nat i) 0 else remove_last_loop i' str
  end.
Definition ku_removeLastChar (str : list Z) : outcome (list Z) :=
  let+ len := ku_strlen str in remove_last_loop (Z.to_nat len) str.

(** [start] and [end] walk towards each other; [length] iterations are more
    than enough. *)
Fixpoint reverse_loop (fuel : nat) (str : list Z) (start end_ : Z) : outcome (list Z) :=
  match fuel with
  | O => Spin
  | S fuel' =>
      if start <? end_ then
        let+ temp := rd str start in
        let+ last := rd str end_ in
        let+ str := wr str start last in
        let+ str := wr str end_ temp in
        reverse_loop fuel' str (start + 1) (end_ - 1)
      else Ok str
  end.
Definition ku_reverse (str : list Z) (length : Z) : outcome (list Z) :=
  reverse_loop (S (Z.to_nat length)) str 0 (length - 1).

(** The loop [while (num > 0) { buffer[index++] = digit(num); num = next(num); }]
    the conversions share; 64 iterations are enough for any [uint64_t]. *)
Fixpoint digit_loop (fuel : nat) (digit next : Z -> Z) (num : Z)
    (buffer : list Z) (index : Z) : outcome (list Z * Z) :=
  match fuel with
  | O => Spin
  | S fuel' =>
      if num >? 0 then
        let+ buffer := wr buffer index (digit num) in
        digit_loop fuel' digit next (next num) buffer (index + 1)
      else Ok (buffer, index)
  end.

(** [for (int i = 0; i <= index; i++) str[i] = buffer[i];] from [i]. *)
Fixpoint copy_loop (n : nat) (buffer str : list Z) (i : Z) : outcome (list Z) :=
  match n with
  | O => Ok str
  | S n' =>
      let+ c := rd buffer i in
      let+ str := wr str i c in
      copy_loop n' buffer str (i + 1)
  end.

(** Zero is written as one digit, any other number by [digit_loop]. *)
Definition fill_digits (digit next : Z -> Z) (num : Z) (buffer : list Z)
    : outcome (list Z * Z) :=
  if num =? 0
  then let+ buffer := wr buffer 0 chr_0 in Ok (buffer, 1)
  else digit_loop 65 digit next num buffer 0.

Definition dec_digit (num : Z) : Z := chr_0 + num mod 10.
Definition hex_digit (num : Z) : Z :=
  let digit := u8 (Z.land num 15) in
  if digit <? 10 then chr_0 + digit else chr_A + (digit - 10).
Definition bin_digit (num : Z) : Z := if Z.land num 1 =? 1 then 49 else 48.

(** The shared tail of three conversions: terminate, reverse, copy out. *)
Definition finish_digits (buffer : list Z) (index : Z) (str : list Z) : outcome (list Z) :=
  let+ buffer := wr buffer index 0 in
  let+ buffer := ku_reverse buffer index in
  copy_loop (Z.to_nat (index + 1)) buffer str 0.

Definition ku_uint64_to_binary_string (num : Z) (buf : list Z) : outcome (list Z) :=
  let+ (buffer, idx) := fill_digits bin_digit (fun n => Z.shiftr n 1) num (replicate 65 0) in
  finish_digits buffer idx buf.

Definition ku_uint16_to_string (num : Z) (str : list Z) : outcome (list Z) :=
  let+ (buffer, index) := fill_digits dec_digit (fun n => n / 10) num (replicate 6 0) in
  finish_digits buffer index str.

Definition ku_uint32_to_hex_string (num : Z) (str : list Z) : outcome (list Z) :=
  let+ (buffer, index) := fill_digits hex_digit (fun n => Z.shiftr n 4) num (replicate 9 0) in
  finish_digits buffer index str.

(** [while (index < 16) buffer[index++] = '0';] *)
Fixpoint pad_loop (fuel : nat) (buffer : list Z) (index : Z) : outcome (list Z * Z) :=
  match fuel with
  | O => Spin
  | S fuel' =>
      if index <? 16 then
        let+ buffer := wr buffer index chr_0 in
        pad_loop fuel' buffer (index + 1)
      else Ok (buffer, index)
  end.

Definition ku_uint64_to_hex_string (num : Z) (str : list Z) : outcome (list Z) :=
  let+ (buffer, index) := fill_digits hex_digit (fun n => Z.shiftr n 4) num (replicate 17 0) in
  let+ (buffer, index) := pad_loop 17 buffer index in
  let+ buffer := wr buffer index 0 in
  let+ buffer := ku_reverse buffer index in
  ku_memcpy str buffer 17.

(** [do { length++; num /= 10; } while (num > 0);] *)
Fixpoint num_length_loop (fuel : nat) (num length : Z) : outcome Z :=
  match fuel with
  | O => Spin
  | S fuel' =>
      let length := length + 1 in
      let num := num / 10 in
      if num >? 0 then num_length_loop fuel' num length else Ok length
  end.
Definition get_num_length (num : Z) : outcome Z := num_length_loop 65 num 0.

(** [do { str[index--] = '0' + (num % 10); num /= 10; } while (num > 0);] *)
Fixpoint dec_loop (fuel : nat) (num : Z) (str : list Z) (index : Z) : outcome (list Z) :=
  match fuel with
  | O => Spin
  | S fuel' =>
      let+ str := wr str index (dec_digit num) in
      let num := num / 10 in
      if num >? 0 then dec_loop fuel' num str (index - 1) else Ok str
  end.

Definition ku_uint64_to_string (num : Z) (str : list Z) : outcome (list Z) :=
  let+ length := get_num_length num in
  let+ str := wr str length 0 in
  dec_loop 65 num str (length - 1).

Definition ku_uint32_to_string (num : Z) (str : list Z) : outcome (list Z) :=
  let+ length := get_num_length num in
  let+ str := wr str length 0 in
  dec_loop 65 num str (length - 1).

Definition ku_uint8_to_str (num : Z) (buffer : list Z) : outcome (list Z) :=
  if num =? 0 then
    let+ buffer := wr buffer 0 chr_0 in
    wr buffer 1 0
  else
    let+ (buffer, i) := digit_loop 65 dec_digit (fun n => n / 10) num buffer 0 in
    let+ buffer := wr buffer i 0 in
    ku_reverse buffer i.

Fixpoint ku_strcpy (dest src : list Z) : outcome (list Z) :=
  match src with
  | [] => Fault
  | c :: src' =>
      match dest with
      | [] => Fault
      | _ :: dest' =>
          if c =? 0 then Ok (0 :: dest')
          else let+ rest := ku_strcpy dest' src' in Ok (c :: rest)
      end
  end.

Definition ku_char_to_str (character : Z) : list Z := [character; 0].

Example dec_12345 : ku_uint64_to_string 12345 (replicate 8 7) = Ok [49;50;51;52;53;0;7;7].
Proof. reflexivity. Qed.
Example hex_beef : ku_uint32_to_hex_string 48879 (replicate 6 7) = Ok [66;69;69;70;0;7].
Proof. reflexivity. Qed.
Example bin_5 : ku_uint64_to_binary_string 5 (replicate 5 7) = Ok [49;48;49;0;7].
Proof. reflexivity. Qed.

(** ** Reference definitions *)

(** The digits of [n] in base [b], least significant first; zero has one. *)
Fixpoint digits (fuel : nat) (b n : Z) : list Z :=
  match fuel with
  | O => []
  | S fuel' => n mod b :: if n / b >? 0 then digits fuel' b (n / b) else []
  end.

(** The number a sequence of digits denotes, most significant first. *)
Definition number_value (b : Z) (ds : list Z) : Z :=
  fold_left (fun acc d => acc * b + d) ds 0.

(** The characters of a number: decimal, hexadecimal and binary. *)
Definition dec_char (d : Z) : Z := chr_0 + d.
Definition hex_char (d : Z) : Z := if d <? 10 then chr_0 + d else chr_A + (d - 10).
Definition numeral (b : Z) (ch : Z -> Z) (n : Z) : list Z :=
  map ch (rev (digits 65 b n)).
Definition decimal : Z -> list Z := numeral 10 dec_char.

Definition dec_digit_of (c : Z) : Z := c - chr_0.
Definition hex_digit_of (c : Z) : Z := if c <? chr_A then c - chr_0 else c - chr_A + 10.

(** A C string with contents [s] at the start of an array. *)
Definition c_string (s array : list Z) : Prop :=
  Forall (fun c => c <> 0) s /\ exists rest, array = s ++ 0 :: rest.

(** ** Lemmas *)

Section Digits.
Context (b : Z) (Hb : 2 <= b).

Lemma digits_fuel f f' n :
  0 <= n < b ^ Z.of_nat f -> (0 < f)%nat -> (f <= f')%nat ->
  digits f b n = digits f' b n.
Proof using Hb.
  revert f' n. induction f as [|f IH]; intros f' n Hn Hf Hff'; [lia|].
  destruct f' as [|f']; [lia|]. simpl. f_equal.
  case_match eqn:E; [|done]. destruct f as [|f].
  - exfalso. assert (n / b = 0); [|lia]. apply Z.div_small. nia.
  - apply IH; [|lia..]. split; [apply Z.div_pos; lia|].
    apply Z.div_lt_upper_bound; [lia|].
    rewrite (Nat2Z.inj_succ (S f)), Z.pow_succ_r in Hn by lia. lia.
Qed.

Lemma digits_value f n :
  0 <= n < b ^ Z.of_nat f -> (0 < f)%nat ->
  number_value b (rev (digits f b n)) = n.
Proof using Hb.
  unfold number_value. rewrite <- fold_left_rev_right, rev_involutive.
  revert n. induction f as [|f IH]; intros n Hn Hf; [lia|]. simpl.
  pose proof (Z.div_mod n b ltac:(lia)). pose proof (Z.div_pos n b ltac:(lia) ltac:(lia)).
  case_match eqn:E; simpl; [|nia]. rewrite IH; [nia| |].
  - split; [done|]. apply Z.div_lt_upper_bound; [lia|].
    rewrite Nat2Z.inj_succ, Z.pow_succ_r in Hn by lia. lia.
  - destruct f; [|lia]. exfalso. assert (n / b = 0); [|lia]. apply Z.div_small. nia.
Qed.

Lemma digits_bound f n : 0 <= n -> Forall (fun d => 0 <= d < b) (digits f b n).
Proof using Hb.
  revert n. induction f as [|f IH]; intros n Hn; simpl; constructor.
  - apply Z.mod_pos_bound. lia.
  - case_match; [|constructor]. apply IH, Z.div_pos; lia.
Qed.

Lemma digits_length_pos f n : (0 < f)%nat -> 1 <= Zlen (digits f b n).
Proof using. destruct f; [lia|]. simpl. rewrite Zlen_cons. zlen. Qed.

(** No more digits than the power of the base needs. *)
Lemma digits_length f k n :
  0 <= n < b ^ Z.of_nat k -> (0 < k)%nat -> Zlen (digits f b n) <= Z.of_nat k.
Proof using Hb.
  revert k n. induction f as [|f IH]; intros k n Hn Hk; simpl; [zlen|].
  rewrite Zlen_cons. case_match eqn:E; [|zlen].
  destruct k as [|[|k]]; [lia| |].
  { exfalso. assert (n / b = 0); [|lia]. apply Z.div_small. nia. }
  enough (Zlen (digits f b (n / b)) <= Z.of_nat (S k)) by lia. apply IH; [|lia].
  split; [apply Z.div_pos; lia|]. apply Z.div_lt_upper_bound; [lia|].
  rewrite (Nat2Z.inj_succ (S k)), Z.pow_succ_r in Hn by lia. lia.
Qed.

(** The most significant digit of a positive number is not zero. *)
Lemma digits_last_pos f n d :
  0 < n < b ^ Z.of_nat f -> last (digits f b n) = Some d -> d <> 0.
Proof using Hb.
  revert n. induction f as [|f IH]; intros n Hn Hl; [lia|]. simpl in Hl.
  pose proof (Z.div_mod n b ltac:(lia)).
  case_match eqn:E.
  - assert (n / b < b ^ Z.of_nat f) as Hd.
    { apply Z.div_lt_upper_bound; [lia|].
      rewrite Nat2Z.inj_succ, Z.pow_succ_r in Hn by lia. lia. }
    destruct f as [|f]; [lia|]. rewrite last_cons in Hl.
    destruct (last (digits (S f) b (n / b))) eqn:El; [|by apply last_None in El].
    injection Hl as ->. apply (IH (n / b)); [lia|done].
  - injection Hl as <-. pose proof (Z.div_pos n b ltac:(lia) ltac:(lia)). nia.
Qed.
End Digits.

Lemma rev_cons {A} (x : A) l : rev (x :: l) = rev l ++ [x].
Proof. done. Qed.

(** The in-place reversal reverses the segment between the two indices. *)
Lemma reverse_loop_spec f pre l post s e :
  s = Zlen pre -> e = Zlen pre + Zlen l - 1 -> (length l < 2 * f)%nat ->
  reverse_loop f (pre ++ l ++ post) s e = Ok (pre ++ rev l ++ post).
Proof.
  revert pre l post s e. induction f as [|f IH]; intros pre l post s e -> -> Hf; [lia|].
  simpl. destruct (list_ends l) as [->|[[x ->]|[x [m [y ->]]]]].
  - case_match; [zlen|done].
  - case_match; [zlen|done].
  - replace (Zlen pre <? _) with true by zlen. simpl.
    rewrite (rd_mid pre _ x) by zlen. simpl.
    replace (pre ++ x :: (m ++ [y]) ++ post) with ((pre ++ x :: m) ++ y :: post)
      by (by rewrite <- !app_assoc).
    rewrite rd_mid by zlen. simpl.
    replace ((pre ++ x :: m) ++ y :: post) with (pre ++ x :: m ++ y :: post)
      by (by rewrite <- !app_assoc).
    rewrite wr_mid by zlen. simpl.
    replace (pre ++ y :: m ++ y :: post) with ((pre ++ y :: m) ++ y :: post)
      by (by rewrite <- !app_assoc).
    rewrite wr_mid by zlen. simpl.
    replace ((pre ++ y :: m) ++ x :: post) with ((pre ++ [y]) ++ m ++ x :: post)
      by (by rewrite <- !app_assoc).
    rewrite IH; [|zlen|zlen|].
    + f_equal. rewrite rev_app_distr. simpl. by rewrite <- !app_assoc.
    + rewrite length_cons, length_app in Hf. simpl in Hf. lia.
Qed.

Lemma ku_reverse_spec l post n :
  n = Zlen l -> ku_reverse (l ++ post) n = Ok (rev l ++ post).
Proof.
  intros ->. unfold ku_reverse.
  apply (reverse_loop_spec _ [] l post); [done|zlen|rewrite Zlen_to_nat; lia].
Qed.

Lemma digit_loop_S f digit next num buffer index :
  digit_loop (S f) digit next num buffer index =
    if num >? 0 then
      obind (wr buffer index (digit num))
        (fun buffer => digit_loop f digit next (next num) buffer (index + 1))
    else Ok (buffer, index).
Proof. done. Qed.

(** The digit loop appends the digits, if the array has room for them. *)
Lemma digit_loop_spec b ch digit next f num pre post index :
  2 <= b ->
  (forall n, 0 <= n -> digit n = ch (n mod b)) ->
  (forall n, 0 <= n -> next n = n / b) ->
  0 < num < b ^ Z.of_nat f -> index = Zlen pre ->
  digit_loop (S f) digit next num (pre ++ post) index =
    if Zlen (digits f b num) <=? Zlen post
    then Ok (pre ++ map ch (digits f b num) ++ drop (length (digits f b num)) post,
             Zlen pre + Zlen (digits f b num))
    else Fault.
Proof.
  intros Hb Hd Hn. revert num pre post index.
  induction f as [|f IH]; intros num pre post index Hnum ->; [lia|].
  rewrite digit_loop_S. cbn [digits].
  replace (num >? 0) with true by lia. rewrite Hn, Hd by lia.
  destruct post as [|y post].
  { rewrite app_nil_r, wr_end by lia. simpl. case_bool. }
  rewrite wr_mid by done. cbn [obind].
  replace (pre ++ ch (num mod b) :: post) with ((pre ++ [ch (num mod b)]) ++ post)
    by (by rewrite <- app_assoc).
  destruct (num / b >? 0) eqn:E.
  - rewrite IH; [|split; [lia|]|zlen].
    + rewrite !Zlen_cons, Zlen_app, Zlen_cons, Zlen_nil.
      case_bool. rewrite <- app_assoc. simpl. do 2 f_equal. lia.
    + apply Z.div_lt_upper_bound; [lia|].
      rewrite Nat2Z.inj_succ, Z.pow_succ_r in Hnum by lia. lia.
  - rewrite digit_loop_S, E, !Zlen_cons.
    replace (Zlen (@nil Z) + 1 <=? Zlen post + 1) with true by zlen.
    by rewrite <- app_assoc.
Qed.

Lemma copy_loop_spec src rest1 pre1 pre2 dst i :
  i = Zlen pre1 -> i = Zlen pre2 ->
  copy_loop (length src) (pre1 ++ src ++ rest1) (pre2 ++ dst) i =
    if Zlen src <=? Zlen dst
    then Ok (pre2 ++ src ++ drop (length src) dst) else Fault.
Proof.
  revert pre1 pre2 dst i. induction src as [|c src IH]; intros pre1 pre2 dst i H1 H2; simpl.
  - case_match; [done|zlen].
  - rewrite rd_mid by done. simpl. destruct dst as [|y dst].
    { rewrite app_nil_r, wr_end by lia. simpl. case_bool. }
    rewrite wr_mid by done. simpl.
    replace (pre1 ++ c :: src ++ rest1) with ((pre1 ++ [c]) ++ src ++ rest1)
      by (by rewrite <- app_assoc).
    replace (pre2 ++ c :: dst) with ((pre2 ++ [c]) ++ dst) by (by rewrite <- app_assoc).
    rewrite IH by zlen. rewrite !Zlen_cons.
    rewrite <- app_assoc. case_bool.
Qed.

(** The tail shared by the conversions copies the reversed digits out. *)
Lemma finish_digits_spec ds y post str :
  finish_digits (ds ++ y :: post) (Zlen ds) str =
    if Zlen ds <? Zlen str
    then Ok (rev ds ++ 0 :: drop (S (length ds)) str) else Fault.
Proof.
  unfold finish_digits. rewrite wr_mid by done. simpl.
  rewrite ku_reverse_spec by done. simpl.
  pose proof (copy_loop_spec (rev ds ++ [0]) post [] [] str 0 eq_refl eq_refl) as H.
  simpl in H. rewrite <- app_assoc in H. simpl in H.
  replace (Z.to_nat (Zlen ds + 1)) with (length (rev ds ++ [0]))
    by (rewrite length_app, length_rev; simpl; unfold Zlen; lia).
  rewrite H. autorewrite with zlen. rewrite length_app, length_rev. simpl.
  rewrite Nat.add_1_r, <- app_assoc. case_bool.
Qed.

Lemma num_length_loop_spec f num len :
  0 <= num < 10 ^ Z.of_nat f -> (0 < f)%nat ->
  num_length_loop f num len = Ok (len + Zlen (digits f 10 num)).
Proof.
  revert num len. induction f as [|f IH]; intros num len Hn Hf; [lia|]. simpl.
  rewrite Zlen_cons. destruct (num / 10 >? 0) eqn:E; [|f_equal; zlen].
  destruct f as [|f]; [exfalso; change (10 ^ Z.of_nat 1) with 10 in Hn; divlia|].
  rewrite IH; [f_equal; lia| |lia].
  rewrite (Nat2Z.inj_succ (S f)), Z.pow_succ_r in Hn by lia.
  split; [divlia|]. apply Z.div_lt_upper_bound; lia.
Qed.

(** Filling backwards from [index] writes the digits most significant first. *)
Lemma dec_loop_spec f num old rest index :
  0 <= num < 10 ^ Z.of_nat f -> (0 < f)%nat ->
  Zlen old = Zlen (digits f 10 num) -> index = Zlen old - 1 ->
  dec_loop f num (old ++ rest) index = Ok (map dec_char (rev (digits f 10 num)) ++ rest).
Proof.
  revert num old rest index.
  induction f as [|f IH]; intros num old rest index Hn Hf Hlen ->; [lia|]. simpl in *.
  destruct old as [|x old _] using rev_ind; [zlen|]. rewrite <- app_assoc. simpl.
  rewrite wr_mid by zlen. simpl. rewrite Zlen_app, !Zlen_cons, Zlen_nil in *.
  destruct (num / 10 >? 0) eqn:E.
  - destruct f as [|f]; [exfalso; change (10 ^ Z.of_nat 1) with 10 in Hn; divlia|].
    rewrite IH; [| |lia|zlen|zlen].
    + rewrite map_app. simpl. by rewrite <- app_assoc.
    + rewrite (Nat2Z.inj_succ (S f)), Z.pow_succ_r in Hn by lia.
      split; [divlia|]. apply Z.div_lt_upper_bound; lia.
  - destruct old; [done|zlen].
Qed.

Lemma digits_zero b : digits 65 b 0 = [0].
Proof. done. Qed.

Lemma digits_64 b n : 2 <= b -> is_u64 n -> digits 64 b n = digits 65 b n.
Proof.
  intros Hb Hn. apply digits_fuel; [lia| |lia|lia]. split; [apply Hn|].
  apply Z.lt_le_trans with (2 ^ 64); [apply Hn|]. apply Z.pow_le_mono_l. lia.
Qed.

Lemma u64_lt_pow b n : 2 <= b -> is_u64 n -> 0 <= n < b ^ Z.of_nat 65.
Proof.
  intros Hb [H0 H1]. split; [done|]. apply Z.lt_le_trans with (2 ^ Z.of_nat 65); [lia|].
  apply Z.pow_le_mono_l. lia.
Qed.

(** How many digits a number has: at most [k] exactly below [b^k]. *)
Lemma digits_length_iff b n k :
  2 <= b -> is_u64 n -> (0 < k)%nat ->
  Zlen (digits 65 b n) <= Z.of_nat k <-> n < b ^ Z.of_nat k.
Proof.
  intros Hb Hn Hk. split; intros H; [|apply digits_length; [lia| |lia]; split; [apply Hn|done]].
  rewrite <- (digits_value b Hb 65 n) by first [done | lia | by apply u64_lt_pow].
  apply Z.lt_le_trans with (b ^ Zlen (digits 65 b n)); [|apply Z.pow_le_mono_r; lia].
  assert (Forall (fun d => 0 <= d < b) (digits 65 b n)) as HF
    by (apply digits_bound; [lia|apply Hn]).
  unfold number_value. rewrite <- fold_left_rev_right, rev_involutive. clear H.
  revert HF. generalize (digits 65 b n). intros l. induction 1 as [|d l Hd _ IH]; simpl.
  - change (Zlen []) with 0. lia.
  - rewrite Zlen_cons, Z.pow_add_r, Z.pow_1_r by zlen. nia.
Qed.

Lemma fill_digits_spec b ch digit next num N :
  2 <= b -> ch 0 = chr_0 -> (0 < N)%nat ->
  (forall n, 0 <= n -> digit n = ch (n mod b)) ->
  (forall n, 0 <= n -> next n = n / b) -> is_u64 num ->
  Zlen (digits 65 b num) <= Z.of_nat N ->
  fill_digits digit next num (replicate N 0) =
    Ok (map ch (digits 65 b num) ++ replicate (N - length (digits 65 b num)) 0,
        Zlen (digits 65 b num)).
Proof.
  intros Hb Hch HN Hd Hn Hnum Hlen. unfold fill_digits. destruct (num =? 0) eqn:E.
  - apply Z.eqb_eq in E as ->. rewrite digits_zero. destruct N as [|N]; [lia|].
    simpl. by rewrite Nat.sub_0_r, Hch.
  - pose proof (digit_loop_spec b ch digit next 64 num [] (replicate N 0) 0) as H.
    cbn [app] in H.
    rewrite H; try done.
    + rewrite digits_64, drop_replicate by done. autorewrite with zlen. case_bool.
    + unfold is_u64 in Hnum. split; [lia|].
      apply Z.lt_le_trans with (2 ^ 64); [lia|]. apply Z.pow_le_mono_l. lia.
Qed.

Lemma dec_digit_char n : 0 <= n -> dec_digit n = dec_char (n mod 10).
Proof. done. Qed.
Lemma hex_digit_char n : 0 <= n -> hex_digit n = hex_char (n mod 16).
Proof.
  intros Hn. unfold hex_digit, hex_char. change 15 with (Z.ones 4).
  rewrite Z.land_ones by lia. change (2 ^ 4) with 16.
  by rewrite u8_small by (pose proof (Z.mod_pos_bound n 16); lia).
Qed.
Lemma bin_digit_char n : 0 <= n -> bin_digit n = dec_char (n mod 2).
Proof.
  intros Hn. unfold bin_digit, dec_char. change 1 with (Z.ones 1) at 1.
  rewrite Z.land_ones by lia. change (2 ^ 1) with 2.
  pose proof (Z.mod_pos_bound n 2). unfold chr_0. case_bool; lia.
Qed.
Lemma shiftr_1 n : 0 <= n -> Z.shiftr n 1 = n / 2.
Proof. intros. by rewrite Z.shiftr_div_pow2. Qed.
Lemma shiftr_4 n : 0 <= n -> Z.shiftr n 4 = n / 16.
Proof. intros. by rewrite Z.shiftr_div_pow2. Qed.

(** A conversion through a local buffer of [N] bytes large enough. *)
Lemma numeral_conversion b ch digit next num N str :
  2 <= b -> ch 0 = chr_0 ->
  (forall n, 0 <= n -> digit n = ch (n mod b)) ->
  (forall n, 0 <= n -> next n = n / b) -> is_u64 num ->
  Zlen (digits 65 b num) < Z.of_nat N ->
  (let+ (buffer, index) := fill_digits digit next num (replicate N 0) in
   finish_digits buffer index str) =
    if Zlen (numeral b ch num) <? Zlen str
    then Ok (numeral b ch num ++ 0 :: drop (S (length (numeral b ch num))) str)
    else Fault.
Proof.
  intros Hb Hch Hd Hn Hnum Hlen.
  rewrite (fill_digits_spec b ch) by (done || zlen). cbn [obind].
  destruct (N - length (digits 65 b num))%nat as [|k] eqn:Ek; [unfold Zlen in *; lia|].
  simpl replicate. rewrite <- (Zlen_map ch (digits 65 b num)), finish_digits_spec.
  unfold numeral. rewrite !Zlen_map, Zlen_rev, !length_map, length_rev.
  by rewrite map_rev.
Qed.

Lemma ku_uint64_to_string_spec num str :
  is_u64 num ->
  ku_uint64_to_string num str =
    if Zlen (decimal num) <? Zlen str
    then Ok (decimal num ++ 0 :: drop (S (length (decimal num))) str) else Fault.
Proof.
  intros Hn. unfold ku_uint64_to_string, get_num_length, decimal, numeral.
  autorewrite with zlen.
  rewrite num_length_loop_spec by first [done | lia | by apply u64_lt_pow]. cbn [obind].
  rewrite Z.add_0_l, length_map, length_rev. set (ds := digits 65 10 num).
  destruct (Zlen ds <? Zlen str) eqn:E; [|rewrite wr_end by lia; done].
  destruct (list_split_at str (Zlen ds)) as (old & rest & -> & Hold); [zlen|].
  destruct rest as [|y rest]; [zlen|]. rewrite wr_mid by done. cbn [obind].
  subst ds. rewrite dec_loop_spec by first [done | lia | by apply u64_lt_pow].
  replace (S (length (digits 65 10 num))) with (length old + 1)%nat by (unfold Zlen in Hold; lia).
  by rewrite drop_app_add.
Qed.

Lemma decimal_value num : is_u64 num -> number_value 10 (map dec_digit_of (decimal num)) = num.
Proof.
  intros Hn. unfold decimal, numeral. rewrite map_map.
  rewrite (map_ext _ id) by (intros; unfold dec_digit_of, dec_char, id; lia).
  rewrite map_id. apply digits_value; [lia|by apply u64_lt_pow|lia].
Qed.

Lemma digits_char b ch n :
  2 <= b -> is_u64 n -> Forall (fun c => exists d, 0 <= d < b /\ c = ch d) (numeral b ch n).
Proof.
  intros Hb Hn. unfold numeral. apply Forall_map.
  assert (Forall (fun d => 0 <= d < b) (rev (digits 65 b n))) as H.
  { apply Forall_rev, digits_bound; [done|apply Hn]. }
  eapply Forall_impl; [exact H|]. simpl. eauto.
Qed.

Lemma hex_char_inv d : 0 <= d < 16 -> hex_digit_of (hex_char d) = d.
Proof. intros H. unfold hex_digit_of, hex_char, chr_0, chr_A. case_bool. Qed.

Lemma number_value_app b l k :
  number_value b (l ++ k) = fold_left (fun acc d => acc * b + d) k (number_value b l).
Proof. unfold number_value. apply fold_left_app. Qed.

Lemma number_value_zeros b n k : number_value b (replicate n 0 ++ k) = number_value b k.
Proof.
  unfold number_value. rewrite fold_left_app. f_equal.
  induction n as [|n IH]; [done|]. simpl. exact IH.
Qed.

Lemma map_hex_inv l :
  Forall (fun d => 0 <= d < 16) l -> map hex_digit_of (map hex_char l) = l.
Proof. induction 1 as [|d l Hd _ IH]; [done|]. simpl. by rewrite hex_char_inv, IH. Qed.

Lemma pad_loop_spec f pre post index :
  index = Zlen pre -> (length pre <= 16)%nat -> Zlen pre + Zlen post = 17 ->
  (16 - length pre < f)%nat ->
  exists y rest, pad_loop f (pre ++ post) index =
    Ok ((pre ++ replicate (16 - length pre) chr_0) ++ y :: rest, 16).
Proof.
  revert pre post index. induction f as [|f IH]; intros pre post index -> Hp Hl Hf; [lia|].
  simpl. destruct (Zlen pre <? 16) eqn:E.
  - destruct post as [|y post]; [unfold Zlen in *; simpl in *; lia|].
    rewrite wr_mid by done. cbn [obind].
    destruct (IH (pre ++ [chr_0]) post (Zlen pre + 1)) as (y' & rest & H);
      [zlen|rewrite length_app; unfold Zlen in *; simpl; lia|zlen
      |rewrite length_app; simpl; unfold Zlen in *; lia|].
    rewrite <- app_assoc in H. simpl in H. rewrite H. exists y', rest.
    do 2 f_equal. f_equal. rewrite <- app_assoc. f_equal. rewrite length_app. simpl.
    replace (16 - length pre)%nat with (S (16 - (length pre + 1))) by (unfold Zlen in *; lia).
    done.
  - destruct post as [|y post]; [unfold Zlen in *; simpl in *; lia|].
    exists y, post. assert (length pre = 16%nat) as Hpre by (unfold Zlen in *; lia).
    rewrite Hpre. simpl. rewrite app_nil_r. do 2 f_equal. unfold Zlen in *. lia.
Qed.

Lemma rev_replicate {A} n (x : A) : rev (replicate n x) = replicate n x.
Proof. induction n as [|n IH]; [done|].
  simpl. by rewrite IH, <- replicate_cons_app.
Qed.

Lemma take_app_eq {A} (l k : list A) n : n = length l -> take n (l ++ k) = l.
Proof. intros ->. by rewrite take_app_length. Qed.

Definition hex16 (num : Z) : list Z :=
  replicate (16 - length (digits 65 16 num)) chr_0 ++ numeral 16 hex_char num.

Lemma ku_uint64_to_hex_string_spec num str :
  is_u64 num -> 17 <= Zlen str ->
  ku_uint64_to_hex_string num str = Ok (hex16 num ++ 0 :: drop 17 str).
Proof.
  intros Hn Hstr. unfold ku_uint64_to_hex_string, hex16, numeral.
  assert (Zlen (digits 65 16 num) <= Z.of_nat 16) as Hl
    by (apply digits_length; [lia|apply Hn|lia]).
  rewrite (fill_digits_spec 16 hex_char) by
    first [done | lia | apply hex_digit_char | apply shiftr_4]. cbn [obind].
  set (ds := digits 65 16 num) in *.
  edestruct (pad_loop_spec 17 (map hex_char ds) (replicate (17 - length ds) 0) (Zlen ds))
    as (y & rest & ->); [zlen|rewrite length_map; unfold Zlen in *; lia| |lia|].
  { autorewrite with zlen. unfold Zlen in *. lia. }
  cbn [obind]. rewrite length_map. set (text := map hex_char ds ++ _).
  assert (Zlen text = 16) as Ht
    by (unfold text; autorewrite with zlen; unfold Zlen in *; lia).
  rewrite wr_mid by done. cbn [obind]. rewrite ku_reverse_spec by done. cbn [obind].
  unfold ku_memcpy. case_if; [|zlen].
  change (0 :: rest) with ([0] ++ rest). rewrite app_assoc, take_app_eq.
  - change (Z.to_nat 17) with 17%nat. unfold text. f_equal.
    by rewrite rev_app_distr, map_rev, rev_replicate, <- !app_assoc.
  - rewrite length_app, length_rev. unfold Zlen in Ht. cbn [length]. lia.
Qed.

Lemma c_string_strlen s a : c_string s a -> ku_strlen a = Ok (Zlen s).
Proof.
  intros [Hs [rest ->]]. induction Hs as [|c s Hc _ IH]; simpl; [done|].
  destruct (c =? 0) eqn:E; [lia|]. rewrite IH. simpl. f_equal. zlen.
Qed.

Lemma memcmp_loop_app n s1 s2 pre1 pre2 c :
  c = Zlen pre1 -> c = Zlen pre2 -> (n <= length s1)%nat -> (n <= length s2)%nat ->
  memcmp_loop n (pre1 ++ s1) (pre2 ++ s2) c = Ok (bool_decide (take n s1 = take n s2)).
Proof.
  revert s1 s2 pre1 pre2 c.
  induction n as [|n IH]; intros s1 s2 pre1 pre2 c Hc1 Hc2 H1 H2; [done|].
  destruct s1 as [|x s1], s2 as [|y s2]; simpl in *; try lia.
  rewrite !rd_mid by done. simpl. destruct (Z.eqb_spec x y) as [->|Hne]; simpl.
  - replace (pre1 ++ y :: s1) with ((pre1 ++ [y]) ++ s1) by (by rewrite <- app_assoc).
    replace (pre2 ++ y :: s2) with ((pre2 ++ [y]) ++ s2) by (by rewrite <- app_assoc).
    rewrite IH by (lia || zlen). f_equal. apply bool_decide_ext. split; congruence.
  - f_equal. symmetry. apply bool_decide_eq_false. congruence.
Qed.

Lemma memcmp_loop_spec n s1 s2 :
  (n <= length s1)%nat -> (n <= length s2)%nat ->
  memcmp_loop n s1 s2 0 = Ok (bool_decide (take n s1 = take n s2)).
Proof. by apply (memcmp_loop_app n s1 s2 [] [] 0). Qed.

Lemma ku_memcmp_spec s1 s2 size :
  size <= Zlen s1 -> size <= Zlen s2 ->
  ku_memcmp s1 s2 size =
    Ok (bool_decide (take (Z.to_nat size) s1 = take (Z.to_nat size) s2)).
Proof.
  intros H1 H2. unfold ku_memcmp. apply memcmp_loop_spec; unfold Zlen in *; lia.
Qed.

Lemma decimal_no_leading_zero num :
  0 < num -> is_u64 num -> head (decimal num) <> Some chr_0.
Proof.
  intros Hpos Hn. unfold decimal, numeral. rewrite map_rev.
  intros Hh. assert (last (map dec_char (digits 65 10 num)) = Some chr_0) as Hl.
  { destruct (map dec_char (digits 65 10 num)) as [|c l _] using rev_ind; [done|].
    rewrite rev_app_distr in Hh. rewrite last_snoc. exact Hh. }
  change (map dec_char) with (fmap (M := list) dec_char) in Hl.
  rewrite fmap_last in Hl.
  destruct (last (digits 65 10 num)) as [d|] eqn:Ed; [|done].
  apply digits_last_pos in Ed; [|lia|].
  - injection Hl as Hl. unfold dec_char in Hl. lia.
  - split; [done|]. apply u64_lt_pow; [lia|done].
Qed.

Lemma narrow_numeral_length w k num :
  0 <= num < w -> w <= 10 ^ Z.of_nat k -> (0 < k)%nat ->
  Zlen (digits 65 10 num) <= Z.of_nat k.
Proof. intros Hn Hw Hk. apply digits_length; lia. Qed.

Lemma ku_uint16_to_string_spec num str :
  0 <= num < 2 ^ 16 -> ku_uint16_to_string num str = ku_uint64_to_string num str.
Proof.
  intros Hn. unfold ku_uint16_to_string.
  assert (is_u64 num) as H64 by (unfold is_u64; lia).
  rewrite (numeral_conversion 10 dec_char), ku_uint64_to_string_spec; try done.
  pose proof (narrow_numeral_length _ 5 num Hn). lia.
Qed.

Lemma ku_uint8_to_str_spec num str :
  0 <= num < 2 ^ 8 -> ku_uint8_to_str num str = ku_uint64_to_string num str.
Proof.
  intros Hn. assert (is_u64 num) as H64 by (unfold is_u64; lia).
  rewrite ku_uint64_to_string_spec by done. unfold ku_uint8_to_str.
  destruct (num =? 0) eqn:E.
  - apply Z.eqb_eq in E as ->. change (decimal 0) with [48].
    destruct str as [|x [|y str]]; [done|done|].
    replace (Zlen [48] <? _) with true by zlen.
    rewrite wr_hd. cbn [obind]. by rewrite wr_snd.
  - pose proof (digit_loop_spec 10 dec_char dec_digit (fun n => n / 10) 64 num [] str 0) as H.
    cbn [app] in H. rewrite H; try done; [|lia].
    rewrite digits_64 by (done || lia). unfold decimal, numeral.
    rewrite !Zlen_map, Zlen_rev, length_map, length_rev, map_rev.
    set (ds := digits 65 10 num). clearbody ds.
    destruct (Zlen ds <=? Zlen str) eqn:E1; cbn [obind]; [|by case_bool].
    change (Zlen [] + Zlen ds) with (Zlen ds).
    destruct (drop (length ds) str) as [|y rest] eqn:Ed.
    + rewrite app_nil_r, wr_end by zlen. case_bool.
      apply (f_equal length) in Ed. rewrite length_drop in Ed. unfold Zlen in *.
      simpl in Ed. lia.
    + rewrite <- (Zlen_map dec_char ds), wr_mid by done. cbn [obind].
      rewrite ku_reverse_spec by done.
      replace (drop (S (length ds)) str) with rest.
      * case_bool. apply (f_equal length) in Ed. rewrite length_drop in Ed.
        autorewrite with zlen in *. unfold Zlen in *. simpl in Ed. lia.
      * rewrite <- Nat.add_1_r, <- drop_drop, Ed. done.
Qed.

(** Printing a 64-bit number and reading the digits back gives the number:
    [ku_uint64_to_string] writes decimal digits only, without a leading zero,
    terminated, and leaves the rest of a 21-byte (or longer) buffer alone. *)
Theorem uint64_to_string_roundtrip num str :
  is_u64 num -> 21 <= Zlen str ->
  exists text,
    ku_uint64_to_string num str = Ok (text ++ 0 :: drop (S (length text)) str) /\
    number_value 10 (map dec_digit_of text) = num /\
    Forall (fun c => 48 <= c <= 57) text /\
    (0 < num -> head text <> Some 48).
Proof.
  intros Hn Hstr. exists (decimal num). rewrite ku_uint64_to_string_spec by done.
  split_and!.
  - replace (_ <? _) with true; [done|]. symmetry. apply Z.ltb_lt.
    assert (Zlen (decimal num) <= Z.of_nat 20); [|lia].
    unfold decimal, numeral. rewrite Zlen_map, Zlen_rev.
    apply digits_length; [lia|unfold is_u64 in Hn; lia|lia].
  - by apply decimal_value.
  - eapply Forall_impl; [apply (digits_char 10 dec_char); [lia|done]|].
    intros c (d & Hd & ->). unfold dec_char, chr_0. lia.
  - intros Hpos. by apply decimal_no_leading_zero.
Qed.

Lemma uint64_to_string_roundtrip_witness :
  exists text,
    ku_uint64_to_string 18446744073709551615 (replicate 21 0) =
      Ok (text ++ 0 :: drop (S (length text)) (replicate 21 0)) /\
    number_value 10 (map dec_digit_of text) = 18446744073709551615 /\
    Forall (fun c => 48 <= c <= 57) text /\
    (0 < 18446744073709551615 -> head text <> Some 48).
Proof. apply uint64_to_string_roundtrip; [split; lia|reflexivity]. Defined.

(** [ku_uint64_to_string] runs outside its buffer of [n] bytes exactly when
    the number has [n] digits or more; [printf] (utils/printf.c) passes a
    buffer of 10 bytes, which any number from 10^9 on overruns. *)
Theorem uint64_to_string_overrun num str :
  is_u64 num -> 2 <= Zlen str ->
  ku_uint64_to_string num str = Fault <-> 10 ^ (Zlen str - 1) <= num.
Proof.
  intros Hn Hstr. rewrite ku_uint64_to_string_spec by done.
  pose proof (digits_length_iff 10 num (Z.to_nat (Zlen str - 1))) as H.
  rewrite Z2Nat.id in H by lia. specialize (H ltac:(lia) Hn ltac:(lia)).
  unfold decimal, numeral. rewrite Zlen_map, Zlen_rev.
  case_if; split; intros; try done; lia.
Qed.

Lemma uint64_to_string_overrun_witness :
  ku_uint64_to_string 1000000000 (replicate 10 0) = Fault.
Proof.
  apply (uint64_to_string_overrun 1000000000 (replicate 10 0)); [split; lia|done|done].
Defined.

(** [ku_uint64_to_hex_string] always writes sixteen upper-case hexadecimal
    digits and a terminator (17 bytes), and the digits denote the number. *)
Theorem uint64_to_hex_roundtrip num str :
  is_u64 num -> 17 <= Zlen str ->
  exists text,
    ku_uint64_to_hex_string num str = Ok (text ++ 0 :: drop 17 str) /\
    Zlen text = 16 /\
    Forall (fun c => 48 <= c <= 57 \/ 65 <= c <= 70) text /\
    number_value 16 (map hex_digit_of text) = num.
Proof.
  intros Hn Hstr. exists (hex16 num). rewrite ku_uint64_to_hex_string_spec by done.
  assert (Zlen (digits 65 16 num) <= Z.of_nat 16) as Hl
    by (apply digits_length; [lia|apply Hn|lia]).
  pose proof (digits_bound 16 ltac:(lia) 65 num ltac:(apply Hn)) as HF.
  unfold hex16, numeral. split_and!; [done| | |].
  - autorewrite with zlen. unfold Zlen in *. lia.
  - apply Forall_app. split; [apply Forall_replicate; unfold chr_0; lia|].
    apply Forall_map, Forall_rev. eapply Forall_impl; [exact HF|]. simpl.
    intros d Hd. unfold hex_char, chr_0, chr_A. case_bool; lia.
  - rewrite map_app. replace (map hex_digit_of (replicate _ chr_0)) with
      (replicate (16 - length (digits 65 16 num)) 0) by (symmetry; apply fmap_replicate).
    rewrite number_value_zeros, map_hex_inv by (by apply Forall_rev).
    apply digits_value; [lia|by apply u64_lt_pow|lia].
Qed.

Lemma uint64_to_hex_roundtrip_witness :
  exists text,
    ku_uint64_to_hex_string 3735928559 (replicate 17 0) =
      Ok (text ++ 0 :: drop 17 (replicate 17 0)) /\
    Zlen text = 16 /\
    Forall (fun c => 48 <= c <= 57 \/ 65 <= c <= 70) text /\
    number_value 16 (map hex_digit_of text) = 3735928559.
Proof. apply uint64_to_hex_roundtrip; [split; lia|reflexivity]. Defined.

(** The 8-, 16- and 32-bit decimal conversions, which build the digits in
    reverse and turn them round (8 and 16 bits) or fill them backwards (32
    bits), produce exactly what [ku_uint64_to_string] produces on the same
    number and buffer, overruns included. *)
Theorem narrow_conversions_agree num str :
  0 <= num ->
  (num < 2 ^ 8 -> ku_uint8_to_str num str = ku_uint64_to_string num str) /\
  (num < 2 ^ 16 -> ku_uint16_to_string num str = ku_uint64_to_string num str) /\
  (num < 2 ^ 32 -> ku_uint32_to_string num str = ku_uint64_to_string num str).
Proof.
  intros Hn. split_and!; intros Hw;
    [by apply ku_uint8_to_str_spec|by apply ku_uint16_to_string_spec|done].
Qed.

Lemma narrow_conversions_agree_witness :
  (200 < 2 ^ 8 -> ku_uint8_to_str 200 [1; 2; 3; 4] = ku_uint64_to_string 200 [1; 2; 3; 4]) /\
  (200 < 2 ^ 16 -> ku_uint16_to_string 200 [1; 2; 3; 4] = ku_uint64_to_string 200 [1; 2; 3; 4]) /\
  (200 < 2 ^ 32 -> ku_uint32_to_string 200 [1; 2; 3; 4] = ku_uint64_to_string 200 [1; 2; 3; 4]).
Proof. apply narrow_conversions_agree. lia. Defined.

(** [ku_uint64_to_binary_string] and [ku_uint32_to_hex_string] write a
    terminated numeral that denotes the number in base 2 and 16; their local
    buffers of 65 and 9 bytes are large enough for every number. *)
Theorem binary_and_hex32_roundtrip num str :
  is_u64 num -> 65 <= Zlen str ->
  (exists text,
    ku_uint64_to_binary_string num str = Ok (text ++ 0 :: drop (S (length text)) str) /\
    number_value 2 (map dec_digit_of text) = num) /\
  (num < 2 ^ 32 -> exists text,
    ku_uint32_to_hex_string num str = Ok (text ++ 0 :: drop (S (length text)) str) /\
    number_value 16 (map hex_digit_of text) = num).
Proof.
  intros Hn Hstr. split.
  - exists (numeral 2 dec_char num). unfold ku_uint64_to_binary_string.
    assert (Zlen (digits 65 2 num) <= Z.of_nat 64) as Hl
      by (apply digits_length; [lia|exact Hn|lia]).
    rewrite (numeral_conversion 2 dec_char) by
      first [done | lia | apply bin_digit_char | apply shiftr_1].
    split; [unfold numeral; rewrite Zlen_map, Zlen_rev; case_bool|].
    unfold numeral. rewrite map_map.
    rewrite (map_ext _ id) by (intros; unfold dec_digit_of, dec_char, id; lia).
    rewrite map_id. apply digits_value; [lia|by apply u64_lt_pow|lia].
  - intros H32. exists (numeral 16 hex_char num). unfold ku_uint32_to_hex_string.
    assert (Zlen (digits 65 16 num) <= Z.of_nat 8) as Hl
      by (apply digits_length; [lia|split; [apply Hn|exact H32]|lia]).
    rewrite (numeral_conversion 16 hex_char) by
      first [done | lia | apply hex_digit_char | apply shiftr_4].
    split; [unfold numeral; rewrite Zlen_map, Zlen_rev; case_bool|].
    unfold numeral. rewrite map_hex_inv by (apply Forall_rev, digits_bound; [lia|apply Hn]).
    apply digits_value; [lia|by apply u64_lt_pow|lia].
Qed.

Lemma binary_and_hex32_roundtrip_witness :
  (exists text,
    ku_uint64_to_binary_string 45 (replicate 65 0) =
      Ok (text ++ 0 :: drop (S (length text)) (replicate 65 0)) /\
    number_value 2 (map dec_digit_of text) = 45) /\
  (45 < 2 ^ 32 -> exists text,
    ku_uint32_to_hex_string 45 (replicate 65 0) =
      Ok (text ++ 0 :: drop (S (length text)) (replicate 65 0)) /\
    number_value 16 (map hex_digit_of text) = 45).
Proof. apply binary_and_hex32_roundtrip; [split; lia|reflexivity]. Defined.

Lemma ku_strcmp_spec s1 s2 a1 a2 :
  c_string s1 a1 -> c_string s2 a2 -> Zlen s1 < 2 ^ 31 -> Zlen s2 < 2 ^ 31 ->
  ku_strcmp a1 a2 = Ok (bool_decide (s1 = s2)).
Proof.
  intros Hc1 Hc2 H1 H2. unfold ku_strcmp.
  rewrite (c_string_strlen _ _ Hc1), (c_string_strlen _ _ Hc2). cbn [obind].
  rewrite !s32_small by zlen. destruct Hc1 as [_ [r1 ->]], Hc2 as [_ [r2 ->]].
  destruct (Z.eqb_spec (Zlen s1) (Zlen s2)) as [E|E]; cbn [negb].
  - rewrite memcmp_loop_spec by
      (rewrite E, Z.min_id, Zlen_to_nat, length_app; unfold Zlen in *; lia).
    f_equal. apply bool_decide_ext. rewrite E, Z.min_id, Zlen_to_nat.
    rewrite take_app_length. rewrite take_app_eq by (unfold Zlen in E; lia). done.
  - f_equal. symmetry. apply bool_decide_eq_false. congruence.
Qed.

(** [ku_strcmp] decides equality of two C strings (shorter than 2^31). *)
Theorem strcmp_decides_equality s1 s2 a1 a2 :
  c_string s1 a1 -> c_string s2 a2 -> Zlen s1 < 2 ^ 31 -> Zlen s2 < 2 ^ 31 ->
  ku_strcmp a1 a2 = Ok (bool_decide (s1 = s2)).
Proof. exact (ku_strcmp_spec s1 s2 a1 a2). Qed.

Lemma strcmp_decides_equality_witness :
  ku_strcmp [115; 116; 100; 0; 9] [115; 116; 100; 0] = Ok (bool_decide ([115; 116; 100] = [115; 116; 100])).
Proof.
  apply strcmp_decides_equality; try reflexivity;
    (split; [repeat constructor; lia|eexists; reflexivity]).
Defined.

Lemma oct2bin_loop_spec ds rest n :
  Forall (fun d => 0 <= d < 8) ds -> 0 <= n < 2 ^ 31 ->
  oct2bin_loop (length ds) (map dec_char ds ++ rest) n =
    let v := fold_left (fun acc d => acc * 8 + d) ds n in
    if v <? 2 ^ 31 then Ok v else Fault.
Proof.
  intros Hds. revert n. induction Hds as [|d ds Hd Hds IH]; intros n Hn; simpl.
  - case_bool; lia.
  - unfold rd. simpl. assert (schar (dec_char d) - chr_0 = d) as ->.
    { unfold schar, dec_char, chr_0. case_bool. }
    assert (n * 8 + d <= fold_left (fun acc d => acc * 8 + d) ds (n * 8 + d)) as Hmono.
    { clear -Hds Hn Hd. assert (0 <= n * 8 + d) as H by lia. revert H.
      generalize (n * 8 + d). clear -Hds.
      induction Hds as [|e ds He _ IH]; intros m Hm; simpl; [lia|].
      specialize (IH (m * 8 + e)). lia. }
    unfold int_ok. destruct (n * 8 + d <? 2 ^ 31) eqn:E.
    + replace (_ && _) with true by lia. rewrite IH by lia. done.
    + replace (_ && _) with false by lia. case_bool; lia.
Qed.

(** [oct2bin] reads an octal field of a USTAR header: on octal digits it
    returns the number they denote when that fits an [int], and overflows
    [int] (undefined behaviour) when it does not; eleven digits, as
    [unpack_ustar] passes, do not always fit. *)
Theorem oct2bin_reads_octal ds rest :
  Forall (fun d => 0 <= d < 8) ds ->
  oct2bin (map dec_char ds ++ rest) (Zlen ds) =
    if number_value 8 ds <? 2 ^ 31 then Ok (number_value 8 ds) else Fault.
Proof.
  intros Hds. unfold oct2bin. rewrite Zlen_to_nat.
  rewrite oct2bin_loop_spec by (done || lia). done.
Qed.

Lemma oct2bin_reads_octal_witness :
  oct2bin (map dec_char [0; 0; 0; 0; 0; 0; 0; 1; 7; 5; 0] ++ [0]) 11 = Ok 1000.
Proof.
  refine (oct2bin_reads_octal [0; 0; 0; 0; 0; 0; 0; 1; 7; 5; 0] [0] _).
  repeat constructor; lia.
Defined.
