(* ===== verification/Allocator.v ===== *)
(** * The interface of the heap, and the objects its clients keep in it

    [Allocator] is what [malloc] and [free] promise; KHeap.v discharges it for
    mem/kheap.c.  The pointer structures of the kernel (vectors, events, tasks,
    files) are modelled over any allocator, as typed objects at addresses: an
    access through a pointer with no object of the right type behind it is a
    [Fault], [free] removes the object. *)
From S2P Require Import Prelude.

(** ** The allocator *)
Class Allocator := {
  heap : Type;
  alloc : Z -> M heap Z;
  dealloc : Z -> M heap unit;
  (** The heap is well formed and every address of [A] is allocated. *)
  allocated : heap -> gset Z -> Prop;
  alloc_spec h A n : allocated h A -> 0 <= n < 2 ^ 63 ->
    (exists p h', alloc n h = Ok (p, h') /\ (p ∉ A) /\ 0 < p /\ allocated h' ({[p]} ∪ A)) \/
    alloc n h = Halted;
  dealloc_spec h A p : allocated h A -> p ∈ A ->
    exists h', dealloc p h = Ok (tt, h') /\ allocated h' (A ∖ {[p]})
}.

(** ** Typed objects

    [O] is the sum of the object types a program uses, [Object A O] one of its
    summands. *)
Class Object (A O : Type) := {
  to_obj : A -> O;
  of_obj : O -> option A;
  of_to_obj x : of_obj (to_obj x) = Some x;
  to_of_obj o x : of_obj o = Some x -> o = to_obj x
}.

#[export] Program Instance object_self A : Object A A := {
  to_obj x := x; of_obj x := Some x }.
Next Obligation. done. Qed.
Next Obligation. intros A o x Hx. by injection Hx. Qed.
#[export] Program Instance object_inl A O P `{!Object A O} : Object A (O + P) := {
  to_obj x := inl (to_obj x);
  of_obj o := match o with inl o => of_obj o | inr _ => None end }.
Next Obligation. intros. simpl. apply of_to_obj. Qed.
Next Obligation. intros A O P H [o|o] x Hx; [|done]. f_equal. by apply to_of_obj. Qed.
#[export] Program Instance object_inr A O P `{!Object A P} : Object A (O + P) := {
  to_obj x := inr (to_obj x);
  of_obj o := match o with inr o => of_obj o | inl _ => None end }.
Next Obligation. intros. simpl. apply of_to_obj. Qed.
Next Obligation. intros A O P H [o|o] x Hx; [done|]. f_equal. by apply to_of_obj. Qed.

Section Store.
Context `{!Allocator} {O : Type}.

Record Store := MkStore { store_heap : heap; objs : gmap Z O }.

Definition typed_at {A} `{!Object A O} (s : Store) (p : Z) (x : A) : Prop :=
  objs s !! p = Some (to_obj x).

(** [malloc(size)] followed by the assignment of the whole object. *)
Definition new_obj {A} `{!Object A O} (size : Z) (x : A) : M Store Z :=
  fun s => let+ (p, h) := alloc size (store_heap s) in
    Ok (p, MkStore h (<[p := to_obj x]> (objs s))).

(** [malloc(size)] alone: the object is what the block happens to hold. *)
Definition raw_obj {A} `{!Object A O} (size : Z) (junk : Z -> A) : M Store Z :=
  fun s => let+ (p, h) := alloc size (store_heap s) in
    Ok (p, MkStore h (<[p := to_obj (junk p)]> (objs s))).

(** [*p], and [*p = x] on an existing object of that type. *)
Definition get_obj A `{!Object A O} (p : Z) : M Store A :=
  fun s => match objs s !! p ≫= of_obj with Some x => Ok (x, s) | None => Fault end.
Definition put_obj {A} `{!Object A O} (p : Z) (x : A) : M Store unit :=
  fun s => match objs s !! p ≫= of_obj (A := A) with
    | Some _ => Ok (tt, MkStore (store_heap s) (<[p := to_obj x]> (objs s)))
    | None => Fault
    end.
(** [p->field = v]. *)
Definition set_field {A} `{!Object A O} (p : Z) (f : A -> A) : M Store unit :=
  let* x := get_obj A p in put_obj p (f x).
Definition free_obj (p : Z) : M Store unit :=
  fun s => let+ (_, h) := dealloc p (store_heap s) in
    Ok (tt, MkStore h (delete p (objs s))).

(** Every object is in an allocated block. *)
Definition store_ok (s : Store) : Prop :=
  exists A, allocated (store_heap s) A /\ dom (objs s) ⊆ A /\ (0 ∉ dom (objs s)).

Lemma get_obj_run {A} `{!Object A O} s p (x : A) :
  typed_at s p x -> get_obj A p s = Ok (x, s).
Proof using. intros Hx. unfold get_obj. rewrite Hx. simpl. by rewrite of_to_obj. Qed.

Lemma get_obj_none {A} `{!Object A O} s p : objs s !! p = None -> get_obj A p s = Fault.
Proof using. intros Hx. unfold get_obj. by rewrite Hx. Qed.

Lemma get_obj_null {A} `{!Object A O} s : store_ok s -> get_obj A 0 s = Fault.
Proof using.
  intros (A0 & _ & _ & H0). by apply get_obj_none, not_elem_of_dom.
Qed.

Lemma put_obj_run {A} `{!Object A O} s p (x y : A) :
  typed_at s p x -> put_obj p y s = Ok (tt, MkStore (store_heap s) (<[p := to_obj y]> (objs s))).
Proof using. intros Hx. unfold put_obj. rewrite Hx. simpl. by rewrite of_to_obj. Qed.

Lemma typed_at_unique {A} `{!Object A O} s p (x y : A) :
  typed_at s p x -> typed_at s p y -> x = y.
Proof using.
  unfold typed_at. intros -> Hxy. injection Hxy as Hxy.
  apply (f_equal of_obj) in Hxy. rewrite !of_to_obj in Hxy. congruence.
Qed.

(** The state [s'] differs from [s] only at the addresses of [D]. *)
Definition same_except (D : gset Z) (s s' : Store) : Prop :=
  forall p, p ∉ D -> p ∈ dom (objs s) -> objs s' !! p = objs s !! p.

Lemma same_except_typed {A} `{!Object A O} D s s' p (x : A) :
  same_except D s s' -> p ∉ D -> typed_at s p x -> typed_at s' p x.
Proof using.
  intros Hs Hp Hx. unfold typed_at in *. rewrite Hs; [done|done|]. by apply elem_of_dom_2 in Hx.
Qed.

(** Objects at a list of addresses, outside what changes. *)
Lemma typed_list_frame {A} `{!Object A O} D s s' ps (xs : list A) :
  same_except D s s' -> D ## list_to_set ps -> Forall2 (typed_at s) ps xs -> Forall2 (typed_at s') ps xs.
Proof using.
  intros Hs Hd Hx. induction Hx as [|p x ps xs Hp _ IH]; constructor.
  - eapply same_except_typed; [exact Hs| |done]. set_solver.
  - apply IH. set_solver.
Qed.

Lemma raw_obj_spec {A} `{!Object A O} s size (junk : Z -> A) :
  store_ok s -> 0 <= size < 2 ^ 63 ->
  (exists p s', raw_obj size junk s = Ok (p, s') /\ (p ∉ dom (objs s)) /\ p <> 0 /\
     store_ok s' /\ objs s' = <[p := to_obj (junk p)]> (objs s)) \/
  raw_obj size junk s = Halted.
Proof using.
  intros (A0 & HA & Hd & H0) Hsize. unfold raw_obj.
  destruct (alloc_spec _ _ _ HA Hsize) as [(p & h & -> & Hp & Hp0 & Hh)| ->]; [left|by right].
  exists p. eexists. split; [reflexivity|]. cbn [objs]. split_and!; [set_solver|lia| |done].
  exists ({[p]} ∪ A0). cbn [store_heap objs]. rewrite dom_insert.
  split_and!; [done|set_solver|]. rewrite elem_of_union, elem_of_singleton.
  intros [?|?]; [lia|done].
Qed.

Lemma new_obj_spec {A} `{!Object A O} s size (x : A) :
  store_ok s -> 0 <= size < 2 ^ 63 ->
  (exists p s', new_obj size x s = Ok (p, s') /\ (p ∉ dom (objs s)) /\ p <> 0 /\
     store_ok s' /\ objs s' = <[p := to_obj x]> (objs s)) \/
  new_obj size x s = Halted.
Proof using. exact (raw_obj_spec s size (fun _ => x)). Qed.

Lemma set_field_run {A} `{!Object A O} s p (x : A) f :
  typed_at s p x ->
  set_field p f s = Ok (tt, MkStore (store_heap s) (<[p := to_obj (f x)]> (objs s))).
Proof using.
  intros Hx. unfold set_field. by rewrite (bind_run _ _ _ _ _ (get_obj_run _ _ _ Hx)), (put_obj_run _ _ _ _ Hx).
Qed.

Lemma put_obj_ok {A} `{!Object A O} s p (x y : A) :
  store_ok s -> typed_at s p x ->
  store_ok (MkStore (store_heap s) (<[p := to_obj y]> (objs s))).
Proof using.
  intros (A0 & HA & Hd & H0) Hx. apply elem_of_dom_2 in Hx.
  exists A0. cbn [store_heap objs]. rewrite dom_insert. split_and!; set_solver.
Qed.

Lemma store_ok_dom s m :
  store_ok s -> dom m = dom (objs s) -> store_ok (MkStore (store_heap s) m).
Proof using.
  intros (A0 & HA & Hd & H0) Hm. exists A0. cbn [store_heap objs]. by rewrite Hm.
Qed.

Lemma free_obj_spec s p :
  store_ok s -> p ∈ dom (objs s) ->
  exists s', free_obj p s = Ok (tt, s') /\ store_ok s' /\ objs s' = delete p (objs s).
Proof using.
  intros (A0 & HA & Hd & H0) Hp. unfold free_obj.
  destruct (dealloc_spec _ _ p HA ltac:(set_solver)) as (h & -> & Hh).
  eexists. split; [reflexivity|]. split; [|done].
  exists (A0 ∖ {[p]}). cbn [store_heap objs]. rewrite dom_delete. split_and!; set_solver.
Qed.
End Store.
Arguments Store {_} O.

(** An object found in an updated store. *)
Ltac look := unfold typed_at; cbn [objs store_heap]; simplify_map_eq; done.
