(* ===== verification/Chain.v ===== *)
(** * Singly linked lists in the object store

    The vectors, directories and files of the kernel are lists of nodes linked
    by a pointer field and ended by NULL.  This file states once what such a
    list represents and what walking and relinking it does. *)
From S2P Require Import Prelude Allocator.

Section Chain.
Context `{AL : Allocator} {Obj Node V : Type} `{ON : !Object Node Obj}.
(** The link and the payload of a node. *)
Context (next : Node -> Z) (value : Node -> V).

(** A chain of nodes at the addresses [ns] from [a] to [b], holding [l]. *)
Fixpoint linked (s : Store Obj) (a : Z) (ns : list Z) (l : list V) (b : Z) : Prop :=
  match ns, l with
  | [], [] => a = b
  | n :: ns', x :: l' =>
      a = n /\ exists r, typed_at s n r /\ value r = x /\ linked s (next r) ns' l' b
  | _, _ => False
  end.

(** [steps] times [node = node->next]. *)
Fixpoint linked_walk (steps : nat) (node : Z) : M (Store Obj) Z :=
  match steps with
  | O => ret node
  | S steps' => let* n := get_obj Node node in linked_walk steps' (next n)
  end.

(** Case analysis on a linked over a list. *)
Lemma linked_cons s a ns x l b :
  linked s a ns (x :: l) b ->
  exists r ns', ns = a :: ns' /\ typed_at s a r /\ value r = x /\ linked s (next r) ns' l b.
Proof using.
  destruct ns as [|n ns]; [done|]. intros (<- & r & Hr & Hx & Hn). by exists r, ns.
Qed.

Lemma linked_nil s a ns b : linked s a ns [] b -> ns = [] /\ a = b.
Proof using. by destruct ns. Qed.

Lemma linked_app s a ns l k b :
  linked s a ns (l ++ k) b ->
  exists ns1 ns2 c, ns = ns1 ++ ns2 /\ linked s a ns1 l c /\ linked s c ns2 k b.
Proof using.
  revert a ns. induction l as [|x l IH]; intros a ns H; [by exists [], ns, a|].
  apply linked_cons in H as (r & ns' & -> & Hr & Hx & H).
  destruct (IH _ _ H) as (ns1 & ns2 & c & -> & H1 & H2).
  exists (a :: ns1), ns2, c. split_and!; [done| |done]. split; [done|]. by exists r.
Qed.

Lemma linked_app_2 s a ns1 ns2 l k b c :
  linked s a ns1 l c -> linked s c ns2 k b -> linked s a (ns1 ++ ns2) (l ++ k) b.
Proof using.
  revert a ns1. induction l as [|x l IH]; intros a ns1 H Hk.
  - apply linked_nil in H as [-> ->]. done.
  - apply linked_cons in H as (r & ns' & -> & Hr & Hx & H).
    split; [done|]. exists r. split_and!; try done. by apply IH.
Qed.

Lemma linked_length s a ns l b : linked s a ns l b -> Zlen ns = Zlen l.
Proof using.
  revert a ns. induction l as [|x l IH]; intros a [|n ns] H; try done.
  destruct H as (_ & r & _ & _ & H). apply IH in H. zlen.
Qed.

(** A chain only depends on its nodes. *)
Lemma linked_frame s s' a ns l b :
  (forall p, p ∈ ns -> objs s' !! p = objs s !! p) -> linked s a ns l b -> linked s' a ns l b.
Proof using.
  revert a l. induction ns as [|n ns IH]; intros a [|x l] Hs H; try done.
  destruct H as (-> & r & Hr & Hx & H). split; [done|]. exists r. unfold typed_at in *.
  rewrite Hs by left. split_and!; try done. apply IH; [|done]. intros p Hp. apply Hs. by right.
Qed.

Lemma linked_in_store s a ns l b : linked s a ns l b -> list_to_set ns ⊆ dom (objs s).
Proof using.
  revert a l. induction ns as [|n ns IH]; intros a [|x l] H; try done.
  destruct H as (-> & r & Hr & _ & H). apply IH in H. apply elem_of_dom_2 in Hr. set_solver.
Qed.

Lemma linked_not_null s a ns l b : store_ok s -> linked s a ns l b -> l <> [] -> a <> 0.
Proof using.
  intros (A & _ & _ & H0) H Hl ->. destruct l as [|x l]; [done|].
  apply linked_cons in H as (r & _ & _ & Hr & _). by apply elem_of_dom_2 in Hr.
Qed.

Lemma linked_walk_run s a ns l b : linked s a ns l b -> linked_walk (length l) a s = Ok (b, s).
Proof using.
  revert a ns. induction l as [|x l IH]; intros a ns H; [by apply linked_nil in H as [_ ->]|].
  apply linked_cons in H as (r & ns' & _ & Hr & _ & H). cbn [length linked_walk].
  rewrite (bind_run _ _ _ _ _ (get_obj_run _ _ _ Hr)). by eapply IH.
Qed.

Lemma linked_walk_run_Z s a ns l b n :
  linked s a ns l b -> Zlen l = n -> linked_walk (Z.to_nat n) a s = Ok (b, s).
Proof using. intros H <-. rewrite Zlen_to_nat. by eapply linked_walk_run. Qed.

(** The walk dereferences a null pointer when it runs past the end. *)
Lemma linked_walk_past s a ns l n :
  store_ok s -> linked s a ns l 0 -> (length l < n)%nat -> linked_walk n a s = Fault.
Proof using.
  intros Hok. revert a ns n. induction l as [|x l IH]; intros a ns [|n] H Hn; cbn in Hn; try lia.
  - apply linked_nil in H as [_ ->]. cbn [linked_walk]. unfold bind. by rewrite get_obj_null.
  - apply linked_cons in H as (r & ns' & _ & Hr & _ & H). cbn [linked_walk].
    rewrite (bind_run _ _ _ _ _ (get_obj_run _ _ _ Hr)). eapply IH; [done|lia].
Qed.

(** Replacing the node at [c] inside a chain. *)
Lemma linked_replace s s' a ns1 c ns2 l1 l2 x d r :
  linked s a ns1 l1 c -> linked s d ns2 l2 0 -> NoDup (ns1 ++ c :: ns2) ->
  objs s' = <[c := to_obj r]> (objs s) -> value r = x -> next r = d ->
  linked s' a (ns1 ++ c :: ns2) (l1 ++ x :: l2) 0.
Proof using.
  intros H1 H2 Hnd Ho Hx Hd. apply NoDup_app in Hnd as (_ & Hc1 & Hnd).
  apply NoDup_cons in Hnd as [Hc2 _]. eapply (linked_app_2 s' a ns1 (c :: ns2)).
  - eapply linked_frame; [|exact H1]. intros p Hp. rewrite Ho. apply lookup_insert_ne.
    intros ->. apply (Hc1 p Hp). by left.
  - split; [done|]. exists r. unfold typed_at. rewrite Ho, lookup_insert_eq, Hd. split_and!; try done.
    eapply linked_frame; [|exact H2]. intros p Hp. rewrite Ho. apply lookup_insert_ne. congruence.
Qed.
End Chain.

Arguments linked_cons {_ _ _ _ _ next value}.
Arguments linked_nil {_ _ _ _ _ next value}.
Arguments linked_app {_ _ _ _ _ next value}.
Arguments linked_app_2 {_ _ _ _ _ next value}.
Arguments linked_length {_ _ _ _ _ next value}.
Arguments linked_frame {_ _ _ _ _ next value}.
Arguments linked_in_store {_ _ _ _ _ next value}.
Arguments linked_not_null {_ _ _ _ _ next value}.
Arguments linked_walk_run {_ _ _ _ _ next value}.
Arguments linked_walk_run_Z {_ _ _ _ _ next value}.
Arguments linked_walk_past {_ _ _ _ _ next value}.
Arguments linked_replace {_ _ _ _ _ next value}.
