(* ===== verification/Memory.v ===== *)
(** * Byte memory

    The memory the kernel reaches through its higher-half direct map: a byte
    at every address of the 64-bit address space.  Words are little endian.
    [ku_memset] and [ku_memcpy] of utils/string.c act on it where the code
    uses them on raw addresses. *)
From S2P Require Import Prelude.

Definition memory : Type := Z -> Z.

(** The top of the kernel stack, a constant of mem/include/paging.h. *)
Definition KERNEL_STACK_PTR : Z := 0xFFFFFFFFFFFFF000.

Definition load8 (m : memory) (a : Z) : Z := u8 (m a).

(** The [n]-byte little-endian word at [a]. *)
Fixpoint load (n : nat) (m : memory) (a : Z) : Z :=
  match n with
  | O => 0
  | S n' => load8 m a + 256 * load n' m (a + 1)
  end.

Definition in_range (a n x : Z) : bool := (a <=? x) && (x <? a + n).

(** Byte [i] of the word [v]. *)
Definition byte_of (v i : Z) : Z := u8 (Z.shiftr v (8 * i)).

Definition store (n : nat) (m : memory) (a v : Z) : memory :=
  fun x => if in_range a (Z.of_nat n) x then byte_of v (x - a) else m x.

Definition store8 (m : memory) (a v : Z) : memory := store 1 m a v.

Abbreviation load64 := (load 8).
Abbreviation store64 := (store 8).

(** [ku_memset(a, value, n)]: [rep stosb] of the low byte of [value]. *)
Definition memset (m : memory) (a value n : Z) : memory :=
  fun x => if in_range a n x then u8 value else m x.

(** [ku_memcpy(dest, from, n)]: [rep movsb], one byte at a time upwards. *)
Fixpoint memcpy (n : nat) (m : memory) (dest from : Z) : memory :=
  match n with
  | O => m
  | S n' => memcpy n' (store8 m dest (load8 m from)) (dest + 1) (from + 1)
  end.

(** Two memories agree on [n] bytes from [a]. *)
Definition agree (m m' : memory) (a n : Z) : Prop :=
  forall x, a <= x < a + n -> m x = m' x.

(** Two byte ranges have no byte in common. *)
Definition disjoint (a n b k : Z) : Prop := a + n <= b \/ b + k <= a.

Lemma in_range_spec a n x : in_range a n x = true <-> a <= x < a + n.
Proof. unfold in_range. lia. Qed.
Lemma in_range_false a n x : in_range a n x = false <-> ~ (a <= x < a + n).
Proof. unfold in_range. lia. Qed.

Lemma agree_refl m a n : agree m m a n.
Proof. done. Qed.
Lemma agree_sym m m' a n : agree m m' a n -> agree m' m a n.
Proof. intros H x Hx. symmetry. auto. Qed.
Lemma agree_trans m1 m2 m3 a n : agree m1 m2 a n -> agree m2 m3 a n -> agree m1 m3 a n.
Proof. intros H1 H2 x Hx. rewrite H1 by done. auto. Qed.
Lemma agree_sub m m' a n b k :
  agree m m' a n -> a <= b -> b + k <= a + n -> agree m m' b k.
Proof. intros H H1 H2 x Hx. apply H. lia. Qed.

Lemma load_agree n m m' a : agree m m' a (Z.of_nat n) -> load n m a = load n m' a.
Proof.
  revert a. induction n as [|n IH]; intros a H; [done|]. simpl.
  unfold load8. rewrite (H a) by lia. do 2 f_equal. apply IH.
  intros x Hx. apply H. lia.
Qed.

Lemma load_range n m a : 0 <= load n m a < 2 ^ (8 * Z.of_nat n).
Proof.
  revert a. induction n as [|n IH]; intros a; [done|]. simpl load.
  specialize (IH (a + 1)). unfold load8. pose proof (u8_range (m a)).
  rewrite Nat2Z.inj_succ, Z.mul_succ_r, Z.pow_add_r by lia.
  change (2 ^ 8) with 256 in *. lia.
Qed.

Lemma load64_range m a : 0 <= load64 m a < 2 ^ 64.
Proof. exact (load_range 8 m a). Qed.

Lemma byte_of_shift v i : 0 <= i -> byte_of v (i + 1) = byte_of (v / 256) i.
Proof.
  intros Hi. unfold byte_of. change 256 with (2 ^ 8).
  rewrite <- Z.shiftr_div_pow2, Z.shiftr_shiftr by lia. do 2 f_equal. lia.
Qed.

Lemma load_store_same n m a v :
  load n (store n m a v) a = v mod 2 ^ (8 * Z.of_nat n).
Proof.
  revert m a v. induction n as [|n IH]; intros m a v.
  { simpl. by rewrite Z.mod_1_r. }
  simpl load. rewrite (load_agree n _ (store n m (a + 1) (v / 256))), IH.
  - unfold load8, store. rewrite (proj2 (in_range_spec _ _ _)) by lia.
    rewrite Z.sub_diag. unfold byte_of. rewrite Z.mul_0_r, Z.shiftr_0_r.
    unfold u8. rewrite Z.mod_mod by lia. change (2 ^ 8) with 256.
    replace (2 ^ (8 * Z.of_nat (S n))) with (256 * 2 ^ (8 * Z.of_nat n))
      by (rewrite Nat2Z.inj_succ, Z.mul_succ_r, Z.pow_add_r by lia; lia).
    by rewrite Z.rem_mul_r by lia.
  - intros x Hx. unfold store. rewrite !(proj2 (in_range_spec _ _ _)) by lia.
    replace (x - a) with ((x - (a + 1)) + 1) by lia. apply byte_of_shift. lia.
Qed.

Lemma store_agree n m a v b k :
  disjoint a (Z.of_nat n) b k -> agree (store n m a v) m b k.
Proof.
  intros H x Hx. unfold store, disjoint in *.
  by rewrite (proj2 (in_range_false _ _ _)) by lia.
Qed.

Lemma load_store_other n k m a v b :
  disjoint a (Z.of_nat n) b (Z.of_nat k) -> load k (store n m a v) b = load k m b.
Proof. intros H. by apply load_agree, store_agree. Qed.

Lemma memset_agree m a v n b k : disjoint a n b k -> agree (memset m a v n) m b k.
Proof.
  intros H x Hx. unfold memset, disjoint in *.
  by rewrite (proj2 (in_range_false _ _ _)) by lia.
Qed.

Lemma memset_inside m a v n x : a <= x < a + n -> memset m a v n x = u8 v.
Proof. intros H. unfold memset. by rewrite (proj2 (in_range_spec _ _ _)). Qed.

Lemma load_memset_zero k m a n b :
  a <= b -> b + Z.of_nat k <= a + n -> load k (memset m a 0 n) b = 0.
Proof.
  revert b. induction k as [|k IH]; intros b H1 H2; [done|]. simpl.
  unfold load8. rewrite memset_inside by lia. rewrite IH by lia. done.
Qed.

Lemma load8_store8_same m a v : load8 (store8 m a v) a = u8 v.
Proof.
  unfold load8, store8, store. rewrite (proj2 (in_range_spec _ _ _)) by lia.
  unfold byte_of. rewrite Z.sub_diag, Z.shiftr_0_r. unfold u8. by rewrite Z.mod_mod.
Qed.

Lemma store8_other m a v x : x <> a -> store8 m a v x = m x.
Proof.
  intros H. unfold store8, store. by rewrite (proj2 (in_range_false _ _ _)) by lia.
Qed.

Lemma memcpy_agree n m dest from b k :
  disjoint dest (Z.of_nat n) b k -> agree (memcpy n m dest from) m b k.
Proof.
  revert m dest from. induction n as [|n IH]; intros m dest from H; [done|]. simpl.
  eapply agree_trans; [apply IH|apply (store_agree 1)]; unfold disjoint in *; lia.
Qed.

(** A copy between disjoint ranges transfers every byte. *)
Lemma memcpy_load8 n m dest from i :
  disjoint dest (Z.of_nat n) from (Z.of_nat n) -> 0 <= i < Z.of_nat n ->
  load8 (memcpy n m dest from) (dest + i) = load8 m (from + i).
Proof.
  revert m dest from i. induction n as [|n IH]; intros m dest from i H Hi; [lia|]. simpl.
  destruct (Z.eq_dec i 0) as [->|Hne].
  - rewrite !Z.add_0_r. unfold load8 at 1.
    rewrite (memcpy_agree n _ _ _ dest 1) by (unfold disjoint; lia).
    fold (load8 (store8 m dest (load8 m from)) dest). rewrite load8_store8_same.
    unfold load8, u8. by rewrite Z.mod_mod.
  - replace (dest + i) with ((dest + 1) + (i - 1)) by lia.
    rewrite IH by (unfold disjoint in *; lia).
    unfold load8 at 1. rewrite store8_other by (unfold disjoint in *; lia).
    unfold load8. do 2 f_equal. lia.
Qed.
