(* ===== verification/PMM.v ===== *)
(** * mem/pmm.c: the bitmap allocator of physical pages

    A usable section of the memory map starts with its bitmap (one bit per
    page, the pages after the bitmap) and is followed by the pages.  The
    [Kernel] record holds the fields of [struct Kernel] (kernel/kernel.h) the
    memory subsystem reads and writes, and the memory itself. *)
From S2P Require Import Prelude Memory.

(** ** State *)

(** [struct limine_memmap_entry]: what the boot loader reports. *)
Record memmap_entry := MemmapEntry { base : Z; length_ : Z; type : Z }.

Record Kernel := {
  memmap : list memmap_entry;
  hhdm : Z;
  last_freed_page : Z;
  last_freed_section : Z;
  last_freed_num_pages : Z;
  total_memory_allocated : Z;
  kheap_start : Z;
  mem : memory
}.

Definition set_mem (f : memory -> memory) (k : Kernel) : Kernel :=
  {| memmap := memmap k; hhdm := hhdm k; last_freed_page := last_freed_page k;
     last_freed_section := last_freed_section k;
     last_freed_num_pages := last_freed_num_pages k;
     total_memory_allocated := total_memory_allocated k;
     kheap_start := kheap_start k; mem := f (mem k) |}.

Definition set_total (f : Z -> Z) (k : Kernel) : Kernel :=
  {| memmap := memmap k; hhdm := hhdm k; last_freed_page := last_freed_page k;
     last_freed_section := last_freed_section k;
     last_freed_num_pages := last_freed_num_pages k;
     total_memory_allocated := f (total_memory_allocated k);
     kheap_start := kheap_start k; mem := mem k |}.

Definition set_last_freed (section page : Z) (k : Kernel) : Kernel :=
  {| memmap := memmap k; hhdm := hhdm k; last_freed_page := page;
     last_freed_section := section;
     last_freed_num_pages := last_freed_num_pages k;
     total_memory_allocated := total_memory_allocated k;
     kheap_start := kheap_start k; mem := mem k |}.

Definition LIMINE_MEMMAP_USABLE : Z := 0.

(** Entry [i] of the memory map; an index past the map is a bad access. *)
Definition entry_at (i : Z) : M Kernel memmap_entry :=
  fun k => lift (rd (memmap k) i) k.

(** ** The code *)

(** The loop never changes [n]: it leaves in the first iteration or never. *)
Fixpoint get_bitmap_reserved_loop (fuel : nat) (n : Z) (e : memmap_entry) : outcome Z :=
  match fuel with
  | O => Spin
  | S fuel' =>
      if u32 (u32 (n * 4096) * 8) >? u64 (length_ e / 4096 - n)
      then Ok (u32 (n * 4096))
      else get_bitmap_reserved_loop fuel' n e
  end.
Definition get_bitmap_reserved (e : memmap_entry) : outcome Z :=
  get_bitmap_reserved_loop 8 1 e.

Definition init_single_bitmap (e : memmap_entry) : M Kernel unit :=
  if negb (type e =? LIMINE_MEMMAP_USABLE) then ret tt
  else modify (fun k => set_mem (fun m => memset m (u64 (base e + hhdm k)) 0 (length_ e)) k).

Fixpoint init_bitmaps (entries : list memmap_entry) : M Kernel unit :=
  match entries with
  | [] => ret tt
  | e :: entries' => init_single_bitmap e ;;; init_bitmaps entries'
  end.

Definition init_PMM : M Kernel unit :=
  let* k := get in
  init_bitmaps (memmap k) ;;;
  modify (set_last_freed (-1) (-1)).

Definition allocate_page (section_index page_frame_number : Z) : M Kernel unit :=
  let* e := entry_at section_index in
  let byte := page_frame_number / 8 in
  let bit := page_frame_number mod 8 in
  let or_value := if bit =? 0 then 1 else u8 (Z.shiftl 1 bit) in
  modify (fun k =>
    let current_byte := u64 (u64 (base e + hhdm k) + byte) in
    set_mem (fun m => store8 m current_byte (Z.lor (load8 m current_byte) or_value)) k).

Fixpoint allocate_pages_loop (n : nat) (section_index page_frame_number i : Z) : M Kernel unit :=
  match n with
  | O => ret tt
  | S n' =>
      allocate_page section_index (u64 (page_frame_number + i)) ;;;
      allocate_pages_loop n' section_index page_frame_number (i + 1)
  end.
Definition allocate_pages (section_index page_frame_number num_pages : Z) : M Kernel unit :=
  allocate_pages_loop (Z.to_nat num_pages) section_index page_frame_number 0.

(** One bit of the bitmap that starts at [bitmap_start]. *)
Definition bit_set (m : memory) (bitmap_start page_frame_number : Z) : bool :=
  let byte := page_frame_number / 8 in
  let bit := page_frame_number mod 8 in
  negb (Z.land (Z.shiftr (load8 m (u64 (bitmap_start + byte))) bit) 1 =? 0).

(** [for (; page_frame_number < top_page; page_frame_number++)], [n] iterations. *)
Fixpoint pages_free_loop (n : nat) (m : memory) (bitmap_start page_frame_number : Z) : bool :=
  match n with
  | O => true
  | S n' =>
      if bit_set m bitmap_start page_frame_number then false
      else pages_free_loop n' m bitmap_start (page_frame_number + 1)
  end.

Definition check_pages_avaliable (section_index page_frame_number num_pages bitmap_reserved : Z)
    : M Kernel bool :=
  let* e := entry_at section_index in
  let* k := get in
  let max_bitmap_bytes := u64 (length_ e - bitmap_reserved) / 4096 / 8 in
  let pages_in_section := u64 (max_bitmap_bytes * 8) in
  let top_page := u64 (page_frame_number + num_pages) in
  if top_page >? pages_in_section then ret false
  else
    let bitmap_start := u64 (base e + hhdm k) in
    if negb (type e =? LIMINE_MEMMAP_USABLE) then ret false
    else if pages_in_section <? num_pages then ret false
    else ret (pages_free_loop (Z.to_nat (top_page - page_frame_number)) (mem k)
                bitmap_start page_frame_number).

(** The innermost loop of [kmalloc], over the bits of one bitmap byte. *)
Fixpoint bit_loop (n : nat) (entry num_pages bitmap_reserved bitmap_byte bitmap_bit : Z)
    : M Kernel (option Z) :=
  match n with
  | O => ret None
  | S n' =>
      let page := u64 (bitmap_bit + u64 (bitmap_byte * 8)) in
      let* avaliable := check_pages_avaliable entry page num_pages bitmap_reserved in
      if avaliable : bool then
        allocate_pages entry page num_pages ;;;
        let* e := entry_at entry in
        let addr := u64 (u64 (base e + u64 (page * 4096)) + bitmap_reserved) in
        modify (fun k => set_mem (fun m => memset m (u64 (addr + hhdm k)) 0 (u64 (num_pages * 4096))) k) ;;;
        modify (set_total (fun t => u64 (t + u64 (num_pages * 4096)))) ;;;
        ret (Some addr)
      else bit_loop n' entry num_pages bitmap_reserved bitmap_byte (bitmap_bit + 1)
  end.

Fixpoint byte_loop (n : nat) (entry num_pages bitmap_reserved bitmap_byte : Z)
    : M Kernel (option Z) :=
  match n with
  | O => ret None
  | S n' =>
      let* found := bit_loop 8 entry num_pages bitmap_reserved bitmap_byte 0 in
      match found with
      | Some addr => ret (Some addr)
      | None => byte_loop n' entry num_pages bitmap_reserved (bitmap_byte + 1)
      end
  end.

Fixpoint entry_loop (n : nat) (num_pages entry : Z) : M Kernel (option Z) :=
  match n with
  | O => ret None
  | S n' =>
      let* e := entry_at entry in
      if negb (type e =? LIMINE_MEMMAP_USABLE) then entry_loop n' num_pages (entry + 1)
      else
        let* bitmap_reserved := lift (get_bitmap_reserved e) in
        let max_bitmap_bytes := u64 (length_ e - bitmap_reserved) / 4096 / 8 in
        let* found := byte_loop (Z.to_nat max_bitmap_bytes) entry num_pages bitmap_reserved 0 in
        match found with
        | Some addr => ret (Some addr)
        | None => entry_loop n' num_pages (entry + 1)
        end
  end.

Definition kmalloc (num_pages : Z) : M Kernel Z :=
  if num_pages <? 1 then halt
  else
    let* k := get in
    if negb (last_freed_page k =? -1) && (num_pages <? last_freed_num_pages k) then
      allocate_pages (u64 (last_freed_section k)) (u64 (last_freed_page k)) num_pages ;;;
      let* e := entry_at (last_freed_section k) in
      let* bitmap_reserved := lift (get_bitmap_reserved e) in
      ret (u64 (u64 (base e + u64 (last_freed_page k * 4096)) + bitmap_reserved))
    else
      let* found := entry_loop (length (memmap k)) num_pages 0 in
      match found with
      | Some addr => ret addr
      | None => halt
      end.

(** A machine with one reserved and one usable section of 17 pages. *)
Definition small_kernel : Kernel :=
  {| memmap := [MemmapEntry 0 4096 1; MemmapEntry 65536 69632 0];
     hhdm := 2 ^ 47; last_freed_page := -1; last_freed_section := -1;
     last_freed_num_pages := 0; total_memory_allocated := 0; kheap_start := 0;
     mem := fun _ => 0 |}.

Example kmalloc_first :
  obind (kmalloc 2 small_kernel) (fun '(a, k) => obind (kmalloc 1 k) (fun '(b, _) => Ok (a, b)))
  = Ok (65536 + 4096, 65536 + 3 * 4096).
Proof. vm_compute. reflexivity. Qed.
Example kmalloc_none : kmalloc 17 small_kernel = Halted.
Proof. vm_compute. reflexivity. Qed.

(** ** What the allocator promises *)

Definition usable (e : memmap_entry) : Prop := type e = LIMINE_MEMMAP_USABLE.

(** Pages of a section after its 4096-byte bitmap, in whole bitmap bytes. *)
Definition pages_in (e : memmap_entry) : Z := (length_ e - 4096) / 4096 / 8 * 8.
Definition page_addr (e : memmap_entry) (p : Z) : Z := base e + 4096 + p * 4096.
Definition bitmap (k : Kernel) (e : memmap_entry) : Z := base e + hhdm k.

(** Bit [p] of section [i]. *)
Definition page_used (k : Kernel) (i : nat) (p : Z) : bool :=
  match memmap k !! i with
  | Some e => bit_set (mem k) (bitmap k e) p
  | None => false
  end.

(** The sections the allocator can work with: smaller than 128 MiB (see
    [get_bitmap_reserved_terminates]) and inside the address space. *)
Record entry_ok (k : Kernel) (e : memmap_entry) : Prop := {
  ok_base : 0 <= base e;
  ok_length : 4096 <= length_ e < 32769 * 4096;
  ok_space : base e + length_ e + hhdm k < 2 ^ 64
}.

Record wf_pmm (k : Kernel) : Prop := {
  wf_hhdm : 0 <= hhdm k;
  wf_last : last_freed_page k = -1;
  wf_entry i e : memmap k !! i = Some e -> usable e -> entry_ok k e;
  wf_disjoint i j e f :
    memmap k !! i = Some e -> memmap k !! j = Some f -> usable e -> usable f ->
    i <> j -> disjoint (base e) (length_ e) (base f) (length_ f)
}.

(** A run of [n] free pages of section [i] from page [p]. *)
Definition free_run (k : Kernel) (i : nat) (e : memmap_entry) (p n : Z) : Prop :=
  memmap k !! i = Some e /\ usable e /\ 0 <= p /\ p + n <= pages_in e /\
  (forall j, p <= j < p + n -> page_used k i j = false).

(** The fields of the kernel an allocation leaves alone. *)
Definition same_config (k k' : Kernel) : Prop :=
  memmap k' = memmap k /\ hhdm k' = hhdm k /\
  last_freed_page k' = last_freed_page k /\
  last_freed_section k' = last_freed_section k /\
  last_freed_num_pages k' = last_freed_num_pages k /\
  kheap_start k' = kheap_start k.

(** The effect of [kmalloc(n)] returning [addr]: the pages were free and are
    the only ones whose bit changes, they are zeroed, and nothing else in
    memory changes but the bitmap of the section. *)
Record alloc_post (k : Kernel) (i : nat) (e : memmap_entry) (p n : Z) (k' : Kernel) : Prop := {
  post_free : free_run k i e p n;
  post_config : same_config k k';
  post_used i' e' j :
    memmap k !! i' = Some e' -> usable e' -> 0 <= j < pages_in e' ->
    page_used k' i' j =
      page_used k i' j || (bool_decide (i' = i) && (p <=? j) && (j <? p + n));
  post_zero x :
    page_addr e p + hhdm k <= x < page_addr e p + hhdm k + n * 4096 -> mem k' x = 0;
  post_frame x :
    ~ (bitmap k e <= x < bitmap k e + 4096) ->
    ~ (page_addr e p + hhdm k <= x < page_addr e p + hhdm k + n * 4096) ->
    mem k' x = mem k x
}.
Definition kmalloc_post (k : Kernel) (n addr : Z) (k' : Kernel) : Prop :=
  exists i e p, addr = page_addr e p /\ alloc_post k i e p n k'.

(** ** Lemmas *)

Lemma get_bitmap_reserved_ok e :
  4096 <= length_ e < 32769 * 4096 -> get_bitmap_reserved e = Ok 4096.
Proof.
  intros H. unfold get_bitmap_reserved. cbn [get_bitmap_reserved_loop].
  change (u32 (u32 (1 * 4096) * 8)) with 32768. change (u32 (1 * 4096)) with 4096.
  rewrite u64_small by divlia. replace (32768 >? _) with true by divlia. done.
Qed.

Lemma bit_set_testbit m a p :
  0 <= p -> 0 <= a -> a + p / 8 < 2 ^ 64 ->
  bit_set m a p = Z.testbit (m (a + p / 8)) (p mod 8).
Proof.
  intros Hp Ha Hs. unfold bit_set. rewrite u64_small by divlia.
  change 1 with (Z.ones 1). rewrite Z.land_ones by lia. change (2 ^ 1) with 2.
  rewrite Z.shiftr_div_pow2 by divlia. unfold load8, u8.
  rewrite <- (Z.mod_pow2_bits_low _ 8) by divlia.
  destruct (Z.testbit (m (a + p / 8) mod 2 ^ 8) (p mod 8)) eqn:E.
  - apply Z.testbit_true in E; [|divlia]. by rewrite E.
  - apply Z.testbit_false in E; [|divlia]. by rewrite E.
Qed.

(** The memory effect of [allocate_page]. *)
Definition mark (a p : Z) (m : memory) : memory :=
  store8 m (a + p / 8)
    (Z.lor (load8 m (a + p / 8)) (if p mod 8 =? 0 then 1 else u8 (Z.shiftl 1 (p mod 8)))).

Lemma or_value_bit p : 0 <= p ->
  (if p mod 8 =? 0 then 1 else u8 (Z.shiftl 1 (p mod 8))) = 2 ^ (p mod 8).
Proof.
  intros Hp. pose proof (Z.mod_pos_bound p 8 ltac:(lia)) as H.
  destruct (Z.eqb_spec (p mod 8) 0) as [->|]; [done|].
  rewrite Z.shiftl_mul_pow2, Z.mul_1_l by lia. apply u8_small.
  split; [lia|]. apply Z.pow_lt_mono_r; lia.
Qed.

Lemma mark_bit m a p q :
  0 <= a -> 0 <= p -> 0 <= q -> a + p / 8 < 2 ^ 64 -> a + q / 8 < 2 ^ 64 ->
  bit_set (mark a p m) a q = bit_set m a q || (q =? p).
Proof.
  intros Ha Hp Hq Hsp Hsq. rewrite !bit_set_testbit by lia.
  unfold mark. rewrite or_value_bit by done.
  destruct (Z.eq_dec (p / 8) (q / 8)) as [Heq|Hne].
  - rewrite Heq. unfold store8, store. rewrite (proj2 (in_range_spec _ _ _)) by lia.
    unfold byte_of. rewrite Z.sub_diag, Z.shiftr_0_r. unfold u8, load8, u8.
    pose proof (Z.mod_pos_bound q 8 ltac:(lia)). pose proof (Z.mod_pos_bound p 8 ltac:(lia)).
    rewrite Z.mod_pow2_bits_low, Z.lor_spec, Z.mod_pow2_bits_low by lia.
    f_equal. rewrite Z.pow2_bits_eqb by lia. apply eq_true_iff_eq.
    rewrite !Z.eqb_eq. divlia.
  - rewrite store8_other by lia. replace (q =? p) with false by divlia.
    by rewrite orb_false_r.
Qed.

Lemma mark_other m a p x : x <> a + p / 8 -> mark a p m x = m x.
Proof. intros H. by apply store8_other. Qed.

Lemma entry_at_run k i e : memmap k !! i = Some e -> entry_at (Z.of_nat i) k = Ok (e, k).
Proof.
  intros H. unfold entry_at, lift, rd. case_if; [lia|]. by rewrite Nat2Z.id, H.
Qed.

Lemma pages_in_bound k e : entry_ok k e -> 0 <= pages_in e <= 32768.
Proof. intros [_ ? _]. unfold pages_in. divlia. Qed.

Lemma pages_in_space k e p :
  entry_ok k e -> 0 <= p < pages_in e ->
  page_addr e p + 4096 <= base e + length_ e /\ p / 8 < 4096.
Proof. intros [_ ? _]. unfold pages_in, page_addr. divlia. Qed.

Lemma allocate_page_run k i e p :
  memmap k !! i = Some e -> entry_ok k e -> 0 <= hhdm k -> 0 <= p < pages_in e ->
  allocate_page (Z.of_nat i) p k = Ok (tt, set_mem (mark (bitmap k e) p) k).
Proof.
  intros Hi Hok Hh Hp. unfold allocate_page.
  rewrite (bind_run _ _ _ _ _ (entry_at_run _ _ _ Hi)). unfold modify, mark, bitmap.
  destruct (pages_in_space k e p Hok Hp), Hok as [? ? ?].
  rewrite !(u64_small (base e + hhdm k)) by lia.
  by rewrite !u64_small by (unfold page_addr in *; divlia).
Qed.

(** The memory effect of [allocate_pages]. *)
Fixpoint mark_all (n : nat) (a p : Z) (m : memory) : memory :=
  match n with
  | O => m
  | S n' => mark_all n' a (p + 1) (mark a p m)
  end.

Lemma allocate_pages_loop_run n k i e p d :
  memmap k !! i = Some e -> entry_ok k e -> 0 <= hhdm k ->
  0 <= p -> 0 <= d -> p + d + Z.of_nat n <= pages_in e ->
  allocate_pages_loop n (Z.of_nat i) p d k =
    Ok (tt, set_mem (mark_all n (bitmap k e) (p + d)) k).
Proof.
  revert k d. induction n as [|n IH]; intros k d Hi Hok Hh Hp Hd Hn.
  { by destruct k. }
  cbn [allocate_pages_loop]. pose proof (pages_in_bound k e Hok).
  rewrite u64_small by lia.
  rewrite (bind_run _ _ _ _ _ (allocate_page_run k i e (p + d) Hi Hok Hh ltac:(lia))).
  rewrite IH; try done; try lia.
  - unfold set_mem at 1 3. simpl. rewrite Z.add_assoc. reflexivity.
  - destruct Hok. by constructor.
Qed.

Lemma mark_all_bit n m a p q :
  0 <= a -> 0 <= p -> 0 <= q -> a + (p + Z.of_nat n) / 8 < 2 ^ 64 -> a + q / 8 < 2 ^ 64 ->
  bit_set (mark_all n a p m) a q = bit_set m a q || ((p <=? q) && (q <? p + Z.of_nat n)).
Proof.
  revert m p. induction n as [|n IH]; intros m p Ha Hp Hq Hsp Hsq.
  { replace (_ && _) with false by lia. by rewrite orb_false_r. }
  cbn [mark_all]. rewrite IH by divlia. rewrite mark_bit by divlia.
  rewrite <- orb_assoc. f_equal. lia.
Qed.

Lemma mark_all_other n m a p x :
  0 <= p -> ~ (a + p / 8 <= x <= a + (p + Z.of_nat n - 1) / 8) -> mark_all n a p m x = m x.
Proof.
  revert m p. induction n as [|n IH]; intros m p Hp Hx; [done|].
  cbn [mark_all]. rewrite IH by divlia. apply mark_other. divlia.
Qed.

Lemma pages_free_loop_spec n m a p :
  pages_free_loop n m a p = true <->
  forall j, p <= j < p + Z.of_nat n -> bit_set m a j = false.
Proof.
  revert p. induction n as [|n IH]; intros p; cbn [pages_free_loop].
  { split; [intros _ j Hj; lia|done]. }
  destruct (bit_set m a p) eqn:E.
  - split; [done|]. intros H. rewrite H in E; [done|lia].
  - rewrite IH. split; intros H j Hj; [|apply H; lia].
    destruct (Z.eq_dec j p) as [->|]; [done|apply H; lia].
Qed.

Lemma page_used_run k i e p :
  memmap k !! i = Some e -> page_used k i p = bit_set (mem k) (bitmap k e) p.
Proof. intros H. unfold page_used. by rewrite H. Qed.

Lemma check_run k i e p n :
  memmap k !! i = Some e -> usable e -> entry_ok k e -> 0 <= hhdm k ->
  0 <= p < 32768 -> 1 <= n < 2 ^ 64 ->
  exists b, check_pages_avaliable (Z.of_nat i) p n 4096 k = Ok (b, k) /\
    (b = true <-> free_run k i e p n).
Proof.
  intros Hi Hu Hok Hh Hp Hn. unfold check_pages_avaliable.
  rewrite (bind_run _ _ _ _ _ (entry_at_run _ _ _ Hi)).
  unfold bind, get. cbn [obind]. pose proof (pages_in_bound k e Hok) as Hb.
  destruct Hok as [? ? ?]. rewrite (u64_small (length_ e - 4096)) by lia.
  fold (pages_in e). rewrite (u64_small (pages_in e)) by lia.
  rewrite (u64_small (base e + hhdm k)) by lia. rewrite Hu. cbn [Z.eqb negb].
  destruct (Z_lt_le_dec (p + n) (2 ^ 64)) as [Hs|Hw].
  - rewrite (u64_small (p + n)) by lia. destruct (p + n >? pages_in e) eqn:E1.
    { exists false. split; [done|]. split; [done|]. intros (_ & _ & _ & ? & _). lia. }
    replace (pages_in e <? n) with false by lia. eexists. split; [done|].
    rewrite pages_free_loop_spec. unfold free_run.
    replace (p + Z.of_nat (Z.to_nat (p + n - p))) with (p + n) by lia.
    split.
    + intros Hf. split_and!; try done; try lia. intros j Hj.
      rewrite (page_used_run _ _ _ _ Hi). auto.
    + intros (_ & _ & _ & _ & Hf) j Hj. rewrite <- (Hf j Hj).
      by rewrite (page_used_run _ _ _ _ Hi).
  - exists false. split; [|split; [done|]; intros (_ & _ & _ & ? & _); lia].
    destruct (_ >? _); [done|]. replace (pages_in e <? n) with true by lia. done.
Qed.

(** Where the pages of one section stay away from the bitmap of another. *)
Lemma sections_apart k i j e f p n q :
  wf_pmm k -> memmap k !! i = Some e -> memmap k !! j = Some f -> usable e -> usable f ->
  0 <= p -> 0 < n -> p + n <= pages_in e -> 0 <= q < pages_in f ->
  ~ (page_addr e p + hhdm k <= bitmap k f + q / 8 < page_addr e p + hhdm k + n * 4096) /\
  (i <> j -> ~ (bitmap k e <= bitmap k f + q / 8 < bitmap k e + 4096)).
Proof.
  intros Hwf Hi Hj Hue Huf Hp Hn Hpn Hq.
  destruct (pages_in_space k e (p + n - 1) (wf_entry k Hwf i e Hi Hue) ltac:(lia)) as [He _].
  destruct (pages_in_space k f q (wf_entry k Hwf j f Hj Huf) Hq) as [Hf Hq8].
  destruct (wf_entry k Hwf i e Hi Hue) as [_ He1 _].
  destruct (wf_entry k Hwf j f Hj Huf) as [_ Hf1 _].
  unfold page_addr, bitmap in *. destruct (decide (i = j)) as [->|Hne].
  - assert (e = f) as -> by congruence. split; [divlia|done].
  - pose proof (wf_disjoint k Hwf i j e f Hi Hj Hue Huf Hne) as Hd.
    unfold disjoint in Hd. split; [divlia|intros _; divlia].
Qed.

(** The kernel after [kmalloc] took the run [p, p + n) of section [i]. *)
Definition after_alloc (k : Kernel) (e : memmap_entry) (p n : Z) : Kernel :=
  set_total (fun t => u64 (t + u64 (n * 4096)))
    (set_mem (fun m => memset m (page_addr e p + hhdm k) 0 (n * 4096))
      (set_mem (mark_all (Z.to_nat n) (bitmap k e) p) k)).

Lemma after_alloc_post k i e p n :
  wf_pmm k -> 1 <= n -> free_run k i e p n ->
  alloc_post k i e p n (after_alloc k e p n).
Proof.
  intros Hwf Hn Hrun. pose proof Hrun as (Hi & Hu & Hp & Hpn & _).
  pose proof (wf_entry k Hwf i e Hi Hu) as Hok.
  pose proof (pages_in_bound k e Hok) as Hpb. pose proof (wf_hhdm k Hwf) as Hh.
  constructor; [done|repeat split|..].
  - intros i' e' j Hi' Hu' Hj.
    rewrite (page_used_run k _ _ _ Hi'), (page_used_run (after_alloc k e p n) i' e' j Hi').
    change (bitmap (after_alloc k e p n) e') with (bitmap k e').
    change (mem (after_alloc k e p n)) with
      (memset (mark_all (Z.to_nat n) (bitmap k e) p (mem k)) (page_addr e p + hhdm k) 0 (n * 4096)).
    pose proof (wf_entry k Hwf i' e' Hi' Hu') as Hok'.
    pose proof (pages_in_bound k e' Hok').
    destruct (sections_apart k i i' e e' p n j) as [H1 H2]; try done; try lia.
    assert (0 <= bitmap k e /\ bitmap k e + 4096 < 2 ^ 64 /\
            0 <= bitmap k e' /\ bitmap k e' + 4096 < 2 ^ 64) as (? & ? & ? & ?)
      by (destruct Hok, Hok'; unfold bitmap; lia).
    rewrite bit_set_testbit by divlia. unfold memset. rewrite (proj2 (in_range_false _ _ _)) by done.
    rewrite <- bit_set_testbit by divlia.
    destruct (decide (i' = i)) as [->|Hne].
    + assert (e' = e) as -> by congruence. rewrite mark_all_bit by divlia.
      rewrite bool_decide_eq_true_2 by done. f_equal. lia.
    + rewrite bool_decide_eq_false_2 by done. rewrite orb_false_r.
      rewrite !bit_set_testbit by divlia. rewrite mark_all_other; [done|lia|].
      specialize (H2 ltac:(done)). divlia.
  - intros x Hx. unfold after_alloc, set_total, set_mem. simpl.
    rewrite memset_inside by lia. done.
  - intros x Hx1 Hx2. unfold after_alloc, set_total, set_mem. simpl.
    unfold memset. rewrite (proj2 (in_range_false _ _ _)) by done.
    apply mark_all_other; [lia|].
    destruct (pages_in_space k e (p + n - 1) Hok ltac:(lia)). divlia.
Qed.

Section Search.
Context (k : Kernel) (Hwf : wf_pmm k) (n : Z) (Hn : 1 <= n < 2 ^ 64).

(** What a loop of [kmalloc] has done when it ends: it has taken a free run
    it found among its candidates, or there is none. *)
Definition loop_result (cand : nat -> memmap_entry -> Z -> Prop)
    (r : outcome (option Z * Kernel)) : Prop :=
  (exists i e p, free_run k i e p n /\
     r = Ok (Some (page_addr e p), after_alloc k e p n)) \/
  (r = Ok (None, k) /\ forall i e p, cand i e p -> ~ free_run k i e p n).

Lemma bit_loop_spec m i e byte bit :
  memmap k !! i = Some e -> usable e -> 0 <= byte < 4096 -> 0 <= bit ->
  bit + Z.of_nat m <= 8 ->
  loop_result (fun i' e' p => i' = i /\ byte * 8 + bit <= p < byte * 8 + bit + Z.of_nat m)
    (bit_loop m (Z.of_nat i) n 4096 byte bit k).
Proof using Hwf Hn.
  revert bit. induction m as [|m IH]; intros bit Hi Hu Hbyte Hbit Hm.
  { right. split; [done|]. intros; lia. }
  cbn [bit_loop]. pose proof (wf_entry k Hwf i e Hi Hu) as Hok.
  rewrite (u64_small (byte * 8)), (u64_small (bit + byte * 8)) by lia.
  destruct (check_run k i e (bit + byte * 8) n Hi Hu Hok (wf_hhdm k Hwf))
    as (b & Hb & Hbr); [lia|lia|].
  rewrite (bind_run _ _ _ _ _ Hb). destruct b.
  - left. pose proof (proj1 Hbr eq_refl) as Hrun. exists i, e, (bit + byte * 8).
    split; [done|]. destruct Hrun as (_ & _ & Hp & Hpn & _).
    unfold allocate_pages.
    rewrite (bind_run _ _ _ _ _ (allocate_pages_loop_run (Z.to_nat n) k i e (bit + byte * 8) 0
      Hi Hok (wf_hhdm k Hwf) ltac:(lia) ltac:(lia) ltac:(lia))).
    rewrite (bind_run _ _ _ _ _ (entry_at_run (set_mem _ k) i e Hi)).
    destruct (pages_in_space k e (bit + byte * 8 + n - 1) Hok ltac:(lia)) as [He _].
    pose proof (pages_in_bound k e Hok). destruct Hok as [? ? ?].
    pose proof (wf_hhdm k Hwf). unfold page_addr in He.
    rewrite (u64_small ((bit + byte * 8) * 4096)) by lia.
    rewrite (u64_small (base e + (bit + byte * 8) * 4096)) by lia.
    rewrite (u64_small (base e + (bit + byte * 8) * 4096 + 4096)) by lia.
    replace (base e + (bit + byte * 8) * 4096 + 4096) with (page_addr e (bit + byte * 8))
      by (unfold page_addr; lia).
    unfold bind, modify, ret, after_alloc, set_total, set_mem. cbn [obind]. simpl.
    rewrite (u64_small (page_addr _ _ + hhdm k)) by (unfold page_addr; lia).
    rewrite (u64_small (n * 4096)) by lia. rewrite Z.add_0_r. done.
  - destruct (IH (bit + 1)) as [H|[H Hc]]; try done; try lia; [by left|right].
    split; [done|]. intros i' e' p [-> Hp] Hrun.
    destruct (Z.eq_dec p (bit + byte * 8)) as [->|Hne].
    + assert (e' = e) as -> by (destruct Hrun as [? _]; congruence).
      by apply Hbr in Hrun.
    + apply (Hc i e' p); [split; [done|lia]|done].
Qed.

Lemma byte_loop_spec m i e byte :
  memmap k !! i = Some e -> usable e -> 0 <= byte ->
  (byte + Z.of_nat m) * 8 <= pages_in e ->
  loop_result (fun i' e' p => i' = i /\ byte * 8 <= p < (byte + Z.of_nat m) * 8)
    (byte_loop m (Z.of_nat i) n 4096 byte k).
Proof using Hwf Hn.
  revert byte. induction m as [|m IH]; intros byte Hi Hu Hbyte Hm.
  { right. split; [done|]. intros; lia. }
  cbn [byte_loop]. pose proof (pages_in_bound k e (wf_entry k Hwf i e Hi Hu)).
  destruct (bit_loop_spec 8 i e byte 0) as [(i' & e' & p & Hr & Hk)|[Hk Hc]];
    try done; try lia; rewrite (bind_run _ _ _ _ _ Hk).
  - left. by exists i', e', p.
  - destruct (IH (byte + 1)) as [H'|[H' Hc']]; try done; try lia; [by left|right].
    split; [done|]. intros i' e' p [-> Hp] Hrun.
    destruct (Z_lt_le_dec p (byte * 8 + 8)).
    + apply (Hc i e' p); [split; [done|lia]|done].
    + apply (Hc' i e' p); [split; [done|lia]|done].
Qed.

Lemma entry_loop_spec m i :
  (i + m <= length (memmap k))%nat ->
  loop_result (fun i' e' p => (i <= i' < i + m)%nat)
    (entry_loop m n (Z.of_nat i) k).
Proof using Hwf Hn.
  revert i. induction m as [|m IH]; intros i Hm.
  { right. split; [done|]. intros; lia. }
  cbn [entry_loop].
  destruct (lookup_lt_is_Some_2 (memmap k) i ltac:(lia)) as [e Hi].
  rewrite (bind_run _ _ _ _ _ (entry_at_run _ _ _ Hi)).
  replace (Z.of_nat i + 1) with (Z.of_nat (S i)) by lia.
  assert (Hrest : forall Q : Prop,
    (forall e' p, memmap k !! i = Some e' -> ~ free_run k i e' p n) ->
    loop_result (fun i' _ _ => (i <= i' < i + S m)%nat) (entry_loop m n (Z.of_nat (S i)) k)).
  { intros _ Hno. destruct (IH (S i) ltac:(lia)) as [H|[H Hc]]; [by left|right].
    split; [done|]. intros i' e' p Hi' Hrun.
    destruct (decide (i' = i)) as [->|]; [|apply (Hc i' e' p); [lia|done]].
    destruct (Hno e' p); [|done]. apply Hrun. }
  destruct (Z.eqb_spec (type e) LIMINE_MEMMAP_USABLE) as [Hu|Hu]; cbn [negb].
  - pose proof (wf_entry k Hwf i e Hi Hu) as Hok.
    rewrite get_bitmap_reserved_ok by apply Hok. unfold lift at 1.
    rewrite (bind_run _ _ k 4096 k) by done. pose proof (pages_in_bound k e Hok).
    rewrite (u64_small (length_ e - 4096)) by (destruct Hok; lia).
    destruct (byte_loop_spec (Z.to_nat ((length_ e - 4096) / 4096 / 8)) i e 0)
      as [(i' & e' & p & Hr & Hk)|[Hk Hc]]; try done; try (unfold pages_in in *; lia);
      rewrite (bind_run _ _ _ _ _ Hk).
    + left. by exists i', e', p.
    + apply (Hrest True). intros e' p He' Hrun. apply (Hc i e' p); [|done].
      destruct Hrun as (Hi' & _ & Hp & Hpn & _).
      assert (e' = e) as -> by congruence. unfold pages_in in *. split; [done|lia].
  - apply (Hrest True). intros e' p He' (Hi' & Hu' & _).
    assert (e' = e) as -> by congruence. done.
Qed.
End Search.

Lemma kmalloc_spec k n :
  wf_pmm k -> 1 <= n < 2 ^ 64 ->
  (exists i e p, free_run k i e p n /\
     kmalloc n k = Ok (page_addr e p, after_alloc k e p n)) \/
  (kmalloc n k = Halted /\ forall i e p, ~ free_run k i e p n).
Proof.
  intros Hwf Hn. unfold kmalloc. replace (n <? 1) with false by lia.
  rewrite bind_get, (wf_last k Hwf), Z.eqb_refl. cbn [negb andb].
  destruct (entry_loop_spec k Hwf n Hn (length (memmap k)) 0 ltac:(lia))
    as [(i & e & p & Hr & Hk)|[Hk Hc]];
    change (Z.of_nat 0) with 0 in Hk; rewrite (bind_run _ _ _ _ _ Hk).
  - left. by exists i, e, p.
  - right. split; [done|]. intros i e p Hrun. apply (Hc i e p); [|done].
    destruct Hrun as (Hi & _). apply lookup_lt_Some in Hi. lia.
Qed.

Lemma wf_same_config k k' : same_config k k' -> wf_pmm k -> wf_pmm k'.
Proof.
  intros (Hm & Hh & Hl & _) [H1 H2 H3 H4]. constructor.
  - by rewrite Hh.
  - by rewrite Hl.
  - intros i e Hi Hu. rewrite Hm in Hi. destruct (H3 i e Hi Hu).
    constructor; [done|done|by rewrite Hh].
  - intros i j e f. rewrite Hm. eauto.
Qed.

Lemma same_config_refl k : same_config k k.
Proof. by repeat split. Qed.
Lemma same_config_trans k1 k2 k3 :
  same_config k1 k2 -> same_config k2 k3 -> same_config k1 k3.
Proof. unfold same_config. intuition congruence. Qed.
Lemma same_config_set_mem f k : same_config k (set_mem f k).
Proof. by repeat split. Qed.
Lemma kmalloc_post_config k n a k' : kmalloc_post k n a k' -> same_config k k'.
Proof. intros (i & e & p & _ & H). apply H. Qed.
#[export] Hint Resolve same_config_refl same_config_set_mem kmalloc_post_config : words.

(** The loop of [get_bitmap_reserved] ends exactly for sections of at least
    one page and less than 32769 pages (128 MiB and one page): then one page
    is reserved for the bitmap.  On every other section the loop never ends,
    whatever the fuel, because [n] is never incremented. *)
Theorem get_bitmap_reserved_terminates e fuel :
  0 <= length_ e < 2 ^ 64 -> (0 < fuel)%nat ->
  get_bitmap_reserved_loop fuel 1 e =
    if (4096 <=? length_ e) && (length_ e <? 32769 * 4096) then Ok 4096 else Spin.
Proof.
  intros Hl Hf. destruct (_ && _) eqn:E.
  - destruct fuel as [|fuel]; [lia|]. cbn [get_bitmap_reserved_loop].
    rewrite (u64_small (length_ e / 4096 - 1)) by divlia.
    change (u32 (u32 (1 * 4096) * 8)) with 32768.
    replace (32768 >? _) with true by divlia. done.
  - clear Hf. induction fuel as [|fuel IH]; [done|]. cbn [get_bitmap_reserved_loop].
    change (u32 (u32 (1 * 4096) * 8)) with 32768.
    replace (32768 >? u64 (length_ e / 4096 - 1)) with false; [done|].
    symmetry. unfold u64. divlia.
Qed.

Lemma get_bitmap_reserved_terminates_witness :
  get_bitmap_reserved_loop 5 1 (MemmapEntry 1048576 (32769 * 4096) 0) =
    if (4096 <=? 32769 * 4096) && (32769 * 4096 <? 32769 * 4096) then Ok 4096 else Spin.
Proof.
  apply (get_bitmap_reserved_terminates (MemmapEntry 1048576 (32769 * 4096) 0)); simpl; lia.
Defined.

(** C6: What [kmalloc] returns: the pages lie in one usable section after its
    bitmap, all of them were free, they are now the only additional pages
    marked used in any section, they are zeroed, and no byte changes outside
    them and the bitmap of their section. *)
Theorem kmalloc_allocates k n addr k' :
  wf_pmm k -> 1 <= n < 2 ^ 64 -> kmalloc n k = Ok (addr, k') ->
  kmalloc_post k n addr k' /\ wf_pmm k'.
Proof.
  intros Hwf Hn Hk. destruct (kmalloc_spec k n Hwf Hn) as [(i & e & p & Hr & Hk')|[Hk' _]];
    rewrite Hk in Hk'; [|done].
  injection Hk' as -> ->. pose proof (after_alloc_post k i e p n Hwf ltac:(lia) Hr) as Hpost.
  split; [by exists i, e, p|]. by eapply wf_same_config; [apply Hpost|].
Qed.

Lemma small_kernel_wf : wf_pmm small_kernel.
Proof.
  constructor; simpl; try lia.
  - intros [|[|[|i]]] e Hi Hu; simplify_eq/=; done.
  - intros [|[|[|i]]] [|[|[|j]]] e f Hi Hj Hu Hu' Hne; simplify_eq/=; done.
Qed.

Lemma kmalloc_allocates_witness :
  exists k', kmalloc 3 small_kernel = Ok (69632, k') /\
    (kmalloc_post small_kernel 3 69632 k' /\ wf_pmm k').
Proof.
  destruct (value_of_some (kmalloc 3 small_kernel) 69632) as [k' E]; [vm_compute; reflexivity|].
  exists k'. split; [exact E|].
  apply (kmalloc_allocates small_kernel 3); [exact small_kernel_wf|lia|exact E].
Defined.

(** C7: [kmalloc] is complete: it returns exactly when some usable section has
    a run of [n] free pages, and halts the machine exactly when none has; its
    loops always end and it never reads outside the memory map. *)
Theorem kmalloc_complete k n :
  wf_pmm k -> 1 <= n < 2 ^ 64 ->
  ((exists i e p, free_run k i e p n) <-> exists addr k', kmalloc n k = Ok (addr, k')) /\
  ((forall i e p, ~ free_run k i e p n) <-> kmalloc n k = Halted).
Proof.
  intros Hwf Hn. destruct (kmalloc_spec k n Hwf Hn) as [(i & e & p & Hr & Hk)|[Hk Hno]];
    rewrite Hk; split; split; try done; eauto.
  - intros H. by destruct (H i e p).
  - intros (i & e & p & H). by destruct (Hno i e p).
  - intros (? & ? & ?). done.
Qed.

Lemma kmalloc_complete_witness :
  ((exists i e p, free_run small_kernel i e p 17) <->
     exists addr k', kmalloc 17 small_kernel = Ok (addr, k')) /\
  ((forall i e p, ~ free_run small_kernel i e p 17) <-> kmalloc 17 small_kernel = Halted).
Proof. apply kmalloc_complete; [exact small_kernel_wf|lia]. Defined.

(** ** Histories of the allocator

    The state is the kernel and the blocks handed out so far.  Between two
    allocations the owners of blocks may write any byte of them. *)
Inductive pmm_step : Kernel * list (Z * Z) -> Kernel * list (Z * Z) -> Prop :=
  | step_kmalloc k l n addr k' :
      1 <= n < 2 ^ 64 -> kmalloc n k = Ok (addr, k') ->
      pmm_step (k, l) (k', (addr, n) :: l)
  | step_write k l addr n x v :
      (addr, n) ∈ l -> addr + hhdm k <= x < addr + hhdm k + n * 4096 ->
      pmm_step (k, l) (set_mem (fun m => store8 m x v) k, l).

(** A block is [n] whole pages of a usable section, clear of its bitmap, and
    all its pages are marked used. *)
Definition block_ok (k : Kernel) (b : Z * Z) : Prop :=
  exists i e p,
    memmap k !! i = Some e /\ usable e /\ 0 <= p /\ 1 <= snd b /\
    p + snd b <= pages_in e /\ fst b = page_addr e p /\
    (forall j, p <= j < p + snd b -> page_used k i j = true).

Definition blocks_disjoint (b c : Z * Z) : Prop :=
  disjoint (fst b) (snd b * 4096) (fst c) (snd c * 4096).

Definition pmm_inv (s : Kernel * list (Z * Z)) : Prop :=
  wf_pmm (fst s) /\ Forall (block_ok (fst s)) (snd s) /\
  ForallOrdPairs blocks_disjoint (snd s).

Lemma fresh_disjoint k i e p n b :
  wf_pmm k -> 1 <= n -> free_run k i e p n -> block_ok k b ->
  blocks_disjoint (page_addr e p, n) b.
Proof.
  intros Hwf Hn (Hi & Hu & Hp & Hpn & Hfree) (j & f & q & Hj & Hv & Hq & Hm & Hqm & Hb & Hused).
  unfold blocks_disjoint, disjoint. cbn [fst snd]. rewrite Hb.
  destruct (decide (i = j)) as [->|Hne].
  - assert (f = e) as -> by congruence. unfold page_addr.
    destruct (Z_le_gt_dec (p + n) q); [left; lia|].
    destruct (Z_le_gt_dec (q + snd b) p); [right; lia|].
    specialize (Hfree (Z.max p q) ltac:(lia)). rewrite Hused in Hfree by lia. done.
  - destruct (wf_disjoint k Hwf i j e f Hi Hj Hu Hv Hne) as [H|H];
      destruct (pages_in_space k e (p + n - 1) (wf_entry k Hwf i e Hi Hu) ltac:(lia));
      destruct (pages_in_space k f (q + snd b - 1) (wf_entry k Hwf j f Hj Hv) ltac:(lia));
      unfold page_addr in *; lia.
Qed.

Lemma block_ok_alloc k i e p n k' b :
  wf_pmm k -> alloc_post k i e p n k' -> block_ok k b -> block_ok k' b.
Proof.
  intros Hwf Hpost (j & f & q & Hj & Hv & Hq & Hm & Hqm & Hb & Hu).
  exists j, f, q. destruct (post_config _ _ _ _ _ _ Hpost) as (Hmap & _).
  rewrite Hmap. split_and!; try done.
  intros x Hx. rewrite (post_used _ _ _ _ _ _ Hpost j f x) by (done || lia).
  by rewrite Hu by lia.
Qed.

Lemma block_ok_new k i e p n k' :
  wf_pmm k -> 1 <= n -> alloc_post k i e p n k' -> block_ok k' (page_addr e p, n).
Proof.
  intros Hwf Hn Hpost. destruct (post_free _ _ _ _ _ _ Hpost) as (Hi & Hu & Hp & Hpn & _).
  destruct (post_config _ _ _ _ _ _ Hpost) as (Hmap & _).
  exists i, e, p. cbn [fst snd]. rewrite Hmap. split_and!; try done.
  intros j Hj. rewrite (post_used _ _ _ _ _ _ Hpost i e j) by (done || lia).
  rewrite bool_decide_eq_true_2 by done. lia.
Qed.

(** A block is clear of every bitmap. *)
Lemma block_bitmap_disjoint k b i e :
  wf_pmm k -> block_ok k b -> memmap k !! i = Some e -> usable e ->
  disjoint (fst b + hhdm k) (snd b * 4096) (bitmap k e) 4096.
Proof.
  intros Hwf (j & f & q & Hj & Hv & Hq & Hm & Hqm & -> & _) Hi Hu.
  destruct (pages_in_space k f (q + snd b - 1) (wf_entry k Hwf j f Hj Hv) ltac:(lia)).
  destruct (wf_entry k Hwf i e Hi Hu) as [_ ? _]. destruct (wf_entry k Hwf j f Hj Hv) as [_ ? _].
  unfold disjoint, page_addr, bitmap in *. destruct (decide (i = j)) as [->|Hne].
  - assert (f = e) as -> by congruence. lia.
  - pose proof (wf_disjoint k Hwf i j e f Hi Hj Hu Hv Hne) as Hd. unfold disjoint in Hd. lia.
Qed.

(** Blocks survive any change of memory inside one of them. *)
Lemma block_ok_frame k k' b c :
  wf_pmm k -> same_config k k' -> block_ok k b -> block_ok k c ->
  (forall x, ~ (fst b + hhdm k <= x < fst b + hhdm k + snd b * 4096) -> mem k' x = mem k x) ->
  block_ok k' c.
Proof.
  intros Hwf (Hmap & Hh & _) Hb (j & f & q & Hj & Hv & Hq & Hm & Hqm & Hc & Huse) Hframe.
  exists j, f, q. rewrite Hmap. split_and!; try done. intros y Hy.
  rewrite <- (Huse y Hy), (page_used_run k _ _ _ Hj), (page_used_run k' j f y) by (by rewrite Hmap).
  pose proof (block_bitmap_disjoint k b j f Hwf Hb Hj Hv) as Hd.
  pose proof (pages_in_bound k f (wf_entry k Hwf j f Hj Hv)).
  destruct (wf_entry k Hwf j f Hj Hv) as [? ? ?]. pose proof (wf_hhdm k Hwf).
  unfold bitmap, disjoint in *. rewrite Hh.
  rewrite !bit_set_testbit by divlia. rewrite Hframe; [done|]. divlia.
Qed.

Lemma block_space k b :
  wf_pmm k -> block_ok k b ->
  4096 <= fst b + hhdm k /\ fst b + hhdm k + snd b * 4096 < 2 ^ 64 /\
  0 < snd b * 4096.
Proof.
  intros Hwf (i & e & p & Hi & Hu & Hp & Hn & Hpn & -> & _).
  destruct (pages_in_space k e (p + snd b - 1) (wf_entry k Hwf i e Hi Hu) ltac:(lia)).
  destruct (wf_entry k Hwf i e Hi Hu). pose proof (wf_hhdm k Hwf).
  unfold page_addr in *. lia.
Qed.

(** The bytes of the bitmaps. *)
Definition in_bitmap (k : Kernel) (x : Z) : Prop :=
  exists i e, memmap k !! i = Some e /\ usable e /\ bitmap k e <= x < bitmap k e + 4096.

Lemma block_not_bitmap k b x :
  wf_pmm k -> block_ok k b -> fst b + hhdm k <= x < fst b + hhdm k + snd b * 4096 -> ~ in_bitmap k x.
Proof.
  intros Hwf Hb Hx (i & e & Hi & Hu & He).
  pose proof (block_bitmap_disjoint k b i e Hwf Hb Hi Hu). unfold disjoint in *. lia.
Qed.

(** Blocks only depend on the bitmaps. *)
Lemma block_ok_same k k' c :
  wf_pmm k -> same_config k k' -> (forall x, in_bitmap k x -> mem k' x = mem k x) ->
  block_ok k c -> block_ok k' c.
Proof.
  intros Hwf (Hmap & Hh & _) Hb (j & f & q & Hj & Hv & Hq & Hm & Hqm & Hc & Huse).
  exists j, f, q. rewrite Hmap. split_and!; try done. intros y Hy.
  rewrite <- (Huse y Hy), (page_used_run k _ _ _ Hj), (page_used_run k' j f y) by (by rewrite Hmap).
  pose proof (pages_in_bound k f (wf_entry k Hwf j f Hj Hv)).
  destruct (wf_entry k Hwf j f Hj Hv) as [? ? ?]. pose proof (wf_hhdm k Hwf).
  unfold bitmap. rewrite Hh. rewrite !bit_set_testbit by divlia.
  rewrite Hb; [done|]. exists j, f. unfold bitmap. split_and!; try done; divlia.
Qed.

(** An allocation changes no block that was already handed out. *)
Lemma block_alloc_frame k i e p n k' c :
  wf_pmm k -> 1 <= n -> alloc_post k i e p n k' -> block_ok k c ->
  agree (mem k') (mem k) (fst c + hhdm k) (snd c * 4096) /\
  disjoint (fst c + hhdm k) (snd c * 4096) (page_addr e p + hhdm k) (n * 4096).
Proof.
  intros Hwf Hn Hp Hc. pose proof (post_free _ _ _ _ _ _ Hp) as Hrun. pose proof Hrun as (Hi & Hu & _).
  pose proof (fresh_disjoint k i e p n c Hwf Hn Hrun Hc) as Hd.
  pose proof (block_bitmap_disjoint k c i e Hwf Hc Hi Hu) as Hdb.
  unfold blocks_disjoint, disjoint in *. cbn [fst snd] in Hd. split; [|lia].
  intros x Hx. apply (post_frame _ _ _ _ _ _ Hp); lia.
Qed.

Lemma pmm_step_inv s s' : pmm_step s s' -> pmm_inv s -> pmm_inv s'.
Proof.
  intros Hstep (Hwf & Hok & Hd). destruct Hstep as [k l n addr k' Hn Hk|k l addr n x v Hin Hx];
    cbn [fst snd] in *.
  - destruct (kmalloc_spec k n Hwf Hn) as [(i & e & p & Hr & Hk')|[Hk' _]];
      rewrite Hk in Hk'; [|done]. injection Hk' as -> ->.
    pose proof (after_alloc_post k i e p n Hwf ltac:(lia) Hr) as Hpost.
    split_and!; cbn [fst snd].
    + by eapply wf_same_config; [apply Hpost|].
    + constructor; [eapply block_ok_new; [exact Hwf|lia|exact Hpost]|].
      eapply Forall_impl; [exact Hok|]. intros b. by eapply block_ok_alloc.
    + constructor; [|done]. eapply Forall_impl; [exact Hok|].
      intros b Hb. eapply fresh_disjoint; [exact Hwf|lia|exact Hr|exact Hb].
  - pose proof (proj1 (Forall_forall _ _) Hok _ Hin) as Hb.
    split_and!; cbn [fst snd]; [|eapply Forall_impl; [exact Hok|]|done].
    + by eapply wf_same_config; [apply same_config_set_mem|].
    + intros c Hc. eapply (block_ok_frame k _ (addr, n)); try done.
      intros y Hy. unfold set_mem. cbn [mem fst snd] in *. apply store8_other. lia.
Qed.

(** The kernel [init_PMM] starts from: any memory contents, any stale fields. *)
Definition bootable (k : Kernel) : Prop := wf_pmm (set_last_freed (-1) (-1) k).

Definition cleared (m : memory) (a n : Z) : Prop := forall x, a <= x < a + n -> m x = 0.

Lemma init_bitmaps_spec es k :
  (forall e, e ∈ es -> usable e -> 0 <= base e + hhdm k < 2 ^ 64) ->
  exists f, init_bitmaps es k = Ok (tt, set_mem f k) /\
    (forall x, f (mem k) x = mem k x \/ f (mem k) x = 0) /\
    (forall e, e ∈ es -> usable e -> cleared (f (mem k)) (base e + hhdm k) (length_ e)).
Proof.
  revert k. induction es as [|e es IH]; intros k Hs.
  { exists id. split; [by destruct k|]. split; [by left|]. intros e He. by apply elem_of_nil in He. }
  cbn [init_bitmaps]. unfold init_single_bitmap.
  destruct (Z.eqb_spec (type e) LIMINE_MEMMAP_USABLE) as [Hu|Hu]; cbn [negb].
  - rewrite bind_modify, u64_small by (apply Hs; [left|done]).
    set (g := fun m => memset m (base e + hhdm k) 0 (length_ e)).
    destruct (IH (set_mem g k)) as (f & Hf & Hz & Hc).
    { intros e' He'. apply Hs. by right. }
    exists (fun m => f (g m)). split; [done|]. cbn [set_mem mem hhdm] in Hz, Hc.
    assert (forall x, f (g (mem k)) x = mem k x \/ f (g (mem k)) x = 0) as Hz'.
    { intros x. destruct (Hz x) as [-> | ->]; [|by right]. unfold g, memset.
      destruct (in_range _ _ x); [by right|by left]. }
    split; [done|]. intros e' He' Hu'. apply elem_of_cons in He' as [->|He']; [|by apply Hc].
    intros x Hx. destruct (Hz x) as [-> | ->]; [|done]. unfold g. by rewrite memset_inside.
  - rewrite bind_ret. destruct (IH k) as (f & Hf & Hz & Hc).
    { intros e' He'. apply Hs. by right. }
    exists f. split; [done|]. split; [done|].
    intros e' He' Hu'. apply elem_of_cons in He' as [->|He']; [done|by apply Hc].
Qed.

Lemma init_PMM_spec k :
  bootable k ->
  exists k', init_PMM k = Ok (tt, k') /\ wf_pmm k' /\
    memmap k' = memmap k /\ hhdm k' = hhdm k /\
    (forall i p e, memmap k !! i = Some e -> usable e -> 0 <= p < pages_in e ->
       page_used k' i p = false).
Proof.
  intros Hb. unfold init_PMM. rewrite bind_get.
  destruct (init_bitmaps_spec (memmap k) k) as (f & Hf & _ & Hc).
  { intros e He Hu. apply list_elem_of_lookup in He as [i Hi].
    destruct (wf_entry _ Hb i e Hi Hu). pose proof (wf_hhdm _ Hb). simpl in *. lia. }
  rewrite (bind_run _ _ _ _ _ Hf). eexists. split; [reflexivity|].
  split; [by eapply wf_same_config; [|exact Hb]|]. split; [done|]. split; [done|].
  intros i p e Hi Hu Hp. rewrite (page_used_run (set_last_freed (-1) (-1) (set_mem f k)) i e p Hi).
  pose proof (wf_entry _ Hb i e Hi Hu) as Hok. destruct (pages_in_space _ e p Hok Hp).
  pose proof (pages_in_bound _ e Hok). pose proof (wf_hhdm _ Hb).
  destruct Hok as [? ? ?]. unfold bitmap. simpl in *.
  rewrite bit_set_testbit by (unfold page_addr in *; divlia).
  rewrite (Hc e); [apply Z.bits_0|apply list_elem_of_lookup; eauto|done|].
  unfold page_addr in *. divlia.
Qed.

(** C1: No page is ever handed out twice.  From [init_PMM] on, over every
    history of allocations and of writes by the owners to their blocks, the
    blocks handed out are pairwise disjoint, consist of whole pages of usable
    sections after the section's bitmap, and stay marked used. *)
Theorem allocations_disjoint k0 k1 k l :
  bootable k0 -> init_PMM k0 = Ok (tt, k1) -> rtc pmm_step (k1, []) (k, l) ->
  Forall (block_ok k) l /\ ForallOrdPairs blocks_disjoint l.
Proof.
  intros Hb Hi Hr. destruct (init_PMM_spec k0 Hb) as (k1' & Hi' & Hwf & _).
  rewrite Hi in Hi'. injection Hi' as <-.
  assert (pmm_inv (k1, [])) as Hinv by (split_and!; [done|constructor..]).
  cut (pmm_inv (k, l)); [intros (_ & H1 & H2); by split|].
  revert Hinv. generalize dependent (k, l). generalize dependent (k1, @nil (Z * Z)).
  clear. induction 1 as [|s1 s2 s3 H12 _ IH]; [done|].
  intros H1. by eapply IH, pmm_step_inv.
Qed.

(** A boot with stale allocator fields and dirty memory, and two allocations. *)
Definition dirty_kernel : Kernel :=
  set_mem (fun _ _ => 255) (set_last_freed 5 5 small_kernel).

Lemma dirty_bootable : bootable dirty_kernel.
Proof. eapply wf_same_config; [|exact small_kernel_wf]. by repeat split. Qed.

Lemma allocations_disjoint_witness :
  exists k1 k, init_PMM dirty_kernel = Ok (tt, k1) /\
    rtc pmm_step (k1, []) (k, [(77824, 1); (69632, 2)]) /\
    (Forall (block_ok k) [(77824, 1); (69632, 2)] /\
     ForallOrdPairs blocks_disjoint [(77824, 1); (69632, 2)]).
Proof.
  destruct (value_of_some ((init_PMM ;;; let* a := kmalloc 2 in let* b := kmalloc 1 in ret (a, b))
    dirty_kernel) (69632, 77824)) as [k E]; [vm_compute; reflexivity|].
  apply bind_ok in E as ([] & k1 & E1 & E). apply bind_ok in E as (a & k2 & E2 & E).
  apply bind_ok in E as (b & k3 & E3 & E). injection E as -> -> ->.
  exists k1, k. split; [exact E1|].
  assert (rtc pmm_step (k1, []) (k, [(77824, 1); (69632, 2)])) as Hr.
  { eapply rtc_l; [eapply step_kmalloc; [|exact E2]; lia|].
    eapply rtc_l; [eapply step_kmalloc; [|exact E3]; lia|apply rtc_refl]. }
  split; [exact Hr|].
  exact (allocations_disjoint dirty_kernel k1 k _ dirty_bootable E1 Hr).
Defined.
