(* ===== verification/KHeap.v ===== *)
(** * mem/kheap.c: the kernel heap

    A singly linked list of pools; each pool starts with a packed 26-byte
    header and its data follows.  The headers live in the byte memory, in pages
    that [kmalloc] (PMM) handed out. *)
From S2P Require Import Prelude Allocator Memory PMM.

(** ** The code *)

(** [Pool], packed: field offsets 0, 1, 9, 17, 25 and the data at 26. *)
Record Pool := {
  verify : Z;
  size : Z;
  required_size : Z;
  next_pool : Z;
  pool_free : bool
}.
Definition sizeof_Pool : Z := 26.

Definition pool_verify (m : memory) (a : Z) : Z := load8 m a.
Definition pool_size (m : memory) (a : Z) : Z := load64 m (a + 1).
Definition pool_required (m : memory) (a : Z) : Z := load64 m (a + 9).
Definition pool_next (m : memory) (a : Z) : Z := load64 m (a + 17).
Definition pool_is_free (m : memory) (a : Z) : bool := negb (load8 m (a + 25) =? 0).

Definition set_verify (a v : Z) (m : memory) : memory := store8 m a v.
Definition set_size (a v : Z) (m : memory) : memory := store64 m (a + 1) v.
Definition set_required (a v : Z) (m : memory) : memory := store64 m (a + 9) v.
Definition set_next (a v : Z) (m : memory) : memory := store64 m (a + 17) v.
Definition set_free (a : Z) (b : bool) (m : memory) : memory :=
  store8 m (a + 25) (if b then 1 else 0).

(** Assignment of a whole [Pool]. *)
Definition store_pool (a : Z) (p : Pool) (m : memory) : memory :=
  set_free a (pool_free p) (set_next a (next_pool p)
    (set_required a (required_size p) (set_size a (size p) (set_verify a (verify p) m)))).

Definition create_pool (size required_size next_pool : Z) (free : bool) : Pool :=
  {| verify := 69; size := u64 (size - 1); required_size := required_size;
     next_pool := next_pool; pool_free := free |}.

Definition set_kheap_start (a : Z) (k : Kernel) : Kernel :=
  {| memmap := memmap k; hhdm := hhdm k; last_freed_page := last_freed_page k;
     last_freed_section := last_freed_section k;
     last_freed_num_pages := last_freed_num_pages k;
     total_memory_allocated := total_memory_allocated k;
     kheap_start := a; mem := mem k |}.

Definition init_kheap : M Kernel unit :=
  let* a := kmalloc 2 in
  modify (fun k => set_kheap_start (u64 (a + hhdm k)) k) ;;;
  modify (fun k => set_mem (store_pool (kheap_start k) (create_pool 8192 sizeof_Pool 0 true)) k).

Definition split_pool (pool_addr size : Z) : M Kernel Z :=
  let* k := get in
  let m := mem k in
  let new_pool := u64 (u64 (pool_addr + pool_required m pool_addr) + 1) in
  let new_pool_size := u64 (sizeof_Pool + size) in
  modify (set_mem (store_pool new_pool
    (create_pool (u64 (pool_size m pool_addr - pool_required m pool_addr)) new_pool_size
       (pool_next m pool_addr) false))) ;;;
  modify (set_mem (fun m => set_size pool_addr (pool_required m pool_addr) m)) ;;;
  modify (set_mem (set_next pool_addr new_pool)) ;;;
  ret new_pool.

Definition PAGE_ALIGN_UP (x : Z) : Z := u64 (u64 (x + 4095) / 4096 * 4096).

(** [for (;;)] over the pools from [this_pool]. *)
Fixpoint malloc_loop (fuel : nat) (this_pool size : Z) : M Kernel Z :=
  match fuel with
  | O => fun _ => Spin
  | S fuel' =>
      let* k := get in
      let m := mem k in
      if pool_is_free m this_pool && (pool_size m this_pool >? u64 (size + sizeof_Pool)) then
        modify (set_mem (set_free this_pool false)) ;;;
        modify (set_mem (set_required this_pool (u64 (size + sizeof_Pool)))) ;;;
        ret (u64 (this_pool + sizeof_Pool))
      else if pool_size m this_pool >? u64 (u64 (pool_required m this_pool + size) + sizeof_Pool) then
        let* new_pool := split_pool this_pool size in
        ret (u64 (new_pool + sizeof_Pool))
      else if pool_next m this_pool =? 0 then
        let new_pool_size := PAGE_ALIGN_UP (u64 (size + sizeof_Pool)) in
        let* a := kmalloc (new_pool_size / 4096) in
        let next := u64 (a + hhdm k) in
        modify (set_mem (set_next this_pool next)) ;;;
        modify (set_mem (store_pool next
          (create_pool new_pool_size (u64 (size + sizeof_Pool)) 0 false))) ;;;
        ret (u64 (next + sizeof_Pool))
      else malloc_loop fuel' (pool_next m this_pool) size
  end.

(** Enough iterations for every heap in these sections: a pool has at least 26
    bytes ([pools_bounded]). *)
Definition usable_bytes (es : list memmap_entry) : Z :=
  foldr (fun e n => (if type e =? LIMINE_MEMMAP_USABLE then length_ e else 0) + n) 0 es.
Definition pool_fuel (k : Kernel) : nat := S (Z.to_nat (usable_bytes (memmap k) / sizeof_Pool)).

Definition malloc (size : Z) : M Kernel Z :=
  let* k := get in malloc_loop (pool_fuel k) (kheap_start k) size.

Definition free (addr : Z) : M Kernel unit :=
  let this_pool := u64 (addr - sizeof_Pool) in
  let* k := get in
  if negb (pool_verify (mem k) this_pool =? 69) then halt
  else
    modify (set_mem (set_free this_pool true)) ;;;
    modify (set_mem (set_required this_pool sizeof_Pool)).

(** Boot a small machine and allocate four blocks; the first is freed and its
    pool taken again by the third; the fourth needs fresh pages. *)
Example malloc_demo :
  value_of ((init_kheap ;;;
     let* a := malloc 100 in let* b := malloc 50 in
     free a ;;; let* c := malloc 60 in
     let* d := malloc 9000 in ret [b - a; c - a; d - a]) small_kernel)
  = Some [127; 0; 8192].
Proof. vm_compute. reflexivity. Qed.

(** ** The heap invariant *)

(** The list of pools from [a], ended by a null [next_pool]. *)
Fixpoint chain (m : memory) (a : Z) (l : list Z) : Prop :=
  match l with
  | [] => a = 0
  | x :: l' => x = a /\ a <> 0 /\ chain m (pool_next m a) l'
  end.

(** The bytes a pool spans: its header, its data and one spare byte. *)
Definition pool_len (m : memory) (a : Z) : Z := pool_size m a + 1.

(** A pool lies inside a block of pages the heap took from [kmalloc]. *)
Definition in_block (k : Kernel) (a n : Z) : Prop :=
  exists b, block_ok k b /\ fst b + hhdm k <= a /\ a + n <= fst b + hhdm k + snd b * 4096.

Record pool_ok (k : Kernel) (a : Z) : Prop := {
  ok_verify : pool_verify (mem k) a = 69;
  ok_required : sizeof_Pool <= pool_required (mem k) a <= pool_len (mem k) a;
  ok_block : in_block k a (pool_len (mem k) a)
}.

Record heap_inv (k : Kernel) (l : list Z) : Prop := {
  inv_wf : wf_pmm k;
  inv_chain : chain (mem k) (kheap_start k) l;
  inv_nonempty : l <> [];
  inv_nodup : NoDup l;
  inv_pool a : a ∈ l -> pool_ok k a;
  inv_disjoint a b : a ∈ l -> b ∈ l -> a <> b ->
    disjoint a (pool_len (mem k) a) b (pool_len (mem k) b)
}.

(** A block of [n] bytes handed out at [p] and not freed. *)
Definition live (k : Kernel) (l : list Z) (p n : Z) : Prop :=
  exists a, a ∈ l /\ p = a + sizeof_Pool /\ pool_is_free (mem k) a = false /\
    pool_required (mem k) a = n + sizeof_Pool.

(** The effect of [malloc(n)] returning [p]: the pool list stays well formed,
    the block is live and clear of every live block, and no byte of a live
    block changes. *)
Record malloc_post (k : Kernel) (l : list Z) (n p : Z) (k' : Kernel) (l' : list Z) : Prop := {
  mp_inv : heap_inv k' l';
  mp_live : live k' l' p n;
  mp_new j : ~ live k l p j;
  mp_fresh q j : live k l q j -> disjoint p n q j;
  mp_keep q j : live k l q j -> live k' l' q j;
  mp_frame q j : live k l q j -> agree (mem k') (mem k) q j;
  mp_config : same_config k k'
}.

(** ** Reading headers back *)

Lemma load8_agree m m' a : agree m m' a 1 -> load8 m a = load8 m' a.
Proof. intros H. unfold load8. rewrite H; [done|lia]. Qed.

Lemma pool_agree m m' a :
  agree m m' a sizeof_Pool ->
  pool_verify m a = pool_verify m' a /\ pool_size m a = pool_size m' a /\
  pool_required m a = pool_required m' a /\ pool_next m a = pool_next m' a /\
  pool_is_free m a = pool_is_free m' a.
Proof.
  unfold sizeof_Pool. intros H.
  assert (forall i n, 0 <= i -> i + Z.of_nat n <= 26 -> load n m (a + i) = load n m' (a + i)) as Hl.
  { intros i n Hi Hn. apply load_agree. eapply agree_sub; [exact H|lia|lia]. }
  unfold pool_verify, pool_size, pool_required, pool_next, pool_is_free.
  rewrite (load8_agree m m' a), (load8_agree m m' (a + 25))
    by (eapply agree_sub; [exact H|lia|lia]).
  by rewrite !Hl by lia.
Qed.

Lemma load8_store_other n m a v b :
  ~ (a <= b < a + Z.of_nat n) -> load8 (store n m a v) b = load8 m b.
Proof. intros H. apply load8_agree, store_agree. unfold disjoint. lia. Qed.

(** One header field read through a write of another field of the header. *)
Ltac other_field :=
  unfold pool_verify, pool_size, pool_required, pool_next, pool_is_free,
    set_verify, set_size, set_required, set_next, set_free, store8;
  first [ rewrite load_store_other by (unfold disjoint; lia); reflexivity
        | rewrite load8_store_other by lia; reflexivity ].

Lemma set_free_fields m a b :
  let m' := set_free a b m in
  pool_verify m' a = pool_verify m a /\ pool_size m' a = pool_size m a /\
  pool_required m' a = pool_required m a /\ pool_next m' a = pool_next m a /\
  pool_is_free m' a = b.
Proof.
  cbv zeta. split_and!; [other_field..|].
  unfold pool_is_free, set_free. rewrite load8_store8_same. by destruct b.
Qed.

Lemma set_required_fields m a v :
  0 <= v < 2 ^ 64 ->
  let m' := set_required a v m in
  pool_verify m' a = pool_verify m a /\ pool_size m' a = pool_size m a /\
  pool_required m' a = v /\ pool_next m' a = pool_next m a /\
  pool_is_free m' a = pool_is_free m a.
Proof.
  intros Hv. cbv zeta. split_and!; try other_field.
  unfold pool_required, set_required. rewrite load_store_same. by apply Z.mod_small.
Qed.

Lemma set_size_fields m a v :
  0 <= v < 2 ^ 64 ->
  let m' := set_size a v m in
  pool_verify m' a = pool_verify m a /\ pool_size m' a = v /\
  pool_required m' a = pool_required m a /\ pool_next m' a = pool_next m a /\
  pool_is_free m' a = pool_is_free m a.
Proof.
  intros Hv. cbv zeta. split_and!; try other_field.
  unfold pool_size, set_size. rewrite load_store_same. by apply Z.mod_small.
Qed.

Lemma set_next_fields m a v :
  0 <= v < 2 ^ 64 ->
  let m' := set_next a v m in
  pool_verify m' a = pool_verify m a /\ pool_size m' a = pool_size m a /\
  pool_required m' a = pool_required m a /\ pool_next m' a = v /\
  pool_is_free m' a = pool_is_free m a.
Proof.
  intros Hv. cbv zeta. split_and!; try other_field.
  unfold pool_next, set_next. rewrite load_store_same. by apply Z.mod_small.
Qed.

Lemma set_free_agree m a b c n : disjoint a sizeof_Pool c n -> agree (set_free a b m) m c n.
Proof. intros H. apply store_agree. unfold disjoint, sizeof_Pool in *. lia. Qed.
Lemma set_required_agree m a v c n :
  disjoint a sizeof_Pool c n -> agree (set_required a v m) m c n.
Proof. intros H. apply store_agree. unfold disjoint, sizeof_Pool in *. lia. Qed.
Lemma set_size_agree m a v c n : disjoint a sizeof_Pool c n -> agree (set_size a v m) m c n.
Proof. intros H. apply store_agree. unfold disjoint, sizeof_Pool in *. lia. Qed.
Lemma set_next_agree m a v c n : disjoint a sizeof_Pool c n -> agree (set_next a v m) m c n.
Proof. intros H. apply store_agree. unfold disjoint, sizeof_Pool in *. lia. Qed.
Lemma store_pool_agree m a p c n :
  disjoint a sizeof_Pool c n -> agree (store_pool a p m) m c n.
Proof.
  intros H. unfold store_pool.
  eapply agree_trans; [by apply set_free_agree|].
  eapply agree_trans; [by apply set_next_agree|].
  eapply agree_trans; [by apply set_required_agree|].
  eapply agree_trans; [by apply set_size_agree|].
  apply store_agree. unfold disjoint, sizeof_Pool in *. lia.
Qed.

Lemma store_pool_fields m a p :
  0 <= size p < 2 ^ 64 -> 0 <= required_size p < 2 ^ 64 -> 0 <= next_pool p < 2 ^ 64 ->
  verify p = 69 ->
  let m' := store_pool a p m in
  pool_verify m' a = 69 /\ pool_size m' a = size p /\ pool_required m' a = required_size p /\
  pool_next m' a = next_pool p /\ pool_is_free m' a = pool_free p.
Proof.
  intros Hs Hr Hn Hv. unfold store_pool. cbv zeta.
  set (m1 := set_verify a (verify p) m). set (m2 := set_size a (size p) m1).
  set (m3 := set_required a (required_size p) m2). set (m4 := set_next a (next_pool p) m3).
  destruct (set_free_fields m4 a (pool_free p)) as (-> & -> & -> & -> & ->).
  destruct (set_next_fields m3 a (next_pool p) Hn) as (Hv4 & Hs4 & Hr4 & Hn4 & _).
  destruct (set_required_fields m2 a (required_size p) Hr) as (Hv3 & Hs3 & Hr3 & _).
  destruct (set_size_fields m1 a (size p) Hs) as (Hv2 & Hs2 & _).
  fold m2 in Hv2, Hs2. fold m3 in Hv3, Hs3, Hr3. fold m4 in Hv4, Hs4, Hr4, Hn4.
  split_and!; try congruence.
  rewrite Hv4, Hv3, Hv2. unfold m1, pool_verify, set_verify.
  rewrite load8_store8_same, Hv. done.
Qed.

(** ** Pools and blocks *)

(** A pool's address, length and fields are in the range of [uint64_t]. *)
Lemma pool_space k a :
  wf_pmm k -> pool_ok k a ->
  4096 <= a /\ a + pool_len (mem k) a < 2 ^ 64 /\
  0 <= pool_next (mem k) a < 2 ^ 64 /\ 26 <= pool_len (mem k) a.
Proof.
  intros Hwf [_ Hr (b & Hb & H1 & H2)]. destruct (block_space k b Hwf Hb) as (? & ? & ?).
  unfold sizeof_Pool in *. split_and!; try lia; apply load64_range.
Qed.

Lemma in_block_sub k a n b j : in_block k a n -> a <= b -> b + j <= a + n -> in_block k b j.
Proof. intros (c & Hc & H1 & H2) Ha Hb. exists c. split; [done|lia]. Qed.

(** Blocks survive a change inside one of them. *)
Lemma in_block_frame k f a n b j :
  wf_pmm k -> in_block k a n ->
  (forall x, ~ (a <= x < a + n) -> f (mem k) x = mem k x) ->
  in_block k b j -> in_block (set_mem f k) b j.
Proof.
  intros Hwf (c & Hc & H1 & H2) Hf (d & Hd & H3 & H4). exists d.
  split; [|done]. eapply (block_ok_frame k _ c d); try done.
  intros x Hx. apply Hf. lia.
Qed.

Lemma pool_same k k' a :
  hhdm k' = hhdm k -> agree (mem k') (mem k) a sizeof_Pool ->
  (in_block k a (pool_len (mem k) a) -> in_block k' a (pool_len (mem k) a)) ->
  pool_ok k a -> pool_ok k' a /\ pool_len (mem k') a = pool_len (mem k) a.
Proof.
  intros Hh Hag Hb [Hv Hr Hk]. destruct (pool_agree _ _ _ Hag) as (Ev & Es & Er & _).
  assert (pool_len (mem k') a = pool_len (mem k) a) as El by (unfold pool_len; by rewrite Es).
  split; [|done]. constructor; rewrite ?Ev, ?Er, ?El; auto.
Qed.

Lemma chain_agree m m' a l :
  (forall x, x ∈ l -> pool_next m' x = pool_next m x) -> chain m a l -> chain m' a l.
Proof.
  revert a. induction l as [|x l IH]; intros a H; [done|].
  intros (-> & Ha & Hc). split_and!; try done. rewrite H by left.
  apply IH; [|done]. intros y Hy. apply H. by right.
Qed.

(** ** The heap changes inside one pool *)

(** A change of memory inside the pool [a], whose header stays valid, keeps the
    heap well formed: client writes to the data, and [free]. *)
Lemma heap_inv_inside k l f a :
  heap_inv k l -> a ∈ l ->
  (forall x, ~ (a <= x < a + pool_len (mem k) a) -> f (mem k) x = mem k x) ->
  pool_verify (f (mem k)) a = 69 ->
  pool_size (f (mem k)) a = pool_size (mem k) a ->
  pool_next (f (mem k)) a = pool_next (mem k) a ->
  sizeof_Pool <= pool_required (f (mem k)) a <= pool_len (mem k) a ->
  heap_inv (set_mem f k) l.
Proof.
  intros Hinv Ha Hf Hv Hs Hn Hr. destruct Hinv as [Hwf Hc Hne Hnd Hp Hd].
  assert (in_block k a (pool_len (mem k) a)) as Hba by apply (Hp a Ha).
  assert (forall b, b ∈ l -> pool_ok (set_mem f k) b /\
    pool_len (f (mem k)) b = pool_len (mem k) b /\
    pool_next (f (mem k)) b = pool_next (mem k) b) as Hall.
  { intros b Hb. destruct (decide (b = a)) as [->|Hneq].
    - assert (pool_len (f (mem k)) a = pool_len (mem k) a) as El by (unfold pool_len; by rewrite Hs).
      split; [|done]. constructor; cbn [set_mem mem]; [done|by rewrite El|].
      rewrite El. eapply in_block_frame; eauto.
    - assert (agree (f (mem k)) (mem k) b sizeof_Pool) as Hag.
      { intros x Hx. apply Hf. destruct (pool_space k b Hwf (Hp b Hb)) as (_ & _ & _ & ?).
        pose proof (Hd b a Hb Ha Hneq) as Hdis. unfold disjoint, sizeof_Pool in *. lia. }
      destruct (pool_same k (set_mem f k) b) as [Hok El]; try done; [|by apply Hp|].
      + eapply in_block_frame; eauto.
      + split_and!; [done|exact El|]. by destruct (pool_agree _ _ _ Hag) as (_ & _ & _ & ? & _). }
  constructor; try done.
  - by eapply wf_same_config; [apply same_config_set_mem|].
  - eapply chain_agree; [|exact Hc]. intros x Hx. by apply Hall.
  - intros b Hb. by apply Hall.
  - intros b c Hb Hc' Hbc. cbn [set_mem mem].
    destruct (Hall b Hb) as (_ & -> & _). destruct (Hall c Hc') as (_ & -> & _). auto.
Qed.

Lemma live_pool k l q j :
  heap_inv k l -> live k l q j ->
  exists b, b ∈ l /\ q = b + sizeof_Pool /\ pool_is_free (mem k) b = false /\
    pool_required (mem k) b = j + sizeof_Pool /\ q + j <= b + pool_len (mem k) b.
Proof.
  intros Hinv (b & Hb & -> & Hf & Hr). exists b. split_and!; try done.
  destruct (inv_pool k l Hinv b Hb) as [_ Hreq _]. lia.
Qed.

(** First branch of [malloc]: a free pool is taken. *)
Definition take_pool (a n : Z) (m : memory) : memory :=
  set_required a (n + sizeof_Pool) (set_free a false m).

Lemma take_pool_agree a n m c j : disjoint a sizeof_Pool c j -> agree (take_pool a n m) m c j.
Proof.
  intros H. eapply agree_trans; [by apply set_required_agree|by apply set_free_agree].
Qed.

Lemma malloc_take k l a n :
  heap_inv k l -> a ∈ l -> 0 <= n -> pool_is_free (mem k) a = true ->
  pool_size (mem k) a > n + sizeof_Pool ->
  malloc_post k l n (a + sizeof_Pool) (set_mem (take_pool a n) k) l.
Proof.
  intros Hinv Ha Hn Hfree Hsize. unfold sizeof_Pool in Hsize.
  destruct (pool_space k a (inv_wf k l Hinv) (inv_pool k l Hinv a Ha)) as (? & ? & ? & ?).
  assert (0 <= n + 26 < 2 ^ 64) as Hn26 by (unfold pool_len in *; lia).
  destruct (set_free_fields (mem k) a false) as (Ev1 & Es1 & Er1 & En1 & Ef1).
  destruct (set_required_fields (set_free a false (mem k)) a (n + 26) Hn26)
    as (Ev & Es & Er & En & Ef).
  assert (forall q j, live k l q j -> exists b, b ∈ l /\ b <> a /\ q = b + 26 /\
    pool_is_free (mem k) b = false /\ pool_required (mem k) b = j + 26 /\
    disjoint a (pool_len (mem k) a) b (pool_len (mem k) b) /\
    q + j <= b + pool_len (mem k) b /\ agree (take_pool a n (mem k)) (mem k) b 26) as Hother.
  { intros q j Hl. destruct (live_pool k l q j Hinv Hl) as (b & Hb & -> & Hf & Hr & Hq).
    assert (b <> a) as Hne by congruence. exists b.
    pose proof (inv_disjoint k l Hinv a b Ha Hb ltac:(done)) as Hd.
    destruct (pool_space k b (inv_wf k l Hinv) (inv_pool k l Hinv b Hb)) as (? & ? & ? & ?).
    split_and!; try done. apply take_pool_agree. unfold disjoint, sizeof_Pool in *. lia. }
  constructor.
  - apply (heap_inv_inside k l (take_pool a n) a); try done; unfold take_pool, sizeof_Pool.
    + intros x Hx. assert (agree (take_pool a n (mem k)) (mem k) x 1) as Hag.
      { apply take_pool_agree. unfold disjoint, sizeof_Pool. lia. }
      apply Hag. lia.
    + rewrite Ev, Ev1. apply (inv_pool k l Hinv a Ha).
    + congruence.
    + congruence.
    + rewrite Er. unfold pool_len. lia.
  - exists a. cbn [set_mem mem]. unfold take_pool, sizeof_Pool. split_and!; try done.
    congruence.
  - intros j Hl. destruct (Hother _ _ Hl) as (b & _ & Hne & Hb & _). unfold sizeof_Pool in Hb. lia.
  - intros q j Hl. destruct (Hother q j Hl) as (b & _ & _ & -> & _ & _ & Hd & Hq & _).
    unfold disjoint, sizeof_Pool, pool_len in *. lia.
  - intros q j Hl. destruct (Hother q j Hl) as (b & Hb & Hne & -> & Hf & Hr & _ & _ & Hag).
    exists b. destruct (pool_agree _ _ _ Hag) as (_ & _ & Er' & _ & Ef').
    cbn [set_mem mem]. unfold sizeof_Pool. split_and!; congruence.
  - intros q j Hl. destruct (Hother q j Hl) as (b & _ & _ & -> & _ & _ & Hd & Hq & _).
    cbn [set_mem mem]. apply take_pool_agree. unfold disjoint, sizeof_Pool, pool_len in *. lia.
  - apply same_config_set_mem.
Qed.

(** Second branch: the unused tail of a pool becomes a pool of its own. *)
Definition split_at (a n : Z) (m : memory) : memory :=
  let new := a + pool_required m a + 1 in
  set_next a new (set_size a (pool_required m a)
    (store_pool new
      (create_pool (pool_size m a - pool_required m a) (sizeof_Pool + n) (pool_next m a) false) m)).

Lemma chain_insert m m' l1 a new l2 s :
  a ∉ l1 -> a ∉ l2 -> a <> new -> new <> 0 ->
  (forall x, x ∈ l1 ++ l2 -> pool_next m' x = pool_next m x) ->
  pool_next m' a = new -> pool_next m' new = pool_next m a ->
  chain m s (l1 ++ a :: l2) -> chain m' s (l1 ++ a :: new :: l2).
Proof.
  revert s. induction l1 as [|x l1 IH]; intros s H1 H2 Han Hnew Hsame Ha Hnn Hc; cbn [app chain] in *.
  - destruct Hc as (<- & Hs & Hc). rewrite Ha, Hnn. split_and!; try done.
    eapply chain_agree; [|exact Hc]. done.
  - destruct Hc as (<- & Hs & Hc). split_and!; try done.
    rewrite (Hsame x) by left. apply IH; try done.
    + intros Hin. apply H1. by right.
    + intros y Hy. apply Hsame. by right.
Qed.

Lemma heap_nodup_at k l1 a l2 :
  heap_inv k (l1 ++ a :: l2) -> (a ∉ l1) /\ (a ∉ l2) /\ NoDup (l1 ++ l2).
Proof.
  intros Hinv. pose proof (inv_nodup _ _ Hinv) as Hnd. apply NoDup_app in Hnd as (H1 & H2 & H3).
  apply NoDup_cons in H3 as [H3 H4]. split_and!.
  - intros Hin. apply (H2 a Hin). by left.
  - done.
  - apply NoDup_app. split_and!; try done. intros x Hx Hx2. apply (H2 x Hx). by right.
Qed.

(** ** Adding a pool after the pool [a] *)
Section Insert.
Context (k k' : Kernel) (l1 l2 : list Z) (a new n : Z).
Context (Hinv : heap_inv k (l1 ++ a :: l2)).
Context (Hcfg : same_config k k') (Hwf' : wf_pmm k').
(** Pages already in use stay in use. *)
Context (Hblock : forall c j, in_block k c j -> in_block k' c j).
(** The headers of the other pools are untouched. *)
Context (Hother : forall b, b ∈ l1 ++ l2 -> agree (mem k') (mem k) b sizeof_Pool).
(** The pool [a] keeps its block, may shrink, and points to the new pool. *)
Context (Ha_ok : pool_ok k' a) (Ha_len : pool_len (mem k') a <= pool_len (mem k) a).
Context (Ha_req : pool_required (mem k') a = pool_required (mem k) a).
Context (Ha_free : pool_is_free (mem k') a = pool_is_free (mem k) a).
Context (Ha_next : pool_next (mem k') a = new).
(** The new pool holds the new block and is clear of the others. *)
Context (Hn_ok : pool_ok k' new) (Hn_next : pool_next (mem k') new = pool_next (mem k) a).
Context (Hn_free : pool_is_free (mem k') new = false).
Context (Hn_req : pool_required (mem k') new = n + sizeof_Pool).
Context (Hn_a : disjoint a (pool_len (mem k') a) new (pool_len (mem k') new)).
Context (Hn_b : forall b, b ∈ l1 ++ l2 ->
  disjoint b (pool_len (mem k) b) new (pool_len (mem k') new)).

Lemma elem_insert b : b ∈ l1 ++ a :: new :: l2 <-> b = a \/ b = new \/ b ∈ l1 ++ l2.
Proof using. rewrite !elem_of_app, !elem_of_cons. tauto. Qed.
Lemma elem_before b : b ∈ l1 ++ a :: l2 <-> b = a \/ b ∈ l1 ++ l2.
Proof using. rewrite !elem_of_app, !elem_of_cons. tauto. Qed.

Lemma insert_other b : b ∈ l1 ++ l2 ->
  pool_ok k' b /\ pool_len (mem k') b = pool_len (mem k) b /\
  pool_next (mem k') b = pool_next (mem k) b.
Proof using All.
  intros Hb. pose proof (Hother b Hb) as Hag.
  destruct (pool_same k k' b) as [H1 H2]; [apply Hcfg|done|auto| |].
  - apply (inv_pool _ _ Hinv). apply elem_before. by right.
  - split_and!; try done. by destruct (pool_agree _ _ _ Hag) as (_ & _ & _ & ? & _).
Qed.

Lemma insert_new_fresh : new <> a /\ new ∉ l1 ++ l2.
Proof using All.
  destruct (pool_space k' new Hwf' Hn_ok) as (_ & _ & _ & Hl).
  destruct (pool_space k' a Hwf' Ha_ok) as (_ & _ & _ & Hla).
  split.
  - intros ->. unfold disjoint in Hn_a. lia.
  - intros Hin. pose proof (Hn_b _ Hin) as Hd. destruct (insert_other _ Hin) as (_ & Hlen & _).
    rewrite <- Hlen in Hd. unfold disjoint in Hd. lia.
Qed.

Lemma insert_inv : heap_inv k' (l1 ++ a :: new :: l2).
Proof using All.
  destruct (heap_nodup_at _ _ _ _ Hinv) as (Ha1 & Ha2 & Hnd). destruct insert_new_fresh as [Hna Hnl].
  destruct (pool_space k' new Hwf' Hn_ok) as (Hn0 & _).
  constructor; try done.
  - destruct Hcfg as (_ & _ & _ & _ & _ & ->).
    apply (chain_insert (mem k)); try done; [lia| |by apply (inv_chain _ _ Hinv)].
    intros x Hx. by apply insert_other.
  - by destruct l1.
  - apply NoDup_app in Hnd as (H1 & H2 & H3). rewrite elem_of_app in Hnl.
    apply NoDup_app. split_and!; [done| |].
    + intros x Hx. rewrite !elem_of_cons. intros [->|[->|Hx2]]; [done|tauto|by apply (H2 x)].
    + apply NoDup_cons. split; [rewrite elem_of_cons; intros [?|?]; [congruence|done]|].
      apply NoDup_cons. split; [tauto|done].
  - intros b Hb. apply elem_insert in Hb as [->|[->|Hb]]; try done. by apply insert_other.
  - intros b c Hb Hc Hbc.
    assert (forall x, x ∈ l1 ++ l2 -> disjoint x (pool_len (mem k) x) a (pool_len (mem k') a)) as Hxa.
    { intros x Hx. assert (x <> a) as Hne.
      { intros ->. apply elem_of_app in Hx. tauto. }
      pose proof (inv_disjoint _ _ Hinv x a ltac:(apply elem_before; by right)
        ltac:(apply elem_before; by left) Hne). unfold disjoint in *. lia. }
    apply elem_insert in Hb as [->|[->|Hb]]; apply elem_insert in Hc as [->|[->|Hc]]; try done.
    + destruct (insert_other c Hc) as (_ & -> & _). specialize (Hxa c Hc).
      unfold disjoint in *. lia.
    + unfold disjoint in *. lia.
    + destruct (insert_other c Hc) as (_ & -> & _). specialize (Hn_b c Hc).
      unfold disjoint in *. lia.
    + destruct (insert_other b Hb) as (_ & -> & _). apply (Hxa b Hb).
    + destruct (insert_other b Hb) as (_ & -> & _). apply (Hn_b b Hb).
    + destruct (insert_other b Hb) as (_ & -> & _).
      destruct (insert_other c Hc) as (_ & -> & _).
      apply (inv_disjoint _ _ Hinv); [apply elem_before; by right..|done].
Qed.

Lemma insert_live q j :
  live k (l1 ++ a :: l2) q j -> live k' (l1 ++ a :: new :: l2) q j.
Proof using All.
  intros (b & Hb & -> & Hf & Hr). exists b. rewrite elem_insert.
  apply elem_before in Hb as [->|Hb].
  - split_and!; [by left|done|congruence..].
  - destruct (pool_agree _ _ _ (Hother b Hb)) as (_ & _ & -> & _ & ->).
    split_and!; try done. tauto.
Qed.

Lemma insert_post :
  (forall q j, live k (l1 ++ a :: l2) q j -> agree (mem k') (mem k) q j) ->
  malloc_post k (l1 ++ a :: l2) n (new + sizeof_Pool) k' (l1 ++ a :: new :: l2).
Proof using All.
  intros Hframe. constructor; try done.
  - exact insert_inv.
  - exists new. rewrite elem_insert. split_and!; try done. tauto.
  - intros j (b & Hb & Hq & _). assert (b = new) as -> by lia.
    destruct insert_new_fresh as [? ?]. apply elem_before in Hb as [?|?]; done.
  - intros q j Hl. pose proof (insert_live q j Hl) as (b & Hb & -> & Hf & Hr).
    destruct Hl as (b' & Hb' & Hq & Hf' & Hr'). assert (b' = b) as -> by lia.
    destruct Hn_ok as [_ Hreqn _]. unfold sizeof_Pool in *.
    apply elem_before in Hb' as [->|Hb'].
    + destruct Ha_ok as [_ Hreqa _]. unfold disjoint, sizeof_Pool in *. lia.
    + destruct (insert_other b Hb') as ([_ Hreqb _] & Hlen & _). specialize (Hn_b b Hb').
      unfold disjoint, sizeof_Pool in *. lia.
  - exact insert_live.
Qed.
End Insert.

Lemma split_at_fields a n m :
  let r := pool_required m a in
  let new := a + r + 1 in
  let m' := split_at a n m in
  0 <= a -> 26 <= r -> 0 <= n -> r + n + 26 < pool_size m a -> a + pool_size m a < 2 ^ 64 ->
  (pool_verify m' a = pool_verify m a /\ pool_size m' a = r /\ pool_required m' a = r /\
   pool_next m' a = new /\ pool_is_free m' a = pool_is_free m a) /\
  (pool_verify m' new = 69 /\ pool_size m' new = pool_size m a - r - 1 /\
   pool_required m' new = n + 26 /\ pool_next m' new = pool_next m a /\
   pool_is_free m' new = false).
Proof.
  cbv zeta. intros Ha Hr Hn Hs Hsp. unfold split_at. cbv zeta.
  set (r := pool_required m a) in *. set (new := a + r + 1).
  set (p := create_pool _ _ _ _). set (m1 := store_pool new p m).
  destruct (store_pool_fields m new p) as (V1 & S1 & R1 & N1 & F1); unfold p, create_pool;
    cbn [verify size required_size next_pool pool_free]; try rewrite u64_small by lia;
    try (unfold sizeof_Pool; lia); [apply load64_range|]. fold m1 in V1, S1, R1, N1, F1.
  assert (agree m1 m a sizeof_Pool) as Ag1.
  { apply store_pool_agree. unfold disjoint, sizeof_Pool, new. lia. }
  destruct (pool_agree _ _ _ Ag1) as (V0 & S0 & R0 & N0 & F0). fold r in R0.
  destruct (set_size_fields m1 a r) as (V2 & S2 & R2 & N2 & F2); [lia|].
  destruct (set_next_fields (set_size a r m1) a new) as (V3 & S3 & R3 & N3 & F3);
    [unfold new; lia|].
  split; [split_and!; congruence|].
  assert (agree (set_next a new (set_size a r m1)) m1 new sizeof_Pool) as Ag2.
  { eapply agree_trans; [apply set_next_agree|apply set_size_agree];
      unfold disjoint, sizeof_Pool, new; lia. }
  destruct (pool_agree _ _ _ Ag2) as (V4 & S4 & R4 & N4 & F4).
  unfold p, create_pool in *. cbn [size required_size next_pool pool_free] in *.
  rewrite u64_small in S1 by lia. unfold sizeof_Pool in R1.
  split_and!; try congruence; lia.
Qed.

Lemma split_at_agree a n m c j :
  26 <= pool_required m a -> disjoint a sizeof_Pool c j ->
  disjoint (a + pool_required m a + 1) sizeof_Pool c j -> agree (split_at a n m) m c j.
Proof.
  intros Hr H1 H2. unfold split_at. cbv zeta.
  eapply agree_trans; [by apply set_next_agree|].
  eapply agree_trans; [by apply set_size_agree|]. by apply store_pool_agree.
Qed.

Lemma malloc_split k l1 a l2 n :
  heap_inv k (l1 ++ a :: l2) -> 0 <= n ->
  pool_size (mem k) a > pool_required (mem k) a + n + sizeof_Pool ->
  let new := a + pool_required (mem k) a + 1 in
  malloc_post k (l1 ++ a :: l2) n (new + sizeof_Pool)
    (set_mem (split_at a n) k) (l1 ++ a :: new :: l2).
Proof.
  intros Hinv Hn Hs. cbv zeta. set (new := a + _ + 1). unfold sizeof_Pool in Hs.
  assert (Hin : a ∈ l1 ++ a :: l2) by (apply elem_of_app; right; left).
  pose proof (inv_pool _ _ Hinv a Hin) as Hok.
  destruct (pool_space k a (inv_wf _ _ Hinv) Hok) as (Ha & Hsp & _ & _).
  destruct Hok as [Hv Hreq Hblk]. unfold pool_len, sizeof_Pool in *.
  destruct (split_at_fields a n (mem k)) as [(V & S & R & N & F) (V' & S' & R' & N' & F')];
    try lia. fold new in N, V', S', R', N', F'.
  assert (Hag : forall c j, disjoint a (pool_len (mem k) a) c j ->
    agree (split_at a n (mem k)) (mem k) c j).
  { intros c j Hd. unfold pool_len in Hd.
    apply split_at_agree; unfold disjoint, sizeof_Pool in *; lia. }
  assert (Hfr : forall x, ~ (a <= x < a + pool_len (mem k) a) ->
    split_at a n (mem k) x = mem k x).
  { intros x Hx. apply (Hag x 1); [unfold disjoint; lia|lia]. }
  assert (Hd_other : forall b, b ∈ l1 ++ l2 ->
    disjoint b (pool_len (mem k) b) a (pool_len (mem k) a)).
  { intros b Hb. apply (inv_disjoint _ _ Hinv); [|done|].
    - rewrite elem_of_app, elem_of_cons in *. tauto.
    - intros ->. destruct (heap_nodup_at _ _ _ _ Hinv) as (? & ? & _).
      rewrite elem_of_app in Hb. tauto. }
  pose proof (in_block_frame k (split_at a n) a (pool_len (mem k) a)) as Hbf.
  apply insert_post; cbn [set_mem mem]; try done; unfold pool_len, sizeof_Pool in *.
  - by eapply wf_same_config; [apply same_config_set_mem|apply (inv_wf _ _ Hinv)].
  - intros c j Hc. apply Hbf; try done. apply (inv_wf _ _ Hinv).
  - intros b Hb. specialize (Hd_other b Hb).
    destruct (pool_space k b (inv_wf _ _ Hinv)) as (_ & _ & _ & ?).
    { apply (inv_pool _ _ Hinv). rewrite elem_of_app, elem_of_cons in *. tauto. }
    apply Hag. unfold disjoint, pool_len in *. lia.
  - constructor; cbn [set_mem mem]; unfold pool_len, sizeof_Pool; rewrite ?V, ?R, ?S; try done; [lia|].
    apply Hbf; try done; [apply (inv_wf _ _ Hinv)|].
    eapply in_block_sub; [exact Hblk|lia|lia].
  - rewrite S. lia.
  - constructor; cbn [set_mem mem]; unfold pool_len, sizeof_Pool; rewrite ?V', ?R', ?S'; try done; [lia|].
    apply Hbf; try done; [apply (inv_wf _ _ Hinv)|].
    eapply in_block_sub; [exact Hblk|unfold new; lia|unfold new; lia].
  - rewrite S, S'. unfold disjoint, new. lia.
  - intros b Hb. specialize (Hd_other b Hb). rewrite S'. unfold disjoint, new in *. lia.
  - intros q j Hl. destruct (live_pool _ _ _ _ Hinv Hl) as (b & Hb & -> & Hf & Hr & Hq).
    unfold sizeof_Pool in *. rewrite elem_of_app, elem_of_cons in Hb.
    destruct (decide (b = a)) as [->|Hne].
    + apply split_at_agree; unfold disjoint, sizeof_Pool; lia.
    + apply Hag. specialize (Hd_other b ltac:(rewrite elem_of_app; tauto)).
      unfold disjoint, pool_len in *. lia.
Qed.

(** Third branch: fresh pages become the last pool. *)
Lemma in_block_alloc k i e p np k1 a j :
  wf_pmm k -> 1 <= np -> alloc_post k i e p np k1 -> in_block k a j -> 0 < j ->
  in_block k1 a j /\ agree (mem k1) (mem k) a j /\
  disjoint a j (page_addr e p + hhdm k) (np * 4096).
Proof.
  intros Hwf Hnp Hp (b & Hb & H1 & H2) Hj.
  destruct (block_alloc_frame k i e p np k1 b Hwf Hnp Hp Hb) as [Hag Hd].
  destruct (post_config _ _ _ _ _ _ Hp) as (_ & Hh & _). split_and!.
  - exists b. rewrite Hh. split; [by eapply block_ok_alloc|lia].
  - eapply agree_sub; [exact Hag|lia|lia].
  - unfold disjoint in *. lia.
Qed.

Definition grow_at (a new n bytes : Z) (m : memory) : memory :=
  store_pool new (create_pool bytes (n + sizeof_Pool) 0 false) (set_next a new m).

Section Grow.
Context (k : Kernel) (l1 : list Z) (a n : Z) (i : nat) (e : memmap_entry) (p np : Z) (k1 : Kernel).
Context (Hinv : heap_inv k (l1 ++ [a])) (Hn : 0 <= n) (Hnext : pool_next (mem k) a = 0).
Context (Hnp : 1 <= np) (Hbytes : n + sizeof_Pool <= np * 4096).
Context (Hpost : alloc_post k i e p np k1).
Let new := page_addr e p + hhdm k.
Let k2 := set_mem (grow_at a new n (np * 4096)) k1.

Lemma grow_wf : wf_pmm k1 /\ hhdm k1 = hhdm k /\ block_ok k1 (page_addr e p, np) /\
  4096 <= new /\ new + np * 4096 < 2 ^ 64.
Proof using All.
  pose proof (inv_wf _ _ Hinv) as Hwf.
  pose proof (post_config _ _ _ _ _ _ Hpost) as Hcfg. pose proof Hcfg as (_ & Hh & _).
  pose proof (wf_same_config _ _ Hcfg Hwf) as Hwf1.
  pose proof (block_ok_new _ _ _ _ _ _ Hwf Hnp Hpost) as Hnew.
  destruct (block_space k1 _ Hwf1 Hnew) as (? & ? & _). cbn [fst snd] in *.
  rewrite Hh in *. by split_and!.
Qed.

Lemma grow_keep b : b ∈ l1 ++ [a] ->
  in_block k1 b (pool_len (mem k) b) /\ agree (mem k1) (mem k) b (pool_len (mem k) b) /\
  disjoint b (pool_len (mem k) b) new (np * 4096) /\ 26 <= pool_len (mem k) b.
Proof using All.
  intros Hb. pose proof (inv_pool _ _ Hinv b Hb) as Hok.
  destruct (pool_space k b (inv_wf _ _ Hinv) Hok) as (_ & _ & _ & Hl).
  destruct (in_block_alloc k i e p np k1 b (pool_len (mem k) b)
    (inv_wf _ _ Hinv) Hnp Hpost (ok_block _ _ Hok) ltac:(lia)) as (? & ? & ?).
  by split_and!.
Qed.

Lemma grow_in : a ∈ l1 ++ [a].
Proof using. apply elem_of_app. right. by left. Qed.

Lemma grow_agree c j :
  disjoint a sizeof_Pool c j -> disjoint new sizeof_Pool c j -> agree (mem k2) (mem k1) c j.
Proof using.
  intros H1 H2. eapply agree_trans; [by apply store_pool_agree|by apply set_next_agree].
Qed.

Lemma grow_block c j : in_block k1 c j -> in_block k2 c j.
Proof using All.
  destruct grow_wf as (Hwf1 & Hh & Hnew & _).
  destruct (grow_keep a grow_in) as (Hba & _ & _ & Hla).
  assert (forall c j, in_block k1 c j -> in_block (set_mem (set_next a new) k1) c j) as H1.
  { intros c' j' Hc'. eapply (in_block_frame k1 _ a (pool_len (mem k) a)); try done.
    intros x Hx. apply (set_next_agree (mem k1) a new x 1); [unfold disjoint, sizeof_Pool; lia|lia]. }
  intros Hc. eapply (in_block_frame (set_mem (set_next a new) k1)
    (store_pool new (create_pool (np * 4096) (n + sizeof_Pool) 0 false)) new (np * 4096)).
  - by eapply wf_same_config; [apply same_config_set_mem|].
  - apply H1. eexists. split; [exact Hnew|]. cbn [fst snd]. rewrite Hh. unfold new. lia.
  - intros x Hx. eapply (store_pool_agree _ new _ x 1); [unfold disjoint, sizeof_Pool; lia|lia].
  - by apply H1.
Qed.

Lemma grow_new_fields :
  pool_verify (mem k2) new = 69 /\ pool_len (mem k2) new = np * 4096 /\
  pool_required (mem k2) new = n + 26 /\ pool_next (mem k2) new = 0 /\
  pool_is_free (mem k2) new = false.
Proof using All.
  destruct grow_wf as (_ & _ & _ & ? & ?). unfold sizeof_Pool in Hbytes.
  destruct (store_pool_fields (set_next a new (mem k1)) new
    (create_pool (np * 4096) (n + sizeof_Pool) 0 false)) as (V2 & S2 & R2 & N2 & F2);
    unfold create_pool; cbn [verify size required_size next_pool pool_free];
    try rewrite u64_small by lia; try done; try (unfold sizeof_Pool; lia).
  split_and!; try done. unfold pool_len. etransitivity; [apply (f_equal (fun z => z + 1) S2)|].
  cbn [create_pool size]. rewrite u64_small by lia. lia.
Qed.

Lemma grow_a_fields :
  pool_verify (mem k2) a = pool_verify (mem k) a /\ pool_len (mem k2) a = pool_len (mem k) a /\
  pool_required (mem k2) a = pool_required (mem k) a /\ pool_next (mem k2) a = new /\
  pool_is_free (mem k2) a = pool_is_free (mem k) a.
Proof using All.
  destruct grow_wf as (_ & _ & _ & ? & ?).
  destruct (grow_keep a grow_in) as (_ & Hag & Hd & Hl).
  destruct (set_next_fields (mem k1) a new) as (V1 & S1 & R1 & N1 & F1); [lia|].
  assert (agree (mem k2) (set_next a new (mem k1)) a sizeof_Pool) as Ag3.
  { apply store_pool_agree. unfold disjoint, sizeof_Pool in *. lia. }
  destruct (pool_agree _ _ _ Ag3) as (V3 & S3 & R3 & N3 & F3).
  assert (agree (mem k1) (mem k) a sizeof_Pool) as Ag0
    by (eapply agree_sub; [exact Hag|lia|unfold sizeof_Pool; lia]).
  destruct (pool_agree _ _ _ Ag0) as (V0 & S0 & R0 & N0 & F0).
  unfold pool_len. split_and!; congruence.
Qed.

Lemma grow_other b : b ∈ l1 -> agree (mem k2) (mem k) b (pool_len (mem k) b).
Proof using All.
  intros Hb. assert (b ∈ l1 ++ [a]) as Hb' by (apply elem_of_app; by left).
  destruct (grow_keep b Hb') as (_ & Hag & Hd & Hl).
  destruct (grow_keep a grow_in) as (_ & _ & _ & Hla).
  destruct (heap_nodup_at _ _ _ _ Hinv) as (Ha1 & _).
  pose proof (inv_disjoint _ _ Hinv b a Hb' grow_in ltac:(congruence)) as Hba.
  eapply agree_trans; [|exact Hag]. apply grow_agree; unfold disjoint, sizeof_Pool in *; lia.
Qed.

Lemma malloc_grow :
  malloc_post k (l1 ++ [a]) n (new + sizeof_Pool) k2 (l1 ++ [a; new]).
Proof using All.
  destruct grow_wf as (Hwf1 & Hh & Hnew & Hn0 & Hnsp).
  destruct grow_new_fields as (V2 & S2 & R2 & N2 & F2).
  destruct grow_a_fields as (V & S & R & N & F).
  destruct (grow_keep a grow_in) as (Hba & Hag & Hd & Hl).
  assert (same_config k k2) as Hcfg.
  { eapply same_config_trans; [apply (post_config _ _ _ _ _ _ Hpost)|apply same_config_set_mem]. }
  assert (forall c j, in_block k c j -> in_block k2 c j) as Hblk.
  { intros c j (b & Hb & Hb1 & Hb2). apply grow_block. exists b. rewrite Hh.
    split; [|lia]. eapply block_ok_alloc; [apply (inv_wf _ _ Hinv)|done|done]. }
  apply (insert_post k k2 l1 [] a new n Hinv Hcfg); try done; rewrite ?app_nil_r.
  - by eapply wf_same_config; [apply same_config_set_mem|].
  - intros b Hb. destruct (grow_keep b ltac:(apply elem_of_app; by left)) as (_ & _ & _ & ?).
    eapply agree_sub; [by apply grow_other|lia|unfold sizeof_Pool; lia].
  - destruct (inv_pool _ _ Hinv a grow_in). constructor; rewrite ?V, ?S, ?R; auto.
  - rewrite S. lia.
  - constructor; rewrite ?V2, ?S2, ?R2; try done; [unfold sizeof_Pool in *; lia|].
    apply grow_block. eexists. split; [exact Hnew|]. cbn [fst snd]. rewrite Hh. unfold new. lia.
  - by rewrite N2, Hnext.
  - by rewrite S, S2.
  - intros b Hb. rewrite S2. by apply grow_keep, elem_of_app; left.
  - intros q j Hlv. destruct (live_pool _ _ _ _ Hinv Hlv) as (b & Hb & -> & _ & Hr & Hq).
    unfold sizeof_Pool in *. apply elem_of_app in Hb as [Hb|Hb].
    + destruct (inv_pool _ _ Hinv b ltac:(apply elem_of_app; by left)) as [_ ? _].
      eapply agree_sub; [by apply grow_other|lia|lia].
    + apply list_elem_of_singleton in Hb as ->.
      eapply agree_trans; [apply grow_agree; unfold disjoint, sizeof_Pool in *; lia|].
      eapply agree_sub; [exact Hag|lia|lia].
Qed.
End Grow.

(** ** [malloc] *)

(** The pool [a] can serve [n] bytes, taken whole or from its tail. *)
Definition fits (m : memory) (a n : Z) : bool :=
  (pool_is_free m a && (pool_size m a >? n + sizeof_Pool)) ||
  (pool_size m a >? pool_required m a + n + sizeof_Pool).

(** Pages [malloc] asks [kmalloc] for when no pool fits. *)
Definition pages_for (n : Z) : Z := (n + sizeof_Pool + 4095) / 4096.

(** A heap with no room left for [n] bytes. *)
Definition exhausted (k : Kernel) (l : list Z) (n : Z) : Prop :=
  (forall a, a ∈ l -> fits (mem k) a n = false) /\
  (forall i e p, ~ free_run k i e p (pages_for n)).

(** Sections are smaller than 128 MiB, so pools are too. *)
Lemma pool_len_bound k a : wf_pmm k -> pool_ok k a -> pool_len (mem k) a <= 2 ^ 27.
Proof.
  intros Hwf [_ _ (b & (i & e & p & Hi & Hu & Hp & Hb & Hpb & _) & H1 & H2)].
  pose proof (pages_in_bound k e (wf_entry k Hwf i e Hi Hu)). lia.
Qed.

Lemma PAGE_ALIGN_UP_pages n : 0 <= n < 2 ^ 63 ->
  PAGE_ALIGN_UP (u64 (n + sizeof_Pool)) = pages_for n * 4096 /\
  1 <= pages_for n < 2 ^ 52 /\ n + sizeof_Pool <= pages_for n * 4096.
Proof.
  intros H. unfold PAGE_ALIGN_UP, pages_for, sizeof_Pool.
  rewrite (u64_small (n + 26)), (u64_small (n + 26 + 4095)) by lia.
  rewrite u64_small by divlia. split_and!; divlia.
Qed.

(** What [malloc] has done when it returns or halts. *)
Definition malloc_result (k : Kernel) (l : list Z) (n : Z) (r : outcome (Z * Kernel)) : Prop :=
  (exists p k' l', r = Ok (p, k') /\ malloc_post k l n p k' l') \/
  (r = Halted /\ exhausted k l n).

Lemma split_pool_run k a n :
  0 <= a -> 26 <= pool_required (mem k) a -> 0 <= n ->
  pool_required (mem k) a + n + 26 < pool_size (mem k) a ->
  a + pool_size (mem k) a < 2 ^ 64 ->
  (let* new_pool := split_pool a n in ret (u64 (new_pool + sizeof_Pool))) k =
    Ok (a + pool_required (mem k) a + 1 + sizeof_Pool, set_mem (split_at a n) k).
Proof.
  intros Ha Hr Hn Hs Hsp. unfold split_pool, split_at, sizeof_Pool.
  unfold bind, get, modify, ret. cbn [obind]. cbv zeta.
  rewrite (u64_small (a + _)), (u64_small (a + _ + 1)), (u64_small (26 + n)),
    (u64_small (pool_size _ _ - _)), (u64_small (_ + 26)) by lia.
  do 2 f_equal. unfold set_mem. cbn [mem memmap hhdm last_freed_page last_freed_section
    last_freed_num_pages total_memory_allocated kheap_start].
  set (m1 := store_pool _ _ _). replace (pool_required m1 a) with (pool_required (mem k) a); [done|].
  symmetry. apply (pool_agree m1 (mem k) a), store_pool_agree.
  unfold disjoint, sizeof_Pool. lia.
Qed.

Lemma malloc_grow_run k l1 a n :
  heap_inv k (l1 ++ [a]) -> 0 <= n < 2 ^ 63 -> pool_next (mem k) a = 0 ->
  (forall b, b ∈ l1 ++ [a] -> fits (mem k) b n = false) ->
  malloc_result k (l1 ++ [a]) n
    ((let new_pool_size := PAGE_ALIGN_UP (n + 26) in
      let* p := kmalloc (new_pool_size / 4096) in
      let next := u64 (p + hhdm k) in
      modify (set_mem (set_next a next)) ;;;
      modify (set_mem (store_pool next (create_pool new_pool_size (n + 26) 0 false))) ;;;
      ret (u64 (next + 26))) k).
Proof.
  intros Hinv Hn Hnext Hfit. destruct (PAGE_ALIGN_UP_pages n Hn) as (Hp & Hnp & Hb).
  unfold sizeof_Pool in Hp. rewrite u64_small in Hp by lia. rewrite Hp. cbv zeta.
  rewrite Z.div_mul by lia.
  destruct (kmalloc_spec k (pages_for n) (inv_wf _ _ Hinv)) as [(i & e & p & Hr & Hk)|[Hk Hno]]; [lia|left|right].
  - pose proof (after_alloc_post k i e p _ (inv_wf _ _ Hinv) (proj1 Hnp) Hr) as Hpost.
    set (k1 := after_alloc k e p (pages_for n)) in *. clearbody k1.
    pose proof (malloc_grow k l1 a n i e p _ k1 Hinv (proj1 Hn) Hnext (proj1 Hnp) Hb Hpost) as Hg.
    destruct (grow_wf k l1 a n i e p _ k1 Hinv (proj1 Hn) Hnext (proj1 Hnp) Hb Hpost)
      as (_ & _ & _ & H0 & H1).
    rewrite (bind_run _ _ _ _ _ Hk), !bind_modify, (u64_small (page_addr e p + hhdm k)) by lia.
    unfold sizeof_Pool in Hb. rewrite u64_small by lia. eauto 6.
  - split; [unfold bind; by rewrite Hk|by split].
Qed.

Lemma chain_after m s l1 a l2 :
  chain m s (l1 ++ a :: l2) -> chain m a (a :: l2) /\ a <> 0 /\ chain m (pool_next m a) l2.
Proof.
  revert s. induction l1 as [|x l1 IH]; intros s Hc; cbn [app chain] in Hc.
  - destruct Hc as (-> & ? & ?). by split_and!.
  - destruct Hc as (_ & _ & Hc). eauto.
Qed.

Lemma malloc_loop_spec fuel k n l1 a l2 :
  heap_inv k (l1 ++ a :: l2) -> 0 <= n < 2 ^ 63 -> (length l2 < fuel)%nat ->
  (forall b, b ∈ l1 -> fits (mem k) b n = false) ->
  malloc_result k (l1 ++ a :: l2) n (malloc_loop fuel a n k).
Proof.
  revert l1 a l2. induction fuel as [|fuel IH]; intros l1 a l2 Hinv Hn Hf Hl1; [lia|].
  cbn [malloc_loop]. rewrite bind_get.
  assert (a ∈ l1 ++ a :: l2) as Hin by (apply elem_of_app; right; left).
  pose proof (inv_wf _ _ Hinv) as Hwf. pose proof (inv_pool _ _ Hinv a Hin) as Hok.
  pose proof (pool_len_bound k a Hwf Hok) as Hlen.
  destruct (pool_space k a Hwf Hok) as (Ha & Has & _ & Hl26).
  pose proof (ok_required _ _ Hok) as Hreq. pose proof (load64_range (mem k) (a + 1)) as Hsz.
  fold (pool_size (mem k) a) in Hsz. unfold pool_len, sizeof_Pool in *.
  rewrite (u64_small (n + 26)), (u64_small (pool_required (mem k) a + n)),
    (u64_small (pool_required (mem k) a + n + 26)) by lia.
  destruct (pool_is_free (mem k) a && _) eqn:E1; [left|].
  { apply andb_prop in E1 as [E1 E1'].
    exists (a + 26), (set_mem (take_pool a n) k), (l1 ++ a :: l2). split.
    - rewrite !bind_modify. by rewrite (u64_small (a + 26)) by lia.
    - apply malloc_take; try done; unfold sizeof_Pool; lia. }
  destruct (pool_size (mem k) a >? pool_required (mem k) a + n + 26) eqn:E2; [left|].
  { exists (a + pool_required (mem k) a + 1 + sizeof_Pool), (set_mem (split_at a n) k),
      (l1 ++ a :: a + pool_required (mem k) a + 1 :: l2). split.
    - apply split_pool_run; unfold sizeof_Pool; lia.
    - apply malloc_split; try done; unfold sizeof_Pool; lia. }
  assert (fits (mem k) a n = false) as Hfit by (unfold fits, sizeof_Pool; by rewrite E1, E2).
  assert (chain (mem k) (pool_next (mem k) a) l2) as Hch.
  { pose proof (inv_chain _ _ Hinv) as Hc. by apply chain_after in Hc as (_ & _ & ?). }
  assert (forall b, b ∈ l1 ++ [a] -> fits (mem k) b n = false) as Hl1a.
  { intros b [Hb|Hb%list_elem_of_singleton]%elem_of_app; [auto|congruence]. }
  destruct l2 as [|b l2]; cbn [chain] in Hch.
  - rewrite Hch, Z.eqb_refl. by apply malloc_grow_run.
  - destruct Hch as (-> & Hb & _). destruct (Z.eqb_spec (pool_next (mem k) a) 0); [done|].
    specialize (IH (l1 ++ [a]) (pool_next (mem k) a) l2). rewrite <- app_assoc in IH.
    apply IH; try done. cbn in Hf. lia.
Qed.

(** ** The number of pools *)

Lemma NoDup_pool_bytes k l :
  heap_inv k l -> NoDup (l ≫= fun a => seqZ a sizeof_Pool).
Proof.
  intros Hinv. pose proof (inv_nodup _ _ Hinv) as Hnd.
  assert (forall a b x, a ∈ l -> b ∈ l -> x ∈ seqZ a 26 -> x ∈ seqZ b 26 -> a = b) as Hone.
  { intros a b x Ha Hb Hxa Hxb. destruct (decide (a = b)) as [|Hne]; [done|].
    pose proof (inv_disjoint _ _ Hinv a b Ha Hb Hne).
    destruct (pool_space k a (inv_wf _ _ Hinv) (inv_pool _ _ Hinv a Ha)) as (_ & _ & _ & ?).
    destruct (pool_space k b (inv_wf _ _ Hinv) (inv_pool _ _ Hinv b Hb)) as (_ & _ & _ & ?).
    apply elem_of_seqZ in Hxa, Hxb. unfold disjoint in *. lia. }
  clear Hinv. induction l as [|a l IH]; [constructor|]. apply NoDup_cons in Hnd as [Ha Hnd].
  cbn. apply NoDup_app. split_and!; [apply NoDup_seqZ| |].
  - intros x Hx Hin. apply list_elem_of_bind in Hin as (b & Hxb & Hb).
    assert (a = b) as -> by (apply (Hone a b x); [by left|by right|done|done]). done.
  - apply IH; [done|]. intros b c x Hb Hc. apply Hone; by right.
Qed.

Definition section_bytes (h : Z) (e : memmap_entry) : list Z :=
  if type e =? LIMINE_MEMMAP_USABLE then seqZ (base e + h) (length_ e) else [].

Lemma usable_bytes_length h es :
  (forall e, e ∈ es -> usable e -> 0 <= length_ e) ->
  Zlen (es ≫= section_bytes h) = usable_bytes es.
Proof.
  induction es as [|e es IH]; intros H; [done|]. cbn. rewrite Zlen_app, IH.
  - f_equal. unfold section_bytes. destruct (Z.eqb_spec (type e) LIMINE_MEMMAP_USABLE); [|done].
    unfold Zlen. rewrite length_seqZ. pose proof (H e ltac:(by left) ltac:(done)). lia.
  - intros e' He'. apply H. by right.
Qed.

Lemma pools_bounded k l : heap_inv k l -> sizeof_Pool * Zlen l <= usable_bytes (memmap k).
Proof.
  intros Hinv. pose proof (inv_wf _ _ Hinv) as Hwf.
  rewrite <- (usable_bytes_length (hhdm k)).
  2:{ intros e [i Hi]%list_elem_of_lookup Hu. pose proof (ok_length _ _ (wf_entry k Hwf i e Hi Hu)). lia. }
  transitivity (Zlen (l ≫= fun a => seqZ a sizeof_Pool)).
  { apply Z.eq_le_incl. clear. unfold sizeof_Pool. induction l as [|a l IH]; [done|].
    cbn. rewrite Zlen_app, <- IH. unfold Zlen at 2. rewrite length_seqZ. zlen. }
  unfold Zlen. apply inj_le, submseteq_length, NoDup_submseteq; [exact (NoDup_pool_bytes k l Hinv)|].
  intros x (a & Hx & Ha)%list_elem_of_bind. apply elem_of_seqZ in Hx.
  pose proof (inv_pool _ _ Hinv a Ha) as Hok.
  destruct (pool_space k a Hwf Hok) as (_ & _ & _ & Hl).
  destruct (ok_block _ _ Hok) as (b & (i & e & p & Hi & Hu & Hp & Hn & Hpn & Hb & _) & H1 & H2).
  destruct (pages_in_space k e (p + snd b - 1) (wf_entry k Hwf i e Hi Hu) ltac:(lia)).
  apply list_elem_of_bind. exists e. split; [|by eapply list_elem_of_lookup_2].
  unfold section_bytes. rewrite Hu, Z.eqb_refl. apply elem_of_seqZ.
  unfold sizeof_Pool, page_addr in *. lia.
Qed.

Lemma malloc_spec k l n :
  heap_inv k l -> 0 <= n < 2 ^ 63 -> malloc_result k l n (malloc n k).
Proof.
  intros Hinv Hn. unfold malloc. rewrite bind_get.
  pose proof (inv_chain _ _ Hinv) as Hc. pose proof (pools_bounded k l Hinv) as Hb.
  destruct l as [|a l]; [by destruct (inv_nonempty _ _ Hinv)|].
  cbn [chain] in Hc. destruct Hc as (<- & _ & _).
  apply (malloc_loop_spec _ k n [] a l); [done|done| |].
  - unfold pool_fuel, sizeof_Pool in *. unfold Zlen in Hb. cbn [length] in Hb. divlia.
  - intros b Hb'. by apply elem_of_nil in Hb'.
Qed.

(** ** [init_kheap] *)

Lemma wf_set_kheap_start a k : wf_pmm k -> wf_pmm (set_kheap_start a k).
Proof. intros [? ? He ?]. constructor; auto. intros i e Hi Hu. by destruct (He i e Hi Hu). Qed.

Lemma init_kheap_spec k :
  wf_pmm k ->
  (exists k', init_kheap k = Ok (tt, k') /\ heap_inv k' [kheap_start k'] /\
     pool_is_free (mem k') (kheap_start k') = true /\ pool_len (mem k') (kheap_start k') = 8192) \/
  (init_kheap k = Halted /\ forall i e p, ~ free_run k i e p 2).
Proof.
  intros Hwf. unfold init_kheap.
  destruct (kmalloc_spec k 2 Hwf) as [(i & e & p & Hr & Hk)|[Hk Hno]]; [lia|left|right].
  2:{ split; [unfold bind; by rewrite Hk|done]. }
  pose proof (after_alloc_post k i e p 2 Hwf ltac:(lia) Hr) as Hpost.
  set (k1 := after_alloc k e p 2) in *. clearbody k1.
  pose proof (post_config _ _ _ _ _ _ Hpost) as Hcfg. pose proof Hcfg as (Hmap & Hh & _).
  pose proof (wf_same_config _ _ Hcfg Hwf) as Hwf1.
  pose proof (block_ok_new k i e p 2 k1 Hwf ltac:(lia) Hpost) as Hnew.
  destruct (block_space k1 _ Hwf1 Hnew) as (H0 & H1 & _). cbn [fst snd] in H0, H1.
  rewrite (bind_run _ _ _ _ _ Hk), bind_modify, u64_small by lia.
  set (a := page_addr e p + hhdm k1) in *.
  destruct (store_pool_fields (mem k1) a (create_pool 8192 sizeof_Pool 0 true))
    as (V & S & R & N & F); try done.
  assert (pool_len (store_pool a (create_pool 8192 sizeof_Pool 0 true) (mem k1)) a = 8192) as L
    by (unfold pool_len; by rewrite S).
  eexists. split; [reflexivity|]. cbn [set_mem set_kheap_start mem kheap_start].
  split; [|done]. assert (in_block (set_kheap_start a k1) a 8192) as Hb.
  { exists (page_addr e p, 2). cbn [fst snd set_kheap_start hhdm]. split; [exact Hnew|unfold a; lia]. }
  constructor; cbn [set_mem set_kheap_start mem kheap_start]; try done.
  - eapply wf_same_config; [apply same_config_set_mem|by apply wf_set_kheap_start].
  - cbn [chain]. rewrite N. split_and!; [done|unfold a; lia|done].
  - apply NoDup_singleton.
  - intros b ->%list_elem_of_singleton. constructor; cbn [set_mem mem set_kheap_start].
    + done.
    + by rewrite R, L.
    + rewrite L. eapply (in_block_frame (set_kheap_start a k1) _ a 8192); try done.
      * by apply wf_set_kheap_start.
      * intros x Hx. apply (store_pool_agree (mem k1) a _ x 1); [|lia].
        unfold disjoint, sizeof_Pool. lia.
  - intros b c ->%list_elem_of_singleton ->%list_elem_of_singleton. done.
Qed.

(** ** [free] *)

(** The memory effect of [free]. *)
Definition release (a : Z) (m : memory) : memory := set_required a sizeof_Pool (set_free a true m).

Lemma free_spec k l p n :
  heap_inv k l -> live k l p n ->
  let k' := set_mem (release (p - sizeof_Pool)) k in
  free p k = Ok (tt, k') /\ heap_inv k' l /\
  (forall j, ~ live k' l p j) /\
  (forall q j, q <> p -> live k' l q j <-> live k l q j) /\
  (forall q j, live k l q j -> agree (mem k') (mem k) q j).
Proof.
  intros Hinv Hl. destruct (live_pool _ _ _ _ Hinv Hl) as (a & Ha & -> & Hf & Hr & Hn).
  replace (a + sizeof_Pool - sizeof_Pool) with a by lia. cbv zeta.
  pose proof (inv_wf _ _ Hinv) as Hwf. pose proof (inv_pool _ _ Hinv a Ha) as Hok.
  destruct (pool_space k a Hwf Hok) as (H0 & H1 & _ & H26).
  destruct (set_free_fields (mem k) a true) as (V1 & S1 & R1 & N1 & F1).
  destruct (set_required_fields (set_free a true (mem k)) a 26) as (V & S & R & N & F); [lia|].
  assert (forall c j, disjoint a 26 c j -> agree (release a (mem k)) (mem k) c j) as Hag.
  { intros c j Hd. eapply agree_trans; [by apply set_required_agree|by apply set_free_agree]. }
  assert (forall b, b ∈ l -> b <> a -> pool_is_free (release a (mem k)) b = pool_is_free (mem k) b /\
    pool_required (release a (mem k)) b = pool_required (mem k) b) as Hother.
  { intros b Hb Hne. pose proof (inv_disjoint _ _ Hinv a b Ha Hb ltac:(done)) as Hd.
    destruct (pool_space k b Hwf (inv_pool _ _ Hinv b Hb)) as (_ & _ & _ & ?).
    destruct (pool_agree (release a (mem k)) (mem k) b) as (_ & _ & ? & _ & ?); [|done].
    apply Hag. unfold disjoint, sizeof_Pool in *. lia. }
  split_and!.
  - unfold free, sizeof_Pool. replace (a + 26 - 26) with a by lia. rewrite u64_small by lia.
    rewrite bind_get, (ok_verify _ _ Hok), Z.eqb_refl. done.
  - apply (heap_inv_inside k l (release a) a); try done.
    + intros x Hx. apply (Hag x 1); [unfold disjoint; lia|lia].
    + etransitivity; [exact V|]. rewrite V1. apply Hok.
    + etransitivity; [exact S|exact S1].
    + etransitivity; [exact N|exact N1].
    + unfold release, sizeof_Pool. rewrite R. lia.
  - intros j (b & Hb & Hq & Hfb & _). assert (b = a) as -> by lia.
    cbn [set_mem mem] in Hfb. unfold release, sizeof_Pool in Hfb. congruence.
  - intros q j Hq. split; intros (b & Hb & -> & Hfb & Hrb); destruct (Hother b Hb) as [E1 E2];
      try (intros ->; apply Hq; done); exists b; cbn [set_mem mem] in *;
      rewrite ?E1, ?E2 in *; done.
  - intros q j Hlq. destruct (live_pool _ _ _ _ Hinv Hlq) as (b & Hb & -> & _ & _ & Hq).
    cbn [set_mem mem]. apply Hag. unfold sizeof_Pool in *.
    destruct (decide (b = a)) as [->|Hne]; [unfold disjoint; lia|].
    pose proof (inv_disjoint _ _ Hinv a b Ha Hb ltac:(done)). unfold disjoint in *. lia.
Qed.

(** ** Histories of the heap

    The abstract heap: the blocks handed out and not freed, with the bytes
    their owners last saw or wrote. *)
Abbreviation blocks := (gmap Z (list Z)).

Definition reads (m : memory) (p : Z) (bs : list Z) : Prop :=
  forall i v, bs !! i = Some v -> load8 m (p + Z.of_nat i) = v.

Inductive heap_step : Kernel * blocks -> Kernel * blocks -> Prop :=
  | step_malloc k h n p k' bs :
      0 <= n < 2 ^ 63 -> malloc n k = Ok (p, k') -> Zlen bs = n -> reads (mem k') p bs ->
      heap_step (k, h) (k', <[p := bs]> h)
  | step_free k h p bs k' :
      h !! p = Some bs -> free p k = Ok (tt, k') -> heap_step (k, h) (k', delete p h)
  | step_store k h p bs i v :
      h !! p = Some bs -> (i < length bs)%nat -> is_u8 v ->
      heap_step (k, h)
        (set_mem (fun m => store8 m (p + Z.of_nat i) v) k, <[p := <[i := v]> bs]> h).

(** The concrete heap implements the abstract one. *)
Record refines (k : Kernel) (l : list Z) (h : blocks) : Prop := {
  ref_inv : heap_inv k l;
  ref_live p bs : h !! p = Some bs -> live k l p (Zlen bs);
  ref_reads p bs : h !! p = Some bs -> reads (mem k) p bs;
  ref_apart p q bs cs : h !! p = Some bs -> h !! q = Some cs -> p <> q ->
    disjoint p (Zlen bs) q (Zlen cs)
}.

Lemma reads_agree m m' p bs : agree m' m p (Zlen bs) -> reads m p bs -> reads m' p bs.
Proof.
  intros Hag Hr i v Hi. rewrite <- (Hr i v Hi). apply load8_agree.
  apply lookup_lt_Some in Hi. eapply agree_sub; [exact Hag|lia|unfold Zlen; lia].
Qed.

Lemma refines_malloc k l h n p k' l' bs :
  refines k l h -> malloc_post k l n p k' l' -> Zlen bs = n -> reads (mem k') p bs ->
  refines k' l' (<[p := bs]> h).
Proof.
  intros Href Hpost <- Hbs. constructor.
  - apply Hpost.
  - intros q cs [[<- <-]|[_ Hq]]%lookup_insert_Some; [apply Hpost|].
    by eapply mp_keep, ref_live.
  - intros q cs [[<- <-]|[_ Hq]]%lookup_insert_Some; [done|].
    eapply reads_agree; [by eapply mp_frame, ref_live|by eapply ref_reads].
  - intros q r cs ds [[<- <-]|[Hpq Hq]]%lookup_insert_Some [[<- <-]|[Hpr Hr]]%lookup_insert_Some Hne;
      try done.
    + by eapply mp_fresh, ref_live.
    + apply or_comm. by eapply mp_fresh, ref_live.
    + by eapply ref_apart.
Qed.

Lemma refines_free k l h p bs :
  refines k l h -> h !! p = Some bs ->
  free p k = Ok (tt, set_mem (release (p - sizeof_Pool)) k) /\
  refines (set_mem (release (p - sizeof_Pool)) k) l (delete p h).
Proof.
  intros Href Hp.
  destruct (free_spec k l p (Zlen bs) (ref_inv _ _ _ Href) (ref_live _ _ _ Href _ _ Hp))
    as (Hf & Hinv & _ & Hkeep & Hfr). split; [done|]. constructor; [done|..].
  - intros q cs [Hne Hq]%lookup_delete_Some. apply Hkeep; [done|by eapply ref_live].
  - intros q cs [Hne Hq]%lookup_delete_Some.
    eapply reads_agree; [by eapply Hfr, ref_live|by eapply ref_reads].
  - intros q r cs ds [_ Hq]%lookup_delete_Some [_ Hr]%lookup_delete_Some. by eapply ref_apart.
Qed.

Lemma refines_store k l h p bs i v :
  refines k l h -> h !! p = Some bs -> (i < length bs)%nat -> is_u8 v ->
  refines (set_mem (fun m => store8 m (p + Z.of_nat i) v) k) l (<[p := <[i := v]> bs]> h).
Proof.
  intros Href Hp Hi Hv. pose proof (ref_inv _ _ _ Href) as Hinv.
  assert (Zlen (<[i:=v]> bs) = Zlen bs) as Hlen by (unfold Zlen; by rewrite length_insert).
  set (x := p + Z.of_nat i). set (f := fun m => store8 m x v).
  assert (forall c n, ~ (c <= x < c + n) -> agree (f (mem k)) (mem k) c n) as Hag.
  { intros c n Hx. apply store_agree. unfold disjoint. lia. }
  destruct (live_pool k l p (Zlen bs) Hinv (ref_live _ _ _ Href _ _ Hp)) as (a & Ha & -> & _ & _ & Hn).
  assert (forall b, b ∈ l -> agree (f (mem k)) (mem k) b sizeof_Pool) as Hhdr.
  { intros b Hb. apply Hag. unfold x, Zlen, sizeof_Pool in *. destruct (decide (b = a)) as [->|Hne]; [lia|].
    pose proof (inv_disjoint _ _ Hinv a b Ha Hb ltac:(done)).
    destruct (pool_space k b (inv_wf _ _ Hinv) (inv_pool _ _ Hinv b Hb)) as (_ & _ & _ & ?).
    unfold disjoint in *. lia. }
  assert (forall q j, live k l q j -> live (set_mem f k) l q j) as Hlive.
  { intros q j (b & Hb & -> & Hf & Hr). exists b. cbn [set_mem mem].
    destruct (pool_agree _ _ _ (Hhdr b Hb)) as (_ & _ & -> & _ & ->). done. }
  constructor.
  - destruct (pool_agree _ _ _ (Hhdr a Ha)) as (V & S & R & N & _).
    apply (heap_inv_inside k l f a); rewrite ?V, ?R; try done; [|apply (inv_pool _ _ Hinv a Ha)..].
    intros y Hy. apply (Hag y 1); [|lia]. unfold x, Zlen, sizeof_Pool in *. lia.
  - intros q cs [[<- <-]|[_ Hq]]%lookup_insert_Some; apply Hlive; rewrite ?Hlen;
      by eapply ref_live.
  - intros q cs [[<- <-]|[Hne Hq]]%lookup_insert_Some.
    + intros j w [(<- & <- & _)|[Hij Hj]]%list_lookup_insert_Some; cbn [set_mem mem]; unfold f.
      * fold x. rewrite load8_store8_same. apply u8_small, Hv.
      * rewrite <- (ref_reads _ _ _ Href _ _ Hp j w Hj). apply load8_agree, Hag. unfold x. lia.
    + eapply reads_agree; [|by eapply ref_reads]. apply Hag.
      pose proof (ref_apart _ _ _ Href _ _ _ _ Hp Hq Hne). unfold disjoint, x, Zlen in *. lia.
  - intros q r cs ds [[<- <-]|[Hpq Hq]]%lookup_insert_Some [[<- <-]|[Hpr Hr]]%lookup_insert_Some Hne;
      rewrite ?Hlen; try done; by eapply ref_apart.
Qed.

Lemma heap_step_refines k h s' l :
  heap_step (k, h) s' -> refines k l h -> exists l', refines (fst s') l' (snd s').
Proof.
  intros Hs Href. remember (k, h) as s eqn:E.
  destruct Hs as [k0 h0 n p k' bs Hn Hm Hb Hr|k0 h0 p bs k' Hp Hf|k0 h0 p bs i v Hp Hi Hv];
    injection E as -> ->; cbn [fst snd].
  - destruct (malloc_spec k l n (ref_inv _ _ _ Href) Hn) as [(p' & k1 & l' & Hm' & Hpost)|[Hm' _]];
      rewrite Hm in Hm'; [|done]. injection Hm' as <- <-. exists l'. by eapply refines_malloc.
  - destruct (refines_free k l h p bs Href Hp) as [Hf' Href']. rewrite Hf in Hf'.
    injection Hf' as ->. eauto.
  - exists l. by apply refines_store.
Qed.

Lemma heap_steps_refine k0 k1 k h :
  wf_pmm k0 -> init_kheap k0 = Ok (tt, k1) -> rtc heap_step (k1, ∅) (k, h) ->
  exists l, refines k l h.
Proof.
  intros Hwf Hi Hr. destruct (init_kheap_spec k0 Hwf) as [(k1' & Hi' & Hinv & _)|[Hi' _]];
    rewrite Hi in Hi'; [|done]. injection Hi' as <-.
  assert (exists l, refines (fst (k1, ∅ : blocks)) l (snd (k1, ∅ : blocks))) as H0
    by (exists [kheap_start k1]; by constructor).
  change (exists l, refines (fst (k, h)) l (snd (k, h))).
  revert H0. clear -Hr. induction Hr as [|[k1' h1] s2 s3 H12 _ IH]; [done|].
  intros [l Hl]. apply IH. by eapply heap_step_refines.
Qed.

(** ** Theorems *)

(** C2: From [init_kheap] on, over every history of [malloc], [free] and writes
    by the owners of blocks, the heap is a set of independent arrays: every
    live block holds exactly the bytes its owner last wrote, live blocks are
    pairwise disjoint and never at address 0, each can be freed, and [malloc]
    always ends: it returns a block or halts the machine, but never loops or
    faults. *)
Theorem heap_implements_arrays k0 k1 k h :
  wf_pmm k0 -> init_kheap k0 = Ok (tt, k1) -> rtc heap_step (k1, ∅) (k, h) ->
  (forall p bs, h !! p = Some bs -> reads (mem k) p bs /\ 0 < p) /\
  (forall p q bs cs, h !! p = Some bs -> h !! q = Some cs -> p <> q ->
     disjoint p (Zlen bs) q (Zlen cs)) /\
  (forall p bs, h !! p = Some bs -> exists k', free p k = Ok (tt, k')) /\
  (forall n, 0 <= n < 2 ^ 63 ->
     (exists p k', malloc n k = Ok (p, k') /\ h !! p = None) \/ malloc n k = Halted).
Proof.
  intros Hwf Hi Hr. destruct (heap_steps_refine k0 k1 k h Hwf Hi Hr) as [l Href].
  split_and!.
  - intros p bs Hp. split; [by eapply ref_reads|].
    destruct (ref_live _ _ _ Href p bs Hp) as (a & Ha & -> & _).
    destruct (pool_space k a (inv_wf _ _ (ref_inv _ _ _ Href)) (inv_pool _ _ (ref_inv _ _ _ Href) a Ha)).
    unfold sizeof_Pool. lia.
  - by eapply ref_apart.
  - intros p bs Hp. destruct (refines_free k l h p bs Href Hp). eauto.
  - intros n Hn. destruct (malloc_spec k l n (ref_inv _ _ _ Href) Hn)
      as [(p & k' & l' & Hm & Hpost)|[Hm _]]; [left|by right].
    exists p, k'. split; [done|]. destruct (h !! p) as [bs|] eqn:E; [|done].
    destruct (mp_new _ _ _ _ _ _ Hpost (Zlen bs)). by eapply ref_live.
Qed.

Lemma reads_current m p n :
  reads m p (map (fun i => load8 m (p + Z.of_nat i)) (seq 0 n)).
Proof.
  intros i v Hi. rewrite list_lookup_fmap in Hi.
  apply fmap_Some in Hi as (j & Hj & ->). apply lookup_seq in Hj as [-> _]. done.
Qed.

(** Two blocks, a write to the first, and the second freed. *)
Lemma heap_implements_arrays_witness :
  exists k1 k h, init_kheap small_kernel = Ok (tt, k1) /\ rtc heap_step (k1, ∅) (k, h) /\
    ((forall p bs, h !! p = Some bs -> reads (mem k) p bs /\ 0 < p) /\
     (forall p q bs cs, h !! p = Some bs -> h !! q = Some cs -> p <> q ->
        disjoint p (Zlen bs) q (Zlen cs)) /\
     (forall p bs, h !! p = Some bs -> exists k', free p k = Ok (tt, k')) /\
     (forall n, 0 <= n < 2 ^ 63 ->
        (exists p k', malloc n k = Ok (p, k') /\ h !! p = None) \/ malloc n k = Halted)).
Proof.
  set (p := 2 ^ 47 + 65536 + 4096 + 26).
  destruct (value_of_some ((init_kheap ;;; let* a := malloc 4 in
    modify (set_mem (fun m => store8 m (p + Z.of_nat 2) 7)) ;;;
    let* b := malloc 3 in free b ;;; ret (a, b)) small_kernel) (p, p + 31)) as [k E];
    [vm_compute; reflexivity|].
  apply bind_ok in E as ([] & k1 & E1 & E). apply bind_ok in E as (a & k2 & E2 & E).
  rewrite bind_modify in E. set (k3 := set_mem _ k2) in E.
  apply bind_ok in E as (b & k4 & E4 & E). apply bind_ok in E as ([] & k5 & E5 & E).
  injection E as -> -> ->.
  eexists k1, k, _. split; [exact E1|].
  assert (forall P Q : Prop, P -> (P -> Q) -> P /\ Q) as Hpq by tauto. apply Hpq.
  - eapply rtc_l; [eapply (step_malloc k1 ∅ 4 p k2); [lia|exact E2|..|apply (reads_current (mem k2) p 4)];
      reflexivity|].
    eapply rtc_l; [eapply (step_store k2 _ p _ 2 7); [apply lookup_insert_eq|simpl; lia|done]|].
    eapply rtc_l; [eapply (step_malloc k3 _ 3 (p + 31) k4); [lia|exact E4|..|
      apply (reads_current (mem k4) (p + 31) 3)]; reflexivity|].
    eapply rtc_l; [eapply (step_free k4 _ (p + 31)); [apply lookup_insert_eq|exact E5]|apply rtc_refl].
  - intros Hr. exact (heap_implements_arrays small_kernel k1 k _ small_kernel_wf E1 Hr).
Defined.

(** C5: One call of [malloc(n)] on a well-formed heap: it returns a block of [n]
    bytes that was not live before and is clear of every live block; all live
    blocks stay live with their bytes unchanged; the pool list stays well
    formed.  It halts only on a heap where no pool fits and no section has the
    pages a new pool needs. *)
Theorem malloc_correct k l n :
  heap_inv k l -> 0 <= n < 2 ^ 63 ->
  (exists p k' l', malloc n k = Ok (p, k') /\ malloc_post k l n p k' l') \/
  (malloc n k = Halted /\ exhausted k l n).
Proof. exact (malloc_spec k l n). Qed.

Lemma malloc_correct_witness :
  exists k l, init_kheap small_kernel = Ok (tt, k) /\
    ((exists p k' l', malloc 100 k = Ok (p, k') /\ malloc_post k l 100 p k' l') \/
     (malloc 100 k = Halted /\ exhausted k l 100)).
Proof.
  destruct (value_of_some (init_kheap small_kernel) tt) as [k E]; [vm_compute; reflexivity|].
  destruct (init_kheap_spec small_kernel small_kernel_wf) as [(k' & E' & Hinv & _)|[E' _]];
    rewrite E in E'; [|discriminate E'].
  exists k, [kheap_start k']. split; [exact E|]. apply (malloc_correct k [kheap_start k']); [|lia].
  injection E' as ->. exact Hinv.
Defined.

(** C22: [free] on a live block ends it and nothing else: the heap stays well
    formed, no block is live at that address any more, every other block stays
    live, and no byte of a block changes.  On an address whose header does not
    carry the marker 69, [free] halts the machine. *)
Theorem free_correct k l p n :
  (heap_inv k l -> live k l p n ->
   exists k', free p k = Ok (tt, k') /\ heap_inv k' l /\
     (forall j, ~ live k' l p j) /\
     (forall q j, q <> p -> live k' l q j <-> live k l q j) /\
     (forall q j, live k l q j -> agree (mem k') (mem k) q j)) /\
  (pool_verify (mem k) (u64 (p - sizeof_Pool)) <> 69 -> free p k = Halted).
Proof.
  split.
  - intros Hinv Hl. eexists. apply (free_spec k l p n Hinv Hl).
  - intros Hv. unfold free. rewrite bind_get. by destruct (Z.eqb_spec (pool_verify (mem k) (u64 (p - sizeof_Pool))) 69).
Qed.

Lemma free_correct_witness :
  exists k l p n, heap_inv k l /\ live k l p n /\
    (exists k', free p k = Ok (tt, k') /\ heap_inv k' l /\
      (forall j, ~ live k' l p j) /\
      (forall q j, q <> p -> live k' l q j <-> live k l q j) /\
      (forall q j, live k l q j -> agree (mem k') (mem k) q j)) /\
    free 5000 small_kernel = Halted.
Proof.
  destruct (value_of_some (init_kheap small_kernel) tt) as [k E]; [vm_compute; reflexivity|].
  destruct (init_kheap_spec small_kernel small_kernel_wf) as [(k' & E' & Hinv & Hf & Hl)|[E' _]];
    rewrite E in E'; [|discriminate E']. injection E' as <-.
  pose proof (malloc_take k [kheap_start k] (kheap_start k) 10 Hinv ltac:(by left) ltac:(lia) Hf)
    as Hpost. destruct Hpost as [Hinv' Hlive _ _ _ _ _].
  { unfold pool_len, sizeof_Pool in *. lia. }
  eexists _, _, _, _. split; [exact Hinv'|]. split; [exact Hlive|]. split.
  - exact (proj1 (free_correct _ _ _ _) Hinv' Hlive).
  - apply (proj2 (free_correct small_kernel [] 5000 0)). vm_compute. discriminate.
Defined.

(** ** The heap as an allocator *)

Definition heap_allocated (k : Kernel) (A : gset Z) : Prop :=
  exists l, heap_inv k l /\ forall p, p ∈ A -> exists n, live k l p n.

#[export] Program Instance KHeap_Allocator : Allocator := {
  heap := Kernel; alloc := malloc; dealloc := free; allocated := heap_allocated }.
Next Obligation.
  intros k A n (l & Hinv & HA) Hn.
  destruct (malloc_spec k l n Hinv Hn) as [(p & k' & l' & Hm & Hpost)|[Hm _]]; [left|by right].
  exists p, k'. split; [done|]. destruct (mp_live _ _ _ _ _ _ Hpost) as (a & Ha & -> & _).
  pose proof (mp_inv _ _ _ _ _ _ Hpost) as Hinv'.
  destruct (pool_space k' a (inv_wf _ _ Hinv') (inv_pool _ _ Hinv' a Ha)) as (? & _).
  split_and!.
  - intros [j Hj]%HA. by destruct (mp_new _ _ _ _ _ _ Hpost j).
  - unfold sizeof_Pool. lia.
  - exists l'. split; [done|]. intros q [->%elem_of_singleton|[j Hj]%HA]%elem_of_union.
    + exists n. apply Hpost.
    + exists j. by eapply mp_keep.
Qed.
Next Obligation.
  intros k A p (l & Hinv & HA) [n Hl]%HA.
  destruct (free_spec k l p n Hinv Hl) as (Hf & Hinv' & _ & Hkeep & _).
  eexists. split; [exact Hf|]. exists l. split; [done|].
  intros q [[j Hj]%HA Hq]%elem_of_difference. exists j. apply Hkeep; [set_solver|done].
Qed.

(** A heap fresh from [init_kheap] with nothing allocated. *)
Lemma heap_allocated_start k0 k :
  wf_pmm k0 -> init_kheap k0 = Ok (tt, k) -> heap_allocated k ∅.
Proof.
  intros Hwf Hi. destruct (init_kheap_spec k0 Hwf) as [(k' & Hi' & Hinv & _)|[Hi' _]];
    rewrite Hi in Hi'; [|done]. injection Hi' as <-.
  exists [kheap_start k]. split; [done|]. intros p Hp. set_solver.
Qed.

(** An object store over the freshly booted small machine. *)
Definition on_boot {Obj A} (m : M (Store Obj) A) : outcome (A * Store Obj) :=
  let+ (_, k) := init_kheap small_kernel in m (@MkStore KHeap_Allocator Obj k ∅).

Lemma on_boot_start {Obj A} (m : M (Store Obj) A) x :
  value_of (on_boot m) = Some x ->
  exists s0 s, m s0 = Ok (x, s) /\ store_ok s0 /\ objs s0 = ∅.
Proof.
  unfold on_boot. destruct (init_kheap small_kernel) as [[[] k]| | |] eqn:E; try done.
  intros [s Hs]%value_of_some. exists (@MkStore KHeap_Allocator Obj k ∅), s. split; [exact Hs|]. split; [|done].
  exists ∅. split; [by eapply heap_allocated_start; [apply small_kernel_wf|]|].
  cbn [objs]. by rewrite dom_empty.
Qed.
