(* ===== verification/Vector.v ===== *)
(** * mem/vector.c: vectors of words, as singly linked lists

    A [Vector] counts its elements and points to the first [VectorNode].  Over
    any allocator (Allocator.v) and any sum of object types that has both. *)
From S2P Require Import Prelude Allocator Chain Memory PMM KHeap.

Record VectorNode := { index : Z; next_node : Z; data_addr : Z }.
Record Vector := { data_size : Z; length_ : Z; first_node : Z }.

Definition sizeof_Vector : Z := 24.
Definition sizeof_VectorNode : Z := 24.

Definition node_set_next (v : Z) (n : VectorNode) : VectorNode :=
  {| index := index n; next_node := v; data_addr := data_addr n |}.
Definition node_set_data (v : Z) (n : VectorNode) : VectorNode :=
  {| index := index n; next_node := next_node n; data_addr := v |}.

Section Vector.
Context `{AL : Allocator} {Obj : Type} `{OV : !Object Vector Obj, ON : !Object VectorNode Obj}.
Abbreviation Mem := (M (Store Obj)).

(** ** The code *)

Definition new_vector (element_size : Z) : Mem Z :=
  new_obj sizeof_Vector {| data_size := element_size; length_ := 0; first_node := 0 |}.

(** [while (true) if (next_node != 0) ... else break]. *)
Fixpoint last_node (fuel : nat) (this_node : Z) : Mem Z :=
  match fuel with
  | O => fun _ => Spin
  | S fuel' =>
      let* n := get_obj VectorNode this_node in
      if negb (next_node n =? 0) then last_node fuel' (next_node n) else ret this_node
  end.

Definition vector_push (vec val_addr : Z) : Mem unit :=
  let* v := get_obj Vector vec in
  if first_node v =? 0 then
    let* n := new_obj sizeof_VectorNode {| index := 0; next_node := 0; data_addr := val_addr |} in
    put_obj vec {| data_size := data_size v; length_ := u64 (length_ v + 1); first_node := n |}
  else
    let* s := get in
    let* this_node := last_node (S (base.size (objs s))) (first_node v) in
    let* this := get_obj VectorNode this_node in
    let* n := new_obj sizeof_VectorNode
      {| index := index this; next_node := 0; data_addr := val_addr |} in
    put_obj this_node (node_set_next n this) ;;;
    put_obj vec {| data_size := data_size v; length_ := u64 (length_ v + 1);
                   first_node := first_node v |}.

(** [for (; current_idx < idx; current_idx++) this_node = this_node->next_node]. *)
Definition walk : nat -> Z -> Mem Z := linked_walk next_node.

Definition vector_set (vec idx val : Z) : Mem unit :=
  let* v := get_obj Vector vec in
  if length_ v <=? idx then ret tt
  else
    let* this_node := walk (Z.to_nat idx) (first_node v) in
    let* n := get_obj VectorNode this_node in
    put_obj this_node (node_set_data val n).

Definition vector_at (vec idx : Z) : Mem Z :=
  let* v := get_obj Vector vec in
  if length_ v <=? idx then ret 0
  else
    let* this_node := walk (Z.to_nat idx) (first_node v) in
    let* n := get_obj VectorNode this_node in
    ret (data_addr n).

Definition vector_pop (vec idx : Z) : Mem unit :=
  let* v := get_obj Vector vec in
  if length_ v =? 0 then ret tt
  else
    let this_node := first_node v in
    if idx =? 0 then
      let* n := get_obj VectorNode this_node in
      put_obj vec {| data_size := data_size v; length_ := u64 (length_ v - 1);
                     first_node := next_node n |}
    else
      let* this_node := walk (Z.to_nat idx) this_node in
      let* this := get_obj VectorNode this_node in
      let* next := get_obj VectorNode (next_node this) in
      put_obj this_node (node_set_next (next_node next) this) ;;;
      put_obj vec {| data_size := data_size v; length_ := u64 (length_ v - 1);
                     first_node := first_node v |}.

(** ** What a vector represents *)

Abbreviation nodes := (linked next_node data_addr).

(** The vector at [v] holds the list [l], in the nodes [ns]. *)
Definition vec (s : Store Obj) (v : Z) (ns l : list Z) : Prop :=
  exists r, typed_at s v r /\ length_ r = Zlen l /\ Zlen l < 2 ^ 64 /\ nodes s (first_node r) ns l 0 /\
    NoDup (v :: ns).

(** ** Lemmas *)

Lemma vec_in_store s v ns l : vec s v ns l -> list_to_set (v :: ns) ⊆ dom (objs s).
Proof using.
  intros (r & Hr & _ & _ & Hn & _). apply linked_in_store in Hn. apply elem_of_dom_2 in Hr.
  set_solver.
Qed.

(** A vector is unchanged when its own objects are. *)
Lemma vec_frame D s s' v ns l :
  same_except D s s' -> D ## list_to_set (v :: ns) -> vec s v ns l -> vec s' v ns l.
Proof using.
  intros Hs Hd Hv. pose proof (vec_in_store _ _ _ _ Hv) as Hdom.
  destruct Hv as (r & Hr & Hl & Hb & Hn & Hnd). exists r.
  assert (forall p, p ∈ v :: ns -> objs s' !! p = objs s !! p) as Hp.
  { intros p Hp. apply Hs; set_solver. }
  split_and!; try done.
  - unfold typed_at. rewrite Hp by left. done.
  - eapply linked_frame; [|exact Hn]. intros p Hp'. apply Hp. by right.
Qed.

Lemma vec_keep D s s' v ns l :
  vec s v ns l -> same_except D s s' -> D ## list_to_set (v :: ns) -> vec s' v ns l.
Proof using. intros Hv Hs Hd. by eapply vec_frame. Qed.

(** The nodes of a vector are determined by the store. *)
Lemma nodes_unique s a ns ns' l : nodes s a ns l 0 -> nodes s a ns' l 0 -> ns = ns'.
Proof using.
  revert a ns ns'. induction l as [|x l IH]; intros a ns ns' H H'.
  - apply linked_nil in H as [-> _]. by apply linked_nil in H' as [-> _].
  - apply linked_cons in H as (r & m & -> & Hr & _ & H). apply linked_cons in H' as (r' & m' & -> & Hr' & _ & H').
    rewrite (typed_at_unique _ _ _ _ Hr Hr') in H. f_equal. by eapply IH.
Qed.

Lemma vec_nodes_unique s v ns ns' l : vec s v ns l -> vec s v ns' l -> ns = ns'.
Proof using.
  intros (r & Hr & _ & _ & H & _) (r' & Hr' & _ & _ & H' & _).
  rewrite (typed_at_unique _ _ _ _ Hr Hr') in H. by eapply nodes_unique.
Qed.

(** *** The loops *)

Lemma last_node_run s fuel a ns l c z :
  store_ok s -> nodes s a ns l c -> nodes s c [c] [z] 0 -> (length l < fuel)%nat ->
  last_node fuel a s = Ok (c, s).
Proof using.
  intros Hok. revert a ns fuel. induction l as [|x l IH]; intros a ns [|fuel] H Hc Hf;
    cbn in Hf; try lia.
  - destruct ns; [|done]. cbn in H. subst. destruct Hc as (_ & r & Hr & _ & Hn).
    cbn [last_node]. rewrite (bind_run _ _ _ _ _ (get_obj_run _ _ _ Hr)). cbn in Hn.
    by rewrite Hn.
  - apply linked_cons in H as (r & ns' & _ & Hr & _ & H). cbn [last_node].
    rewrite (bind_run _ _ _ _ _ (get_obj_run _ _ _ Hr)).
    assert (next_node r <> 0) as Hne.
    { destruct l as [|y l].
      - destruct ns'; [|done]. cbn in H. rewrite H. by eapply (linked_not_null s c [c] [z]).
      - by eapply linked_not_null. }
    destruct (Z.eqb_spec (next_node r) 0) as [|]; [done|]. cbn [negb]. eapply IH; [done..|lia].
Qed.

Lemma nodes_fuel s v ns l a :
  nodes s a ns l 0 -> NoDup (v :: ns) -> (length l <= base.size (objs s))%nat.
Proof using.
  intros H Hnd. pose proof (linked_length _ _ _ _ _ H). pose proof (linked_in_store _ _ _ _ _ H) as Hd.
  apply NoDup_cons in Hnd as [_ Hnd].
  apply subseteq_size in Hd. rewrite size_list_to_set, size_dom in Hd by done.
  unfold Zlen in *. lia.
Qed.

(** *** The operations *)

Lemma new_vector_spec s e :
  store_ok s ->
  (exists v s', new_vector e s = Ok (v, s') /\ (v ∉ dom (objs s)) /\ store_ok s' /\
     vec s' v [] [] /\ same_except ∅ s s') \/
  new_vector e s = Halted.
Proof using.
  intros Hok. unfold new_vector.
  destruct (new_obj_spec s sizeof_Vector {| data_size := e; length_ := 0; first_node := 0 |} Hok)
    as [(v & s' & Hv & Hf & Hv0 & Hok' & Ho)|Hv]; [by unfold sizeof_Vector|left|by right].
  exists v, s'. split_and!; try done.
  - eexists. unfold typed_at. rewrite Ho, lookup_insert_eq. split_and!; try done. apply NoDup_singleton.
  - intros p _ Hp. rewrite Ho. apply lookup_insert_ne. congruence.
Qed.

Lemma vector_at_spec s v ns l idx :
  store_ok s -> vec s v ns l -> 0 <= idx ->
  vector_at v idx s = Ok (default 0 (l !! Z.to_nat idx), s).
Proof using.
  intros Hok (r & Hr & Hl & _ & Hn & _) Hi. unfold vector_at.
  rewrite (bind_run _ _ _ _ _ (get_obj_run _ _ _ Hr)), Hl.
  destruct (Z.leb_spec (Zlen l) idx) as [Hle|Hlt].
  - rewrite lookup_ge_None_2; [done|]. unfold Zlen in *. lia.
  - destruct (list_split_at l idx) as (l1 & l2 & -> & Hi1); [lia|].
    destruct l2 as [|x l2]; [zlen|].
    apply linked_app in Hn as (ns1 & ns2 & c & _ & H1 & H2).
    apply linked_cons in H2 as (rc & ns' & _ & Hrc & Hx & _).
    rewrite (bind_run _ _ _ _ _ (linked_walk_run_Z _ _ _ _ _ _ H1 Hi1)).
    rewrite (bind_run _ _ _ _ _ (get_obj_run _ _ _ Hrc)).
    rewrite <- Hi1, Zlen_to_nat, list_lookup_middle by done. simpl. by rewrite Hx.
Qed.

Lemma vector_set_spec s v ns l idx x :
  store_ok s -> vec s v ns l -> 0 <= idx ->
  exists s', vector_set v idx x s = Ok (tt, s') /\ store_ok s' /\
    vec s' v ns (<[Z.to_nat idx := x]> l) /\ same_except (list_to_set ns) s s'.
Proof using.
  intros Hok Hv Hi. pose proof Hv as (r & Hr & Hl & Hb & Hn & Hnd). unfold vector_set.
  rewrite (bind_run _ _ _ _ _ (get_obj_run _ _ _ Hr)), Hl.
  destruct (Z.leb_spec (Zlen l) idx) as [Hle|Hlt].
  { exists s. split_and!; try done. rewrite list_insert_ge; [done|]. unfold Zlen in *. lia. }
  destruct (list_split_at l idx) as (l1 & l2 & -> & Hi1); [lia|].
  destruct l2 as [|y l2]; [zlen|].
  apply linked_app in Hn as (ns1 & ns2 & c & -> & H1 & H2).
  apply linked_cons in H2 as (rc & ns' & -> & Hrc & Hx & H2).
  rewrite (bind_run _ _ _ _ _ (linked_walk_run_Z _ _ _ _ _ _ H1 Hi1)).
  rewrite (bind_run _ _ _ _ _ (get_obj_run _ _ _ Hrc)), (put_obj_run _ _ _ _ Hrc).
  eexists. split; [reflexivity|]. split; [by eapply put_obj_ok|].
  apply NoDup_cons in Hnd as [Hv1 Hnd]. split.
  - exists r. rewrite <- Hi1, Zlen_to_nat, insert_mid. split_and!; try done.
    + unfold typed_at. cbn [objs]. rewrite lookup_insert_ne; [done|]. set_solver.
    + rewrite Hl. zlen.
    + zlen.
    + by eapply linked_replace.
    + by apply NoDup_cons.
  - intros p Hp _. cbn [objs]. apply lookup_insert_ne. set_solver.
Qed.
(** Linking a fresh node behind the last one. *)
Lemma push_last s s1 v r ns1 c rc n node l y x :
  store_ok s1 -> typed_at s v r -> length_ r = Zlen (l ++ [y]) -> Zlen (l ++ [y]) + 1 < 2 ^ 64 ->
  nodes s (first_node r) ns1 l c -> typed_at s c rc -> data_addr rc = y ->
  NoDup (v :: ns1 ++ [c]) ->
  (n ∉ dom (objs s)) -> (n ∉ v :: ns1 ++ [c]) -> objs s1 = <[n := to_obj node]> (objs s) ->
  data_addr node = x -> next_node node = 0 ->
  exists s3,
    (put_obj c (node_set_next n rc) ;;;
     put_obj v {| data_size := data_size r; length_ := Zlen (l ++ [y]) + 1;
                  first_node := first_node r |}) s1 = Ok (tt, s3) /\
    store_ok s3 /\ vec s3 v ((ns1 ++ [c]) ++ [n]) ((l ++ [y]) ++ [x]) /\
    same_except (list_to_set (v :: ns1 ++ [c])) s s3.
Proof using.
  intros Hok1 Hr Hl Hlen Hn Hrc Hy Hnd Hf Hfn Ho Hx Hnn.
  assert (NoDup (v :: (ns1 ++ [c]) ++ [n])) as Hall.
  { apply (NoDup_app (v :: ns1 ++ [c])). split_and!; [done| |apply NoDup_singleton].
    intros p Hp ->%list_elem_of_singleton. done. }
  pose proof Hnd as [Hv Hnd']%NoDup_cons.
  assert (v <> c /\ n <> c /\ v <> n /\ (n ∉ ns1) /\ (v ∉ ns1)) as (Hvc & Hnc & Hvn & Hn1 & Hv1) by set_solver.
  assert (typed_at s1 c rc) as Hc1 by (unfold typed_at; rewrite Ho, lookup_insert_ne; done).
  rewrite (bind_run _ _ _ _ _ (put_obj_run _ _ _ (node_set_next n rc) Hc1)).
  pose proof (put_obj_ok s1 c rc (node_set_next n rc) Hok1 Hc1) as Hok2.
  set (s2 := MkStore _ _) in *.
  assert (typed_at s2 v r) as Hr2.
  { unfold typed_at, s2. cbn [objs]. rewrite Ho, !lookup_insert_ne; done. }
  rewrite (put_obj_run _ _ _ _ Hr2). eexists. split; [reflexivity|].
  split; [by eapply put_obj_ok|]. split.
  - eexists. unfold typed_at at 1. cbn [objs]. rewrite lookup_insert_eq. split; [done|].
    cbn [length_ first_node]. split_and!; [zlen|zlen| |].
    + assert (nodes s1 (first_node r) ns1 l c) as Hn'.
      { eapply linked_frame; [|exact Hn]. intros p Hp. rewrite Ho. apply lookup_insert_ne. congruence. }
      assert (nodes s1 n [n] [x] 0) as Hnn'.
      { split; [done|]. exists node. unfold typed_at. rewrite Ho, lookup_insert_eq. done. }
      eapply (linked_frame s2).
      { intros p Hp. cbn [objs]. apply lookup_insert_ne. set_solver. }
      rewrite <- !app_assoc. eapply (linked_replace s1 s2 _ ns1 c [n] l [x]); try done.
      pose proof Hall as [_ Hall']%NoDup_cons. rewrite <- app_assoc in Hall'. exact Hall'.
    + exact Hall.
  - intros p Hp Hd. cbn [objs]. unfold s2. cbn [objs]. rewrite Ho, !lookup_insert_ne; [done|set_solver..].
Qed.

(** A push on an empty and on a non-empty vector. *)
Lemma vector_push_spec s v ns l x :
  store_ok s -> vec s v ns l -> Zlen l + 1 < 2 ^ 64 ->
  (exists n s', vector_push v x s = Ok (tt, s') /\ (n ∉ dom (objs s)) /\ store_ok s' /\
     vec s' v (ns ++ [n]) (l ++ [x]) /\ same_except (list_to_set (v :: ns)) s s') \/
  vector_push v x s = Halted.
Proof using.
  intros Hok Hv Hlen. pose proof (vec_in_store _ _ _ _ Hv) as Hin.
  destruct Hv as (r & Hr & Hl & Hb & Hn & Hnd).
  unfold vector_push. rewrite (bind_run _ _ _ _ _ (get_obj_run _ _ _ Hr)), Hl.
  rewrite u64_small by zlen. destruct l as [|y l _] using rev_ind.
  - destruct ns; [|done]. cbn in Hn. rewrite Hn. cbn [Z.eqb].
    set (node := {| index := 0; next_node := 0; data_addr := x |}).
    destruct (new_obj_spec s sizeof_VectorNode node Hok)
      as [(n & s1 & E & Hf & Hn0 & Hok1 & Ho)|E]; [by unfold sizeof_VectorNode|left|right];
      [|unfold bind; by rewrite E].
    assert (v <> n) as Hvn by set_solver.
    assert (typed_at s1 v r) as Hr1 by (unfold typed_at; rewrite Ho, lookup_insert_ne; done).
    rewrite (bind_run _ _ _ _ _ E), (put_obj_run _ _ _ _ Hr1).
    exists n. eexists. split; [reflexivity|]. split; [done|]. split; [by eapply put_obj_ok|]. split.
    + eexists. unfold typed_at. cbn [objs]. rewrite lookup_insert_eq. split; [done|].
      cbn [length_ first_node app nodes]. split_and!; try (zlen || done).
      * exists node. unfold typed_at. cbn [objs].
        rewrite lookup_insert_ne, Ho, lookup_insert_eq by done. done.
      * repeat constructor; set_solver.
    + intros p Hp Hd. cbn [objs]. rewrite Ho, !lookup_insert_ne by set_solver. done.
  - apply linked_app in Hn as (ns1 & ns2 & c & -> & H1 & H2).
    pose proof H2 as H2'. apply linked_cons in H2' as (rc & ns' & -> & Hrc & Hy & Hend).
    destruct ns'; [|done]. cbn in Hend.
    pose proof (linked_app_2 _ _ _ _ _ _ _ _ H1 H2) as Hall.
    destruct (Z.eqb_spec (first_node r) 0) as [E0|_].
    { exfalso. eapply linked_not_null; [exact Hok|exact Hall| |exact E0]. by destruct l. }
    rewrite bind_get. pose proof (nodes_fuel s v _ _ _ Hall Hnd) as Hfuel.
    rewrite length_app in Hfuel. cbn in Hfuel.
    rewrite (bind_run _ _ _ _ _ (last_node_run s (S (base.size (objs s))) _ _ l _ _ Hok H1 H2 ltac:(lia))).
    rewrite (bind_run _ _ _ _ _ (get_obj_run _ _ _ Hrc)).
    set (node := {| index := index rc; next_node := 0; data_addr := x |}).
    destruct (new_obj_spec s sizeof_VectorNode node Hok)
      as [(n & s1 & E & Hf & Hn0 & Hok1 & Ho)|E]; [by unfold sizeof_VectorNode|left|right];
      [|unfold bind; by rewrite E].
    destruct (push_last s s1 v r ns1 c rc n node l y x)
      as (s3 & E3 & H3); try done; [set_solver|].
    rewrite (bind_run _ _ _ _ _ E), E3. exists n, s3. done.
Qed.
(** What [vector_pop] does to the represented list: at index 0 it drops the
    head; at a positive index it drops the element {e after} it, and has a
    bad access when there is none. *)
Definition pop_list (l : list Z) (idx : Z) : option (list Z) :=
  if Zlen l =? 0 then Some []
  else if idx =? 0 then Some (tail l)
  else if idx + 1 <? Zlen l then Some (delete (S (Z.to_nat idx)) l)
  else None.

Lemma pop_head s v ns x l :
  store_ok s -> vec s v ns (x :: l) ->
  exists s' ns', vector_pop v 0 s = Ok (tt, s') /\ store_ok s' /\ vec s' v ns' l /\ ns' ⊆ ns /\
    same_except (list_to_set (v :: ns)) s s'.
Proof using.
  intros Hok (r & Hr & Hl & Hb & Hn & Hnd). unfold vector_pop.
  rewrite (bind_run _ _ _ _ _ (get_obj_run _ _ _ Hr)), Hl. cbn [Z.eqb].
  destruct (Z.eqb_spec (Zlen (x :: l)) 0) as [|_]; [zlen|].
  apply linked_cons in Hn as (rn & ns' & -> & Hrn & Hx & Hn).
  rewrite (bind_run _ _ _ _ _ (get_obj_run _ _ _ Hrn)), (put_obj_run _ _ _ _ Hr).
  eexists _, ns'. split; [reflexivity|]. split; [by eapply put_obj_ok|].
  apply NoDup_cons in Hnd as [Hv [_ Hnd]%NoDup_cons].
  split_and!; [|set_solver|].
  - eexists. unfold typed_at at 1. cbn [objs]. rewrite lookup_insert_eq. split; [done|].
    cbn [length_ first_node]. rewrite u64_small by zlen. split_and!; [zlen|zlen| |].
    + eapply linked_frame; [|exact Hn]. intros p Hp. cbn [objs]. apply lookup_insert_ne. set_solver.
    + apply NoDup_cons. split; [set_solver|done].
  - intros p Hp _. cbn [objs]. apply lookup_insert_ne. set_solver.
Qed.

Lemma pop_after s v ns l1 x y l2 :
  store_ok s -> vec s v ns (l1 ++ x :: y :: l2) -> l1 <> [] ->
  exists s' ns', vector_pop v (Zlen l1) s = Ok (tt, s') /\ store_ok s' /\
    vec s' v ns' (l1 ++ x :: l2) /\ ns' ⊆ ns /\ same_except (list_to_set (v :: ns)) s s'.
Proof using.
  intros Hok (r & Hr & Hl & Hb & Hn & Hnd) Hl1. unfold vector_pop.
  rewrite (bind_run _ _ _ _ _ (get_obj_run _ _ _ Hr)), Hl.
  destruct (Z.eqb_spec (Zlen (l1 ++ x :: y :: l2)) 0) as [|_]; [zlen|].
  destruct (Z.eqb_spec (Zlen l1) 0) as [E|_]; [by destruct l1; [|zlen]|].
  apply linked_app in Hn as (ns1 & ns2 & c & -> & H1 & H2).
  rewrite (bind_run _ _ _ _ _ (linked_walk_run_Z _ _ _ _ _ _ H1 eq_refl)).
  apply linked_cons in H2 as (rc & ns' & -> & Hrc & Hx & H2).
  apply linked_cons in H2 as (rd & ns2 & -> & Hrd & Hy & H2).
  set (d := next_node rc) in *.
  rewrite (bind_run _ _ _ _ _ (get_obj_run _ _ _ Hrc)), (bind_run _ _ _ _ _ (get_obj_run _ _ _ Hrd)).
  set (rc' := node_set_next (next_node rd) rc).
  rewrite (bind_run _ _ _ _ _ (put_obj_run _ _ _ rc' Hrc)).
  pose proof (put_obj_ok s c rc rc' Hok Hrc) as Hok1. set (s1 := MkStore _ _) in *.
  apply NoDup_cons in Hnd as [Hv Hnd].
  assert (NoDup (ns1 ++ c :: ns2)) as Hnd'.
  { eapply sublist_NoDup; [exact Hnd|]. apply sublist_app; [done|].
    constructor. by apply sublist_cons. }
  assert (typed_at s1 v r) as Hr1.
  { unfold typed_at, s1. cbn [objs]. rewrite lookup_insert_ne; [done|set_solver]. }
  rewrite (put_obj_run _ _ _ _ Hr1). eexists _, (ns1 ++ c :: ns2). split; [reflexivity|].
  split; [by eapply put_obj_ok|]. split_and!; [|set_solver|].
  - eexists. unfold typed_at at 1. cbn [objs]. rewrite lookup_insert_eq. split; [done|].
    cbn [length_ first_node]. rewrite u64_small by zlen. split_and!; [zlen|zlen| |].
    + eapply (linked_frame s1).
      { intros p Hp. cbn [objs]. apply lookup_insert_ne. set_solver. }
      by eapply linked_replace.
    + apply NoDup_cons. split; [set_solver|done].
  - intros p Hp _. cbn [objs]. unfold s1. cbn [objs]. rewrite !lookup_insert_ne; [done|set_solver..].
Qed.

Lemma pop_end s v ns l idx :
  store_ok s -> vec s v ns l -> 0 < Zlen l -> 0 < idx -> Zlen l <= idx + 1 ->
  vector_pop v idx s = Fault.
Proof using.
  intros Hok (r & Hr & Hl & Hb & Hn & Hnd) H0 Hi Hle. unfold vector_pop.
  rewrite (bind_run _ _ _ _ _ (get_obj_run _ _ _ Hr)), Hl.
  destruct (Z.eqb_spec (Zlen l) 0) as [|_]; [lia|]. destruct (Z.eqb_spec idx 0) as [|_]; [lia|].
  destruct l as [|x l _] using rev_ind; [zlen|].
  apply linked_app in Hn as (ns1 & ns2 & c & -> & H1 & H2).
  apply linked_cons in H2 as (rc & ns' & -> & Hrc & Hx & H2). destruct ns'; [|done]. cbn in H2.
  destruct (Z.eq_dec idx (Zlen l)) as [->|Hne].
  - rewrite (bind_run _ _ _ _ _ (linked_walk_run_Z _ _ _ _ _ _ H1 eq_refl)).
    rewrite (bind_run _ _ _ _ _ (get_obj_run _ _ _ Hrc)), H2.
    unfold bind. by rewrite get_obj_null.
  - assert (nodes s (first_node r) (ns1 ++ [c]) (l ++ [x]) 0) as Hall.
    { eapply linked_app_2; [exact H1|]. split; [done|]. by exists rc. }
    destruct (Z.eq_dec idx (Zlen (l ++ [x]))) as [->|Hne'].
    + rewrite (bind_run _ _ _ _ _ (linked_walk_run_Z _ _ _ _ _ _ Hall eq_refl)).
      unfold bind. by rewrite get_obj_null.
    + unfold bind at 1. rewrite (linked_walk_past s _ _ _ _ Hok Hall); [done|].
      assert (Zlen (l ++ [x]) < idx) as Hlt by zlen. unfold Zlen in Hlt. lia.
Qed.

Lemma vector_pop_spec s v ns l idx :
  store_ok s -> vec s v ns l -> 0 <= idx ->
  match pop_list l idx with
  | Some l' => exists s' ns', vector_pop v idx s = Ok (tt, s') /\ store_ok s' /\ vec s' v ns' l' /\
      ns' ⊆ ns /\ same_except (list_to_set (v :: ns)) s s'
  | None => vector_pop v idx s = Fault
  end.
Proof using.
  intros Hok Hv Hi. unfold pop_list. destruct (Z.eqb_spec (Zlen l) 0) as [E|E].
  { destruct l; [|zlen]. exists s, ns. pose proof Hv as (r & Hr & Hl & _). unfold vector_pop.
    rewrite (bind_run _ _ _ _ _ (get_obj_run _ _ _ Hr)), Hl. done. }
  destruct (Z.eqb_spec idx 0) as [->|Hi0].
  { destruct l as [|x l]; [done|]. by eapply pop_head. }
  destruct (Z.ltb_spec (idx + 1) (Zlen l)) as [Hlt|Hge]; [|by eapply (pop_end s v ns l); [..|zlen|lia|lia]].
  destruct (list_split_at l idx) as (l1 & l2 & -> & <-); [lia|].
  destruct l2 as [|x [|y l2]]; [zlen..|].
  rewrite Zlen_to_nat, delete_after. eapply pop_after; try done. intros ->. done.
Qed.
End Vector.

(** ** Theorems *)

(** C36: A vector is a list.  On a vector that holds [l], [vector_at] reads the
    element at the index, or NULL past the end; [vector_set] replaces it, and
    does nothing past the end; [vector_push] appends, unless the heap is
    exhausted; none of them faults or loops, and each leaves every object
    outside the vector as it was. *)
Theorem vector_refines_list `{Allocator} {Obj} `{!Object Vector Obj, !Object VectorNode Obj}
    (s : Store Obj) v ns l idx x :
  store_ok s -> vec s v ns l -> 0 <= idx -> Zlen l + 1 < 2 ^ 64 ->
  vector_at v idx s = Ok (default 0 (l !! Z.to_nat idx), s) /\
  (exists s', vector_set v idx x s = Ok (tt, s') /\ store_ok s' /\
     vec s' v ns (<[Z.to_nat idx := x]> l) /\ same_except (list_to_set ns) s s') /\
  ((exists n s', vector_push v x s = Ok (tt, s') /\ store_ok s' /\
      vec s' v (ns ++ [n]) (l ++ [x]) /\ same_except (list_to_set (v :: ns)) s s') \/
   vector_push v x s = Halted).
Proof.
  intros Hok Hv Hi Hl. split_and!.
  - by eapply vector_at_spec.
  - by apply vector_set_spec.
  - destruct (vector_push_spec s v ns l x Hok Hv Hl) as [(n & s' & ? & _ & ? & ? & ?)|];
      [left; by exists n, s'|by right].
Qed.

(** Two elements pushed on a fresh vector of a freshly booted heap. *)
Lemma vector_example :
  exists (s0 : Store (Vector + VectorNode)) v s ns,
    (let* v := new_vector 8 in vector_push v 11 ;;; vector_push v 22 ;;;
     vector_push v 33 ;;; ret v) s0 = Ok (v, s) /\
    store_ok s /\ vec s v ns [11; 22; 33].
Proof.
  destruct (on_boot_start (Obj := Vector + VectorNode)
    (let* v := new_vector 8 in vector_push v 11 ;;; vector_push v 22 ;;;
     vector_push v 33 ;;; ret v) (2 ^ 47 + 65536 + 4096 + 26)) as (s0 & s & E & Hok & Ho);
    [vm_compute; reflexivity|].
  pose proof E as E'. apply bind_ok in E as (v & s1 & E1 & E).
  apply bind_ok in E as ([] & s2 & E2 & E). apply bind_ok in E as ([] & s3 & E3 & E).
  apply bind_ok in E as ([] & s4 & E4 & E). injection E as -> ->.
  destruct (new_vector_spec s0 8 Hok) as [(v' & s1' & H1 & _ & Hok1 & Hv1 & _)|H1];
    rewrite E1 in H1; [|done]. injection H1 as <- <-.
  destruct (vector_push_spec s1 _ _ _ 11 Hok1 Hv1) as [(n & s2' & H2 & _ & Hok2 & Hv2 & _)|H2];
    [done| |]; rewrite E2 in H2; [|done]. injection H2 as <-.
  destruct (vector_push_spec s2 _ _ _ 22 Hok2 Hv2) as [(n' & s3' & H3 & _ & Hok3 & Hv3 & _)|H3];
    [done| |]; rewrite E3 in H3; [|done]. injection H3 as <-.
  destruct (vector_push_spec s3 _ _ _ 33 Hok3 Hv3) as [(n'' & s4' & H4 & _ & Hok4 & Hv4 & _)|H4];
    [done| |]; rewrite E4 in H4; [|done]. injection H4 as <-.
  by eexists s0, _, s, _.
Qed.

Lemma vector_refines_list_witness :
  exists (s : Store (Vector + VectorNode)) v ns,
    vector_at v 1 s = Ok (default 0 ([11; 22; 33] !! Z.to_nat 1), s) /\
    (exists s', vector_set v 1 7 s = Ok (tt, s') /\ store_ok s' /\
       vec s' v ns (<[Z.to_nat 1 := 7]> [11; 22; 33]) /\ same_except (list_to_set ns) s s') /\
    ((exists n s', vector_push v 7 s = Ok (tt, s') /\ store_ok s' /\
        vec s' v (ns ++ [n]) ([11; 22; 33] ++ [7]) /\ same_except (list_to_set (v :: ns)) s s') \/
     vector_push v 7 s = Halted).
Proof.
  destruct vector_example as (_ & v & s & ns & _ & Hok & Hv). exists s, v, ns.
  apply (vector_refines_list s v ns [11; 22; 33] 1 7); [exact Hok|exact Hv|lia|done].
Defined.

(** What [vector_pop] does, which is not what its name and its first branch
    say: index 0 removes the head, but a positive index removes the element
    {e after} it ([pop_list]), and popping the last element of a vector of two
    or more dereferences NULL. *)
Theorem vector_pop_removes `{Allocator} {Obj} `{!Object Vector Obj, !Object VectorNode Obj}
    (s : Store Obj) v ns l idx :
  store_ok s -> vec s v ns l -> 0 <= idx ->
  match pop_list l idx with
  | Some l' => exists s' ns', vector_pop v idx s = Ok (tt, s') /\ store_ok s' /\ vec s' v ns' l' /\
      ns' ⊆ ns /\ same_except (list_to_set (v :: ns)) s s'
  | None => vector_pop v idx s = Fault
  end.
Proof. apply vector_pop_spec. Qed.

Lemma vector_pop_removes_witness :
  exists (s : Store (Vector + VectorNode)) v ns,
    (exists s' ns', vector_pop v 1 s = Ok (tt, s') /\ store_ok s' /\ vec s' v ns' [11; 22] /\
      ns' ⊆ ns /\ same_except (list_to_set (v :: ns)) s s') /\
    vector_pop v 2 s = Fault.
Proof.
  destruct vector_example as (_ & v & s & ns & _ & Hok & Hv). exists s, v, ns. split.
  - exact (vector_pop_removes s v ns [11; 22; 33] 1 Hok Hv ltac:(lia)).
  - exact (vector_pop_removes s v ns [11; 22; 33] 2 Hok Hv ltac:(lia)).
Defined.
