(* ===== verification/Events.v ===== *)
(** * tasks/events.c: event queues

    A queue is a vector of pointers to heap-allocated events. *)
From S2P Require Import Prelude Allocator Memory PMM KHeap Vector.

Record Event := { do_handle : bool; event_id : Z; data0 : Z; data1 : Z }.
Definition sizeof_Event : Z := 32.
Definition EVENT_TASK_EXITED : Z := 1.

(** [(Event) {.do_handle = false}]: the other fields are zero. *)
Definition no_event : Event := {| do_handle := false; event_id := 0; data0 := 0; data1 := 0 |}.

Section Events.
Context `{AL : Allocator} {Obj : Type}.
Context `{OV : !Object Vector Obj, ON : !Object VectorNode Obj, OE : !Object Event Obj}.
Abbreviation Mem := (M (Store Obj)).

(** ** The code; an [EventQueue] is the address of its vector. *)

Definition new_event_queue : Mem Z := new_vector sizeof_Event.

Definition add_event (q event_type d0 d1 : Z) : Mem unit :=
  let new_event := {| do_handle := true; event_id := event_type; data0 := d0; data1 := d1 |} in
  let* event_addr := new_obj sizeof_Event new_event in
  vector_push q event_addr.

Definition poll (q : Z) : Mem Z :=
  let* v := get_obj Vector q in
  if length_ v =? 0 then new_obj sizeof_Event no_event
  else
    let* this_event := vector_at q (u64 (length_ v - 1)) in
    let* v := get_obj Vector q in
    vector_pop q (u64 (length_ v - 1)) ;;;
    ret this_event.

Definition peek (q : Z) : Mem Z :=
  let* v := get_obj Vector q in
  if length_ v =? 0 then new_obj sizeof_Event no_event
  else vector_at q (u64 (length_ v - 1)).

Definition cleanup_event (event : Z) : Mem unit := free_obj event.

(** ** What a queue represents *)

Abbreviation addrs := (list_to_set (C := gset Z)).

(** The queue at [q] holds the events [es], oldest first, at the addresses
    [ps]; [q :: ns] are the objects of its vector. *)
Record queue (s : Store Obj) (q : Z) (ns ps : list Z) (es : list Event) : Prop := {
  queue_vec : vec s q ns ps;
  queue_events : Forall2 (typed_at s) ps es;
  queue_apart : addrs (q :: ns) ## addrs ps;
  queue_nodup : NoDup ps
}.

Lemma queue_length s q ns ps es : queue s q ns ps es -> Zlen ps = Zlen es.
Proof using. intros [_ H _ _]. unfold Zlen. by rewrite (Forall2_length _ _ _ H). Qed.

Lemma events_in_store s ps (es : list Event) :
  Forall2 (typed_at s) ps es -> addrs ps ⊆ dom (objs s).
Proof using.
  induction 1 as [|p e ps es Hp _ IH]; [set_solver|]. apply elem_of_dom_2 in Hp. set_solver.
Qed.

(** A queue is unchanged when its own objects are. *)
Lemma queue_frame D s s' q ns ps es :
  same_except D s s' -> D ## addrs (q :: ns) -> D ## addrs ps ->
  queue s q ns ps es -> queue s' q ns ps es.
Proof using.
  intros Hs Hd Hd' [Hv He Ha Hn]. split; [by eapply vec_frame|by eapply typed_list_frame|done|done].
Qed.

Lemma new_event_queue_spec s :
  store_ok s ->
  (exists q s', new_event_queue s = Ok (q, s') /\ store_ok s' /\ queue s' q [] [] [] /\
     same_except ∅ s s') \/
  new_event_queue s = Halted.
Proof using.
  intros Hok. destruct (new_vector_spec s sizeof_Event Hok)
    as [(q & s' & Hq & _ & Hok' & Hv & Hs)|Hq]; [left|by right].
  exists q, s'. split_and!; try done. split; [done|constructor|set_solver|constructor].
Qed.

Lemma same_except_new D s s' p (o : Obj) :
  objs s' = <[p := o]> (objs s) -> (p ∉ dom (objs s)) -> same_except D s s'.
Proof using. intros Ho Hp q _ Hq. rewrite Ho. apply lookup_insert_ne. congruence. Qed.

Lemma add_event_full s q ns ps es t d0 d1 :
  store_ok s -> queue s q ns ps es -> Zlen es + 1 < 2 ^ 64 ->
  (exists s' n p, add_event q t d0 d1 s = Ok (tt, s') /\ store_ok s' /\
     queue s' q (ns ++ [n]) (ps ++ [p])
       (es ++ [{| do_handle := true; event_id := t; data0 := d0; data1 := d1 |}]) /\
     (n ∉ dom (objs s)) /\ (p ∉ dom (objs s)) /\ same_except (addrs (q :: ns)) s s') \/
  add_event q t d0 d1 s = Halted.
Proof using.
  intros Hok Hq Hlen. pose proof (queue_length _ _ _ _ _ Hq) as Hl.
  pose proof (vec_in_store _ _ _ _ (queue_vec _ _ _ _ _ Hq)) as Hdv.
  pose proof (events_in_store _ _ _ (queue_events _ _ _ _ _ Hq)) as Hde.
  unfold add_event. set (ev := {| do_handle := true |}).
  destruct (new_obj_spec s sizeof_Event ev Hok) as [(p & s1 & E & Hf & Hp0 & Hok1 & Ho)|E];
    [by unfold sizeof_Event| |right; unfold bind; by rewrite E].
  rewrite (bind_run _ _ _ _ _ E).
  assert (queue s1 q ns ps es) as [Hv1 He1 Ha1 Hn1].
  { eapply (queue_frame ∅); [by eapply same_except_new|set_solver|set_solver|done]. }
  destruct (vector_push_spec s1 q ns ps p Hok1 Hv1 ltac:(lia))
    as [(n & s' & E' & Hfn & Hok' & Hv' & Hs)|E']; [left|by right].
  exists s', n, p. rewrite Ho, dom_insert in Hfn. apply not_elem_of_union in Hfn as [Hnp Hfn].
  split; [done|]. split; [done|]. split; [|split; [done|split; [done|]]].
  2:{ intros x Hx Hd. rewrite Hs; [|done|rewrite Ho, dom_insert; set_solver]. rewrite Ho.
      apply lookup_insert_ne. congruence. }
  split; [done| | |].
  - apply Forall2_app; [by eapply typed_list_frame|]. constructor; [|constructor].
    eapply same_except_typed; [exact Hs|set_solver|]. unfold typed_at. by rewrite Ho, lookup_insert_eq.
  - change (q :: ns ++ [n]) with ((q :: ns) ++ [n]). rewrite !list_to_set_app_L. set_solver.
  - apply NoDup_app. split_and!; [done| |apply NoDup_singleton].
    intros x Hx ->%list_elem_of_singleton. apply Hf, Hde. by apply elem_of_list_to_set.
Qed.

Lemma add_event_spec s q ns ps es t d0 d1 :
  store_ok s -> queue s q ns ps es -> Zlen es + 1 < 2 ^ 64 ->
  (exists s' ns' p, add_event q t d0 d1 s = Ok (tt, s') /\ store_ok s' /\
     queue s' q ns' (ps ++ [p])
       (es ++ [{| do_handle := true; event_id := t; data0 := d0; data1 := d1 |}])) \/
  add_event q t d0 d1 s = Halted.
Proof using.
  intros Hok Hq Hl. destruct (add_event_full s q ns ps es t d0 d1 Hok Hq Hl)
    as [(s' & n & p & ? & ? & ? & _)|]; [left; by eexists s', _, p|by right].
Qed.

Lemma empty_event_spec s :
  store_ok s ->
  (exists p s', new_obj sizeof_Event no_event s = Ok (p, s') /\ store_ok s' /\
     typed_at s' p no_event /\ same_except ∅ s s') \/
  new_obj sizeof_Event no_event s = Halted.
Proof using.
  intros Hok. destruct (new_obj_spec s sizeof_Event no_event Hok)
    as [(p & s' & E & Hf & Hp0 & Hok' & Ho)|E]; [by unfold sizeof_Event|left|by right].
  exists p, s'. split_and!; try done; [|by eapply same_except_new].
  unfold typed_at. by rewrite Ho, lookup_insert_eq.
Qed.

Lemma poll_spec s q ns ps es :
  store_ok s -> queue s q ns ps es ->
  match es with
  | [] => (exists p s', poll q s = Ok (p, s') /\ store_ok s' /\ typed_at s' p no_event /\
             queue s' q ns ps []) \/ poll q s = Halted
  | [e] => exists p s' ns', poll q s = Ok (p, s') /\ store_ok s' /\ typed_at s' p e /\
             queue s' q ns' [] []
  | _ => poll q s = Fault
  end.
Proof using.
  intros Hok Hq. pose proof (queue_length _ _ _ _ _ Hq) as Hl.
  pose proof Hq as [Hv He Ha Hn]. pose proof Hv as (r & Hr & Hlen & Hb & _).
  unfold poll. rewrite (bind_run _ _ _ _ _ (get_obj_run _ _ _ Hr)), Hlen, Hl.
  destruct es as [|e es]; cbn [Zlen length Z.of_nat Z.eqb].
  - destruct (empty_event_spec s Hok) as [(p & s' & E & Hok' & Hp & Hs)|E]; [left|by right].
    exists p, s'. split_and!; try done. by eapply (queue_frame ∅); [exact Hs|set_solver|set_solver|].
  - destruct ps as [|p ps]; [zlen|]. apply Forall2_cons in He as [Hp He].
    destruct (Z.eqb_spec (Zlen (e :: es)) 0) as [|_]; [zlen|].
    rewrite (bind_run _ _ _ _ _ (vector_at_spec s q ns _ _ Hok Hv ltac:(apply u64_range))).
    rewrite (bind_run _ _ _ _ _ (get_obj_run _ _ _ Hr)), Hlen, Hl.
    rewrite u64_small by (rewrite <- Hl in *; zlen).
    pose proof (vector_pop_spec s q ns (p :: ps) (Zlen (e :: es) - 1) Hok Hv ltac:(zlen)) as Hpop.
    unfold pop_list in Hpop. rewrite Hl in Hpop.
    destruct es as [|e' es].
    + destruct ps; [|zlen]. cbn in Hpop. destruct Hpop as (s' & ns' & E & Hok' & Hv' & Hsub & Hs).
      change (Zlen [e] - 1) with 0. rewrite (bind_run _ _ _ _ _ E).
      exists p, s', ns'. split_and!; try done.
      * eapply same_except_typed; [exact Hs|set_solver|done].
      * split; [done|constructor|set_solver|constructor].
    + destruct (Z.eqb_spec (Zlen (e :: e' :: es)) 0) as [|_]; [zlen|].
      destruct (Z.eqb_spec (Zlen (e :: e' :: es) - 1) 0) as [|_]; [zlen|].
      destruct (Z.ltb_spec (Zlen (e :: e' :: es) - 1 + 1) (Zlen (e :: e' :: es))) as [|_]; [lia|].
      unfold bind. by rewrite Hpop.
Qed.

Lemma peek_spec s q ns ps es :
  store_ok s -> queue s q ns ps es ->
  match es with
  | [] => (exists p s', peek q s = Ok (p, s') /\ store_ok s' /\ typed_at s' p no_event /\
             queue s' q ns ps []) \/ peek q s = Halted
  | _ => exists p e, peek q s = Ok (p, s) /\ List.last ps 0 = p /\ List.last es no_event = e /\
           typed_at s p e
  end.
Proof using.
  intros Hok Hq. pose proof (queue_length _ _ _ _ _ Hq) as Hl.
  pose proof Hq as [Hv He Ha Hn]. pose proof Hv as (r & Hr & Hlen & Hb & _).
  unfold peek. rewrite (bind_run _ _ _ _ _ (get_obj_run _ _ _ Hr)), Hlen.
  destruct es as [|e0 es0 _] using rev_ind.
  - rewrite Hl. destruct (empty_event_spec s Hok) as [(p & s' & E & Hok' & Hp & Hs)|E]; [left|by right].
    exists p, s'. split_and!; try done. by eapply (queue_frame ∅); [exact Hs|set_solver|set_solver|].
  - destruct ps as [|p ps _] using rev_ind; [zlen|].
    destruct (Z.eqb_spec (Zlen (ps ++ [p])) 0) as [|_]; [zlen|]. rewrite u64_small by zlen.
    rewrite (vector_at_spec s q ns _ _ Hok Hv) by zlen.
    replace (Zlen (ps ++ [p]) - 1) with (Zlen ps) by zlen.
    rewrite Zlen_to_nat, list_lookup_middle by done. cbn [default].
    apply Forall2_app_inv in He as [_ He]; [|unfold Zlen in *; rewrite !length_app in Hl; cbn in Hl; lia].
    apply Forall2_cons in He as [He _].
    destruct (es0 ++ [e0]) eqn:Ees; [by destruct es0|]. rewrite <- Ees.
    exists p, e0. by rewrite !List.last_last.
Qed.

Lemma cleanup_event_spec s q ns ps es p e :
  store_ok s -> queue s q ns ps es -> typed_at s p e -> (p ∉ q :: ns) -> (p ∉ ps) ->
  exists s', cleanup_event p s = Ok (tt, s') /\ store_ok s' /\ queue s' q ns ps es /\
    get_obj Event p s' = Fault.
Proof using.
  intros Hok Hq Hp Hpn Hpp. apply elem_of_dom_2 in Hp.
  destruct (free_obj_spec s p Hok Hp) as (s' & E & Hok' & Ho). exists s'. split_and!; try done.
  - eapply (queue_frame {[p]}); [|set_solver|set_solver|done].
    intros x Hx _. rewrite Ho. apply lookup_delete_ne. set_solver.
  - apply get_obj_none. rewrite Ho. apply lookup_delete_eq.
Qed.
End Events.

(** ** Theorems *)

(** The operations of an event queue, on every number of queued events.
    [add_event] appends the event.  [poll] on an empty queue returns a fresh
    event whose [do_handle] is false; on one event it returns it and empties the
    queue; on two or more it dereferences NULL (through [vector_pop]).  [peek]
    returns the newest event and changes nothing. *)
Theorem event_queue_operations `{Allocator} {Obj}
    `{!Object Vector Obj, !Object VectorNode Obj, !Object Event Obj}
    (s : Store Obj) q ns ps es t d0 d1 :
  store_ok s -> queue s q ns ps es -> Zlen es + 1 < 2 ^ 64 ->
  ((exists s' ns' p, add_event q t d0 d1 s = Ok (tt, s') /\ store_ok s' /\
      queue s' q ns' (ps ++ [p])
        (es ++ [{| do_handle := true; event_id := t; data0 := d0; data1 := d1 |}])) \/
   add_event q t d0 d1 s = Halted) /\
  match es with
  | [] => (exists p s', poll q s = Ok (p, s') /\ store_ok s' /\ typed_at s' p no_event /\
             queue s' q ns ps []) \/ poll q s = Halted
  | [e] => exists p s' ns', poll q s = Ok (p, s') /\ store_ok s' /\ typed_at s' p e /\
             queue s' q ns' [] []
  | _ => poll q s = Fault
  end /\
  match es with
  | [] => (exists p s', peek q s = Ok (p, s') /\ store_ok s' /\ typed_at s' p no_event /\
             queue s' q ns ps []) \/ peek q s = Halted
  | _ => exists p e, peek q s = Ok (p, s) /\ List.last ps 0 = p /\ List.last es no_event = e /\
           typed_at s p e
  end.
Proof.
  intros Hok Hq Hl. split_and!.
  - by eapply add_event_spec.
  - by apply poll_spec.
  - by apply peek_spec.
Qed.

Abbreviation EventObj := (Vector + (VectorNode + Event))%type.

(** Two events queued on a freshly booted heap. *)
Lemma queue_example :
  exists (s : Store EventObj) q ns ps, store_ok s /\
    queue s q ns ps [{| do_handle := true; event_id := 1; data0 := 2; data1 := 3 |};
                     {| do_handle := true; event_id := 1; data0 := 5; data1 := 0 |}].
Proof.
  destruct (on_boot_start (Obj := EventObj)
    (let* q := new_event_queue in add_event q 1 2 3 ;;; add_event q 1 5 0)
    tt) as (s0 & s & E & Hok & Ho); [vm_compute; reflexivity|].
  apply bind_ok in E as (q & s1 & E1 & E). apply bind_ok in E as ([] & s2 & E2 & E3).
  destruct (new_event_queue_spec s0 Hok) as [(q' & s1' & H1 & Hok1 & Hq1 & _)|H1];
    rewrite E1 in H1; [|done]. injection H1 as <- <-.
  destruct (add_event_spec s1 q _ _ _ 1 2 3 Hok1 Hq1) as [(s2' & ns2 & p2 & H2 & Hok2 & Hq2)|H2];
    [done| |]; rewrite E2 in H2; [|done]. injection H2 as <-.
  destruct (add_event_spec s2 q _ _ _ 1 5 0 Hok2 Hq2) as [(s3' & ns3 & p3 & H3 & Hok3 & Hq3)|H3];
    [done| |]; rewrite E3 in H3; [|done]. injection H3 as <-.
  by eexists s, q, _, _.
Qed.

Lemma event_queue_operations_witness :
  exists (s : Store EventObj) q (ns ps : list Z) (es : list Event),
    ((exists s' ns' p, add_event q 1 9 0 s = Ok (tt, s') /\ store_ok s' /\
        queue s' q ns' (ps ++ [p])
          (es ++ [{| do_handle := true; event_id := 1; data0 := 9; data1 := 0 |}])) \/
     add_event q 1 9 0 s = Halted) /\
    poll q s = Fault /\
    (exists p e, peek q s = Ok (p, s) /\ List.last ps 0 = p /\ List.last es no_event = e /\
       typed_at s p e).
Proof.
  destruct queue_example as (s & q & ns & ps & Hok & Hq). eexists s, q, ns, ps, _.
  exact (event_queue_operations s q ns ps _ 1 9 0 Hok Hq eq_refl).
Defined.

(** One event goes through the queue unchanged: [add_event] on an empty
    queue followed by [poll] returns exactly that event and leaves the queue
    empty, unless the heap is exhausted. *)
Theorem add_poll_roundtrip `{Allocator} {Obj}
    `{!Object Vector Obj, !Object VectorNode Obj, !Object Event Obj}
    (s : Store Obj) q ns t d0 d1 :
  store_ok s -> queue s q ns [] [] ->
  (exists p s' ns', (add_event q t d0 d1 ;;; poll q) s = Ok (p, s') /\ store_ok s' /\
     typed_at s' p {| do_handle := true; event_id := t; data0 := d0; data1 := d1 |} /\
     queue s' q ns' [] []) \/
  (add_event q t d0 d1 ;;; poll q) s = Halted.
Proof.
  intros Hok Hq.
  destruct (add_event_spec s q ns [] [] t d0 d1 Hok Hq ltac:(done)) as [(s1 & ns1 & p & E & Hok1 & Hq1)|E];
    [left|right; unfold bind; by rewrite E].
  rewrite (bind_run _ _ _ _ _ E).
  destruct (poll_spec s1 q ns1 _ _ Hok1 Hq1) as (p' & s' & ns' & E' & Hok' & Hp & Hq').
  by exists p', s', ns'.
Qed.

Lemma add_poll_roundtrip_witness :
  exists (s : Store EventObj) q ns, queue s q ns [] [] /\
    ((exists p s' ns', (add_event q 1 4 2 ;;; poll q) s = Ok (p, s') /\ store_ok s' /\
       typed_at s' p {| do_handle := true; event_id := 1; data0 := 4; data1 := 2 |} /\
       queue s' q ns' [] []) \/
    (add_event q 1 4 2 ;;; poll q) s = Halted).
Proof.
  destruct (on_boot_start (Obj := EventObj) new_event_queue (2 ^ 47 + 65536 + 4096 + 26))
    as (s0 & s & E & Hok & Ho); [vm_compute; reflexivity|].
  destruct (new_event_queue_spec s0 Hok) as [(q & s1 & H1 & Hok1 & Hq1 & _)|H1];
    rewrite E in H1; [|discriminate H1].
  exists s1, q, []. split; [exact Hq1|]. exact (add_poll_roundtrip s1 q [] 1 4 2 Hok1 Hq1).
Defined.
