(* ===== verification/Paging.v ===== *)
(** * mem/paging.c: four-level page tables

    A table is a page of 512 eight-byte entries, reached through the direct map
    at [physical address + hhdm].  [map_pages] and [alloc_pages] are the same
    four nested loops around different leaf loops; the loops are written once,
    with the leaf loop as a parameter. *)
From S2P Require Import Prelude Memory PMM.

(** ** The code *)

Definition KERNEL_PFLAG_PRESENT : Z := 1.
Definition KERNEL_PFLAG_WRITE : Z := 2.
Definition KERNEL_PFLAG_USER : Z := 4.
Definition PAGE_SIZE : Z := 4096.
Definition PAGE_ALIGN_DOWN (addr : Z) : Z := u64 (addr / 4096 * 4096).
Definition PAGE_ALIGN_UP (x : Z) : Z := u64 (u64 (x + 4095) / 4096 * 4096).

(** [~TOPBITS] *)
Definition ADDRESS_BITS : Z := 0x0000FFFFFFFFFFFF.

Definition pml1_of (virt_addr : Z) : Z := Z.land (Z.shiftr virt_addr 12) 511.
Definition pml2_of (virt_addr : Z) : Z := Z.land (Z.shiftr virt_addr (12 + 9)) 511.
Definition pml3_of (virt_addr : Z) : Z := Z.land (Z.shiftr virt_addr (12 + 18)) 511.
Definition pml4_of (virt_addr : Z) : Z := Z.land (Z.shiftr virt_addr (12 + 27)) 511.

(** [table[i]] for a [uint64_t table[]]. *)
Definition entry_addr (table i : Z) : Z := u64 (table + 8 * i).
Definition get_entry (table i : Z) (k : Kernel) : Z := load64 (mem k) (entry_addr table i).
Definition set_entry (table i v : Z) : M Kernel unit :=
  modify (set_mem (fun m => store64 m (entry_addr table i) v)).

(** Every path through the loop bodies of the code returns, so no loop of
    [virt_to_phys] runs twice. *)
Definition virt_to_phys (pml4_addr virt_addr : Z) (k : Kernel) : Z :=
  let virt_addr := Z.land virt_addr ADDRESS_BITS in
  let e4 := get_entry pml4_addr (pml4_of virt_addr) k in
  if e4 =? 0 then 0xDEAD
  else
    let pml3_addr := u64 (PAGE_ALIGN_DOWN e4 + hhdm k) in
    let e3 := get_entry pml3_addr (pml3_of virt_addr) k in
    if e3 =? 0 then 0xDEAD
    else
      let pml2_addr := u64 (PAGE_ALIGN_DOWN e3 + hhdm k) in
      let e2 := get_entry pml2_addr (pml2_of virt_addr) k in
      if e2 =? 0 then 0xDEAD
      else
        let pml1_addr := u64 (PAGE_ALIGN_DOWN e2 + hhdm k) in
        let e1 := get_entry pml1_addr (pml1_of virt_addr) k in
        if e1 =? 0 then 0xDEAD
        else u64 (PAGE_ALIGN_DOWN e1 + (virt_addr - PAGE_ALIGN_DOWN virt_addr)).

(** The child table behind [table[i]], made when the entry is empty. *)
Definition get_table (flags table i : Z) : M Kernel Z :=
  let* k := get in
  if get_entry table i k =? 0 then
    let* p := kmalloc 1 in
    set_entry table i p ;;;
    let* k := get in
    let child := u64 (get_entry table i k + hhdm k) in
    modify (set_mem (fun m => memset m child 0 4096)) ;;;
    let* k := get in
    set_entry table i (Z.lor (get_entry table i k)
      (Z.lor (Z.lor (Z.lor flags KERNEL_PFLAG_PRESENT) KERNEL_PFLAG_WRITE) KERNEL_PFLAG_USER)) ;;;
    ret child
  else ret (u64 (PAGE_ALIGN_DOWN (get_entry table i k) + hhdm k)).

Section Loops.
(** The state of the mapping loops; a body returns [None] when it has mapped
    the last page ([return]), [Some st] when its table is full. *)
Context {St : Type} (flags : Z) (pml1_loop : Z -> Z -> St -> M Kernel (option St)).

(** [for (; i < 512; i++)] over the entries of [table]: the loop body enters
    the child table at [first]'s index the first time and at 0 afterwards. *)
Fixpoint entries (first rest : Z -> St -> M Kernel (option St)) (n : nat) (table i : Z) (st : St)
    : M Kernel (option St) :=
  match n with
  | O => ret (Some st)
  | S n' =>
      let* child := get_table flags table i in
      let* r := first child st in
      match r with
      | None => ret None
      | Some st' => entries rest rest n' table (i + 1) st'
      end
  end.

Definition pml2_loop (table pml2 pml1 : Z) : St -> M Kernel (option St) :=
  entries (fun t => pml1_loop t pml1) (fun t => pml1_loop t 0)
    (Z.to_nat (512 - pml2)) table pml2.
Definition pml3_loop (table pml3 pml2 pml1 : Z) : St -> M Kernel (option St) :=
  entries (fun t => pml2_loop t pml2 pml1) (fun t => pml2_loop t 0 0)
    (Z.to_nat (512 - pml3)) table pml3.
Definition pml4_loop (table pml4 pml3 pml2 pml1 : Z) : St -> M Kernel (option St) :=
  entries (fun t => pml3_loop t pml3 pml2 pml1) (fun t => pml3_loop t 0 0 0)
    (Z.to_nat (512 - pml4)) table pml4.

(** The whole function: running out of the address space halts. *)
Definition map_from (pml4_addr virt_addr : Z) (st : St) : M Kernel unit :=
  let virt_addr := Z.land virt_addr ADDRESS_BITS in
  let* r := pml4_loop pml4_addr (pml4_of virt_addr) (pml3_of virt_addr)
    (pml2_of virt_addr) (pml1_of virt_addr) st in
  match r with
  | None => ret tt
  | Some _ => halt
  end.
End Loops.

(** The leaf loop of [map_pages]; the state is [num_pages] and [phys_addr]. *)
Fixpoint map_leaf (flags : Z) (n : nat) (table i : Z) (st : Z * Z) : M Kernel (option (Z * Z)) :=
  match n with
  | O => ret (Some st)
  | S n' =>
      let (num_pages, phys_addr) := st in
      set_entry table i (Z.lor phys_addr flags) ;;;
      let num_pages := u64 (num_pages - 1) in
      let phys_addr := u64 (phys_addr + 4096) in
      if num_pages =? 0 then ret None else map_leaf flags n' table (i + 1) (num_pages, phys_addr)
  end.

Definition map_pages (pml4_addr virt_addr phys_addr num_pages flags : Z) : M Kernel unit :=
  map_from flags (fun table pml1 => map_leaf flags (Z.to_nat (512 - pml1)) table pml1)
    pml4_addr virt_addr (num_pages, phys_addr).

(** The leaf loop of [alloc_pages]; the state is [num_pages]. *)
Fixpoint alloc_leaf (flags : Z) (n : nat) (table i : Z) (num_pages : Z) : M Kernel (option Z) :=
  match n with
  | O => ret (Some num_pages)
  | S n' =>
      let* phys := kmalloc 1 in
      modify (fun k => set_mem (fun m => memset m (u64 (phys + hhdm k)) 0 PAGE_SIZE) k) ;;;
      set_entry table i (Z.lor phys flags) ;;;
      let num_pages := u64 (num_pages - 1) in
      if num_pages =? 0 then ret None else alloc_leaf flags n' table (i + 1) num_pages
  end.

Definition alloc_pages (pml4_addr virt_addr num_pages flags : Z) : M Kernel unit :=
  map_from flags (fun table pml1 => alloc_leaf flags (Z.to_nat (512 - pml1)) table pml1)
    pml4_addr virt_addr num_pages.

(** [while (len > 0)]: at least one byte is copied per iteration. *)
Fixpoint write_vmem_loop (fuel : nat) (pml4_addr virt_addr data len : Z) : M Kernel unit :=
  if len =? 0 then ret tt
  else match fuel with
  | O => fun _ => Spin
  | S fuel' =>
      let* k := get in
      let kernel_addr := virt_to_phys pml4_addr virt_addr k in
      if kernel_addr =? 0xDEAD then halt
      else
        let kernel_addr := u64 (kernel_addr + hhdm k) in
        let bytes_to_copy := if len <? PAGE_SIZE then len else PAGE_SIZE in
        modify (set_mem (fun m => memcpy (Z.to_nat bytes_to_copy) m kernel_addr data)) ;;;
        write_vmem_loop fuel' pml4_addr (u64 (virt_addr + bytes_to_copy)) (u64 (data + bytes_to_copy))
          (len - bytes_to_copy)
  end.
Definition write_vmem (pml4_addr virt_addr data len : Z) : M Kernel unit :=
  write_vmem_loop (S (Z.to_nat (len / PAGE_SIZE))) pml4_addr virt_addr data len.

Definition push_vmem (pml4_addr rsp data len : Z) : M Kernel unit :=
  write_vmem pml4_addr (u64 (rsp - len)) data len.

(** Map three pages across a table boundary and translate addresses. *)
Example map_demo :
  obind ((let* p := kmalloc 1 in
    let* k := get in
    let root := p + hhdm k in
    map_pages root (2 * 512 * 4096 - 4096) 0x5000 3 3 ;;;
    let* k := get in
    ret (map (fun v => virt_to_phys root v k)
      [2 * 512 * 4096 - 4096; 2 * 512 * 4096 + 4097; 2 * 512 * 4096 + 2 * 4096])) small_kernel)
    (fun '(r, _) => Ok r) = Ok [0x5000; 0x7001; 0xDEAD].
Proof. vm_compute. reflexivity. Qed.

(** mem/map.c.  The linker's symbols and the address the boot loader put the
    kernel at are parameters. *)
Record KernelImage := {
  kernel_start : Z; writeallowed_start : Z; kernel_end : Z;
  physical_base : Z; virtual_base : Z
}.
Definition KERNEL_STACK_PAGES : Z := 2.
Definition KERNEL_STACK_ADDR : Z := KERNEL_STACK_PTR - KERNEL_STACK_PAGES * PAGE_SIZE.

Definition mapped_type (t : Z) : bool :=
  (t =? 0) || (t =? 5) || (t =? 7) || (t =? 6) || (t =? 3) || (t =? 2).

Fixpoint map_sections_loop (es : list memmap_entry) (pml4 : Z) : M Kernel unit :=
  match es with
  | [] => ret tt
  | e :: es' =>
      (if mapped_type (type e) then
         let* k := get in
         map_pages pml4 (u64 (base e + hhdm k)) (base e) (length_ e / 4096)
           (Z.lor KERNEL_PFLAG_PRESENT KERNEL_PFLAG_WRITE)
       else ret tt) ;;;
      map_sections_loop es' pml4
  end.
Definition map_sections (pml4 : Z) : M Kernel unit :=
  let* k := get in map_sections_loop (memmap k) pml4.

Definition map_kernel (img : KernelImage) (pml4 : Z) : M Kernel unit :=
  let phys_of := fun v => u64 (physical_base img + u64 (v - virtual_base img)) in
  let length_buffer := PAGE_ALIGN_UP (u64 (writeallowed_start img - kernel_start img)) in
  map_pages pml4 (PAGE_ALIGN_DOWN (kernel_start img)) (phys_of (kernel_start img))
    (length_buffer / 4096) KERNEL_PFLAG_PRESENT ;;;
  let length_buffer := PAGE_ALIGN_UP (u64 (kernel_end img - writeallowed_start img)) in
  map_pages pml4 (PAGE_ALIGN_DOWN (writeallowed_start img)) (phys_of (writeallowed_start img))
    (length_buffer / 4096) (Z.lor KERNEL_PFLAG_PRESENT KERNEL_PFLAG_WRITE) ;;;
  alloc_pages pml4 KERNEL_STACK_ADDR KERNEL_STACK_PAGES
    (Z.lor KERNEL_PFLAG_PRESENT KERNEL_PFLAG_WRITE).

Definition map_all (img : KernelImage) (pml4 : Z) : M Kernel unit :=
  map_kernel img pml4 ;;; map_sections pml4.

(** Returns the new tree's address in the direct map; [init_paging] is the same
    with the physical address kept in [kernel.cr3]. *)
Definition init_paging_task (img : KernelImage) : M Kernel Z :=
  let* p := kmalloc 1 in
  let* k := get in
  let pml4_virt := u64 (p + hhdm k) in
  modify (set_mem (fun m => memset m pml4_virt 0 4096)) ;;;
  map_all img pml4_virt ;;;
  ret pml4_virt.
Definition init_paging (img : KernelImage) : M Kernel Z :=
  let* pml4_virt := init_paging_task img in
  let* k := get in
  ret (u64 (pml4_virt - hhdm k)).

(** ** Page tables

    [T] maps a level (0 for the root) and the index of a table at that level to
    the address of its page.  Page [q] of the 2^36 pages of the address space
    has its entry in table [q / 512] of level 3. *)
Abbreviation tables := (gmap (Z * Z) Z).

Definition page_block (k : Kernel) (a : Z) : Z * Z := (a - hhdm k, 1).

Record pt_inv (k : Kernel) (root : Z) (T : tables) : Prop := {
  pt_wf : wf_pmm k;
  (** Limine aligns usable sections to pages. *)
  pt_aligned i e : memmap k !! i = Some e -> usable e -> base e mod 4096 = 0;
  pt_root : T !! (0, 0) = Some root;
  pt_range d p a : T !! (d, p) = Some a -> 0 <= d <= 3 /\ 0 <= p < 512 ^ d;
  pt_block d p a : T !! (d, p) = Some a -> block_ok k (page_block k a);
  pt_apart x y a b : T !! x = Some a -> T !! y = Some b -> x <> y -> disjoint a 4096 b 4096;
  pt_parent d p i b : 0 <= d -> 0 <= i < 512 -> T !! (d + 1, p * 512 + i) = Some b ->
    is_Some (T !! (d, p));
  pt_child d p a i : T !! (d, p) = Some a -> d < 3 -> 0 <= i < 512 ->
    match T !! (d + 1, p * 512 + i) with
    | Some b => get_entry a i k <> 0 /\ PAGE_ALIGN_DOWN (get_entry a i k) + hhdm k = b
    | None => get_entry a i k = 0
    end
}.

(** The page-table entry of page [q]. *)
Definition pte (k : Kernel) (T : tables) (q : Z) : Z :=
  match T !! (3, q / 512) with
  | Some a => get_entry a (q mod 512) k
  | None => 0
  end.

(** What a change of the tables leaves alone: pages in use stay in use, new
    tables come from free pages, and no page in use changes but tables. *)
Record extends (k : Kernel) (T : tables) (k' : Kernel) (T' : tables) : Prop := {
  ext_config : same_config k k';
  ext_tables : T ⊆ T';
  ext_block c : block_ok k c -> block_ok k' c;
  ext_fresh x b c : T' !! x = Some b -> T !! x = None -> block_ok k c ->
    disjoint b 4096 (fst c + hhdm k) (snd c * 4096);
  ext_frame c : block_ok k c ->
    (forall x b, T !! x = Some b -> disjoint b 4096 (fst c + hhdm k) (snd c * 4096)) ->
    agree (mem k') (mem k) (fst c + hhdm k) (snd c * 4096)
}.

Lemma extends_refl k T : extends k T k T.
Proof. constructor; try done. congruence. Qed.

Lemma extends_trans k1 T1 k2 T2 k3 T3 :
  extends k1 T1 k2 T2 -> extends k2 T2 k3 T3 -> extends k1 T1 k3 T3.
Proof.
  intros [C1 S1 B1 F1 R1] [C2 S2 B2 F2 R2]. pose proof C1 as (_ & Hh & _).
  constructor.
  - by eapply same_config_trans.
  - by etransitivity.
  - auto.
  - intros x b c Hx Hn Hc. destruct (T2 !! x) as [b'|] eqn:E.
    + assert (T3 !! x = Some b') as E' by (by eapply lookup_weaken). assert (b' = b) as -> by congruence.
      by eapply F1.
    + rewrite <- Hh. eapply F2; eauto.
  - intros c Hc Hd. eapply agree_trans; [|by apply R1].
    rewrite <- Hh. apply R2; [auto|]. intros x b Hx. rewrite Hh.
    destruct (T1 !! x) as [b'|] eqn:E; [|by eapply F1].
    assert (T2 !! x = Some b') as E' by (by eapply lookup_weaken).
    assert (b' = b) as -> by congruence. eauto.
Qed.

(** ** Arithmetic of addresses *)

Lemma masked_mod v : 0 <= v -> Z.land v ADDRESS_BITS = v mod 2 ^ 48.
Proof. intros _. unfold ADDRESS_BITS. change 0x0000FFFFFFFFFFFF with (Z.ones 48). by rewrite Z.land_ones. Qed.

Lemma index_of v s : 0 <= s -> Z.land (Z.shiftr v s) 511 = v / 2 ^ s mod 512.
Proof.
  intros Hs. change 511 with (Z.ones 9). rewrite Z.land_ones, Z.shiftr_div_pow2 by lia. done.
Qed.

Lemma align_down_mod x : 0 <= x < 2 ^ 64 -> PAGE_ALIGN_DOWN x = x - x mod 4096.
Proof. intros H. unfold PAGE_ALIGN_DOWN. rewrite u64_small by divlia. divlia. Qed.

(** Flags below 4096 do not disturb a page-aligned address. *)
Lemma flagged_entry p f :
  0 <= p < 2 ^ 64 -> p mod 4096 = 0 -> 0 <= f < 4096 ->
  0 <= Z.lor p f < 2 ^ 64 /\ PAGE_ALIGN_DOWN (Z.lor p f) = p /\ (0 < f -> Z.lor p f <> 0).
Proof.
  intros Hp Hm Hf.
  assert (Z.lor p f = p + f) as E.
  { rewrite Z.add_nocarry_lxor; [symmetry; apply Z.lxor_lor|]; apply Z.bits_inj'; intros i Hi;
      rewrite Z.land_spec, Z.bits_0;
      (destruct (Z_lt_le_dec i 12);
       [replace (Z.testbit p i) with false; [done|];
        rewrite <- (Z.mod_pow2_bits_low p 12 i) by lia; change (2 ^ 12) with 4096;
        by rewrite Hm, Z.bits_0
       |replace (Z.testbit f i) with false; [by rewrite andb_false_r|];
        rewrite <- (Z.mod_small f (2 ^ 12)) by lia; by rewrite Z.mod_pow2_bits_high by lia]). }
  rewrite E. assert (p + f < 2 ^ 64) by divlia. split; [lia|].
  rewrite align_down_mod by lia. split; [|lia]. divlia.
Qed.

(** ** One table entry *)

Lemma table_space k root T d p a :
  pt_inv k root T -> T !! (d, p) = Some a -> 4096 <= a /\ a + 4096 < 2 ^ 64.
Proof.
  intros Hi Ha. destruct (block_space k _ (pt_wf _ _ _ Hi) (pt_block _ _ _ Hi _ _ _ Ha)) as (? & ? & _).
  unfold page_block in *. cbn [fst snd] in *. lia.
Qed.

Lemma entry_addr_in a i : 0 <= a -> a + 4096 < 2 ^ 64 -> 0 <= i < 512 -> entry_addr a i = a + 8 * i.
Proof. intros ? ? ?. unfold entry_addr. apply u64_small. lia. Qed.

Lemma get_entry_agree k k' a i :
  agree (mem k') (mem k) a 4096 -> 0 <= a -> a + 4096 < 2 ^ 64 -> 0 <= i < 512 ->
  get_entry a i k' = get_entry a i k.
Proof.
  intros Hag Ha Hs Hi. unfold get_entry. rewrite entry_addr_in by done.
  apply load_agree. eapply agree_sub; [exact Hag|lia|lia].
Qed.

Lemma get_entry_range a i k : 0 <= get_entry a i k < 2 ^ 64.
Proof. apply load64_range. Qed.

(** Writing entry [i] of the page at [a]. *)
Lemma get_entry_store k m a i j v :
  0 <= a -> a + 4096 < 2 ^ 64 -> 0 <= i < 512 -> 0 <= j < 512 -> 0 <= v < 2 ^ 64 ->
  mem k = store64 m (entry_addr a i) v ->
  get_entry a j k = if i =? j then v else load64 m (entry_addr a j).
Proof.
  intros Ha Hs Hi Hj Hv Hm. unfold get_entry. rewrite Hm, !entry_addr_in by done.
  destruct (Z.eqb_spec i j) as [->|Hne].
  - rewrite load_store_same. by apply Z.mod_small.
  - apply load_store_other. unfold disjoint. lia.
Qed.

(** A change of memory inside the page of one table leaves the blocks, and every
    other page in use. *)
Lemma inside_table k root T d p a f :
  pt_inv k root T -> T !! (d, p) = Some a ->
  (forall x, ~ (a <= x < a + 4096) -> f (mem k) x = mem k x) ->
  extends k T (set_mem f k) T.
Proof.
  intros Hinv Ha Hf. pose proof (pt_block _ _ _ Hinv _ _ _ Ha) as Hb.
  constructor; [apply same_config_set_mem|done| |congruence|].
  - intros c Hc. eapply (block_ok_frame k _ (page_block k a) c); try done; [apply Hinv|].
    intros x Hx. apply Hf. unfold page_block in Hx. cbn [fst snd] in Hx. lia.
  - intros c Hc Hd x Hx. apply Hf. specialize (Hd _ _ Ha). unfold disjoint in Hd. lia.
Qed.

(** The invariant after a change of one entry of a leaf table. *)
Lemma set_leaf_inv k root T p a i v :
  pt_inv k root T -> T !! (3, p) = Some a -> 0 <= i < 512 -> 0 <= v < 2 ^ 64 ->
  let k' := set_mem (fun m => store64 m (entry_addr a i) v) k in
  pt_inv k' root T /\ extends k T k' T /\
  (forall q, pte k' T q = if q =? p * 512 + i then v else pte k T q).
Proof.
  intros Hinv Ha Hi Hv. cbv zeta. set (k' := set_mem _ k).
  destruct (table_space _ _ _ _ _ _ Hinv Ha) as [H0 H1].
  assert (forall x, ~ (a <= x < a + 4096) -> mem k' x = mem k x) as Hf.
  { intros x Hx. cbn. unfold store. rewrite (proj2 (in_range_false _ _ _)); [done|].
    rewrite entry_addr_in by lia. lia. }
  pose proof (inside_table k root T 3 p a (fun m => store64 m (entry_addr a i) v) Hinv Ha Hf) as Hext.
  fold k' in Hext.
  assert (forall d q b, T !! (d, q) = Some b -> (d, q) <> (3, p) -> agree (mem k') (mem k) b 4096) as Hag.
  { intros d q b Hb Hne x Hx. apply Hf.
    pose proof (pt_apart _ _ _ Hinv _ _ _ _ Hb Ha Hne). unfold disjoint in *. lia. }
  split_and!; [|exact Hext|].
  - destruct Hinv as [Hwf Hal Hroot Hr Hbl Hap Hpar Hch]. constructor; try done.
    + by eapply wf_same_config; [apply (ext_config _ _ _ _ Hext)|].
    + intros d q b Hb. by eapply (ext_block _ _ _ _ Hext), Hbl.
    + intros d q b j Hb Hd Hj. assert ((d, q) <> (3, p)) as Hne by (intros [=]; lia).
      destruct (block_space k _ Hwf (Hbl _ _ _ Hb)) as (? & ? & _).
      unfold page_block in *. cbn [fst snd] in *.
      rewrite (get_entry_agree k k' b j); [by apply Hch|by eapply Hag|lia|lia|done].
  - intros q. unfold pte. destruct (T !! (3, q / 512)) as [b|] eqn:E.
    + destruct (Z.eqb_spec (q / 512) p) as [Hqp|Hqp].
      * rewrite Hqp in E. assert (b = a) as -> by congruence.
        rewrite (get_entry_store k' (mem k) a i (q mod 512) v) by (done || lia || divlia).
        replace (q =? p * 512 + i) with (i =? q mod 512) by divlia. done.
      * replace (q =? p * 512 + i) with false by divlia.
        destruct (table_space _ _ _ _ _ _ Hinv E).
        apply get_entry_agree; [|lia|lia|divlia]. eapply Hag; [exact E|congruence].
    + replace (q =? p * 512 + i) with false; [done|]. symmetry. apply Z.eqb_neq. intros ->.
      replace ((p * 512 + i) / 512) with p in E by divlia. congruence.
Qed.

(** ** A new table *)

(** The flags of an entry that points to a table. *)
Definition table_flags (flags : Z) : Z :=
  Z.lor (Z.lor (Z.lor flags KERNEL_PFLAG_PRESENT) KERNEL_PFLAG_WRITE) KERNEL_PFLAG_USER.

Lemma lor_bound a b n : 0 <= n -> 0 <= a < 2 ^ n -> 0 <= b < 2 ^ n -> 0 <= Z.lor a b < 2 ^ n.
Proof.
  intros Hn Ha Hb. replace (Z.lor a b) with (Z.lor a b mod 2 ^ n); [apply Z.mod_pos_bound; lia|].
  apply Z.bits_inj'. intros i Hi. destruct (Z_lt_le_dec i n).
  - by rewrite Z.mod_pow2_bits_low by lia.
  - rewrite Z.mod_pow2_bits_high, Z.lor_spec by lia.
    rewrite <- (Z.mod_small a (2 ^ n)), <- (Z.mod_small b (2 ^ n)) by done.
    by rewrite !Z.mod_pow2_bits_high by lia.
Qed.

Lemma table_flags_bound flags : 0 <= flags < 4096 -> 0 < table_flags flags < 4096.
Proof.
  intros H. unfold table_flags.
  assert (0 <= Z.lor (Z.lor (Z.lor flags 1) 2) 4 < 2 ^ 12) as Hb by (repeat apply lor_bound; lia).
  split; [|apply Hb]. destruct (Z.eq_dec (Z.lor (Z.lor (Z.lor flags 1) 2) 4) 0) as [E|]; [|fold KERNEL_PFLAG_PRESENT in *; change KERNEL_PFLAG_WRITE with 2; change KERNEL_PFLAG_USER with 4; change KERNEL_PFLAG_PRESENT with 1 in *; lia].
  apply Z.lor_eq_0_iff in E as [_ E]. done.
Qed.

(** The writes of [get_table] for the page at [ph]. *)
Definition link (ea ph flags h : Z) (m : memory) : memory :=
  store64 (memset (store64 m ea ph) (ph + h) 0 4096) ea (Z.lor ph (table_flags flags)).

Section Link.
Context (k : Kernel) (root : Z) (T : tables) (d p a i : Z) (Hinv : pt_inv k root T).
Context (Ha : T !! (d, p) = Some a) (Hd : d < 3) (Hi : 0 <= i < 512).
Context (Hnone : T !! (d + 1, p * 512 + i) = None).
Context (flags : Z) (Hflags : 0 <= flags < 4096).
Context (j : nat) (e : memmap_entry) (n : Z) (k1 : Kernel).
Context (Hpost : alloc_post k j e n 1 k1).
Let ph := page_addr e n.
Let b := ph + hhdm k.
Let k2 := set_mem (link (entry_addr a i) ph flags (hhdm k)) k1.
Let T' := <[(d + 1, p * 512 + i) := b]> T.

Lemma link_space :
  4096 <= a /\ a + 4096 < 2 ^ 64 /\ 4096 <= b /\ b + 4096 < 2 ^ 64 /\ 0 <= ph /\ ph mod 4096 = 0 /\
  0 <= hhdm k /\ wf_pmm k1 /\ block_ok k1 (ph, 1) /\ disjoint a 4096 b 4096.
Proof using All.
  destruct (table_space _ _ _ _ _ _ Hinv Ha). pose proof (pt_wf _ _ _ Hinv) as Hwf.
  pose proof (post_config _ _ _ _ _ _ Hpost) as Hcfg. pose proof Hcfg as (_ & Hh & _).
  pose proof (wf_same_config _ _ Hcfg Hwf) as Hwf1.
  pose proof (block_ok_new k j e n 1 k1 Hwf ltac:(lia) Hpost) as Hb.
  destruct (block_space k1 _ Hwf1 Hb) as (? & ? & _). cbn [fst snd] in *.
  destruct (block_alloc_frame k j e n 1 k1 _ Hwf ltac:(lia) Hpost (pt_block _ _ _ Hinv _ _ _ Ha)) as [_ Hdis].
  unfold page_block in Hdis. cbn [fst snd] in Hdis. unfold disjoint in *. rewrite Hh in *.
  destruct (post_free _ _ _ _ _ _ Hpost) as (Hj & Hu & Hn & _).
  pose proof (pt_aligned _ _ _ Hinv j e Hj Hu) as Hal.
  destruct (wf_entry k Hwf j e Hj Hu) as [? _ _]. pose proof (wf_hhdm k Hwf).
  unfold b, ph. unfold page_addr in *. split_and!; try done; try lia; try divlia.
Qed.

(** What the new table and the writes leave alone. *)
Lemma link_frame x : ~ (a <= x < a + 4096) -> ~ (b <= x < b + 4096) ->
  mem k2 x = mem k1 x.
Proof using All.
  destruct link_space as (H0 & H1 & H2 & H3 & _). intros Hx Hy.
  unfold k2. cbn [set_mem mem]. unfold link, store, memset. fold b.
  rewrite !entry_addr_in by lia. rewrite !(proj2 (in_range_false _ _ _)) by lia. done.
Qed.

Lemma link_block c : block_ok k c -> block_ok k2 c.
Proof using All.
  destruct link_space as (H0 & H1 & H2 & H3 & _ & _ & _ & Hwf1 & Hb & _). intros Hc.
  pose proof (post_config _ _ _ _ _ _ Hpost) as Hcfg. pose proof Hcfg as (_ & Hh & _).
  pose proof (pt_wf _ _ _ Hinv) as Hwf.
  eapply (block_ok_same k1); [done|apply same_config_set_mem| |by eapply block_ok_alloc].
  intros x Hx. apply link_frame; intros Hin.
  - eapply (block_not_bitmap k1 (page_block k a)); [done| | |exact Hx].
    + eapply block_ok_alloc; [exact Hwf|exact Hpost|by eapply pt_block].
    + unfold page_block. cbn [fst snd]. rewrite Hh. lia.
  - eapply (block_not_bitmap k1 (ph, 1)); [done|exact Hb| |exact Hx].
    cbn [fst snd]. rewrite Hh. unfold b in Hin. lia.
Qed.

Lemma link_agree c :
  block_ok k c -> disjoint a 4096 (fst c + hhdm k) (snd c * 4096) ->
  agree (mem k2) (mem k) (fst c + hhdm k) (snd c * 4096) /\
  disjoint b 4096 (fst c + hhdm k) (snd c * 4096).
Proof using All.
  intros Hc Hdis.
  destruct (block_alloc_frame k j e n 1 k1 c (pt_wf _ _ _ Hinv) ltac:(lia) Hpost Hc) as [Hag Hdb].
  unfold b, ph in *. unfold disjoint in *. split; [|lia].
  eapply agree_trans; [|exact Hag]. intros x Hx. apply link_frame; unfold b, ph; lia.
Qed.

Lemma link_other x c : T !! x = Some c -> x <> (d, p) ->
  agree (mem k2) (mem k) c 4096 /\ disjoint b 4096 c 4096.
Proof using All.
  intros Hx Hne. destruct x as [d' p'].
  destruct (link_agree (page_block k c)) as [Hag Hdis].
  - by eapply pt_block.
  - unfold page_block. cbn [fst snd]. replace (c - hhdm k + hhdm k) with c by lia.
    eapply pt_apart; [exact Hinv|exact Ha|exact Hx|congruence].
  - unfold page_block in *. cbn [fst snd] in *. by replace (c - hhdm k + hhdm k) with c in * by lia.
Qed.

(** The entries of the parent and of the new table. *)
Lemma link_parent q : 0 <= q < 512 ->
  get_entry a q k2 = if i =? q then Z.lor ph (table_flags flags) else get_entry a q k.
Proof using All.
  intros Hq. destruct link_space as (H0 & H1 & H2 & H3 & Hph & Hal & Hh0 & _ & _ & Hdis).
  pose proof (table_flags_bound flags Hflags).
  rewrite (get_entry_store k2 (memset (store64 (mem k1) (entry_addr a i) ph) b 0 4096) a i q
    (Z.lor ph (table_flags flags))); try done; [|lia..|].
  2:{ apply lor_bound; [lia| |]; unfold b in *; lia. }
  destruct (Z.eqb_spec i q) as [|Hne]; [done|].
  rewrite !entry_addr_in by lia. unfold get_entry. rewrite entry_addr_in by lia.
  unfold disjoint in Hdis.
  rewrite (load_agree 8 _ (store64 (mem k1) (a + 8 * i) ph)) by (apply memset_agree; unfold disjoint; lia).
  rewrite load_store_other by (unfold disjoint; lia).
  apply load_agree. eapply agree_sub;
    [apply (proj1 (block_alloc_frame k j e n 1 k1 (page_block k a) (pt_wf _ _ _ Hinv) ltac:(lia) Hpost
      (pt_block _ _ _ Hinv _ _ _ Ha)))|unfold page_block; cbn [fst snd]; lia..].
Qed.

Lemma link_child q : 0 <= q < 512 -> get_entry b q k2 = 0.
Proof using All.
  intros Hq. destruct link_space as (H0 & H1 & H2 & H3 & Hph & Hal & Hh0 & _ & _ & Hdis).
  unfold get_entry, k2. cbn [set_mem mem]. unfold link. fold b.
  rewrite !entry_addr_in by lia. unfold disjoint in Hdis.
  rewrite load_store_other by (unfold disjoint; lia).
  apply load_memset_zero; lia.
Qed.
(** Every table but the new one still points to its children. *)
Lemma link_children d' p' c q :
  T' !! (d', p') = Some c -> d' < 3 -> 0 <= q < 512 ->
  match T' !! (d' + 1, p' * 512 + q) with
  | Some c' => get_entry c q k2 <> 0 /\ PAGE_ALIGN_DOWN (get_entry c q k2) + hhdm k2 = c'
  | None => get_entry c q k2 = 0
  end.
Proof using All.
  destruct link_space as (H0 & H1 & H2 & H3 & Hph & Hal & Hh0 & Hwf1 & Hb1 & Hdis).
  pose proof (table_flags_bound flags Hflags).
  destruct (post_config _ _ _ _ _ _ Hpost) as (_ & Hh & _). change (hhdm k2) with (hhdm k1). rewrite Hh.
  destruct (pt_range _ _ _ Hinv _ _ _ Ha) as [Hdr Hpr].
  intros [[[= <- <-] <-]|[Hx Hc]]%lookup_insert_Some Hd' Hq.
  - rewrite link_child by done. unfold T'. rewrite lookup_insert_ne by (intros [=]; lia).
    destruct (T !! (d + 1 + 1, _)) as [c'|] eqn:E; [|done].
    destruct (pt_parent _ _ _ Hinv (d + 1) (p * 512 + i) q c') as [? ?]; [lia|done|done|congruence].
  - pose proof (pt_child _ _ _ Hinv d' p' c q Hc Hd' Hq) as Hch.
    destruct (decide ((d', p') = (d, p))) as [[= -> ->]|Hne].
    + assert (c = a) as -> by congruence. rewrite link_parent by done.
      destruct (Z.eqb_spec i q) as [<-|Hiq].
      * unfold T'. rewrite lookup_insert_eq.
        destruct (flagged_entry ph (table_flags flags)) as (_ & -> & Hpos); [unfold b in *; lia|done|lia|].
        split; [apply Hpos; lia|done].
      * unfold T'. by rewrite lookup_insert_ne by (intros [=]; lia).
    + destruct (link_other _ _ Hc Hne) as [Hag _].
      destruct (table_space _ _ _ _ _ _ Hinv Hc).
      rewrite (get_entry_agree k k2 c q) by (done || lia).
      destruct (pt_range _ _ _ Hinv _ _ _ Hc) as [_ Hpr'].
      unfold T'. rewrite lookup_insert_ne; [done|]. intros [= E1 E2].
      apply Hne. f_equal; lia.
Qed.

Lemma link_pte q : pte k2 T' q = pte k T q.
Proof using All.
  pose proof link_children as Hch. unfold pte. unfold T'.
  destruct (decide ((3, q / 512) = (d + 1, p * 512 + i))) as [E|Hne].
  - rewrite E, lookup_insert_eq, Hnone. apply link_child. divlia.
  - rewrite lookup_insert_ne by done. destruct (T !! (3, q / 512)) as [c|] eqn:E; [|done].
    destruct (table_space _ _ _ _ _ _ Hinv E).
    apply get_entry_agree; [|lia|lia|divlia]. eapply link_other; [exact E|]. intros [=]; lia.
Qed.

Lemma link_extends : extends k T k2 T'.
Proof using All.
  constructor.
  - eapply same_config_trans; [apply (post_config _ _ _ _ _ _ Hpost)|apply same_config_set_mem].
  - by apply insert_subseteq.
  - exact link_block.
  - intros x c q [[<- <-]|[_ Hx]]%lookup_insert_Some Hx' Hq; [|congruence].
    destruct (block_alloc_frame k j e n 1 k1 q (pt_wf _ _ _ Hinv) ltac:(lia) Hpost Hq) as [_ Hdis].
    unfold b, ph, disjoint in *. lia.
  - intros c Hc Hdis. apply link_agree; [done|]. by eapply Hdis.
Qed.

Lemma link_inv : pt_inv k2 root T'.
Proof using All.
  destruct link_space as (H0 & H1 & H2 & H3 & Hph & Hal & Hh0 & Hwf1 & Hb1 & Hdis).
  pose proof (ext_config _ _ _ _ link_extends) as Hcfg. pose proof Hcfg as (Hmap & Hh & _).
  pose proof (table_flags_bound flags Hflags).
  destruct (pt_range _ _ _ Hinv _ _ _ Ha) as [Hdr Hpr].
  assert (T' !! (d + 1, p * 512 + i) = Some b) as Hnew by apply lookup_insert_eq.
  constructor.
  - by eapply wf_same_config, (pt_wf _ _ _ Hinv).
  - intros j' e'. rewrite Hmap. apply (pt_aligned _ _ _ Hinv).
  - unfold T'. rewrite lookup_insert_ne; [apply (pt_root _ _ _ Hinv)|]. intros [=]; lia.
  - intros d' p' c [[[= <- <-] <-]|[_ Hc]]%lookup_insert_Some; [|by eapply pt_range].
    rewrite Z.pow_add_r by lia. lia.
  - intros d' p' c [[_ <-]|[_ Hc]]%lookup_insert_Some; unfold page_block; rewrite Hh.
    + replace (b - hhdm k) with ph by (unfold b; lia). eapply (block_ok_same k1 k2).
      * done.
      * apply same_config_set_mem.
      * intros x Hx. apply link_frame; intros Hin.
        -- eapply (block_not_bitmap k1 (page_block k a)); [done| | |exact Hx].
           ++ eapply block_ok_alloc; [apply (pt_wf _ _ _ Hinv)|exact Hpost|by eapply pt_block].
           ++ destruct (post_config _ _ _ _ _ _ Hpost) as (_ & Hh1 & _).
              unfold page_block. cbn [fst snd]. rewrite Hh1. lia.
        -- eapply (block_not_bitmap k1 (ph, 1)); [done|exact Hb1| |exact Hx].
           destruct (post_config _ _ _ _ _ _ Hpost) as (_ & Hh1 & _).
           cbn [fst snd]. rewrite Hh1. unfold b in Hin. lia.
      * done.
    + by eapply link_block, pt_block.
  - assert (forall x c, T !! x = Some c -> disjoint b 4096 c 4096) as Hb.
    { intros x c Hc. destruct (decide (x = (d, p))) as [->|Hne]; [|by eapply link_other].
      assert (c = a) as -> by congruence. unfold disjoint in *. lia. }
    intros x y c c' [[<- <-]|[Hx Hc]]%lookup_insert_Some [[<- <-]|[Hy Hc']]%lookup_insert_Some Hne;
      try done; [by eapply Hb| |by eapply pt_apart].
    apply or_comm. by eapply Hb.
  - intros d' p' i' c Hd' Hi' [[[= E1 E2] <-]|[_ Hc]]%lookup_insert_Some.
    + assert (d' = d /\ p' = p) as [-> ->] by lia. exists a. unfold T'.
      rewrite lookup_insert_ne; [done|]. intros [=]; lia.
    + eapply lookup_weaken_is_Some; [by eapply (pt_parent _ _ _ Hinv)|]. by apply insert_subseteq.
  - exact link_children.
Qed.
End Link.

(** The statements of [get_table] after [kmalloc] are the writes of [link]. *)
Lemma get_table_run flags a i ph k1 h :
  0 <= a -> a + 4096 < 2 ^ 64 -> 0 <= i < 512 -> hhdm k1 = h -> 0 <= ph -> 0 <= ph + h < 2 ^ 64 ->
  0 <= h -> disjoint a 4096 (ph + h) 4096 ->
  (set_entry a i ph ;;;
   let* k := get in
   let child := u64 (get_entry a i k + hhdm k) in
   modify (set_mem (fun m => memset m child 0 4096)) ;;;
   let* k := get in
   set_entry a i (Z.lor (get_entry a i k) (table_flags flags)) ;;;
   ret child) k1 = Ok (ph + h, set_mem (link (entry_addr a i) ph flags h) k1).
Proof.
  intros Ha Hs Hi Hh Hph Hsp Hh0 Hdis. unfold set_entry. rewrite bind_modify, bind_get.
  set (k2 := set_mem _ k1). assert (get_entry a i k2 = ph) as E2.
  { rewrite (get_entry_store k2 (mem k1) a i i ph) by (done || lia). by rewrite Z.eqb_refl. }
  rewrite E2. change (hhdm k2) with (hhdm k1). rewrite Hh, u64_small by lia. cbv zeta.
  rewrite bind_modify, bind_get. set (k3 := set_mem _ k2).
  assert (get_entry a i k3 = ph) as E3.
  { rewrite <- E2. apply get_entry_agree; [|lia|lia|done].
    apply memset_agree. unfold disjoint in *. lia. }
  rewrite E3. reflexivity.
Qed.

Section GetTable.
Context (flags : Z) (Hflags : 0 <= flags < 4096).

Lemma get_table_spec k root T d p a i :
  pt_inv k root T -> T !! (d, p) = Some a -> d < 3 -> 0 <= i < 512 ->
  get_table flags a i k = Halted \/
  exists b k' T', get_table flags a i k = Ok (b, k') /\ T' !! (d + 1, p * 512 + i) = Some b /\
    pt_inv k' root T' /\ extends k T k' T' /\ (forall q, pte k' T' q = pte k T q).
Proof using Hflags.
  intros Hinv Ha Hd Hi. unfold get_table. rewrite bind_get.
  pose proof (pt_child _ _ _ Hinv d p a i Ha Hd Hi) as Hch.
  destruct (table_space _ _ _ _ _ _ Hinv Ha) as [H0 H1].
  destruct (T !! (d + 1, p * 512 + i)) as [b|] eqn:E.
  - destruct Hch as [Hne Hb]. destruct (Z.eqb_spec (get_entry a i k) 0) as [|_]; [done|].
    right. exists b, k, T. destruct (table_space _ _ _ _ _ _ Hinv E).
    rewrite Hb, u64_small by lia. split_and!; try done. apply extends_refl.
  - rewrite Hch. cbn [Z.eqb]. pose proof (pt_wf _ _ _ Hinv) as Hwf.
    destruct (kmalloc_spec k 1 Hwf) as [(j & e & n & Hr & Hk)|[Hk _]]; [lia|right|left];
      [|unfold bind; by rewrite Hk].
    pose proof (after_alloc_post k j e n 1 Hwf ltac:(lia) Hr) as Hpost.
    set (k1 := after_alloc k e n 1) in *. clearbody k1. rewrite (bind_run _ _ _ _ _ Hk).
    destruct (link_space k root T d p a i Hinv Ha Hd Hi E flags Hflags j e n k1 Hpost)
      as (_ & _ & H2 & H3 & Hph & Hal & _ & _ & _ & Hdis).
    destruct (post_config _ _ _ _ _ _ Hpost) as (_ & Hh & _).
    exists (page_addr e n + hhdm k).
    exists (set_mem (link (entry_addr a i) (page_addr e n) flags (hhdm k)) k1).
    exists (<[(d + 1, p * 512 + i) := page_addr e n + hhdm k]> T). split_and!.
    + apply get_table_run; try done; unfold disjoint in *; try lia.
      by apply Hinv.
    + apply lookup_insert_eq.
    + by eapply link_inv.
    + by eapply link_extends.
    + by eapply link_pte.
Qed.
End GetTable.

(** ** The loops *)

Section LoopSpec.
Context {St : Type} (flags : Z) (Hflags : 0 <= flags < 4096).
(** What the leaf loop writes for a page between two states of the kernel, how
    two entries it writes relate, and what its state says when page [q] is
    next and [n] pages are left. *)
Context (R : Kernel -> Kernel -> Z -> Z -> Prop) (apart : Z -> Z -> Prop).
Context (st_inv : St -> Z -> Z -> Prop).
Context (R_mono : forall k1 k2 k3 k4 q e,
  (forall c, block_ok k1 c -> block_ok k2 c) -> (forall c, block_ok k3 c -> block_ok k4 c) ->
  R k2 k3 q e -> R k1 k4 q e).
Context (R_apart : forall k1 k2 k3 q q' e e', R k1 k2 q e -> R k2 k3 q' e' -> apart e e').

(** Exactly the pages [lo, hi) were mapped. *)
Definition pages (k : Kernel) (T : tables) (k' : Kernel) (T' : tables) (lo hi : Z) : Prop :=
  (forall q, lo <= q < hi -> R k k' q (pte k' T' q)) /\
  (forall q, ~ (lo <= q < hi) -> pte k' T' q = pte k T q) /\
  (forall q q', lo <= q < q' -> q' < hi -> apart (pte k' T' q) (pte k' T' q')).

(** The outcome of a loop that starts at page [q0] of a table ending at page
    [hi] with [n] pages to map. *)
Definition loop_post (k : Kernel) (root : Z) (T : tables) (q0 hi n : Z)
    (r : outcome (option St * Kernel)) : Prop :=
  r = Halted \/
  exists k' T', pt_inv k' root T' /\ extends k T k' T' /\
    ((q0 + n <= hi /\ r = Ok (None, k') /\ pages k T k' T' q0 (q0 + n)) \/
     (hi < q0 + n /\ exists st', r = Ok (Some st', k') /\ st_inv st' hi (n - (hi - q0)) /\
        pages k T k' T' q0 hi)).

Definition body_ok (body : Z -> St -> M Kernel (option St)) (d p q0 : Z) : Prop :=
  forall k root T a n st,
    pt_inv k root T -> T !! (d, p) = Some a -> st_inv st q0 n -> 1 <= n ->
    loop_post k root T q0 ((p + 1) * 512 ^ (4 - d)) n (body a st k).

Lemma pages_refl k T q : pages k T k T q q.
Proof using. split_and!; [lia|done|lia]. Qed.

Lemma pages_trans k T k1 T1 k2 T2 lo mid hi :
  lo <= mid <= hi -> pages k T k1 T1 lo mid -> pages k1 T1 k2 T2 mid hi ->
  extends k T k1 T1 -> extends k1 T1 k2 T2 -> pages k T k2 T2 lo hi.
Proof using R_mono R_apart.
  intros Hle (A1 & B1 & C1) (A2 & B2 & C2) Hext1 Hext2. split_and!; intros q.
  - intros Hq. destruct (Z_lt_le_dec q mid).
    + rewrite B2 by lia. eapply R_mono; [| |apply A1; lia]; [done|apply (ext_block _ _ _ _ Hext2)].
    + eapply R_mono; [| |apply A2; lia]; [apply (ext_block _ _ _ _ Hext1)|done].
  - intros Hq. rewrite B2 by lia. apply B1. lia.
  - intros q' Hq Hq'. destruct (Z_lt_le_dec q mid) as [Hlt|]; [|apply C2; lia].
    rewrite (B2 q) by lia. destruct (Z_lt_le_dec q' mid).
    + rewrite B2 by lia. apply C1; lia.
    + eapply R_apart; [apply A1; lia|apply A2; lia].
Qed.

(** A change that moves no page, then a loop. *)
Lemma loop_post_after k root T k1 T1 q0 hi n r :
  extends k T k1 T1 -> (forall q, pte k1 T1 q = pte k T q) ->
  loop_post k1 root T1 q0 hi n r -> loop_post k root T q0 hi n r.
Proof using R_mono.
  intros Hext Hp [Hr|(k' & T' & Hinv & Hext' & H)]; [by left|right]. exists k', T'.
  split; [done|]. split; [by eapply extends_trans|].
  assert (forall lo up, pages k1 T1 k' T' lo up -> pages k T k' T' lo up) as Hpg.
  { intros lo up (A & B & C). split_and!; [| |done].
    - intros q Hq. eapply R_mono; [apply (ext_block _ _ _ _ Hext)|done|by apply A].
    - intros q Hq. rewrite B by done. apply Hp. }
  destruct H as [(? & ? & ?)|(? & st' & ? & ? & ?)]; [left|right]; eauto 8.
Qed.

(** One page, then the rest of the leaf loop. *)
Lemma leaf_step k root T k1 T1 q hi n r :
  extends k T k1 T1 -> pages k T k1 T1 q (q + 1) ->
  loop_post k1 root T1 (q + 1) hi (n - 1) r -> q + 1 <= hi -> 1 <= n -> loop_post k root T q hi n r.
Proof using R_mono R_apart.
  intros Hext1 Hpg1 [Hr|(k2 & T2 & Hinv2 & Hext2 & H)] Hhi Hn; [by left|right].
  exists k2, T2. split; [done|]. split; [by eapply extends_trans|].
  assert (forall up, q + 1 <= up -> pages k1 T1 k2 T2 (q + 1) up -> pages k T k2 T2 q up) as Htr.
  { intros up Hup Hpg. eapply pages_trans; [|exact Hpg1|exact Hpg|exact Hext1|exact Hext2]. lia. }
  destruct H as [(Hfit & Hr & Hpg)|(Hmore & st' & Hr & Hst' & Hpg)]; [left|right].
  - replace (q + 1 + (n - 1)) with (q + n) in * by lia. split_and!; try done. apply Htr; [lia|done].
  - split; [lia|]. exists st'. split; [done|]. split; [|by apply Htr].
    by replace (n - (hi - q)) with (n - 1 - (hi - (q + 1))) by lia.
Qed.

Lemma entries_ok cnt first rest d p i q0 :
  0 <= d < 3 -> 0 <= i -> Z.of_nat cnt = 512 - i ->
  (i = 512 -> q0 = (p + 1) * 512 ^ (4 - d)) ->
  (i < 512 -> q0 <= (p * 512 + i + 1) * 512 ^ (3 - d)) ->
  (i < 512 -> body_ok first (d + 1) (p * 512 + i) q0) ->
  (forall j, i < j < 512 -> body_ok rest (d + 1) (p * 512 + j) ((p * 512 + j) * 512 ^ (3 - d))) ->
  body_ok (fun t => entries flags first rest cnt t i) d p q0.
Proof using Hflags R_mono R_apart.
  intros Hd. assert (512 ^ (4 - d) = 512 * 512 ^ (3 - d)) as Hpow.
  { replace (4 - d) with (1 + (3 - d)) by lia. by rewrite Z.pow_add_r by lia. }
  assert (0 < 512 ^ (3 - d)) as Hpos by (apply Z.pow_pos_nonneg; lia).
  set (w := 512 ^ (3 - d)) in *. rewrite Hpow.
  revert first i q0. induction cnt as [|cnt IH]; intros first i q0 Hi Hc H512 Hle Hfirst Hrest
    k root T a n st Hinv Ha Hst Hn; cbn [entries]; rewrite Hpow.
  { right. exists k, T. split; [done|]. split; [apply extends_refl|]. right.
    rewrite H512 in * by lia. split; [lia|]. exists st. rewrite Z.sub_diag, Z.sub_0_r.
    split_and!; [done|done|apply pages_refl]. }
  destruct (get_table_spec flags Hflags k root T d p a i Hinv Ha ltac:(lia) ltac:(lia))
    as [E|(b & k1 & T1 & E & Hb & Hinv1 & Hext1 & Hp1)]; [left; unfold bind; by rewrite E|].
  rewrite (bind_run _ _ _ _ _ E). eapply loop_post_after; [exact Hext1|exact Hp1|].
  pose proof (Hfirst ltac:(lia) k1 root T1 b n st Hinv1 Hb Hst Hn) as Hbody.
  replace (4 - (d + 1)) with (3 - d) in Hbody by lia. fold w in Hbody.
  set (hi := (p * 512 + i + 1) * w) in *.
  destruct Hbody as [Hr|(k2 & T2 & Hinv2 & Hext2 & [(Hfit & Hr & Hpg)|(Hmore & st' & Hr & Hst' & Hpg)])].
  - left. unfold bind. by rewrite Hr.
  - right. rewrite (bind_run _ _ _ _ _ Hr). exists k2, T2. split_and!; try done. left.
    split; [|done]. unfold hi in *. nia.
  - rewrite (bind_run _ _ _ _ _ Hr). specialize (Hle ltac:(lia)).
    assert (T2 !! (d, p) = Some a) as Ha2.
    { eapply lookup_weaken; [|apply (ext_tables _ _ _ _ Hext2)].
      eapply lookup_weaken; [exact Ha|apply (ext_tables _ _ _ _ Hext1)]. }
    pose proof (IH rest (i + 1) hi ltac:(lia) ltac:(lia)) as IH'.
    assert (hi <= (p + 1) * (512 * w)) as Hhi by (unfold hi; nia).
    specialize (IH' ltac:(unfold hi; nia) ltac:(unfold hi; nia)).
    specialize (IH' ltac:(intros; replace hi with ((p * 512 + (i + 1)) * w) by (unfold hi; nia); apply Hrest; lia)).
    specialize (IH' ltac:(intros; apply Hrest; lia) k2 root T2 a (n - (hi - q0)) st' Hinv2 Ha2 Hst' ltac:(lia)).
    rewrite Hpow in IH'.
    destruct IH' as [Hr'|(k3 & T3 & Hinv3 & Hext3 & [(Hfit' & Hr' & Hpg')|(Hmore' & st'' & Hr' & Hst'' & Hpg')])];
      [by left|right; exists k3, T3; split; [done|]; split; [by eapply extends_trans|]..].
    + left. replace (hi + (n - (hi - q0))) with (q0 + n) in * by lia. split; [lia|]. split; [done|].
      eapply pages_trans; [|exact Hpg|exact Hpg'|exact Hext2|exact Hext3]. lia.
    + right. split; [lia|]. exists st''. split; [done|]. split.
      * replace (n - ((p + 1) * (512 * w) - q0)) with (n - (hi - q0) - ((p + 1) * (512 * w) - hi)) by lia. done.
      * eapply pages_trans; [|exact Hpg|exact Hpg'|exact Hext2|exact Hext3]. lia.
Qed.
Section Levels.
Context (leaf : Z -> Z -> St -> M Kernel (option St)).
Context (leaf_ok : forall p i, 0 <= i < 512 -> body_ok (fun t => leaf t i) 3 p (p * 512 + i)).

Lemma pml2_loop_ok p i2 i1 :
  0 <= i2 < 512 -> 0 <= i1 < 512 ->
  body_ok (fun t => pml2_loop flags leaf t i2 i1) 2 p ((p * 512 + i2) * 512 + i1).
Proof using All.
  intros H2 H1. apply entries_ok; try lia.
  - intros _. by apply leaf_ok.
  - intros j Hj. replace ((p * 512 + j) * 512 ^ (3 - 2)) with ((p * 512 + j) * 512 + 0) by lia.
    apply leaf_ok. lia.
Qed.

Lemma pml3_loop_ok p i3 i2 i1 :
  0 <= i3 < 512 -> 0 <= i2 < 512 -> 0 <= i1 < 512 ->
  body_ok (fun t => pml3_loop flags leaf t i3 i2 i1) 1 p (((p * 512 + i3) * 512 + i2) * 512 + i1).
Proof using All.
  intros H3 H2 H1. apply entries_ok; try lia.
  - intros _. by apply pml2_loop_ok.
  - intros j Hj. replace ((p * 512 + j) * 512 ^ (3 - 1)) with (((p * 512 + j) * 512 + 0) * 512 + 0) by lia.
    apply pml2_loop_ok; lia.
Qed.

Lemma pml4_loop_ok i4 i3 i2 i1 :
  0 <= i4 < 512 -> 0 <= i3 < 512 -> 0 <= i2 < 512 -> 0 <= i1 < 512 ->
  body_ok (fun t => pml4_loop flags leaf t i4 i3 i2 i1) 0 0 (((i4 * 512 + i3) * 512 + i2) * 512 + i1).
Proof using All.
  intros H4 H3 H2 H1. apply entries_ok; try lia.
  - intros _. replace i4 with (0 * 512 + i4) at 2 by lia. by apply pml3_loop_ok.
  - intros j Hj. replace ((0 * 512 + j) * 512 ^ (3 - 0))
      with ((((0 * 512 + j) * 512 + 0) * 512 + 0) * 512 + 0) by lia.
    apply pml3_loop_ok; lia.
Qed.

(** The whole function, from the page of [virt_addr]. *)
Definition page_of (virt_addr : Z) : Z := virt_addr mod 2 ^ 48 / 4096.

Lemma map_from_spec k root T v n st :
  pt_inv k root T -> 0 <= v -> st_inv st (page_of v) n -> 1 <= n ->
  map_from flags leaf root v st k = Halted \/
  exists k' T', map_from flags leaf root v st k = Ok (tt, k') /\ pt_inv k' root T' /\
    extends k T k' T' /\ page_of v + n <= 2 ^ 36 /\ pages k T k' T' (page_of v) (page_of v + n).
Proof using All.
  intros Hinv Hv Hst Hn. unfold map_from, pml4_of, pml3_of, pml2_of, pml1_of.
  rewrite masked_mod, !index_of by lia. set (w := v mod 2 ^ 48) in *.
  assert (0 <= w < 2 ^ 48) as Hw by (apply Z.mod_pos_bound; lia).
  set (i4 := w / 2 ^ (12 + 27) mod 512). set (i3 := w / 2 ^ (12 + 18) mod 512).
  set (i2 := w / 2 ^ (12 + 9) mod 512). set (i1 := w / 2 ^ 12 mod 512).
  assert (page_of v = ((i4 * 512 + i3) * 512 + i2) * 512 + i1) as Hq.
  { unfold page_of, i4, i3, i2, i1. fold w. change (2 ^ 12) with 4096.
    change (2 ^ (12 + 9)) with (4096 * 512). change (2 ^ (12 + 18)) with (4096 * 512 * 512).
    change (2 ^ (12 + 27)) with (4096 * 512 * 512 * 512). divlia. }
  pose proof (pml4_loop_ok i4 i3 i2 i1 ltac:(apply Z.mod_pos_bound; lia) ltac:(apply Z.mod_pos_bound; lia)
    ltac:(apply Z.mod_pos_bound; lia) ltac:(apply Z.mod_pos_bound; lia)) as Hloop.
  rewrite <- Hq in Hloop.
  destruct (Hloop k root T root n st Hinv (pt_root _ _ _ Hinv) Hst Hn)
    as [Hr|(k' & T' & Hinv' & Hext & [(Hfit & Hr & Hpg)|(_ & st' & Hr & _)])].
  - left. unfold bind. by rewrite Hr.
  - right. rewrite (bind_run _ _ _ _ _ Hr). exists k', T'. by split_and!.
  - left. by rewrite (bind_run _ _ _ _ _ Hr).
Qed.
End Levels.
End LoopSpec.

(** *** [map_pages] *)
Section MapLeaf.
Context (flags v0 phys0 total : Z) (Hflags : 0 <= flags < 4096).
Context (Hphys : 0 <= phys0) (Htop : phys0 + total * 4096 < 2 ^ 64).

(** Page [q] is mapped to its physical page. *)
Definition map_entry (_ _ : Kernel) (q e : Z) : Prop := e = Z.lor (phys0 + (q - v0) * 4096) flags.
Definition any_entries (_ _ : Z) : Prop := True.
Definition map_state (st : Z * Z) (q n : Z) : Prop :=
  v0 <= q /\ 1 <= n /\ q + n = v0 + total /\ st = (n, phys0 + (q - v0) * 4096).

Lemma map_entry_range q : v0 <= q < v0 + total ->
  0 <= Z.lor (phys0 + (q - v0) * 4096) flags < 2 ^ 64.
Proof using All.
  intros Hq. apply lor_bound; [lia| |lia]. split; [lia|]. nia.
Qed.

Lemma map_leaf_ok p i : 0 <= i <= 512 ->
  body_ok map_entry any_entries map_state (fun t => map_leaf flags (Z.to_nat (512 - i)) t i) 3 p (p * 512 + i).
Proof using All.
  intros Hi. remember (Z.to_nat (512 - i)) as cnt eqn:Hc.
  revert i Hi Hc. induction cnt as [|cnt IH]; intros i Hi Hc k root T a n st Hinv Ha Hst Hn; cbn [map_leaf].
  { right. exists k, T. split; [done|]. split; [apply extends_refl|]. right.
    replace ((p + 1) * 512 ^ (4 - 3)) with (p * 512 + i) by lia. split; [lia|].
    exists st. rewrite Z.sub_diag, Z.sub_0_r. split_and!; [done|done|apply pages_refl]. }
  destruct Hst as (Hq & _ & Hend & ->). set (q := p * 512 + i) in *.
  pose proof (map_entry_range q ltac:(lia)) as Hv. set (v := Z.lor _ flags) in *.
  destruct (set_leaf_inv k root T p a i v Hinv Ha ltac:(lia) Hv) as (Hinv1 & Hext1 & Hp1).
  unfold set_entry at 1. rewrite bind_modify. set (k1 := set_mem _ k) in *.
  assert (pages map_entry any_entries k T k1 T q (q + 1)) as Hpg1.
  { split_and!; [| |lia]; intros q' Hq'; rewrite Hp1; fold q.
    - assert (q' = q) as -> by lia. by rewrite Z.eqb_refl.
    - by replace (q' =? q) with false by lia. }
  rewrite (u64_small (n - 1)) by lia. cbv zeta. destruct (Z.eqb_spec (n - 1) 0) as [E|E].
  - right. exists k1, T. split_and!; try done. left. assert (n = 1) as -> by lia. split; [lia|done].
  - rewrite u64_small by lia.
    pose proof (IH (i + 1) ltac:(lia) ltac:(lia) k1 root T a (n - 1)
      (n - 1, phys0 + (q - v0) * 4096 + 4096) Hinv1 Ha) as IH'.
    replace (p * 512 + (i + 1)) with (q + 1) in IH' by (unfold q; lia).
    eapply leaf_step; [| |exact Hext1|exact Hpg1|apply IH'|lia|done]; try done; [|lia].
    split_and!; try lia. f_equal. lia.
Qed.

Lemma map_pages_spec k root T v :
  pt_inv k root T -> 0 <= v -> v0 = page_of v -> 1 <= total ->
  map_pages root v phys0 total flags k = Halted \/
  exists k' T', map_pages root v phys0 total flags k = Ok (tt, k') /\ pt_inv k' root T' /\
    extends k T k' T' /\ v0 + total <= 2 ^ 36 /\ pages map_entry any_entries k T k' T' v0 (v0 + total).
Proof using All.
  intros Hinv Hv Hv0 Ht. unfold map_pages. rewrite Hv0.
  apply (map_from_spec flags Hflags map_entry any_entries map_state); try done.
  - intros p i Hi. apply map_leaf_ok. lia.
  - rewrite <- Hv0. unfold map_state. split_and!; try lia. f_equal. lia.
Qed.
End MapLeaf.

(** *** [alloc_pages] *)

(** A change that keeps the pages of the tables keeps the tables. *)
Lemma pt_keep k root T k2 :
  pt_inv k root T -> same_config k k2 -> (forall c, block_ok k c -> block_ok k2 c) ->
  (forall x a, T !! x = Some a -> agree (mem k2) (mem k) a 4096) ->
  pt_inv k2 root T /\ (forall q, pte k2 T q = pte k T q).
Proof.
  intros Hinv Hcfg Hb Hag. pose proof (pt_wf _ _ _ Hinv) as Hwf. pose proof Hcfg as (Hmap & Hh & _).
  assert (forall d p a i, T !! (d, p) = Some a -> 0 <= i < 512 -> get_entry a i k2 = get_entry a i k) as Hge.
  { intros d p a i Ha Hi. destruct (table_space _ _ _ _ _ _ Hinv Ha). apply get_entry_agree; try lia. by eapply Hag. }
  split.
  - destruct Hinv as [_ Hal Hroot Hr Hbl Hap Hpar Hch]. constructor; try done.
    + by eapply wf_same_config.
    + intros j e. rewrite Hmap. apply Hal.
    + intros d p a Ha. unfold page_block. rewrite Hh. by apply Hb, (Hbl d p).
    + intros d p a i Ha Hd Hi. rewrite (Hge d p a i Ha Hi), Hh. by apply Hch.
  - intros q. unfold pte. destruct (T !! (3, q / 512)) as [a|] eqn:E; [|done].
    eapply Hge; [exact E|divlia].
Qed.

(** A change that keeps the pages in use. *)
Lemma pt_frame k root T k2 :
  pt_inv k root T -> same_config k k2 ->
  (forall c, block_ok k c -> block_ok k2 c /\ agree (mem k2) (mem k) (fst c + hhdm k) (snd c * 4096)) ->
  pt_inv k2 root T /\ extends k T k2 T /\ (forall q, pte k2 T q = pte k T q).
Proof.
  intros Hinv Hcfg Hb. destruct (pt_keep k root T k2 Hinv Hcfg) as [Hinv' Hpte].
  - by intros c [? _]%Hb.
  - intros [d p] a Ha. pose proof (proj2 (Hb _ (pt_block _ _ _ Hinv _ _ _ Ha))) as Hpa.
    unfold page_block in Hpa. cbn [fst snd] in Hpa. by replace (a - hhdm k + hhdm k) with a in Hpa by lia.
  - split_and!; [done| |done]. constructor; try done; [by intros c [? _]%Hb|congruence|intros c Hc _; by apply Hb].
Qed.

(** Taking a page, and writing to it, changes no table. *)
Lemma alloc_page_inv k root T j e n k1 f :
  pt_inv k root T -> alloc_post k j e n 1 k1 ->
  (forall x, ~ (page_addr e n + hhdm k <= x < page_addr e n + hhdm k + 4096) ->
     f (mem k1) x = mem k1 x) ->
  let k2 := set_mem f k1 in
  pt_inv k2 root T /\ extends k T k2 T /\ (forall q, pte k2 T q = pte k T q) /\
  block_ok k2 (page_addr e n, 1).
Proof.
  intros Hinv Hpost Hf. cbv zeta. set (k2 := set_mem f k1).
  pose proof (pt_wf _ _ _ Hinv) as Hwf.
  pose proof (post_config _ _ _ _ _ _ Hpost) as Hcfg1. pose proof Hcfg1 as (Hmap & Hh & _).
  pose proof (wf_same_config _ _ Hcfg1 Hwf) as Hwf1.
  pose proof (block_ok_new k j e n 1 k1 Hwf ltac:(lia) Hpost) as Hb.
  assert (forall c, block_ok k1 c -> block_ok k2 c) as Hblk.
  { intros c Hc. eapply (block_ok_frame k1 _ (page_addr e n, 1) c); try done.
    intros x Hx. cbn [fst snd] in Hx. apply Hf. rewrite Hh in Hx. lia. }
  destruct (pt_frame k root T k2 Hinv) as (H1 & H2 & H3).
  - eapply same_config_trans; [exact Hcfg1|apply same_config_set_mem].
  - intros c Hc. split; [apply Hblk; eapply block_ok_alloc; [exact Hwf|exact Hpost|exact Hc]|].
    destruct (block_alloc_frame k j e n 1 k1 c Hwf ltac:(lia) Hpost Hc) as [Hag Hd].
    eapply agree_trans; [|exact Hag]. intros x Hx. apply Hf. unfold disjoint in Hd. lia.
  - split_and!; [done..|]. by apply Hblk.
Qed.

Section AllocLeaf.
Context (flags : Z) (Hflags : 0 <= flags < 4096).

(** Page [q] is mapped to a page that was free before. *)
Definition fresh_entry (k k' : Kernel) (q e : Z) : Prop :=
  exists ph, e = Z.lor ph flags /\ 0 <= ph < 2 ^ 64 /\ ph mod 4096 = 0 /\ block_ok k' (ph, 1) /\
    forall c, block_ok k c -> blocks_disjoint (ph, 1) c.
Definition apart_entries (e e' : Z) : Prop :=
  blocks_disjoint (PAGE_ALIGN_DOWN e, 1) (PAGE_ALIGN_DOWN e', 1).
Definition alloc_state (st q n : Z) : Prop := st = n /\ 1 <= n < 2 ^ 64.

Lemma fresh_mono k1 k2 k3 k4 q e :
  (forall c, block_ok k1 c -> block_ok k2 c) -> (forall c, block_ok k3 c -> block_ok k4 c) ->
  fresh_entry k2 k3 q e -> fresh_entry k1 k4 q e.
Proof using. intros H12 H34 (ph & ? & ? & ? & ? & ?). exists ph. split_and!; auto; lia. Qed.

Lemma fresh_apart k1 k2 k3 q q' e e' :
  fresh_entry k1 k2 q e -> fresh_entry k2 k3 q' e' -> apart_entries e e'.
Proof using Hflags.
  intros (ph & -> & Hr & Hm & Hb & _) (ph' & -> & Hr' & Hm' & _ & Hd).
  unfold apart_entries.
  destruct (flagged_entry ph flags) as (_ & -> & _); [done..|].
  destruct (flagged_entry ph' flags) as (_ & -> & _); [done..|].
  apply or_comm. by apply (Hd (ph, 1)).
Qed.

Lemma alloc_leaf_ok p i : 0 <= i <= 512 ->
  body_ok fresh_entry apart_entries alloc_state
    (fun t => alloc_leaf flags (Z.to_nat (512 - i)) t i) 3 p (p * 512 + i).
Proof using All.
  intros Hi. remember (Z.to_nat (512 - i)) as cnt eqn:Hc.
  revert i Hi Hc. induction cnt as [|cnt IH]; intros i Hi Hc k root T a n st Hinv Ha Hst Hn; cbn [alloc_leaf].
  { right. exists k, T. split; [done|]. split; [apply extends_refl|]. right.
    replace ((p + 1) * 512 ^ (4 - 3)) with (p * 512 + i) by lia. split; [lia|].
    exists st. rewrite Z.sub_diag, Z.sub_0_r. split_and!; [done|done|apply pages_refl]. }
  destruct Hst as (-> & Hn64). set (q := p * 512 + i) in *. pose proof (pt_wf _ _ _ Hinv) as Hwf.
  destruct (kmalloc_spec k 1 Hwf) as [(j & e & m & Hr & Hk)|[Hk _]];
    [lia| |left; unfold bind; by rewrite Hk].
  pose proof (after_alloc_post k j e m 1 Hwf ltac:(lia) Hr) as Hpost.
  set (k0 := after_alloc k e m 1) in *. clearbody k0. rewrite (bind_run _ _ _ _ _ Hk), bind_modify.
  pose proof (post_config _ _ _ _ _ _ Hpost) as Hcfg. pose proof Hcfg as (_ & Hh & _).
  pose proof (block_ok_new k j e m 1 k0 Hwf ltac:(lia) Hpost) as Hb0.
  destruct (block_space k0 _ (wf_same_config _ _ Hcfg Hwf) Hb0) as (Hb1 & Hb2 & _). cbn [fst snd] in Hb1, Hb2.
  set (ph := page_addr e m) in *. rewrite Hh in *. rewrite (u64_small (ph + hhdm k)) by lia.
  set (f := fun mm => memset mm (ph + hhdm k) 0 PAGE_SIZE).
  destruct (alloc_page_inv k root T j e m k0 f Hinv Hpost) as (Hinv1 & Hext1 & Hp1 & Hb).
  { intros x Hx. apply (memset_agree _ _ _ _ x 1); [|lia]. unfold disjoint, PAGE_SIZE. fold ph in Hx. lia. }
  set (k1 := set_mem f k0) in *. fold ph in Hb.
  destruct Hr as (Hj & Hu & Hm & Hpm & _). pose proof (wf_entry k Hwf j e Hj Hu) as He.
  pose proof (pt_aligned _ _ _ Hinv j e Hj Hu) as Hal. pose proof (wf_hhdm k Hwf).
  assert (0 <= ph < 2 ^ 64 /\ ph mod 4096 = 0) as [Hph Hphm].
  { unfold ph, page_addr. destruct He. split; [unfold ph, page_addr in *; lia|divlia]. }
  destruct (flagged_entry ph flags Hph Hphm Hflags) as (Hv & _). set (v := Z.lor ph flags) in *.
  destruct (set_leaf_inv k1 root T p a i v Hinv1 Ha ltac:(lia) Hv) as (Hinv2 & Hext2 & Hp2).
  unfold set_entry at 1. rewrite bind_modify. set (k2 := set_mem _ k1) in *.
  pose proof (extends_trans _ _ _ _ _ _ Hext1 Hext2) as Hext12.
  assert (pages fresh_entry apart_entries k T k2 T q (q + 1)) as Hpg1.
  { split_and!; [| |lia]; intros q' Hq'; rewrite Hp2; fold q.
    - assert (q' = q) as -> by lia. rewrite Z.eqb_refl. exists ph. split_and!; try done; [lia..| |].
      + by apply (ext_block _ _ _ _ Hext2).
      + intros c Hc'. exact (fresh_disjoint k j e m 1 c Hwf ltac:(lia) (post_free _ _ _ _ _ _ Hpost) Hc').
    - replace (q' =? q) with false by lia. apply Hp1. }
  rewrite (u64_small (n - 1)) by lia. cbv zeta. destruct (Z.eqb_spec (n - 1) 0) as [E|E].
  - right. exists k2, T. split_and!; try done. left. assert (n = 1) as -> by lia. split; [lia|done].
  - pose proof (IH (i + 1) ltac:(lia) ltac:(lia) k2 root T a (n - 1) (n - 1) Hinv2 Ha ltac:(split; lia) ltac:(lia)) as IH'.
    replace (p * 512 + (i + 1)) with (q + 1) in IH' by (unfold q; lia).
    eapply leaf_step; [exact fresh_mono|exact fresh_apart|exact Hext12|exact Hpg1|exact IH'|lia|done].
Qed.
End AllocLeaf.

(** ** [virt_to_phys] *)

(** What the tables say about an address. *)
Definition translate (k : Kernel) (T : tables) (v : Z) : Z :=
  let e := pte k T (page_of v) in
  if e =? 0 then 0xDEAD else u64 (PAGE_ALIGN_DOWN e + v mod 4096).

(** One step down: a present entry leads to the child table. *)
Lemma child_step k root T d p a i :
  pt_inv k root T -> T !! (d, p) = Some a -> d < 3 -> 0 <= i < 512 ->
  (get_entry a i k = 0 /\ T !! (d + 1, p * 512 + i) = None) \/
  exists b, (get_entry a i k =? 0) = false /\ T !! (d + 1, p * 512 + i) = Some b /\
    u64 (PAGE_ALIGN_DOWN (get_entry a i k) + hhdm k) = b.
Proof.
  intros Hinv Ha Hd Hi. pose proof (pt_child _ _ _ Hinv d p a i Ha Hd Hi) as Hch.
  destruct (T !! (d + 1, p * 512 + i)) as [b|] eqn:E; [right|by left].
  destruct Hch as [Hne Hb]. exists b. destruct (table_space _ _ _ _ _ _ Hinv E).
  rewrite Hb, u64_small by lia. split_and!; [lia|done|done].
Qed.

(** A missing table is missing all the way down. *)
Lemma no_table k root T d d' p i :
  pt_inv k root T -> 0 <= d -> d' = d + 1 -> 0 <= i < 512 -> T !! (d, p) = None ->
  T !! (d', p * 512 + i) = None.
Proof.
  intros Hinv Hd -> Hi Hn. destruct (T !! (d + 1, p * 512 + i)) as [b|] eqn:E; [|done].
  destruct (pt_parent _ _ _ Hinv d p i b Hd Hi E) as [c Hc]. congruence.
Qed.

Lemma virt_to_phys_spec k root T v :
  pt_inv k root T -> 0 <= v -> virt_to_phys root v k = translate k T v.
Proof.
  intros Hinv Hv. unfold virt_to_phys, translate, pte, page_of, pml4_of, pml3_of, pml2_of, pml1_of.
  rewrite masked_mod, !index_of by lia. set (w := v mod 2 ^ 48) in *.
  assert (0 <= w < 2 ^ 48) as Hw by (apply Z.mod_pos_bound; lia).
  set (i4 := w / 2 ^ (12 + 27) mod 512). set (i3 := w / 2 ^ (12 + 18) mod 512).
  set (i2 := w / 2 ^ (12 + 9) mod 512). set (i1 := w / 2 ^ 12 mod 512).
  assert (0 <= i4 < 512 /\ 0 <= i3 < 512 /\ 0 <= i2 < 512 /\ 0 <= i1 < 512) as (H4 & H3 & H2 & H1)
    by (split_and!; apply Z.mod_pos_bound; lia).
  assert (w / 4096 / 512 = ((0 * 512 + i4) * 512 + i3) * 512 + i2 /\ (w / 4096) mod 512 = i1) as [Hq3 Hq1].
  { unfold i4, i3, i2, i1. change (2 ^ 12) with 4096. change (2 ^ (12 + 9)) with (4096 * 512).
    change (2 ^ (12 + 18)) with (4096 * 512 * 512). change (2 ^ (12 + 27)) with (4096 * 512 * 512 * 512).
    split; divlia. }
  rewrite Hq3, Hq1.
  assert (w - PAGE_ALIGN_DOWN w = v mod 4096) as Hoff.
  { rewrite align_down_mod by lia. rewrite <- (Z.mod_mod_divide v (2 ^ 48) 4096) by (by exists (2 ^ 36)).
    fold w. lia. }
  rewrite Hoff.
  destruct (child_step k root T 0 0 root i4 Hinv (pt_root _ _ _ Hinv) ltac:(lia) H4)
    as [[-> Hn]|(b3 & -> & Hb3 & ->)]; cbn [Z.eqb].
  { rewrite (no_table k root T 2 3 ((0 * 512 + i4) * 512 + i3) i2); try done.
    by rewrite (no_table k root T 1 2 (0 * 512 + i4) i3). }
  destruct (child_step k root T 1 (0 * 512 + i4) b3 i3 Hinv Hb3 ltac:(lia) H3)
    as [[-> Hn]|(b2 & -> & Hb2 & ->)]; cbn [Z.eqb].
  { by rewrite (no_table k root T 2 3 ((0 * 512 + i4) * 512 + i3) i2). }
  destruct (child_step k root T 2 ((0 * 512 + i4) * 512 + i3) b2 i2 Hinv Hb2 ltac:(lia) H2)
    as [[-> Hn]|(b1 & -> & Hb1 & ->)]; cbn [Z.eqb]; change (2 + 1) with 3 in *; [by rewrite Hn|].
  by rewrite Hb1.
Qed.

(** A physical address that is no multiple of the page size adds its offset to
    the flags of the entry. *)
Lemma offset_entry p f :
  0 <= p < 2 ^ 64 -> 0 <= f < 4096 ->
  0 <= Z.lor (p mod 4096) f < 4096 /\ Z.lor p f = Z.lor (p - p mod 4096) (Z.lor (p mod 4096) f) /\
  (0 < f -> 0 < Z.lor (p mod 4096) f).
Proof.
  intros Hp Hf. pose proof (Z.mod_pos_bound p 4096 ltac:(lia)) as Hm.
  assert (0 <= Z.lor (p mod 4096) f < 2 ^ 12) as Hb by (apply lor_bound; lia).
  split; [lia|]. split.
  - rewrite Z.lor_assoc. f_equal. symmetry. apply Z.bits_inj'. intros i Hi. rewrite Z.lor_spec.
    assert (p - p mod 4096 = Z.shiftl (p / 4096) 12) as -> by (rewrite Z.shiftl_mul_pow2 by lia; divlia).
    rewrite Z.shiftl_spec by done. change 4096 with (2 ^ 12) at 2. destruct (Z_lt_le_dec i 12).
    + rewrite (Z.testbit_neg_r _ (i - 12)), Z.mod_pow2_bits_low by lia. done.
    + rewrite Z.mod_pow2_bits_high, orb_false_r by lia. change 4096 with (2 ^ 12). rewrite Z.div_pow2_bits by lia. f_equal. lia.
  - intros H0. apply Z.le_neq. split; [lia|]. intros E. symmetry in E. apply Z.lor_eq_0_iff in E. lia.
Qed.

(** An entry with a page and flags translates to that page. *)
Lemma translate_mapped k root T v p flags :
  pt_inv k root T -> 0 <= v -> pte k T (page_of v) = Z.lor p flags ->
  0 <= p < 2 ^ 64 -> p mod 4096 = 0 -> 0 < flags < 4096 ->
  virt_to_phys root v k = p + v mod 4096.
Proof.
  intros Hinv Hv Hq Hp Hm Hf. rewrite (virt_to_phys_spec k root T v) by done. unfold translate. rewrite Hq.
  destruct (flagged_entry p flags Hp Hm ltac:(lia)) as (_ & -> & Hne).
  destruct (Z.eqb_spec (Z.lor p flags) 0) as [E0|_]; [by destruct (Hne ltac:(lia))|].
  apply u64_small. divlia.
Qed.

(** ** A fresh tree *)

Definition aligned (k : Kernel) : Prop :=
  forall i e, memmap k !! i = Some e -> usable e -> base e mod 4096 = 0.

(** The first two statements of [init_paging_task]. *)
Definition new_root : M Kernel Z :=
  let* p := kmalloc 1 in
  let* k := get in
  let pml4_virt := u64 (p + hhdm k) in
  modify (set_mem (fun m => memset m pml4_virt 0 4096)) ;;;
  ret pml4_virt.

Lemma new_root_spec k :
  wf_pmm k -> aligned k ->
  new_root k = Halted \/
  exists root k', new_root k = Ok (root, k') /\ pt_inv k' root {[(0, 0) := root]} /\
    same_config k k' /\ (forall q, pte k' {[(0, 0) := root]} q = 0) /\
    forall c, block_ok k c -> block_ok k' c /\ agree (mem k') (mem k) (fst c + hhdm k) (snd c * 4096) /\
      disjoint root 4096 (fst c + hhdm k) (snd c * 4096).
Proof.
  intros Hwf Hal. unfold new_root.
  destruct (kmalloc_spec k 1 Hwf) as [(j & e & n & Hr & Hk)|[Hk _]]; [lia|right|left];
    [|unfold bind; by rewrite Hk].
  pose proof (after_alloc_post k j e n 1 Hwf ltac:(lia) Hr) as Hpost.
  set (k1 := after_alloc k e n 1) in *. clearbody k1. rewrite (bind_run _ _ _ _ _ Hk), bind_get, bind_modify.
  pose proof (post_config _ _ _ _ _ _ Hpost) as Hcfg. pose proof Hcfg as (Hmap & Hh & _).
  pose proof (wf_same_config _ _ Hcfg Hwf) as Hwf1.
  pose proof (block_ok_new k j e n 1 k1 Hwf ltac:(lia) Hpost) as Hb.
  destruct (block_space k1 _ Hwf1 Hb) as (H0 & H1 & _). cbn [fst snd] in H0, H1.
  rewrite u64_small by lia. set (root := page_addr e n + hhdm k1) in *.
  set (k2 := set_mem _ k1). exists root, k2.
  assert (forall q, 0 <= q < 512 -> get_entry root q k2 = 0) as Hz.
  { intros q Hq. unfold get_entry. rewrite entry_addr_in by lia. apply load_memset_zero; lia. }
  assert (forall x, ~ (root <= x < root + 4096) -> mem k2 x = mem k1 x) as Hout.
  { intros x Hx. apply (memset_agree _ _ _ _ x 1); [|lia]. unfold disjoint. fold root. lia. }
  split; [done|]. split; [|split; [by eapply same_config_trans; [exact Hcfg|apply same_config_set_mem]|split]].
  - constructor.
    + by eapply wf_same_config; [apply same_config_set_mem|].
    + intros j' e'. change (memmap k2) with (memmap k1). rewrite Hmap. apply Hal.
    + apply lookup_singleton_eq.
    + intros d p a [[= <- <-] _]%lookup_singleton_Some. split; [lia|done].
    + intros d p a [_ <-]%lookup_singleton_Some. unfold page_block. change (hhdm k2) with (hhdm k1).
      replace (root - hhdm k1) with (page_addr e n) by (unfold root; lia).
      by eapply (block_ok_frame k1 _ (page_addr e n, 1)).
    + intros x y a b [<- _]%lookup_singleton_Some [<- _]%lookup_singleton_Some. done.
    + intros d p i b Hd Hi [[= E] _]%lookup_singleton_Some. lia.
    + intros d p a i [[= <- <-] <-]%lookup_singleton_Some _ Hi.
      rewrite lookup_singleton_ne by (intros [=]). by apply Hz.
  - intros q. unfold pte. by rewrite lookup_singleton_ne by (intros [=]).
  - intros c Hcb. destruct (block_alloc_frame k j e n 1 k1 c Hwf ltac:(lia) Hpost Hcb) as [Hag Hdis].
    rewrite Z.mul_1_l in Hdis. unfold root. rewrite Hh. split; [|split].
    + eapply (block_ok_frame k1 k2 (page_addr e n, 1) c Hwf1); [apply same_config_set_mem|exact Hb| |].
      * exact (block_ok_alloc k j e n 1 k1 c Hwf Hpost Hcb).
      * intros x Hx. cbn [fst snd] in Hx. apply Hout. fold root in Hx. lia.
    + intros x Hx. rewrite Hout; [by apply Hag|]. unfold root, disjoint in *. lia.
    + unfold disjoint in *. lia.
Qed.

(** [map_pages]: the entries it writes, and the translation afterwards. *)
(** A run of [map_pages], from any physical address. *)
Lemma map_pages_run k root T virt phys n flags :
  pt_inv k root T -> 0 <= virt -> 0 <= phys -> phys + n * 4096 < 2 ^ 64 ->
  1 <= n -> 0 < flags < 4096 ->
  map_pages root virt phys n flags k = Halted \/
  exists k' T', map_pages root virt phys n flags k = Ok (tt, k') /\ pt_inv k' root T' /\
    extends k T k' T' /\
    (forall q, page_of virt <= q < page_of virt + n ->
       pte k' T' q = Z.lor (phys + (q - page_of virt) * 4096) flags) /\
    (forall q, ~ (page_of virt <= q < page_of virt + n) -> pte k' T' q = pte k T q) /\
    forall v, 0 <= v ->
      virt_to_phys root v k' =
        if (page_of virt <=? page_of v) && (page_of v <? page_of virt + n)
        then phys - phys mod 4096 + (page_of v - page_of virt) * 4096 + v mod 4096
        else virt_to_phys root v k.
Proof.
  intros Hinv Hv Hp Htop Hn Hf.
  destruct (map_pages_spec flags (page_of virt) phys n ltac:(lia) Hp Htop k root T virt Hinv Hv eq_refl Hn)
    as [E|(k' & T' & E & Hinv' & Hext & _ & HA & HB & _)]; [by left|right].
  exists k', T'. split_and!; try done. intros v Hv0.
  destruct (_ && _) eqn:Hin.
  - set (p := phys + (page_of v - page_of virt) * 4096). assert (0 <= p < 2 ^ 64) as Hpr by (unfold p; nia).
    assert (p mod 4096 = phys mod 4096) as Hpm by (unfold p; by rewrite Z.mod_add).
    destruct (offset_entry p flags Hpr ltac:(lia)) as (H1 & H2 & H3).
    replace (phys - phys mod 4096 + (page_of v - page_of virt) * 4096) with (p - p mod 4096) by (rewrite Hpm; unfold p; lia).
    apply (translate_mapped k' root T' v _ (Z.lor (p mod 4096) flags)); [done|done| |divlia|divlia|lia].
    rewrite <- H2. apply HA. lia.
  - rewrite (virt_to_phys_spec k' root T' v), (virt_to_phys_spec k root T v) by done. unfold translate.
    by rewrite (HB (page_of v)) by lia.
Qed.

(** ** Theorems *)

(** C3: [map_pages] and [virt_to_phys] agree.  When [map_pages] returns, every
    address of the mapped range translates to its physical address, page by page
    and with its offset; every other address translates as before; the tables
    stay a tree of distinct pages; pages in use stay in use, and no byte of a
    page in use changes outside the tables.  Otherwise it has halted. *)
Theorem map_pages_translates k root T virt phys n flags :
  pt_inv k root T -> 0 <= virt -> 0 <= phys -> phys mod 4096 = 0 -> phys + n * 4096 < 2 ^ 64 ->
  1 <= n -> 0 < flags < 4096 ->
  map_pages root virt phys n flags k = Halted \/
  exists k' T', map_pages root virt phys n flags k = Ok (tt, k') /\ pt_inv k' root T' /\
    extends k T k' T' /\
    forall v, 0 <= v ->
      virt_to_phys root v k' =
        if (page_of virt <=? page_of v) && (page_of v <? page_of virt + n)
        then phys + (page_of v - page_of virt) * 4096 + v mod 4096
        else virt_to_phys root v k.
Proof.
  intros Hinv Hv Hp Hm Htop Hn Hf.
  destruct (map_pages_run k root T virt phys n flags Hinv Hv Hp Htop Hn Hf)
    as [E|(k' & T' & E & Hinv' & Hext & _ & _ & Ht)]; [by left|right]. exists k', T'. rewrite Hm, Z.sub_0_r in Ht. by split_and!.
Qed.

Lemma small_kernel_aligned : aligned small_kernel.
Proof. intros [|[|[|i]]] e Hi Hu; simplify_eq/=; done. Qed.

(** A fresh tree on the small machine. *)
Lemma root_example {A} (m : Z -> M Kernel A) x :
  value_of ((let* root := new_root in m root) small_kernel) = Some x ->
  exists k root T k', pt_inv k root T /\ m root k = Ok (x, k').
Proof.
  intros [k' E]%value_of_some. apply bind_ok in E as (root & k & E & Em).
  destruct (new_root_spec small_kernel small_kernel_wf small_kernel_aligned)
    as [E'|(root' & k1 & E' & Hinv & _)]; rewrite E in E'; [done|]. injection E' as <- <-.
  by exists k, root, {[(0, 0) := root]}, k'.
Qed.

Lemma map_pages_translates_witness :
  exists k root T, pt_inv k root T /\
    exists k' T', map_pages root 0x400000 0x5000 3 7 k = Ok (tt, k') /\ pt_inv k' root T' /\
      extends k T k' T' /\
      forall v, 0 <= v ->
        virt_to_phys root v k' =
          if (page_of 0x400000 <=? page_of v) && (page_of v <? page_of 0x400000 + 3)
          then 0x5000 + (page_of v - page_of 0x400000) * 4096 + v mod 4096
          else virt_to_phys root v k.
Proof.
  destruct (root_example (fun root => map_pages root 0x400000 0x5000 3 7) tt)
    as (k & root & T & k1 & Hinv & E); [vm_compute; reflexivity|].
  exists k, root, T. split; [exact Hinv|].
  destruct (map_pages_translates k root T 0x400000 0x5000 3 7 Hinv) as [E'|H];
    [lia|lia|reflexivity|lia|lia|lia| |exact H]. rewrite E in E'. discriminate E'.
Defined.

(** A run of [alloc_pages]. *)
Lemma alloc_pages_run k root T virt n flags :
  pt_inv k root T -> 0 <= virt -> 1 <= n < 2 ^ 64 -> 0 <= flags < 4096 ->
  alloc_pages root virt n flags k = Halted \/
  exists k' T', alloc_pages root virt n flags k = Ok (tt, k') /\ pt_inv k' root T' /\
    extends k T k' T' /\
    (forall q, page_of virt <= q < page_of virt + n -> fresh_entry flags k k' q (pte k' T' q)) /\
    (forall q, ~ (page_of virt <= q < page_of virt + n) -> pte k' T' q = pte k T q) /\
    (forall q q', page_of virt <= q < q' -> q' < page_of virt + n ->
       apart_entries (pte k' T' q) (pte k' T' q')).
Proof.
  intros Hinv Hv Hn Hf. unfold alloc_pages.
  destruct (map_from_spec flags Hf (fresh_entry flags) apart_entries alloc_state
    (fresh_mono flags) (fresh_apart flags Hf) _
    (fun p i Hi => alloc_leaf_ok flags Hf p i ltac:(lia)) k root T virt n n Hinv Hv)
    as [E|(k' & T' & E & Hinv' & Hext & _ & HA & HB & HC)]; [done|lia|by left|right].
  exists k', T'. by split_and!.
Qed.

(** [alloc_pages] backs every page of its range by a page of its own: the
    pages were free before, are in use afterwards, are pairwise disjoint, and the
    flags are those asked for; every other page keeps its entry. *)
Theorem alloc_pages_fresh k root T virt n flags :
  pt_inv k root T -> 0 <= virt -> 1 <= n < 2 ^ 64 -> 0 <= flags < 4096 ->
  alloc_pages root virt n flags k = Halted \/
  exists k' T', alloc_pages root virt n flags k = Ok (tt, k') /\ pt_inv k' root T' /\
    extends k T k' T' /\
    (forall q, page_of virt <= q < page_of virt + n -> fresh_entry flags k k' q (pte k' T' q)) /\
    (forall q, ~ (page_of virt <= q < page_of virt + n) -> pte k' T' q = pte k T q) /\
    (forall q q', page_of virt <= q < q' -> q' < page_of virt + n ->
       apart_entries (pte k' T' q) (pte k' T' q')).
Proof. apply alloc_pages_run. Qed.

Lemma alloc_pages_fresh_witness :
  exists k root T, pt_inv k root T /\
    exists k' T', alloc_pages root 0x400000 2 7 k = Ok (tt, k') /\ pt_inv k' root T' /\
      extends k T k' T' /\
      (forall q, page_of 0x400000 <= q < page_of 0x400000 + 2 -> fresh_entry 7 k k' q (pte k' T' q)) /\
      (forall q, ~ (page_of 0x400000 <= q < page_of 0x400000 + 2) -> pte k' T' q = pte k T q) /\
      (forall q q', page_of 0x400000 <= q < q' -> q' < page_of 0x400000 + 2 ->
         apart_entries (pte k' T' q) (pte k' T' q')).
Proof.
  destruct (root_example (fun root => alloc_pages root 0x400000 2 7) tt)
    as (k & root & T & k1 & Hinv & E); [vm_compute; reflexivity|].
  exists k, root, T. split; [exact Hinv|].
  destruct (alloc_pages_fresh k root T 0x400000 2 7 Hinv) as [E'|H]; [lia|lia|lia| |exact H].
  rewrite E in E'. discriminate E'.
Defined.
