(* ===== verification/Bits.v ===== *)
(** * Bit fields of machine words

    Descriptors, page-table entries and device registers are words made of
    fields by shifts and masks.  An equation between such words is proved bit by
    bit: [bits] turns both sides into boolean expressions over the bits of the
    operands and decides the comparisons of bit numbers. *)
From S2P Require Import Prelude.

(** The field of [len] bits at bit [lo] of [e]. *)
Definition field (e lo len : Z) : Z := Z.land (Z.shiftr e lo) (Z.ones len).

(** The complement of a mask in a word of [w] bits ([~x]). *)
Definition lnot_w (w x : Z) : Z := Z.lxor (Z.ones w) x.

Lemma testbit_high x k n : 0 <= x < 2 ^ k -> k <= n -> Z.testbit x n = false.
Proof.
  intros Hx Hk. destruct (Z.eq_dec x 0) as [->|]; [apply Z.bits_0|].
  apply Z.bits_above_log2; [lia|]. assert (0 <= k) by (destruct (Z_lt_le_dec k 0); [rewrite Z.pow_neg_r in Hx|]; lia).
  enough (Z.log2 x < k) by lia. apply Z.log2_lt_pow2; lia.
Qed.
Lemma land_mask_bits x w n : 0 <= w -> Z.testbit (Z.land x (Z.ones w)) n = (n <? w) && Z.testbit x n.
Proof.
  intros Hw. destruct (Z_lt_le_dec n 0); [rewrite !(Z.testbit_neg_r _ n) by done; by rewrite andb_false_r|].
  rewrite Z.land_spec, Z.testbit_ones_nonneg by lia. apply andb_comm.
Qed.
Lemma u64_bits x n : Z.testbit (u64 x) n = (n <? 64) && Z.testbit x n.
Proof. unfold u64. rewrite <- Z.land_ones by done. by apply land_mask_bits. Qed.
Lemma shiftl_bits x k n : 0 <= k -> Z.testbit (Z.shiftl x k) n = (0 <=? n) && Z.testbit x (n - k).
Proof.
  intros Hk. destruct (Z.leb_spec 0 n); [by rewrite Z.shiftl_spec|by rewrite Z.testbit_neg_r].
Qed.
Lemma shiftr_bits x k n : 0 <= k -> Z.testbit (Z.shiftr x k) n = (0 <=? n) && Z.testbit x (n + k).
Proof.
  intros Hk. destruct (Z.leb_spec 0 n); [by rewrite Z.shiftr_spec|by rewrite Z.testbit_neg_r].
Qed.

Lemma lnot_bits x w n : 0 <= w -> 0 <= x < 2 ^ w -> Z.testbit (lnot_w w x) n = (0 <=? n) && (n <? w) && negb (Z.testbit x n).
Proof.
  intros Hw Hx. unfold lnot_w. rewrite Z.lxor_spec.
  destruct (Z_lt_le_dec n 0) as [H|H]; [rewrite !(Z.testbit_neg_r _ n) by done; by destruct (Z.leb_spec 0 n); [lia|]|].
  rewrite Z.testbit_ones_nonneg by lia. destruct (Z.leb_spec 0 n); [|lia].
  destruct (Z.ltb_spec n w); [done|]. by rewrite (testbit_high x w n) by lia.
Qed.

Lemma field_range e lo len : 0 <= len -> 0 <= field e lo len < 2 ^ len.
Proof. intros H. unfold field. rewrite Z.land_ones by done. apply Z.mod_pos_bound. lia. Qed.

(** ** The tactic *)

Ltac masks :=
  change 0xFFFFFFFF with (Z.ones 32) in *; change 0xFFFF with (Z.ones 16) in *; change 0xFF with (Z.ones 8) in *;
  change 0xF with (Z.ones 4) in *.
Ltac bit_step :=
  match goal with
  | |- context [Z.testbit (Z.land ?x (Z.ones ?w)) ?n] => rewrite (land_mask_bits x w n) by lia
  | |- context [Z.testbit (Z.land ?x ?y) ?n] => rewrite (Z.land_spec x y n)
  | |- context [Z.testbit (Z.lor ?x ?y) ?n] => rewrite (Z.lor_spec x y n)
  | |- context [Z.testbit (Z.shiftl ?x ?y) ?n] => rewrite (shiftl_bits x y n) by lia
  | |- context [Z.testbit (Z.shiftr ?x ?y) ?n] => rewrite (shiftr_bits x y n) by lia
  | |- context [Z.testbit (u64 ?x) ?n] => rewrite (u64_bits x n)
  | |- context [Z.testbit 0 ?n] => rewrite (Z.bits_0 n)
  end.
Ltac bit_leaf :=
  match goal with
  | |- context [Z.testbit ?x ?n] => rewrite (Z.testbit_neg_r x n) by lia
  | H : 0 <= ?x < 2 ^ ?k |- context [Z.testbit ?x ?n] => rewrite (testbit_high x k n H) by lia
  end.
Ltac bit_test :=
  match goal with
  | |- context [?a <? ?b] =>
      first [rewrite (proj2 (Z.ltb_lt a b)) by lia | rewrite (proj2 (Z.ltb_ge a b)) by lia | destruct (Z.ltb_spec a b)]
  | |- context [?a <=? ?b] =>
      first [rewrite (proj2 (Z.leb_le a b)) by lia | rewrite (proj2 (Z.leb_gt a b)) by lia | destruct (Z.leb_spec a b)]
  end.
Ltac bits := masks; apply Z.bits_inj'; intros n Hn; repeat bit_step;
  repeat (bit_test; cbn [andb orb]; rewrite ?orb_false_r, ?andb_false_r);
  repeat bit_leaf; rewrite ?orb_false_r, ?andb_false_r; cbn [andb orb]; try reflexivity; try (f_equal; lia).
