(* ===== verification/Descriptors.v ===== *)
(** * cpu/gdt.c, cpu/idt.c, cpu/tss.c: the processor's descriptor tables

    Both tables are pages from [kmalloc], written through the direct map: the
    GDT as an array of [uint64_t] (the accesses of Paging.v), the IDT as an array
    of 16-byte packed structures.  The state is the kernel's memory, the fields
    of [struct Kernel] the three files own, and the processor's registers that
    [lgdt], [lidt], [ltr] and the segment reloads set. *)
From S2P Require Import Prelude Bits Memory PMM Paging.

(** ** State *)

Record GDTR := MkGDTR { gdtr_size : Z; gdtr_offset : Z }.
Record IDTR := MkIDTR { idtr_size : Z; idtr_offset : Z }.

(** [rsvd0] and [rsvd1] are never written. *)
Record TSS := MkTSS { rsp0 : Z }.
Definition sizeof_TSS : Z := 4 + 8 + 4 * 23.

Record Processor := MkProcessor {
  lgdt_register : GDTR; lidt_register : IDTR;
  task_register : Z; code_segment : Z; data_segments : Z
}.

Record Machine := MkMachine {
  kernel : Kernel; tss : TSS; gdtr : GDTR; idtr : IDTR; processor : Processor
}.

Definition set_kernel (k : Kernel) (m : Machine) : Machine :=
  MkMachine k (tss m) (gdtr m) (idtr m) (processor m).
Definition set_tss (t : TSS) (m : Machine) : Machine :=
  MkMachine (kernel m) t (gdtr m) (idtr m) (processor m).
Definition set_gdtr (r : GDTR) (m : Machine) : Machine :=
  MkMachine (kernel m) (tss m) r (idtr m) (processor m).
Definition set_idtr (r : IDTR) (m : Machine) : Machine :=
  MkMachine (kernel m) (tss m) (gdtr m) r (processor m).

(** [lgdt (&kernel.gdtr)], [lidt kernel.idtr], [retfq] and the moves to the
    segment registers, [ltr]. *)
Definition lgdt (m : Machine) : Machine :=
  let p := processor m in
  MkMachine (kernel m) (tss m) (gdtr m) (idtr m)
    (MkProcessor (gdtr m) (lidt_register p) (task_register p) (code_segment p) (data_segments p)).
Definition lidt (m : Machine) : Machine :=
  let p := processor m in
  MkMachine (kernel m) (tss m) (gdtr m) (idtr m)
    (MkProcessor (lgdt_register p) (idtr m) (task_register p) (code_segment p) (data_segments p)).
Definition reload_segments (cs ds : Z) (m : Machine) : Machine :=
  let p := processor m in
  MkMachine (kernel m) (tss m) (gdtr m) (idtr m)
    (MkProcessor (lgdt_register p) (lidt_register p) (task_register p) cs ds).
Definition ltr (selector : Z) (m : Machine) : Machine :=
  let p := processor m in
  MkMachine (kernel m) (tss m) (gdtr m) (idtr m)
    (MkProcessor (lgdt_register p) (lidt_register p) selector (code_segment p) (data_segments p)).

(** A call that touches the kernel's memory only. *)
Definition on_kernel {A} (c : M Kernel A) : M Machine A :=
  fun m => let+ (a, k) := c (kernel m) in Ok (a, set_kernel k m).

(** ** gdt.c *)

Definition create_gdt_entry (base limit access flags : Z) : Z :=
  let base1 := Z.land base 0xFFFF in
  let base2 := Z.land (Z.shiftr base 16) 0xFF in
  let base3 := Z.land (Z.shiftr base 24) 0xFF in
  let limit1 := Z.land limit 0xFFFF in
  let limit2 := Z.shiftr limit 16 in
  let entry := 0 in
  let entry := Z.lor entry limit1 in
  let entry := Z.lor entry (u64 (Z.shiftl limit2 48)) in
  let entry := Z.lor entry (u64 (Z.shiftl base1 16)) in
  let entry := Z.lor entry (u64 (Z.shiftl base2 32)) in
  let entry := Z.lor entry (u64 (Z.shiftl base3 56)) in
  let entry := Z.lor entry (u64 (Z.shiftl access 40)) in
  let entry := Z.lor entry (u64 (Z.shiftl flags 52)) in
  entry.

(** [GDT[i] |= v]. *)
Definition or_entry (GDT i v : Z) : M Kernel unit :=
  let* k := get in set_entry GDT i (Z.lor (get_entry GDT i k) v).

Definition create_system_segment_descriptor (GDT idx base limit access flags : Z) : M Kernel unit :=
  let limit1 := Z.land limit 0xFFFF in
  let limit2 := Z.land (Z.shiftr limit 16) 0xF in
  let base1 := Z.land base 0xFFFF in
  let base2 := Z.land (Z.shiftr base 16) 0xFF in
  let base3 := Z.land (Z.shiftr base 24) 0xFF in
  let base4 := Z.land (Z.shiftr base 32) 0xFFFFFFFF in
  set_entry GDT idx 0 ;;;
  or_entry GDT idx limit1 ;;;
  or_entry GDT idx (u64 (Z.shiftl base1 16)) ;;;
  or_entry GDT idx (u64 (Z.shiftl base2 32)) ;;;
  or_entry GDT idx (u64 (Z.shiftl access 40)) ;;;
  or_entry GDT idx (u64 (Z.shiftl (Z.land limit2 0xF) 48)) ;;;
  or_entry GDT idx (u64 (Z.shiftl (Z.land flags 0xF) 52)) ;;;
  or_entry GDT idx (u64 (Z.shiftl base3 56)) ;;;
  set_entry GDT (idx + 1) base4.

(** The page for a table, and its address in the direct map. *)
Definition new_table : M Kernel Z :=
  let* p := kmalloc 1 in let* k := get in ret (u64 (p + hhdm k)).

(** The writes of [init_GDT]; [tss_addr] is [&kernel.tss]. *)
Definition fill_GDT (GDT tss_addr : Z) : M Kernel unit :=
  set_entry GDT 0 (create_gdt_entry 0 0 0 0) ;;;
  set_entry GDT 1 (create_gdt_entry 0 0 0x9A 0x2) ;;;
  set_entry GDT 2 (create_gdt_entry 0 0 0x92 0) ;;;
  set_entry GDT 3 (create_gdt_entry 0 0 0xFA 0x2) ;;;
  set_entry GDT 4 (create_gdt_entry 0 0 0xF2 0) ;;;
  create_system_segment_descriptor GDT 5 tss_addr (sizeof_TSS - 1) 0x89 0.

Definition init_GDT (tss_addr : Z) : M Machine unit :=
  let* GDT := on_kernel new_table in
  on_kernel (fill_GDT GDT tss_addr) ;;;
  modify (set_gdtr (MkGDTR (8 * 7 - 1) GDT)) ;;;
  modify lgdt ;;;
  modify (reload_segments 0x08 0x10) ;;;
  modify (ltr 0x28).

(** ** tss.c *)

Definition init_TSS : M Machine unit :=
  modify (set_tss (MkTSS KERNEL_STACK_PTR)).

(** ** idt.c *)

(** The service routines idt.c installs, [timer_isr] and the routines of
    exceptions.asm by name; their addresses are the linker's. *)
Inductive Isr : Type :=
  | spurious_irq | timer_isr | divideException | debugException | breakpointException
  | overflowException | boundRangeExceededException | invalidOpcodeException
  | deviceNotAvaliableException | doubleFaultException | coprocessorSegmentOverrunException
  | invalidTSSException | segmentNotPresentException | stackSegmentFaultException
  | generalProtectionFaultException | pageFaultException | floatingPointException
  | alignmentCheckException | machineCheckException | simdFloatingPointException
  | virtualisationException.

(** [IDT[vector].field = v] for the field of [n] bytes at [offset]. *)
Definition set_gate_field (IDT vector offset : Z) (n : nat) (v : Z) : M Kernel unit :=
  modify (set_mem (fun m => store n m (u64 (IDT + 16 * vector + offset)) v)).

(** The offsets are those of the packed [struct IDTEntry]; storing a word of
    [n] bytes truncates, as the assignment to the field does. *)
Definition set_IDT_entry (vector isr flags IDT : Z) : M Kernel unit :=
  set_gate_field IDT vector 0 2 isr ;;;
  set_gate_field IDT vector 6 2 (Z.shiftr isr 16) ;;;
  set_gate_field IDT vector 8 4 (Z.shiftr isr 32) ;;;
  set_gate_field IDT vector 5 1 flags ;;;
  set_gate_field IDT vector 2 2 0x08.

Section IDT.
Context (address_of : Isr -> Z).

Definition fill_IDT (IDT : Z) : M Kernel unit :=
  set_IDT_entry 0xFF (address_of spurious_irq) 0x8E IDT ;;;
  set_IDT_entry 40 (address_of timer_isr) 0x8E IDT ;;;
  set_IDT_entry 0 (address_of divideException) 0x8E IDT ;;;
  set_IDT_entry 1 (address_of debugException) 0x8E IDT ;;;
  set_IDT_entry 3 (address_of breakpointException) 0x8E IDT ;;;
  set_IDT_entry 4 (address_of overflowException) 0x8E IDT ;;;
  set_IDT_entry 5 (address_of boundRangeExceededException) 0x8E IDT ;;;
  set_IDT_entry 6 (address_of invalidOpcodeException) 0x8E IDT ;;;
  set_IDT_entry 7 (address_of deviceNotAvaliableException) 0x8E IDT ;;;
  set_IDT_entry 8 (address_of doubleFaultException) 0x8E IDT ;;;
  set_IDT_entry 9 (address_of coprocessorSegmentOverrunException) 0x8E IDT ;;;
  set_IDT_entry 10 (address_of invalidTSSException) 0x8E IDT ;;;
  set_IDT_entry 11 (address_of segmentNotPresentException) 0x8E IDT ;;;
  set_IDT_entry 12 (address_of stackSegmentFaultException) 0x8E IDT ;;;
  set_IDT_entry 13 (address_of generalProtectionFaultException) 0x8E IDT ;;;
  set_IDT_entry 14 (address_of pageFaultException) 0x8E IDT ;;;
  set_IDT_entry 16 (address_of floatingPointException) 0x8E IDT ;;;
  set_IDT_entry 17 (address_of alignmentCheckException) 0x8E IDT ;;;
  set_IDT_entry 18 (address_of machineCheckException) 0x8E IDT ;;;
  set_IDT_entry 19 (address_of simdFloatingPointException) 0x8E IDT ;;;
  set_IDT_entry 20 (address_of virtualisationException) 0x8E IDT.

Definition init_IDT : M Machine unit :=
  let* IDT := on_kernel new_table in
  on_kernel (fill_IDT IDT) ;;;
  modify (set_idtr (MkIDTR (16 * 256 - 1) IDT)) ;;;
  modify lidt.
End IDT.

(** ** Decoding, as the processor reads the tables *)

Record Segment := MkSegment { seg_base : Z; seg_limit : Z; seg_access : Z; seg_flags : Z }.

Definition segment_of (e : Z) : Segment :=
  MkSegment (Z.lor (field e 16 24) (Z.shiftl (field e 56 8) 24))
    (Z.lor (field e 0 16) (Z.shiftl (field e 48 4) 16)) (field e 40 8) (field e 52 4).

(** A system descriptor takes two entries: the second holds the upper half of
    the base. *)
Definition system_segment_of (e e' : Z) : Segment :=
  let s := segment_of e in
  MkSegment (Z.lor (seg_base s) (Z.shiftl (field e' 0 32) 32)) (seg_limit s) (seg_access s) (seg_flags s).

Record Gate := MkGate { handler : Z; selector : Z; gate_flags : Z }.

Definition gate_at (k : Kernel) (IDT vector : Z) : Gate :=
  let a := IDT + 16 * vector in
  MkGate
    (Z.lor (load 2 (mem k) a) (Z.lor (Z.shiftl (load 2 (mem k) (a + 6)) 16) (Z.shiftl (load 4 (mem k) (a + 8)) 32)))
    (load 2 (mem k) (a + 2)) (load 1 (mem k) (a + 5)).

(** The present bit of a gate. *)
Definition gate_present (g : Gate) : bool := Z.testbit (gate_flags g) 7.

(** ** Lemmas *)

(** *** Writes to one page *)

(** The page at [t] of the direct map holds a table. *)
Definition table_space (t : Z) : Prop := 4096 <= t /\ t + 4096 < 2 ^ 64.

(** Nothing but the bytes of the page at [t] changes. *)
Definition in_page (t : Z) (k k' : Kernel) : Prop :=
  same_config k k' /\ forall x, ~ (t <= x < t + 4096) -> mem k' x = mem k x.

Lemma in_page_refl t k : in_page t k k.
Proof. split; [apply same_config_refl|done]. Qed.

Lemma in_page_trans t k1 k2 k3 : in_page t k1 k2 -> in_page t k2 k3 -> in_page t k1 k3.
Proof.
  intros [C1 H1] [C2 H2]. split; [by eapply same_config_trans|]. intros x Hx. by rewrite H2, H1.
Qed.

Lemma in_page_store t k a n v :
  t <= a -> a + Z.of_nat n <= t + 4096 -> in_page t k (set_mem (fun m => store n m a v) k).
Proof.
  intros H1 H2. split; [apply same_config_set_mem|]. intros x Hx. cbn. unfold store.
  by rewrite (proj2 (in_range_false _ _ _)) by lia.
Qed.

(** A new table: a fresh page, all zero. *)
Lemma new_table_spec k :
  wf_pmm k ->
  new_table k = Halted \/
  exists t k', new_table k = Ok (t, k') /\ kmalloc_post k 1 (t - hhdm k) k' /\ wf_pmm k' /\ table_space t /\
    (forall x, t <= x < t + 4096 -> mem k' x = 0).
Proof.
  intros Hwf. unfold new_table. destruct (kmalloc_spec k 1 Hwf ltac:(lia)) as [(i & e & p & Hr & E)|[E _]];
    [right|left; unfold bind; by rewrite E].
  pose proof (after_alloc_post k i e p 1 Hwf ltac:(lia) Hr) as Hp.
  set (k' := after_alloc k e p 1) in *. clearbody k'. rewrite (bind_run _ _ _ _ _ E), bind_get.
  pose proof (post_config _ _ _ _ _ _ Hp) as Hc. pose proof Hc as (_ & Hh & _).
  pose proof (wf_same_config _ _ Hc Hwf) as Hwf'.
  pose proof (block_ok_new k i e p 1 k' Hwf ltac:(lia) Hp) as Hb.
  destruct (block_space k' _ Hwf' Hb) as (H0 & H1 & _). cbn [fst snd] in H0, H1. rewrite Hh in *.
  rewrite u64_small by lia. exists (page_addr e p + hhdm k), k'. split_and!; [done| |done|split; lia|].
  - exists i, e, p. split; [lia|done].
  - intros x Hx. apply (post_zero _ _ _ _ _ _ Hp). lia.
Qed.

(** *** The contents of a table

    [view k j] is entry [j] of the table at [t], for [j < size]. *)
Section Triples.
Context {A : Type} (t : Z) (view : Kernel -> Z -> A) (size : Z).

Definition holds (k : Kernel) (e : Z -> A) : Prop := forall j, 0 <= j < size -> view k j = e j.

(** From a table with the entries [e], the call [c] makes one with [e']. *)
Definition triple (e : Z -> A) (c : M Kernel unit) (e' : Z -> A) : Prop :=
  forall k, holds k e -> exists k', c k = Ok (tt, k') /\ in_page t k k' /\ holds k' e'.

Definition upd (i : Z) (v : A) (e : Z -> A) (j : Z) : A := if i =? j then v else e j.

Lemma triple_seq e1 c d e2 e3 : triple e1 c e2 -> triple e2 d e3 -> triple e1 (c ;;; d) e3.
Proof using.
  intros Hc Hd k Hk. destruct (Hc k Hk) as (k1 & E1 & P1 & H1). destruct (Hd k1 H1) as (k2 & E2 & P2 & H2).
  exists k2. rewrite (bind_run _ _ _ _ _ E1). split_and!; [done|by eapply in_page_trans|done].
Qed.

(** A single write that changes entry [i] to [v]. *)
Lemma triple_write e c i v f :
  (forall k, c k = Ok (tt, set_mem (f k) k)) ->
  (forall k, holds k e -> in_page t k (set_mem (f k) k) /\
     forall j, 0 <= j < size -> view (set_mem (f k) k) j = if i =? j then v else view k j) ->
  triple e c (upd i v e).
Proof using.
  intros Hc Hf k Hk. rewrite Hc. destruct (Hf k Hk) as [Hp Hv]. eexists. split_and!; [done|done|].
  intros j Hj. rewrite Hv by done. unfold upd. by rewrite Hk.
Qed.

Lemma triple_conseq e c e1 e2 :
  triple e c e1 -> (forall j, 0 <= j < size -> e1 j = e2 j) -> triple e c e2.
Proof using.
  intros Hc He k Hk. destruct (Hc k Hk) as (k' & E & P & H). exists k'. split_and!; [done|done|].
  intros j Hj. rewrite <- He by done. by apply H.
Qed.
End Triples.

Section Table.
Context (t : Z) (Ht : table_space t).
Abbreviation gdt_view := (fun k j => get_entry t j k).
Abbreviation gdt_triple := (triple t gdt_view 512).

Lemma set_entry_triple e i v :
  0 <= i < 512 -> 0 <= v < 2 ^ 64 -> gdt_triple e (set_entry t i v) (upd i v e).
Proof using Ht.
  intros Hi Hv. destruct Ht as [H0 H1]. eapply triple_write; [reflexivity|]. intros k _. split.
  - rewrite entry_addr_in by lia. apply in_page_store; lia.
  - intros j Hj. by rewrite (get_entry_store _ (mem k) t i j v) by (done || lia).
Qed.

Lemma or_entry_triple e i v :
  0 <= i < 512 -> 0 <= v < 2 ^ 64 -> gdt_triple e (or_entry t i v) (upd i (Z.lor (e i) v) e).
Proof using Ht.
  intros Hi Hv k Hk. unfold or_entry. rewrite bind_get, (Hk i Hi).
  apply (set_entry_triple e i (Z.lor (e i) v)); [done| |done].
  rewrite <- (Hk i Hi). apply lor_bound; [lia|apply get_entry_range|done].
Qed.

(** The two words of a system descriptor. *)
Definition system_low (base limit access flags : Z) : Z :=
  Z.lor (Z.lor (Z.lor (Z.lor (Z.lor (Z.lor (Z.lor 0 (Z.land limit 0xFFFF))
    (u64 (Z.shiftl (Z.land base 0xFFFF) 16))) (u64 (Z.shiftl (Z.land (Z.shiftr base 16) 0xFF) 32)))
    (u64 (Z.shiftl access 40))) (u64 (Z.shiftl (Z.land (Z.land (Z.shiftr limit 16) 0xF) 0xF) 48)))
    (u64 (Z.shiftl (Z.land flags 0xF) 52))) (u64 (Z.shiftl (Z.land (Z.shiftr base 24) 0xFF) 56)).
Definition system_high (base : Z) : Z := Z.land (Z.shiftr base 32) 0xFFFFFFFF.

Lemma masked_range x w n : 0 <= w <= n -> 0 <= Z.land x (Z.ones w) < 2 ^ n.
Proof using.
  intros H. rewrite Z.land_ones by lia. pose proof (Z.mod_pos_bound x (2 ^ w) ltac:(lia)).
  assert (2 ^ w <= 2 ^ n) by (apply Z.pow_le_mono_r; lia). lia.
Qed.

Lemma system_descriptor_triple e idx base limit access flags :
  0 <= idx < 511 ->
  gdt_triple e (create_system_segment_descriptor t idx base limit access flags)
    (upd (idx + 1) (system_high base) (upd idx (system_low base limit access flags) e)).
Proof using Ht.
  intros Hi. assert (forall x, 0 <= u64 x < 2 ^ 64) as Hu by apply u64_range.
  assert (0 <= Z.land limit 0xFFFF < 2 ^ 64) by (apply (masked_range _ 16); lia).
  assert (0 <= system_high base < 2 ^ 64) by (apply (masked_range _ 32); lia).
  eapply triple_conseq.
  - unfold create_system_segment_descriptor. cbv zeta.
    eapply triple_seq; [apply set_entry_triple; lia|].
    do 7 (eapply triple_seq; [apply or_entry_triple; [lia|done]|]).
    apply set_entry_triple; [lia|done].
  - intros j Hj. unfold upd. rewrite !Z.eqb_refl. unfold system_low. by repeat case_match.
Qed.

(** *** Gates *)
Abbreviation idt_view := (fun k j => gate_at k t j).
Abbreviation idt_triple := (triple t idt_view 256).

Lemma set_gate_field_run vector o n v k :
  0 <= vector < 256 -> 0 <= o < 16 ->
  set_gate_field t vector o n v k = Ok (tt, set_mem (fun m => store n m (t + 16 * vector + o) v) k).
Proof using Ht. intros Hv Ho. destruct Ht. unfold set_gate_field. rewrite u64_small by lia. done. Qed.

(** The pieces of an address make the address. *)
Lemma split_address a :
  0 <= a < 2 ^ 64 ->
  Z.lor (a mod 2 ^ 16) (Z.lor (Z.shiftl (Z.shiftr a 16 mod 2 ^ 16) 16) (Z.shiftl (Z.shiftr a 32 mod 2 ^ 32) 32)) = a.
Proof using. intros Ha. rewrite <- !Z.land_ones by lia. bits. Qed.

Lemma set_IDT_entry_triple e vector isr flags :
  0 <= vector < 256 -> 0 <= isr < 2 ^ 64 -> 0 <= flags < 2 ^ 8 ->
  idt_triple e (set_IDT_entry vector isr flags t) (upd vector (MkGate isr 8 flags) e).
Proof using Ht.
  intros Hv Hi Hf k Hk. destruct Ht as [H0 H1]. eexists. split.
  { unfold set_IDT_entry. repeat erewrite (bind_run _ _ _ tt) by (by apply set_gate_field_run; lia).
    apply set_gate_field_run; lia. }
  split.
  { do 4 (eapply in_page_trans; [|apply in_page_store; lia]). apply in_page_store; lia. }
  intros j Hj. unfold upd. rewrite <- (Hk j Hj). unfold gate_at. cbn [mem set_mem]. rewrite !Z.add_0_r.
  destruct (Z.eqb_spec vector j) as [->|Hne].
  - repeat first [rewrite load_store_same|rewrite load_store_other by (unfold disjoint; lia)].
    f_equal; [by apply split_address|]. by apply Z.mod_small.
  - by rewrite !load_store_other by (unfold disjoint; lia).
Qed.
End Table.

(** ** Theorems *)

(** What the fields of a descriptor are, for every input the fields can hold. *)
Lemma segment_of_entry base limit access flags :
  0 <= base < 2 ^ 64 -> 0 <= limit < 2 ^ 20 -> 0 <= access < 2 ^ 8 -> 0 <= flags < 2 ^ 4 ->
  segment_of (create_gdt_entry base limit access flags) = MkSegment (base mod 2 ^ 32) limit access flags.
Proof.
  intros. rewrite <- (Z.land_ones base) by lia. unfold segment_of, field, create_gdt_entry. cbv zeta. f_equal; bits.
Qed.

Lemma system_segment_of_words base limit access flags :
  0 <= base < 2 ^ 64 -> 0 <= limit -> 0 <= access < 2 ^ 8 -> 0 <= flags ->
  system_segment_of (system_low base limit access flags) (system_high base) =
  MkSegment base (limit mod 2 ^ 20) access (flags mod 2 ^ 4).
Proof.
  intros. rewrite <- (Z.land_ones limit), <- (Z.land_ones flags) by lia.
  unfold system_segment_of, segment_of, field, system_low, system_high. cbn [seg_base seg_limit seg_access seg_flags].
  f_equal; bits.
Qed.

(** C28: The descriptors encode what they are given.  The processor decodes from
    [create_gdt_entry(base, limit, access, flags)] exactly the access byte, the
    flags, the 20-bit limit and the lower half of the base; and
    [create_system_segment_descriptor] at [idx] writes the two entries [idx]
    and [idx + 1] from which it decodes the whole 64-bit base, the limit and
    flags cut to their fields, and changes no other entry and no byte outside
    the table. *)
Theorem descriptors_roundtrip t idx base limit access flags k :
  table_space t -> 0 <= idx < 511 ->
  0 <= base < 2 ^ 64 -> 0 <= limit < 2 ^ 64 -> 0 <= access < 2 ^ 8 -> 0 <= flags < 2 ^ 64 ->
  (limit < 2 ^ 20 -> flags < 2 ^ 4 ->
   segment_of (create_gdt_entry base limit access flags) = MkSegment (base mod 2 ^ 32) limit access flags) /\
  exists k', create_system_segment_descriptor t idx base limit access flags k = Ok (tt, k') /\
    in_page t k k' /\
    system_segment_of (get_entry t idx k') (get_entry t (idx + 1) k') =
      MkSegment base (limit mod 2 ^ 20) access (flags mod 2 ^ 4) /\
    forall j, 0 <= j < 512 -> j <> idx -> j <> idx + 1 -> get_entry t j k' = get_entry t j k.
Proof.
  intros Ht Hi Hb Hl Ha Hf. split; [intros; apply segment_of_entry; lia|].
  destruct (system_descriptor_triple t Ht _ idx base limit access flags Hi k (fun j _ => eq_refl))
    as (k' & E & Hp & Hk). exists k'. split_and!; [done|done| |].
  - rewrite !Hk by lia. unfold upd. rewrite Z.eqb_refl.
    replace (idx + 1 =? idx) with false by lia. rewrite Z.eqb_refl. apply system_segment_of_words; lia.
  - intros j Hj H0 H1. rewrite Hk by done. unfold upd. by rewrite !(proj2 (Z.eqb_neq _ j)) by lia.
Qed.

Lemma descriptors_roundtrip_witness :
  (0xFFFFF < 2 ^ 20 -> 0x2 < 2 ^ 4 ->
   segment_of (create_gdt_entry 0xFFFFFFFF12345678 0xFFFFF 0x9A 0x2) =
     MkSegment (0xFFFFFFFF12345678 mod 2 ^ 32) 0xFFFFF 0x9A 0x2) /\
  exists k', create_system_segment_descriptor 8192 5 0xFFFFFFFF12345678 0xFFFFF 0x9A 0x2 small_kernel = Ok (tt, k') /\
    in_page 8192 small_kernel k' /\
    system_segment_of (get_entry 8192 5 k') (get_entry 8192 (5 + 1) k') =
      MkSegment 0xFFFFFFFF12345678 (0xFFFFF mod 2 ^ 20) 0x9A (0x2 mod 2 ^ 4) /\
    forall j, 0 <= j < 512 -> j <> 5 -> j <> 5 + 1 -> get_entry 8192 j k' = get_entry 8192 j small_kernel.
Proof. apply (descriptors_roundtrip 8192 5); try lia. split; lia. Defined.

(** A descriptor-table page of a machine: [kmalloc] took it from [m], and since
    then only its own bytes have changed. *)
Definition made_table (m : Machine) (t : Z) (m' : Machine) : Prop :=
  exists k, kmalloc_post (kernel m) 1 (t - hhdm (kernel m)) k /\ in_page t k (kernel m') /\ table_space t.

(** Taking a page for a table and filling it. *)
Lemma fill_table {A} (view : Z -> Kernel -> Z -> A) size (e e' : Z -> A) (fill : Z -> M Kernel unit) m :
  wf_pmm (kernel m) ->
  (forall t k, table_space t -> (forall x, t <= x < t + 4096 -> mem k x = 0) -> holds (view t) size k e) ->
  (forall t, table_space t -> triple t (view t) size e (fill t) e') ->
  on_kernel new_table m = Halted \/
  exists t m1 k', on_kernel new_table m = Ok (t, m1) /\ on_kernel (fill t) m1 = Ok (tt, set_kernel k' m) /\
    made_table m t (set_kernel k' m) /\ holds (view t) size k' e'.
Proof.
  intros Hwf He Hf. unfold on_kernel at 1 2.
  destruct (new_table_spec (kernel m) Hwf) as [->|(t & k & -> & Hp & Hwf' & Ht & Hz)]; [by left|right].
  destruct (Hf t Ht k) as (k' & E & Hin & Hh); [by apply He|].
  exists t, (set_kernel k m), k'. unfold on_kernel. cbn [obind kernel set_kernel]. rewrite E.
  split_and!; [done|done| |done]. by exists k.
Qed.

(** The entries [init_GDT] means: null, kernel code and data, user code and data. *)
Definition gdt_segments : list Segment :=
  [MkSegment 0 0 0 0; MkSegment 0 0 0x9A 2; MkSegment 0 0 0x92 0; MkSegment 0 0 0xFA 2; MkSegment 0 0 0xF2 0].

(** C27: [init_GDT] either finds no page and halts, or installs the table: in a
    page of its own it writes the five segments and the descriptor of the TSS
    ([&kernel.tss], 104 bytes); GDTR covers exactly these seven entries and is
    loaded; the code and data selectors name the kernel's code and data
    segments and the task register the TSS; no other memory changes. *)
Theorem init_GDT_installs tss_addr m :
  wf_pmm (kernel m) -> 0 <= tss_addr < 2 ^ 64 ->
  init_GDT tss_addr m = Halted \/
  exists t m', init_GDT tss_addr m = Ok (tt, m') /\ made_table m t m' /\
    map (fun i => segment_of (get_entry t i (kernel m'))) [0; 1; 2; 3; 4] = gdt_segments /\
    system_segment_of (get_entry t (task_register (processor m') / 8) (kernel m'))
      (get_entry t (task_register (processor m') / 8 + 1) (kernel m')) = MkSegment tss_addr 103 0x89 0 /\
    gdtr m' = MkGDTR (7 * 8 - 1) t /\ lgdt_register (processor m') = gdtr m' /\
    code_segment (processor m') = 1 * 8 /\ data_segments (processor m') = 2 * 8 /\
    idtr m' = idtr m /\ lidt_register (processor m') = lidt_register (processor m).
Proof.
  intros Hwf Ha. unfold init_GDT.
  destruct (fill_table (fun t k j => get_entry t j k) 512 (fun _ => 0)
    (upd 6 (system_high tss_addr) (upd 5 (system_low tss_addr 103 0x89 0)
      (upd 4 (create_gdt_entry 0 0 0xF2 0) (upd 3 (create_gdt_entry 0 0 0xFA 2)
        (upd 2 (create_gdt_entry 0 0 0x92 0) (upd 1 (create_gdt_entry 0 0 0x9A 2)
          (upd 0 (create_gdt_entry 0 0 0 0) (fun _ => 0))))))))
    (fun t => fill_GDT t tss_addr) m Hwf) as [E|(t & m1 & k' & E1 & E2 & Hm & Hh)].
  - intros t k [H0 H1] Hz j Hj. unfold get_entry. rewrite entry_addr_in by lia.
    assert (agree (mem k) (memset (mem k) t 0 4096) t 4096) as Hag
      by (intros x Hx; by rewrite memset_inside, Hz by done).
    rewrite (load_agree 8 _ (memset (mem k) t 0 4096)) by (eapply agree_sub; [exact Hag|lia|lia]).
    apply load_memset_zero; lia.
  - intros t Ht. unfold fill_GDT.
    do 5 (eapply triple_seq; [apply set_entry_triple; [done|lia|by vm_compute]|]).
    apply (system_descriptor_triple t Ht _ 5). lia.
  - left. unfold bind at 1. by rewrite E.
  - right. exists t. rewrite (bind_run _ _ _ _ _ E1), (bind_run _ _ _ _ _ E2).
    eexists. split; [reflexivity|].
    cbn [kernel set_kernel set_gdtr lgdt reload_segments ltr processor task_register map].
    unfold holds in Hh. rewrite !Hh by lia. split; [exact Hm|]. split; [by vm_compute|].
    split; [|by repeat split]. change (0x28 / 8) with 5. rewrite (Hh 5), (Hh (5 + 1)) by lia.
    exact (system_segment_of_words tss_addr 103 0x89 0 Ha ltac:(lia) ltac:(lia) ltac:(lia)).
Qed.

(** The machine before the tables are set up. *)
Definition reset_machine (k : Kernel) : Machine :=
  MkMachine k (MkTSS 0) (MkGDTR 0 0) (MkIDTR 0 0) (MkProcessor (MkGDTR 0 0) (MkIDTR 0 0) 0 0 0).

Lemma init_GDT_installs_witness :
  init_GDT 0xFFFFFFFF80002000 (reset_machine small_kernel) = Halted \/
  exists t m', init_GDT 0xFFFFFFFF80002000 (reset_machine small_kernel) = Ok (tt, m') /\
    made_table (reset_machine small_kernel) t m' /\
    map (fun i => segment_of (get_entry t i (kernel m'))) [0; 1; 2; 3; 4] = gdt_segments /\
    system_segment_of (get_entry t (task_register (processor m') / 8) (kernel m'))
      (get_entry t (task_register (processor m') / 8 + 1) (kernel m')) = MkSegment 0xFFFFFFFF80002000 103 0x89 0 /\
    gdtr m' = MkGDTR (7 * 8 - 1) t /\ lgdt_register (processor m') = gdtr m' /\
    code_segment (processor m') = 1 * 8 /\ data_segments (processor m') = 2 * 8 /\
    idtr m' = idtr (reset_machine small_kernel) /\
    lidt_register (processor m') = lidt_register (processor (reset_machine small_kernel)).
Proof. apply (init_GDT_installs 0xFFFFFFFF80002000 (reset_machine small_kernel)); [exact small_kernel_wf|lia]. Defined.

(** On that machine it does return. *)
Example init_GDT_returns :
  match init_GDT 0xFFFFFFFF80002000 (reset_machine small_kernel) with
  | Ok (_, m) => gdtr m = MkGDTR 55 (2 ^ 47 + 65536 + 4096)
  | _ => False
  end.
Proof. vm_compute. reflexivity. Qed.

(** *** The interrupt table *)

(** The vectors with a service routine, and the routine of each. *)
Definition vectors : list (Z * Isr) :=
  [(0xFF, spurious_irq); (40, timer_isr); (0, divideException); (1, debugException);
   (3, breakpointException); (4, overflowException); (5, boundRangeExceededException);
   (6, invalidOpcodeException); (7, deviceNotAvaliableException); (8, doubleFaultException);
   (9, coprocessorSegmentOverrunException); (10, invalidTSSException);
   (11, segmentNotPresentException); (12, stackSegmentFaultException);
   (13, generalProtectionFaultException); (14, pageFaultException); (16, floatingPointException);
   (17, alignmentCheckException); (18, machineCheckException); (19, simdFloatingPointException);
   (20, virtualisationException)].

Definition isr_of (v : Z) : option Isr := (fun p => snd (snd p)) <$> list_find (fun p => fst p = v) vectors.

Section Vectors.
Context (address_of : Isr -> Z).

Definition gate_of (v : Z) : Gate :=
  match isr_of v with
  | Some i => MkGate (address_of i) 0x08 0x8E
  | None => MkGate 0 0 0
  end.

(** [fill_IDT] is one [set_IDT_entry] per vector. *)
Fixpoint set_gates (IDT : Z) (l : list (Z * Isr)) (v : Z) (i : Isr) : M Kernel unit :=
  match l with
  | [] => set_IDT_entry v (address_of i) 0x8E IDT
  | (v', i') :: l' => set_IDT_entry v (address_of i) 0x8E IDT ;;; set_gates IDT l' v' i'
  end.

Lemma fill_IDT_gates IDT : fill_IDT address_of IDT = set_gates IDT (tail vectors) 0xFF spurious_irq.
Proof using. reflexivity. Qed.

Lemma set_gates_triple t l v i e :
  table_space t -> (forall j, 0 <= address_of j < 2 ^ 64) ->
  0 <= v < 256 -> Forall (fun p => 0 <= fst p < 256) l ->
  triple t (fun k j => gate_at k t j) 256 e (set_gates t l v i)
    (fold_left (fun e p => upd (fst p) (MkGate (address_of (snd p)) 8 0x8E) e) ((v, i) :: l) e).
Proof using.
  intros Ht Ha. revert v i e. induction l as [|[v' i'] l IH]; intros v i e Hv Hl; cbn [set_gates].
  - by apply set_IDT_entry_triple.
  - apply Forall_cons in Hl as [Hv' Hl].
    eapply triple_seq; [by apply set_IDT_entry_triple|]. by apply IH.
Qed.

Lemma gates_of_vectors v :
  0 <= v < 256 ->
  fold_left (fun e p => upd (fst p) (MkGate (address_of (snd p)) 8 0x8E) e) vectors (fun _ => MkGate 0 0 0) v = gate_of v.
Proof using.
  intros Hv. assert (Forall (fun v => fold_left (fun e p => upd (fst p) (MkGate (address_of (snd p)) 8 0x8E) e)
    vectors (fun _ => MkGate 0 0 0) v = gate_of v) (seqZ 0 256)) as H by (vm_compute; repeat constructor).
  rewrite Forall_forall in H. apply H, elem_of_seqZ. lia.
Qed.

(** C26: [init_IDT] either finds no page and halts, or installs the table: in a
    page of its own the gate of each of the 21 vectors of the kernel leads to
    its service routine through the kernel's code segment with flags 0x8E (a
    present interrupt gate), the gates of all the other vectors are zero, so not
    present; IDTR covers the 256 gates exactly and is loaded; no other memory
    and no other register changes. *)
Theorem init_IDT_installs m :
  wf_pmm (kernel m) -> (forall i, 0 <= address_of i < 2 ^ 64) ->
  init_IDT address_of m = Halted \/
  exists t m', init_IDT address_of m = Ok (tt, m') /\ made_table m t m' /\
    (forall v, 0 <= v < 256 -> gate_at (kernel m') t v = gate_of v /\
       gate_present (gate_of v) = bool_decide (is_Some (isr_of v))) /\
    idtr m' = MkIDTR (256 * 16 - 1) t /\ lidt_register (processor m') = idtr m' /\
    gdtr m' = gdtr m /\ tss m' = tss m /\ lgdt_register (processor m') = lgdt_register (processor m) /\
    task_register (processor m') = task_register (processor m).
Proof using.
  intros Hwf Ha. unfold init_IDT.
  destruct (fill_table (fun t k j => gate_at k t j) 256 (fun _ => MkGate 0 0 0)
    (fold_left (fun e p => upd (fst p) (MkGate (address_of (snd p)) 8 0x8E) e) vectors (fun _ => MkGate 0 0 0))
    (fill_IDT address_of) m Hwf)
    as [E|(t & m1 & k' & E1 & E2 & Hm & Hh)].
  - intros t k [H0 H1] Hz j Hj. unfold gate_at.
    assert (forall n a, t <= a -> a + Z.of_nat n <= t + 4096 -> load n (mem k) a = 0) as Hl.
    { intros n a H2 H3. rewrite (load_agree n _ (memset (mem k) t 0 4096)); [apply load_memset_zero; lia|].
      intros x Hx. rewrite memset_inside, Hz by lia. done. }
    by rewrite !Hl by lia.
  - intros t Ht. rewrite fill_IDT_gates. apply set_gates_triple; [done|done|lia|].
    repeat constructor; cbn [fst]; lia.
  - left. unfold bind at 1. by rewrite E.
  - right. exists t. rewrite (bind_run _ _ _ _ _ E1), (bind_run _ _ _ _ _ E2).
    eexists. split; [reflexivity|]. split; [exact Hm|]. split; [|by repeat split].
    intros v Hv. split; [|unfold gate_of, gate_present; by destruct (isr_of v)].
    rewrite <- gates_of_vectors by done. exact (Hh v Hv).
Qed.
End Vectors.

Lemma init_IDT_installs_witness :
  init_IDT (fun _ => 0xFFFFFFFF80001000) (reset_machine small_kernel) = Halted \/
  exists t m', init_IDT (fun _ => 0xFFFFFFFF80001000) (reset_machine small_kernel) = Ok (tt, m') /\
    made_table (reset_machine small_kernel) t m' /\
    (forall v, 0 <= v < 256 -> gate_at (kernel m') t v = gate_of (fun _ => 0xFFFFFFFF80001000) v /\
       gate_present (gate_of (fun _ => 0xFFFFFFFF80001000) v) = bool_decide (is_Some (isr_of v))) /\
    idtr m' = MkIDTR (256 * 16 - 1) t /\ lidt_register (processor m') = idtr m' /\
    gdtr m' = gdtr (reset_machine small_kernel) /\ tss m' = tss (reset_machine small_kernel) /\
    lgdt_register (processor m') = lgdt_register (processor (reset_machine small_kernel)) /\
    task_register (processor m') = task_register (processor (reset_machine small_kernel)).
Proof.
  apply (init_IDT_installs (fun _ => 0xFFFFFFFF80001000) (reset_machine small_kernel));
    [exact small_kernel_wf|intros _; lia].
Defined.
