(* ===== verification/Elf.v ===== *)
(** * tasks/spawn.c: loading a program

    An ELF file is the array of its bytes ([buffer]); its headers are read field
    by field.  The segments are copied to pages from [kmalloc], reached through
    the direct map, and mapped into the address space of the new task. *)
From S2P Require Import Prelude Memory PMM Paging Strings.

(** ** Headers *)

(** [elf_file_header], packed. *)
Definition machine_type (buffer : list Z) : outcome Z := le_field 2 buffer 18.
Definition entry (buffer : list Z) : outcome Z := le_field 8 buffer 24.
Definition program_header_offset (buffer : list Z) : outcome Z := le_field 8 buffer 32.
Definition program_header_entry_count (buffer : list Z) : outcome Z := le_field 2 buffer 56.

(** [elf_program_header]; the fields the code does not read are left out. *)
Record elf_program_header := {
  ph_type : Z; ph_offset : Z; virtual_address : Z; size_in_file : Z; size_in_memory : Z
}.
Definition sizeof_program_header : Z := 56.

(** Fields of [program_headers[i]], the table being at [table] of the file. *)
Section Headers.
Context (buffer : list Z) (table : Z).
Definition type_of (i : Z) : outcome Z := le_field 4 buffer (table + sizeof_program_header * i).
Definition offset_of (i : Z) : outcome Z := le_field 8 buffer (table + sizeof_program_header * i + 8).
Definition vaddr_of (i : Z) : outcome Z := le_field 8 buffer (table + sizeof_program_header * i + 16).
Definition filesz_of (i : Z) : outcome Z := le_field 8 buffer (table + sizeof_program_header * i + 32).
Definition memsz_of (i : Z) : outcome Z := le_field 8 buffer (table + sizeof_program_header * i + 40).
Definition program_header (i : Z) : outcome elf_program_header :=
  let+ ty := type_of i in
  let+ off := offset_of i in
  let+ va := vaddr_of i in
  let+ fsz := filesz_of i in
  let+ msz := memsz_of i in
  Ok {| ph_type := ty; ph_offset := off; virtual_address := va; size_in_file := fsz; size_in_memory := msz |}.
End Headers.

(** ** The code *)

Definition elf_magic : list Z := [127; 69; 76; 70].

Definition validate_elf (header : list Z) : outcome bool :=
  let+ magic := ku_memcmp header elf_magic 4 in
  if negb magic then Ok false
  else
    let+ data := rd header 5 in
    if negb (data =? 1) then Ok false
    else
      let+ class := rd header 4 in
      if negb (class =? 2) then Ok false
      else
        let+ machine := machine_type header in
        if negb (machine =? 0x3E) then Ok false else Ok true.

Section Segments.
Context (buffer : list Z) (table : Z).

(** [for (size_t i = 0; i < num_entries; i++)], [n] iterations from [i] on. *)
Fixpoint first_loop (n : nat) (i smallest_index smallest_addr : Z) (is_first_loadable : bool) : outcome Z :=
  match n with
  | O => Ok smallest_index
  | S n' =>
      let+ ty := type_of buffer table i in
      if ty =? 1 then
        let+ va := vaddr_of buffer table i in
        if (va <? smallest_addr) || is_first_loadable
        then first_loop n' (i + 1) i va false
        else first_loop n' (i + 1) smallest_index smallest_addr is_first_loadable
      else first_loop n' (i + 1) smallest_index smallest_addr is_first_loadable
  end.
Definition first_loadable_segment (num_entries : Z) : outcome Z :=
  first_loop (Z.to_nat num_entries) 0 0 0 true.

Fixpoint last_loop (n : nat) (i largest_index largest_addr : Z) : outcome Z :=
  match n with
  | O => Ok largest_index
  | S n' =>
      let+ ty := type_of buffer table i in
      if ty =? 1 then
        let+ va := vaddr_of buffer table i in
        if largest_addr <? va
        then last_loop n' (i + 1) i va
        else last_loop n' (i + 1) largest_index largest_addr
      else last_loop n' (i + 1) largest_index largest_addr
  end.
Definition last_loadable_segment (num_entries : Z) : outcome Z :=
  last_loop (Z.to_nat num_entries) 0 0 0.

(** [ku_memcpy] of bytes of the file to memory. *)
Definition store_bytes (m : memory) (a : Z) (l : list Z) : memory :=
  fun x => if in_range a (Zlen l) x then nth (Z.to_nat (x - a)) l 0 else m x.
Definition copy_from_file (copy_to off n : Z) : M Kernel unit :=
  if Zlen buffer <? off + n then fault
  else modify (set_mem (fun m => store_bytes m copy_to (take (Z.to_nat n) (drop (Z.to_nat off) buffer)))).

Fixpoint load_loop (n : nat) (s copyto_pages first_va : Z) : M Kernel unit :=
  match n with
  | O => ret tt
  | S n' =>
      let* ty := lift (type_of buffer table s) in
      (if ty =? 1 then
         let* off := lift (offset_of buffer table s) in
         let* va := lift (vaddr_of buffer table s) in
         let* k := get in
         let copy_to := u64 (u64 (copyto_pages + hhdm k) + u64 (va - first_va)) in
         let* size := lift (filesz_of buffer table s) in
         copy_from_file copy_to off size
       else ret tt) ;;;
      load_loop n' (s + 1) copyto_pages first_va
  end.

(** The part of [spawn] from the choice of the segments to their copy: the first
    and the last segment, the pages and how many. *)
Definition load_segments (num_entries : Z)
    : M Kernel (elf_program_header * elf_program_header * Z * Z) :=
  let* i := lift (first_loadable_segment num_entries) in
  let* first_segment := lift (program_header buffer table i) in
  let* j := lift (last_loadable_segment num_entries) in
  let* last_segment := lift (program_header buffer table j) in
  let pages_to_map := PAGE_ALIGN_UP (u64 (u64 (virtual_address last_segment + size_in_memory last_segment)
    - virtual_address first_segment)) / 4096 in
  let* copyto_pages := kmalloc pages_to_map in
  load_loop (Z.to_nat num_entries) 0 copyto_pages (virtual_address first_segment) ;;;
  ret (first_segment, last_segment, copyto_pages, pages_to_map).
End Segments.

(** The arguments of a new task: the strings one after the other in the page,
    then the array of pointers to them. *)
Fixpoint write_args (argv : list (list Z)) (arg_page arg_size : Z) : M Kernel Z :=
  match argv with
  | [] => ret arg_size
  | arg :: argv' =>
      let* n := lift (ku_strlen arg) in
      modify (set_mem (fun m => store_bytes m (u64 (arg_page + arg_size)) (take (Z.to_nat (n + 1)) arg))) ;;;
      write_args argv' arg_page (u64 (arg_size + (n + 1)))
  end.
Fixpoint write_arg_pointers (argv : list (list Z)) (arg_page arg_size i hitherto : Z) : M Kernel unit :=
  match argv with
  | [] => ret tt
  | arg :: argv' =>
      modify (set_mem (fun m => store64 m (u64 (arg_page + arg_size + i * 8)) (u64 (arg_page + hitherto)))) ;;;
      let* n := lift (ku_strlen arg) in
      write_arg_pointers argv' arg_page arg_size (i + 1) (u64 (hitherto + (n + 1)))
  end.

(** A byte of a file after the copy of another file's bytes: examples. *)
Example write_args_demo :
  match (let* n := write_args [[104; 105; 0]; [97; 0]] 8192 0 in
         write_arg_pointers [[104; 105; 0]; [97; 0]] 8192 n 0 0 ;;; ret n) small_kernel with
  | Ok (n, k) => map (mem k) [8192; 8193; 8194; 8195; 8196] = [104; 105; 0; 97; 0] /\
      load64 (mem k) (8192 + n) = 8192 /\ load64 (mem k) (8192 + n + 8) = 8195
  | _ => False
  end.
Proof. vm_compute. done. Qed.

(** ** What the headers describe *)

Section Image.
Context (buffer : list Z) (table : Z).

(** The program headers of the file are [hs]. *)
Definition headers (hs : list elf_program_header) : Prop :=
  forall i h, hs !! i = Some h ->
    type_of buffer table (Z.of_nat i) = Ok (ph_type h) /\
    offset_of buffer table (Z.of_nat i) = Ok (ph_offset h) /\
    vaddr_of buffer table (Z.of_nat i) = Ok (virtual_address h) /\
    filesz_of buffer table (Z.of_nat i) = Ok (size_in_file h) /\
    memsz_of buffer table (Z.of_nat i) = Ok (size_in_memory h).

Definition loadable (h : elf_program_header) : bool := ph_type h =? 1.

(** [i] is the index of a loadable segment that is extreme for [R]. *)
Definition extreme (R : Z -> Z -> Prop) (hs : list elf_program_header) (i : Z) (h : elf_program_header) : Prop :=
  0 <= i /\ hs !! Z.to_nat i = Some h /\ loadable h = true /\
  forall h', h' ∈ hs -> loadable h' = true -> R (virtual_address h) (virtual_address h').

Lemma program_header_run hs i h :
  headers hs -> 0 <= i -> hs !! Z.to_nat i = Some h -> program_header buffer table i = Ok h.
Proof using.
  intros Hh Hi E. destruct (Hh _ _ E) as (E1 & E2 & E3 & E4 & E5). rewrite Z2Nat.id in * by done.
  unfold program_header. rewrite E1, E2, E3, E4, E5. by destruct h.
Qed.

(** The loops choose the lowest and the highest segment. *)
Lemma first_loop_spec hs pre post si sa (first : bool) :
  headers hs -> hs = pre ++ post ->
  (if first then forall h, h ∈ pre -> loadable h = false
   else exists h, extreme Z.le pre si h /\ sa = virtual_address h) ->
  (exists h, h ∈ hs /\ loadable h = true) ->
  exists i h, first_loop buffer table (length post) (Zlen pre) si sa first = Ok i /\ extreme Z.le hs i h.
Proof using.
  intros Hh. revert pre si sa first. induction post as [|x post IH]; intros pre si sa first Hhs Hinv Hex; cbn [first_loop length].
  - rewrite app_nil_r in Hhs. subst pre. destruct first.
    + destruct Hex as (h & Hin & Hl). specialize (Hinv h Hin). congruence.
    + destruct Hinv as (h & He & _). by exists si, h.
  - assert (hs !! length pre = Some x) as Hx by (rewrite Hhs; by rewrite list_lookup_middle).
    destruct (Hh _ _ Hx) as (E1 & _ & E3 & _). fold (Zlen pre) in E1, E3. rewrite E1. cbn [obind].
    assert (hs = (pre ++ [x]) ++ post) as Hhs' by (by rewrite <- app_assoc).
    replace (Zlen pre + 1) with (Zlen (pre ++ [x])) by zlen.
    assert (forall h, h ∈ pre ++ [x] -> h ∈ pre \/ h = x) as Hcase by set_solver.
    destruct (ph_type x =? 1) eqn:Hty.
    + rewrite E3. cbn [obind].
      assert (forall h, h = x -> loadable h = true) as Hlx by (by intros h ->).
      assert (extreme Z.le (pre ++ [x]) (Zlen pre) x <-> forall h, h ∈ pre -> loadable h = true -> virtual_address x <= virtual_address h) as Hnew.
      { unfold extreme. rewrite Zlen_to_nat, list_lookup_middle by done. split; [set_solver|].
        intros H. split_and!; [apply Zlen_nonneg|done|by apply Hlx|]. intros h' [?| ->]%Hcase ?; [auto|lia]. }
      destruct ((virtual_address x <? sa) || first) eqn:Hlt.
      * apply (IH (pre ++ [x]) (Zlen pre) (virtual_address x) false Hhs'); [|done]. exists x. split; [|done].
        apply Hnew. intros h Hin Hl. destruct first; [specialize (Hinv h Hin); congruence|].
        destruct Hinv as (h0 & (_ & _ & _ & Hmin) & ->). specialize (Hmin h Hin Hl). lia.
      * destruct first; [lia|]. apply (IH (pre ++ [x]) si sa false Hhs'); [|done].
        destruct Hinv as (h0 & (H0 & Hs & Hl0 & Hmin) & ->). exists h0. split; [|done].
        split_and!; [done|by apply lookup_app_l_Some|done|].
        intros h' [?| ->]%Hcase ?; [auto|lia].
    + apply (IH (pre ++ [x]) si sa first Hhs'); [|done]. destruct first.
      * intros h [?| ->]%Hcase; auto.
      * destruct Hinv as (h0 & (H0 & Hs & Hl0 & Hmin) & ->). exists h0. split; [|done].
        split_and!; [done|by apply lookup_app_l_Some|done|].
        intros h' [?| ->]%Hcase Hl'; [auto|]. unfold loadable in Hl'. congruence.
Qed.

Lemma last_loop_spec hs pre post li la :
  headers hs -> hs = pre ++ post ->
  (la = 0 /\ (forall h, h ∈ pre -> loadable h = true -> virtual_address h <= 0)) \/
    (exists h, extreme Z.ge pre li h /\ la = virtual_address h /\ 0 < la) ->
  (exists h, h ∈ hs /\ loadable h = true /\ 0 < virtual_address h) ->
  exists i h, last_loop buffer table (length post) (Zlen pre) li la = Ok i /\ extreme Z.ge hs i h.
Proof using.
  intros Hh. revert pre li la. induction post as [|x post IH]; intros pre li la Hhs Hinv Hex; cbn [last_loop length].
  - rewrite app_nil_r in Hhs. subst pre. destruct Hinv as [[-> Hinv]|(h & He & _)]; [|by exists li, h].
    destruct Hex as (h & Hin & Hl & Hva). specialize (Hinv h Hin Hl). lia.
  - assert (hs !! length pre = Some x) as Hx by (rewrite Hhs; by rewrite list_lookup_middle).
    destruct (Hh _ _ Hx) as (E1 & _ & E3 & _). fold (Zlen pre) in E1, E3. rewrite E1. cbn [obind].
    assert (hs = (pre ++ [x]) ++ post) as Hhs' by (by rewrite <- app_assoc).
    replace (Zlen pre + 1) with (Zlen (pre ++ [x])) by zlen.
    assert (forall h, h ∈ pre ++ [x] -> h ∈ pre \/ h = x) as Hcase by set_solver.
    assert (forall h, extreme Z.ge pre li h -> (loadable x = true -> virtual_address h >= virtual_address x) ->
      extreme Z.ge (pre ++ [x]) li h) as Hold.
    { intros h (H0 & Hs & Hl0 & Hmax) Hxl. split_and!; [done|by apply lookup_app_l_Some|done|].
      intros h' [?| ->]%Hcase ?; auto. }
    destruct (ph_type x =? 1) eqn:Hty.
    + rewrite E3. cbn [obind]. destruct (la <? virtual_address x) eqn:Hlt.
      * apply (IH (pre ++ [x])); [done| |done]. right. exists x. split; [|split; [done|]].
        -- unfold extreme. rewrite Zlen_to_nat, list_lookup_middle by done. split_and!; [apply Zlen_nonneg|done|done|].
           intros h' [Hin| ->]%Hcase Hl'; [|lia]. destruct Hinv as [[-> Hinv]|(h & (_ & _ & _ & Hmax) & -> & _)];
             [specialize (Hinv h' Hin Hl')|specialize (Hmax h' Hin Hl')]; lia.
        -- destruct Hinv as [[-> _]|(h & _ & -> & ?)]; lia.
      * apply (IH (pre ++ [x])); [done| |done]. destruct Hinv as [[-> Hinv]|(h & He & -> & Hpos)].
        -- left. split; [done|]. intros h' [?| ->]%Hcase ?; [auto|lia].
        -- right. exists h. split; [apply Hold; [done|lia]|done].
    + apply (IH (pre ++ [x])); [done| |done]. destruct Hinv as [[-> Hinv]|(h & He & -> & Hpos)].
      * left. split; [done|]. intros h' [?| ->]%Hcase Hl'; [auto|]. unfold loadable in Hl'. congruence.
      * right. exists h. split; [apply Hold; [done|]|done]. unfold loadable. congruence.
Qed.

(** *** The copy *)

(** The bytes of a segment. *)
Definition segment_bytes (h : elf_program_header) : list Z :=
  take (Z.to_nat (size_in_file h)) (drop (Z.to_nat (ph_offset h)) buffer).

(** The image of the program: the byte at [x] from the address [lo] on is the
    file's, from the last segment that covers it, and zero elsewhere. *)
Definition image (hs : list elf_program_header) (lo x : Z) : Z :=
  fold_left (fun b h => if loadable h && in_range (virtual_address h - lo) (size_in_file h) x
                        then nth (Z.to_nat (x - (virtual_address h - lo))) (segment_bytes h) 0 else b) hs 0.

(** The segments lie in the file, above [lo] and within [n] bytes. *)
Definition segments_ok (hs : list elf_program_header) (lo n : Z) : Prop :=
  forall h, h ∈ hs -> loadable h = true ->
    0 <= ph_offset h /\ 0 <= size_in_file h /\ ph_offset h + size_in_file h <= Zlen buffer /\
    lo <= virtual_address h /\ virtual_address h - lo + size_in_file h <= n.

Lemma load_loop_spec hs pre post lo n copyto k :
  headers hs -> hs = pre ++ post -> segments_ok hs lo n -> 0 <= lo -> 0 <= copyto + hhdm k ->
  copyto + hhdm k + n < 2 ^ 64 ->
  exists k', load_loop buffer table (length post) (Zlen pre) copyto lo k = Ok (tt, k') /\ same_config k k' /\
    (forall x, ~ (copyto + hhdm k <= x < copyto + hhdm k + n) -> mem k' x = mem k x) /\
    (forall x, 0 <= x < n -> mem k (copyto + hhdm k + x) = image pre lo x -> mem k' (copyto + hhdm k + x) = image hs lo x).
Proof using.
  intros Hh. revert pre k. induction post as [|x post IH]; intros pre k Hhs Hok Hlo Hb0 Hb1; cbn [load_loop length].
  - exists k. rewrite app_nil_r in Hhs. subst pre. split_and!; [done|apply same_config_refl|done|done].
  - assert (hs !! length pre = Some x) as Hx by (rewrite Hhs; by rewrite list_lookup_middle).
    destruct (Hh _ _ Hx) as (E1 & E2 & E3 & E4 & _). fold (Zlen pre) in E1, E2, E3, E4.
    rewrite (bind_lift _ _ _ _ E1).
    assert (hs = (pre ++ [x]) ++ post) as Hhs' by (by rewrite <- app_assoc).
    replace (Zlen pre + 1) with (Zlen (pre ++ [x])) by zlen.
    destruct (ph_type x =? 1) eqn:Hty.
    + assert (x ∈ hs) as Hin by (by eapply list_elem_of_lookup_2).
      destruct (Hok x Hin Hty) as (H0 & H1 & H2 & H3 & H4).
      rewrite bind_assoc, (bind_lift _ _ _ _ E2), bind_assoc, (bind_lift _ _ _ _ E3), bind_assoc, bind_get.
      cbv zeta. rewrite bind_assoc, (bind_lift _ _ _ _ E4).
      rewrite (u64_small (virtual_address x - lo)), (u64_small (copyto + hhdm k)) by lia. rewrite u64_small by lia.
      unfold copy_from_file. destruct (Z.ltb_spec (Zlen buffer) (ph_offset x + size_in_file x)); [lia|].
      rewrite bind_modify. set (k1 := set_mem _ k).
      assert (Zlen (segment_bytes x) = size_in_file x) as Hlen.
      { unfold segment_bytes, Zlen in *. rewrite length_take, length_drop. lia. }
      assert (forall y, mem k1 y = if in_range (copyto + hhdm k + (virtual_address x - lo)) (size_in_file x) y
        then nth (Z.to_nat (y - (copyto + hhdm k + (virtual_address x - lo)))) (segment_bytes x) 0 else mem k y) as Hmem.
      { intros y. unfold k1. cbn [mem set_mem]. unfold store_bytes. fold (segment_bytes x). by rewrite Hlen. }
      destruct (IH (pre ++ [x]) k1 Hhs' Hok Hlo Hb0 Hb1) as (k' & E & Hc & Hout & Hin').
      exists k'. change (hhdm k1) with (hhdm k) in *. split_and!; [done| | |].
      * eapply same_config_trans; [|exact Hc]. apply same_config_set_mem.
      * intros y Hy. rewrite Hout, Hmem by done. by rewrite (proj2 (in_range_false _ _ _)) by lia.
      * intros y Hy Hy'. apply Hin'; [done|]. rewrite Hmem. unfold image. rewrite fold_left_app. cbn [fold_left].
        fold (image pre lo y). unfold loadable at 1. rewrite Hty. cbn [andb].
        replace (in_range (copyto + hhdm k + (virtual_address x - lo)) (size_in_file x) (copyto + hhdm k + y))
          with (in_range (virtual_address x - lo) (size_in_file x) y) by (unfold in_range; lia).
        destruct (in_range _ _ y); [f_equal; lia|done].
    + rewrite bind_ret. destruct (IH (pre ++ [x]) k Hhs' Hok Hlo Hb0 Hb1) as (k' & E & Hc & Hout & Hin').
      exists k'. split_and!; [done|done|done|]. intros y Hy Hy'. apply Hin'; [done|]. rewrite Hy'.
      unfold image. rewrite fold_left_app. cbn [fold_left]. unfold loadable at 2. by rewrite Hty.
Qed.
End Image.

(** ** Theorems *)

(** A program the linker lays out from [lo] to [hi]: the segments of the file
    are inside, the lowest starts at [lo] and the highest ends at [hi]. *)
Record program (buffer : list Z) (hs : list elf_program_header) (lo hi : Z) : Prop := {
  prog_segments : segments_ok buffer hs lo (hi - lo);
  prog_some : exists h, h ∈ hs /\ loadable h = true /\ 0 < virtual_address h;
  prog_lowest i h : extreme Z.le hs i h -> virtual_address h = lo;
  prog_highest i h : extreme Z.ge hs i h -> virtual_address h + size_in_memory h = hi;
  prog_range : 0 <= lo < hi /\ hi + 4096 < 2 ^ 64
}.

Definition pages_of (lo hi : Z) : Z := (hi - lo + 4095) / 4096.

Lemma page_count lo hi : 0 <= lo < hi -> hi + 4096 < 2 ^ 64 ->
  PAGE_ALIGN_UP (u64 (u64 hi - lo)) / 4096 = pages_of lo hi /\ 1 <= pages_of lo hi < 2 ^ 64 /\
  hi - lo <= pages_of lo hi * 4096.
Proof.
  intros Hl Hh. unfold pages_of, PAGE_ALIGN_UP. rewrite (u64_small hi), (u64_small (hi - lo)), (u64_small (_ + 4095)) by lia.
  rewrite u64_small by divlia. split_and!; divlia.
Qed.

(** What [load_segments] leaves: the pages hold the image, and blocks in use
    before are untouched. *)
Lemma load_segments_spec buffer table hs lo hi k :
  wf_pmm k -> headers buffer table hs -> program buffer hs lo hi ->
  load_segments buffer table (Zlen hs) k = Halted \/
  exists f l copyto k', load_segments buffer table (Zlen hs) k = Ok ((f, l, copyto, pages_of lo hi), k') /\
    virtual_address f = lo /\ virtual_address l + size_in_memory l = hi /\
    wf_pmm k' /\ same_config k k' /\ block_ok k' (copyto, pages_of lo hi) /\
    (forall x, 0 <= x < pages_of lo hi * 4096 -> mem k' (copyto + hhdm k' + x) = image buffer hs lo x) /\
    (forall c, block_ok k c -> block_ok k' c /\ agree (mem k') (mem k) (fst c + hhdm k) (snd c * 4096)).
Proof.
  intros Hwf Hh [Hseg Hsome Hlow Hhigh [Hlo Hhi]]. unfold load_segments. rewrite Zlen_to_nat.
  destruct (first_loop_spec buffer table hs [] hs 0 0 true Hh eq_refl) as (i & f & Ef & Hf); [set_solver|naive_solver|].
  destruct (last_loop_spec buffer table hs [] hs 0 0 Hh eq_refl) as (j & l & El & Hl); [left; set_solver|done|].
  unfold first_loadable_segment, last_loadable_segment. rewrite Zlen_to_nat.
  rewrite (bind_lift _ _ _ _ Ef), (bind_lift _ f) by (destruct Hf as (? & ? & _); by eapply program_header_run).
  rewrite (bind_lift _ _ _ _ El), (bind_lift _ l) by (destruct Hl as (? & ? & _); by eapply program_header_run).
  cbv zeta. rewrite (Hlow i f Hf), (Hhigh j l Hl). destruct (page_count lo hi Hlo Hhi) as (-> & Hn & Hfit).
  set (n := pages_of lo hi) in *.
  destruct (kmalloc_spec k n Hwf Hn) as [(a & e & p & Hr & E)|[E _]]; [right|left; unfold bind at 1; by rewrite E].
  rewrite (bind_run _ _ _ _ _ E). pose proof (after_alloc_post k a e p n Hwf ltac:(lia) Hr) as Hp.
  set (k1 := after_alloc k e p n) in *. clearbody k1. pose proof (post_config _ _ _ _ _ _ Hp) as Hc.
  pose proof (wf_same_config _ _ Hc Hwf) as Hwf1. pose proof Hc as (_ & Hh1 & _).
  pose proof (block_ok_new k a e p n k1 Hwf ltac:(lia) Hp) as Hb.
  destruct (block_space k1 _ Hwf1 Hb) as (H0 & H1 & _). cbn [fst snd] in H0, H1.
  assert (segments_ok buffer hs lo (n * 4096)) as Hseg'.
  { intros h Hin Hld. specialize (Hseg h Hin Hld). lia. }
  destruct (load_loop_spec buffer table hs [] hs lo (n * 4096) (page_addr e p) k1 Hh eq_refl Hseg')
    as (k' & E' & Hc' & Hout & Hin); [lia|lia|lia|].
  rewrite Zlen_nil in E'. rewrite (bind_run _ _ _ _ _ E'). exists f, l, (page_addr e p), k'.
  pose proof Hc' as (_ & Hh2 & _).
  assert (forall c, block_ok k1 c -> block_ok k' c) as Hkeep.
  { intros c Hcb. apply (block_ok_frame k1 k' (page_addr e p, n) c Hwf1 Hc' Hb Hcb).
    intros x Hx. cbn [fst snd] in Hx. apply Hout. lia. }
  split_and!; [done|by eapply Hlow|by eapply Hhigh|by eapply wf_same_config|by eapply same_config_trans|by apply Hkeep| |].
  - intros x Hx. rewrite Hh2. apply Hin; [done|]. unfold image. cbn [fold_left].
    apply (post_zero _ _ _ _ _ _ Hp). lia.
  - intros c Hcb. split; [apply Hkeep, (block_ok_alloc k a e p n k1 c Hwf Hp Hcb)|].
    destruct (block_alloc_frame k a e p n k1 c Hwf ltac:(lia) Hp Hcb) as [Hag Hdis].
    intros x Hx. rewrite Hout; [by apply Hag|]. unfold disjoint in Hdis. lia.
Qed.

(** C20: [spawn] loads its program.  On a file whose loadable segments lie between
    [lo] and [hi], the part of [spawn] that copies them halts for want of pages
    or leaves in pages of their own exactly the image of the program: the
    file's bytes at their addresses and zeros in between and behind (the .bss),
    with all blocks in use untouched.  Whatever happens to the other memory
    until [map_pages] is called with these pages on the tree of the new task, in
    the lower half of the address space, reading through that tree at an
    address [a] of the pages then gives the byte [a - lo + lo mod 4096] of the
    image: the program's byte at [a] where its lowest segment starts at a page
    boundary.  Where it does not, every address reads the byte [lo mod 4096]
    further on, because the code maps from the start of the page what it has
    copied to the start of the pages. *)
Theorem spawn_loads_program buffer table hs lo hi k :
  wf_pmm k -> headers buffer table hs -> program buffer hs lo hi ->
  load_segments buffer table (Zlen hs) k = Halted \/
  exists f l copyto k', load_segments buffer table (Zlen hs) k = Ok ((f, l, copyto, pages_of lo hi), k') /\
    virtual_address f = lo /\ virtual_address l + size_in_memory l = hi /\
    block_ok k' (copyto, pages_of lo hi) /\
    (forall c, block_ok k c -> block_ok k' c /\ agree (mem k') (mem k) (fst c + hhdm k) (snd c * 4096)) /\
    forall k2 root T,
      lo - lo mod 4096 + pages_of lo hi * 4096 <= 2 ^ 47 ->
      pt_inv k2 root T -> hhdm k2 = hhdm k' -> copyto mod 4096 = 0 ->
      block_ok k2 (copyto, pages_of lo hi) ->
      agree (mem k2) (mem k') (copyto + hhdm k') (pages_of lo hi * 4096) ->
      (forall x b, T !! x = Some b -> disjoint b 4096 (copyto + hhdm k') (pages_of lo hi * 4096)) ->
      map_pages root lo copyto (pages_of lo hi) 7 k2 = Halted \/
      exists k3 T', map_pages root lo copyto (pages_of lo hi) 7 k2 = Ok (tt, k3) /\ pt_inv k3 root T' /\
        forall a, lo - lo mod 4096 <= a < lo - lo mod 4096 + pages_of lo hi * 4096 ->
          mem k3 (virt_to_phys root a k3 + hhdm k3) = image buffer hs lo (a - lo + lo mod 4096).
Proof.
  intros Hwf Hh Hprog. pose proof Hprog as [_ _ _ _ [Hlo Hhi]]. destruct (page_count lo hi Hlo Hhi) as (_ & Hn & _).
  destruct (load_segments_spec buffer table hs lo hi k Hwf Hh Hprog)
    as [E|(f & l & copyto & k' & E & Hf & Hl & Hwf' & Hc & Hb & Himg & Hkeep)]; [by left|right].
  exists f, l, copyto, k'. split_and!; try done.
  intros k2 root T Htop Hinv Hhh Hca Hb2 Hag Hdis. set (n := pages_of lo hi) in *.
  destruct (block_space k' _ Hwf' Hb) as (H0 & H1 & _). cbn [fst snd] in H0, H1.
  assert (0 <= copyto) as Hc0.
  { destruct Hb as (i & e & p & Hi & Hu & Hp & _ & _ & Hfst & _). cbn [fst] in Hfst.
    destruct (wf_entry _ Hwf' i e Hi Hu). unfold page_addr in *. lia. }
  pose proof (wf_hhdm _ Hwf') as Hhd.
  destruct (map_pages_spec 7 (page_of lo) copyto n ltac:(lia) Hc0 ltac:(lia) k2 root T lo Hinv ltac:(lia) eq_refl ltac:(lia))
    as [E2|(k3 & T' & E2 & Hinv' & Hext & _ & HA & _)]; [by left|right].
  exists k3, T'. split_and!; [done|done|]. intros a Ha. set (base := lo - lo mod 4096) in *.
  assert (base mod 4096 = 0 /\ 0 <= base) as [Hal Hb0] by (unfold base; divlia).
  set (x := a - lo + lo mod 4096). replace a with (base + x) by (unfold base, x; lia). assert (0 <= x < n * 4096) as Hx by (unfold base, x in *; lia).
  assert (page_of base = page_of lo) as Hpb by (unfold page_of, base; rewrite !Z.mod_small by divlia; divlia).
  pose proof (ext_config _ _ _ _ Hext) as (_ & Hh3 & _).
  assert (page_of (base + x) = page_of lo + x / 4096 /\ (base + x) mod 4096 = x mod 4096) as [Hpx Hmx].
  { rewrite <- Hpb. unfold page_of. rewrite !Z.mod_small by lia. clearbody base x. divlia. }
  clearbody base x. rewrite (translate_mapped k3 root T' (base + x) (copyto + x / 4096 * 4096) 7); [|done|lia| |divlia|divlia|lia].
  2:{ rewrite (HA (page_of (base + x))) by divlia. unfold map_entry. rewrite Hpx. do 2 f_equal. lia. }
  replace (copyto + x / 4096 * 4096 + (base + x) mod 4096 + hhdm k3) with (copyto + hhdm k' + x) by divlia.
  transitivity (mem k2 (copyto + hhdm k' + x)); [|by rewrite Hag by lia; apply Himg].
  apply (ext_frame _ _ _ _ Hext _ Hb2); cbn [fst snd]; rewrite Hhh; [done|lia].
Qed.

(** ** Example: a program of one segment *)

Definition demo_program : list Z :=
  replicate 64 0 ++
  [1; 0; 0; 0; 5; 0; 0; 0; 120; 0; 0; 0; 0; 0; 0; 0; 0; 0; 64; 0; 0; 0; 0; 0; 0; 0; 0; 0; 0; 0; 0; 0;
   3; 0; 0; 0; 0; 0; 0; 0; 5; 0; 0; 0; 0; 0; 0; 0; 0; 16; 0; 0; 0; 0; 0; 0] ++ [7; 8; 9].
Definition demo_segment : elf_program_header :=
  {| ph_type := 1; ph_offset := 120; virtual_address := 0x400000; size_in_file := 3; size_in_memory := 5 |}.

Lemma demo_headers : headers demo_program 64 [demo_segment].
Proof. intros [|i] h Hi; [|done]. injection Hi as <-. by vm_compute. Qed.

Lemma demo_program_ok : program demo_program [demo_segment] 0x400000 0x400005.
Proof.
  assert (forall h, h ∈ [demo_segment] -> h = demo_segment) as H by set_solver.
  assert (forall R i h, extreme R [demo_segment] i h -> h = demo_segment) as Hx.
  { intros R i h (_ & E & _). apply H. by eapply list_elem_of_lookup_2. }
  split; [| | | |lia].
  - intros h -> %H _. vm_compute. repeat split; discriminate.
  - exists demo_segment. split; [by constructor|done].
  - by intros i h -> %Hx.
  - by intros i h -> %Hx.
Qed.

Lemma demo_load_steps :
  exists k' root k2 k3,
    load_segments demo_program 64 1 small_kernel = Ok ((demo_segment, demo_segment, 65536 + 4096, 1), k') /\
    new_root k' = Ok (root, k2) /\ map_pages root 0x400000 (65536 + 4096) 1 7 k2 = Ok (tt, k3).
Proof.
  destruct (value_of_some ((let* r := load_segments demo_program 64 1 in
      let* root := new_root in map_pages root 0x400000 (65536 + 4096) 1 7 ;;; ret r) small_kernel)
    (demo_segment, demo_segment, 65536 + 4096, 1)) as [k4 E4]; [vm_compute; reflexivity|].
  apply bind_ok in E4 as (r & k' & E & E4). apply bind_ok in E4 as (root & k2 & Er & E4).
  apply bind_ok in E4 as ([] & k3 & Em & [= -> _]). by exists k', root, k2, k3.
Qed.

Lemma spawn_loads_program_witness :
  exists copyto k' k2 root k3, load_segments demo_program 64 1 small_kernel =
      Ok ((demo_segment, demo_segment, copyto, 1), k') /\
    new_root k' = Ok (root, k2) /\ map_pages root 0x400000 copyto 1 7 k2 = Ok (tt, k3) /\
    forall a, 0x400000 - 0x400000 mod 4096 <= a < 0x400000 - 0x400000 mod 4096 + 1 * 4096 ->
      mem k3 (virt_to_phys root a k3 + hhdm k3) = image demo_program [demo_segment] 0x400000 (a - 0x400000 + 0x400000 mod 4096).
Proof.
  destruct demo_load_steps as (k' & root & k2 & k3 & E & Er & Em).
  assert (pages_of 0x400000 0x400005 = 1) as Hpg by (vm_compute; reflexivity).
  assert (Zlen [demo_segment] = 1) as Hln by (vm_compute; reflexivity).
  destruct (load_segments_spec demo_program 64 [demo_segment] 0x400000 0x400005 small_kernel small_kernel_wf
    demo_headers demo_program_ok) as [E1|(f1 & l1 & c1 & k1 & E1 & _ & _ & Hwf & Hc & Hb & _)];
    rewrite Hln, E in E1; [discriminate E1|].
  injection E1 as <- <- <- <-. rewrite Hpg in *.
  assert (aligned k') as Hal by (intros i e; destruct Hc as (-> & _); apply small_kernel_aligned).
  destruct (new_root_spec k' Hwf Hal) as [E2|(root2 & k2' & E2 & Hinv & Hc2 & _ & Hkeep)]; rewrite Er in E2; [discriminate E2|].
  injection E2 as <- <-. destruct (Hkeep _ Hb) as (Hb2 & Hag & Hdis). cbn [fst snd] in Hag, Hdis.
  destruct (spawn_loads_program demo_program 64 [demo_segment] 0x400000 0x400005 small_kernel small_kernel_wf
    demo_headers demo_program_ok) as [E1|(f1 & l1 & c1 & k1 & E1 & _ & _ & _ & _ & Hmap)];
    rewrite Hln, E in E1; [discriminate E1|].
  injection E1 as <- <- <- <-. rewrite Hpg in *.
  destruct (Hmap k2 root {[(0, 0) := root]}) as [E3|(k3' & T' & E3 & _ & Hx)]; try done; try lia.
  - by destruct Hc2 as (_ & -> & _).
  - intros y b [_ <-]%lookup_singleton_Some. exact Hdis.
  - rewrite Em in E3. discriminate E3.
  - rewrite Em in E3. injection E3 as <-. exists (65536 + 4096), k', k2, root, k3. by split_and!.
Defined.
