(* ===== verification/Apic.v ===== *)
(** * drivers/apic.c, drivers/pit.c and drivers/acpi.c: the interrupt controller

    The devices are behind memory-mapped registers and ports.  What they are is
    not code of the kernel: [Hardware] gives them as an abstract state with
    register accesses, [ApicLaws] states what the manuals of the I/O APIC and of
    the local APIC promise about it.  Firmware tables are arrays of bytes. *)
From S2P Require Import Prelude Memory PMM Paging Strings Bits Descriptors.

(** ** The hardware *)

Class Hardware := {
  hw : Type;
  (** 32-bit registers at an address, and the ports. *)
  mmio_read : Z -> hw -> Z;
  mmio_write : Z -> Z -> hw -> hw;
  port_write : Z -> Z -> hw -> hw;
  (** What the devices do by themselves while the processor waits. *)
  elapse : hw -> hw;
  (** Interrupts of the pin [n] of the I/O APIC reach the processor. *)
  pin_enabled : Z -> hw -> bool;
  (** The word [edx] of [cpuid(1)]. *)
  cpuid_features : Z
}.

Definition LAPIC_ID_REGISTER : Z := 0x020.
Definition LAPIC_SPURIOUS_INTERRUPT_VECTOR_REGISTER : Z := 0x0f0.
Definition LAPIC_DESTINATION_FORMAT_REGISTER : Z := 0x0e0.
Definition LAPIC_TASK_PRIORITY_REGISTER : Z := 0x080.
Definition LAPIC_END_OF_INTERRUPT_REGISTER : Z := 0x0b0.
Definition LAPIC_TIMER_DIVIDER_REGISTER : Z := 0x3e0.
Definition LAPIC_TIMER_INITIAL_COUNT_REGISTER : Z := 0x380.
Definition LAPIC_TIMER_CURRENT_COUNT_REGISTER : Z := 0x390.
Definition LAPIC_TIMER_LVT_REGISTER : Z := 0x320.

(** The fields of [IOApic] the code uses. *)
Record IOApic := MkIOApic { ioapic_id : Z; ioapic_addr : Z; global_system_interrupt_base : Z }.

Section Code.
Context `{Hardware}.

(** The fields of [kernel] used here, the interrupt flag of the processor and the
    devices. *)
Record Apic := MkApic {
  kernel : Kernel; cr3 : Z; rsdt : Z; lapic_addr : Z; ioapic_device : IOApic; kernel_ioapic_addr : Z;
  pit_counter : Z; current_cpu_lock : bool; interrupts : bool; device : hw
}.

Definition set_kernel (k : Kernel) (s : Apic) : Apic :=
  MkApic k (cr3 s) (rsdt s) (lapic_addr s) (ioapic_device s) (kernel_ioapic_addr s) (pit_counter s)
    (current_cpu_lock s) (interrupts s) (device s).
Definition set_rsdt (a : Z) (s : Apic) : Apic :=
  MkApic (kernel s) (cr3 s) a (lapic_addr s) (ioapic_device s) (kernel_ioapic_addr s) (pit_counter s)
    (current_cpu_lock s) (interrupts s) (device s).
Definition set_lapic_addr (a : Z) (s : Apic) : Apic :=
  MkApic (kernel s) (cr3 s) (rsdt s) a (ioapic_device s) (kernel_ioapic_addr s) (pit_counter s)
    (current_cpu_lock s) (interrupts s) (device s).
Definition set_ioapic (d : IOApic) (s : Apic) : Apic :=
  MkApic (kernel s) (cr3 s) (rsdt s) (lapic_addr s) d (ioapic_addr d) (pit_counter s)
    (current_cpu_lock s) (interrupts s) (device s).
Definition set_pit_counter (c : Z) (s : Apic) : Apic :=
  MkApic (kernel s) (cr3 s) (rsdt s) (lapic_addr s) (ioapic_device s) (kernel_ioapic_addr s) c
    (current_cpu_lock s) (interrupts s) (device s).
Definition set_current_cpu_lock (b : bool) (s : Apic) : Apic :=
  MkApic (kernel s) (cr3 s) (rsdt s) (lapic_addr s) (ioapic_device s) (kernel_ioapic_addr s) (pit_counter s)
    b (interrupts s) (device s).
Definition set_interrupts (b : bool) (s : Apic) : Apic :=
  MkApic (kernel s) (cr3 s) (rsdt s) (lapic_addr s) (ioapic_device s) (kernel_ioapic_addr s) (pit_counter s)
    (current_cpu_lock s) b (device s).
Definition set_device (f : hw -> hw) (s : Apic) : Apic :=
  MkApic (kernel s) (cr3 s) (rsdt s) (lapic_addr s) (ioapic_device s) (kernel_ioapic_addr s) (pit_counter s)
    (current_cpu_lock s) (interrupts s) (f (device s)).

Definition on_kernel {A} (c : M Kernel A) : M Apic A :=
  fun s => let+ (a, k) := c (kernel s) in Ok (a, set_kernel k s).
Definition outb (port val : Z) : M Apic unit := modify (set_device (port_write port val)).
Definition disable_interrupts : M Apic unit := modify (set_interrupts false).
Definition enable_interrupts : M Apic unit := modify (set_interrupts true).

Definition present_writable : Z := Z.lor KERNEL_PFLAG_PRESENT KERNEL_PFLAG_WRITE.

(** ** apic.c *)

Definition read_lapic (lapic_addr reg_offset : Z) : M Apic Z :=
  let* s := get in ret (mmio_read (u64 (lapic_addr + reg_offset)) (device s)).
Definition write_lapic (lapic_addr reg_offset val : Z) : M Apic unit :=
  modify (set_device (mmio_write (u64 (lapic_addr + reg_offset)) val)).

(** [ioapic[0]] selects the register that [ioapic[4]] is. *)
Definition read_ioapic (ioapic reg : Z) : M Apic Z :=
  modify (set_device (mmio_write ioapic (Z.land reg 0xff))) ;;;
  let* s := get in ret (mmio_read (ioapic + 16) (device s)).
Definition write_ioapic (ioapic reg value : Z) : M Apic unit :=
  modify (set_device (mmio_write ioapic (Z.land reg 0xff))) ;;;
  modify (set_device (mmio_write (ioapic + 16) value)).

Definition map_ioapic (vec irq lapic_id : Z) (polarity trigger : bool) : M Apic unit :=
  let* s := get in
  let ioapic := u64 (ioapic_addr (ioapic_device s) + hhdm (kernel s)) in
  let gsi_base := global_system_interrupt_base (ioapic_device s) in
  let entry_num := u32 (gsi_base + u32 (irq * 2)) in
  let reg0 := u32 (0x10 + entry_num) in
  let reg1 := u32 (0x11 + entry_num) in
  let* e := read_ioapic ioapic reg0 in
  let* _ := read_ioapic ioapic reg1 in
  let e := Z.lor (Z.land e (lnot_w 32 0xFF)) vec in
  let e := Z.land e (lnot_w 32 0x700) in
  let e := Z.land e (lnot_w 32 0x800) in
  let e := if polarity then Z.lor e 0x2000 else Z.land e (lnot_w 32 0x2000) in
  let e := if trigger then Z.lor e 0x8000 else Z.land e (lnot_w 32 0x8000) in
  let e := Z.land e (lnot_w 32 0x10000) in
  write_ioapic ioapic reg0 e ;;;
  write_ioapic ioapic reg1 (u32 (Z.shiftl (Z.land lapic_id 0xF) 28)).

(** [irq] is a [uint8_t]. *)
Definition mask_ioapic (irq lapic_id : Z) : M Apic unit :=
  let* s := get in
  let ioapic := u64 (ioapic_addr (ioapic_device s) + hhdm (kernel s)) in
  let entry_num := u32 (global_system_interrupt_base (ioapic_device s) + irq * 2) in
  let reg_num := u32 (0x10 + entry_num) in
  let* e := read_ioapic ioapic reg_num in
  write_ioapic ioapic reg_num (Z.lor e 0x10000).
Definition unmask_ioapic (irq lapic_id : Z) : M Apic unit :=
  let* s := get in
  let ioapic := u64 (ioapic_addr (ioapic_device s) + hhdm (kernel s)) in
  let entry_num := u32 (global_system_interrupt_base (ioapic_device s) + irq * 2) in
  let reg_num := u32 (0x10 + entry_num) in
  let* e := read_ioapic ioapic reg_num in
  write_ioapic ioapic reg_num (Z.land e (lnot_w 32 0x10000)).

Definition init_local_apic (lapic_addr : Z) : M Apic unit :=
  write_lapic lapic_addr LAPIC_TASK_PRIORITY_REGISTER 0 ;;;
  write_lapic lapic_addr LAPIC_DESTINATION_FORMAT_REGISTER 0xF0000000 ;;;
  write_lapic lapic_addr LAPIC_SPURIOUS_INTERRUPT_VECTOR_REGISTER (Z.lor 0xFF 0x100).

(** On one processor: a lock that is taken is waited for forever. *)
Definition get_current_processor : M Apic Z :=
  let* s := get in
  if current_cpu_lock s then fun _ => Spin
  else
    modify (set_current_cpu_lock true) ;;;
    let* id := read_lapic (lapic_addr s) LAPIC_ID_REGISTER in
    modify (set_current_cpu_lock false) ;;;
    ret (Z.shiftr id 24).

Definition lock_lapic_timer : M Apic unit :=
  let* s := get in
  let* v := read_lapic (lapic_addr s) LAPIC_TIMER_LVT_REGISTER in
  write_lapic (lapic_addr s) LAPIC_TIMER_LVT_REGISTER (Z.land v (lnot_w 32 0x20000)).
Definition unlock_lapic_timer : M Apic unit :=
  let* s := get in
  let* v := read_lapic (lapic_addr s) LAPIC_TIMER_LVT_REGISTER in
  write_lapic (lapic_addr s) LAPIC_TIMER_LVT_REGISTER (Z.lor v 0x20000).

Definition end_of_interrupt : M Apic unit :=
  let* s := get in
  write_lapic (lapic_addr s) LAPIC_END_OF_INTERRUPT_REGISTER 0 ;;;
  enable_interrupts.

(** ** pit.c *)

Definition pit_decrement_counter : M Apic unit :=
  modify (fun s => set_pit_counter (u64 (pit_counter s - 1)) s).

Definition unlock_pit : M Apic unit := unmask_ioapic 2 0.
Definition lock_pit : M Apic unit := mask_ioapic 2 0.

(** The calls of [timer_isr] (tasks/switch.asm) when no task is switched. *)
Definition timer_interrupt : M Apic unit := pit_decrement_counter ;;; end_of_interrupt.

(** The devices go on, and the PIT ticks [n] times: a tick interrupts the
    processor when it is let through. *)
Definition ticks (n : nat) : M Apic unit :=
  modify (set_device elapse) ;;;
  Nat.iter n (fun rest =>
    (let* s := get in if interrupts s && pin_enabled 2 (device s) then timer_interrupt else ret tt) ;;; rest) (ret tt).

(** [while (kernel.pit_counter > 0 && kernel.pit_counter <= ms) outb(0x80, 0)]:
    [schedule] is the number of ticks during each iteration; when it ends there
    are no more ticks.  The rest of the schedule is returned. *)
Fixpoint pit_wait_loop (schedule : list nat) (ms : Z) : M Apic (list nat) :=
  let* s := get in
  if (0 <? pit_counter s) && (pit_counter s <=? ms) then
    match schedule with
    | [] => fun _ => Spin
    | n :: schedule' => outb 0x80 0 ;;; ticks n ;;; pit_wait_loop schedule' ms
    end
  else ret schedule.
Definition pit_wait (schedule : list nat) (ms : Z) : M Apic (list nat) :=
  modify (set_pit_counter ms) ;;;
  unlock_pit ;;;
  enable_interrupts ;;;
  let* rest := pit_wait_loop schedule ms in
  disable_interrupts ;;;
  lock_pit ;;;
  ret rest.

Definition HERTZ_DIVIDER : Z := 1190.
(** [IDT] is [kernel.idtr.offset], [timer_isr] the address of the routine. *)
Definition init_PIT (IDT timer_isr : Z) : M Apic unit :=
  outb 0x43 52 ;;;
  outb 0x40 (Z.land HERTZ_DIVIDER 0xFF) ;;;
  outb 0x40 (Z.land (Z.shiftr HERTZ_DIVIDER 8) 0xFF) ;;;
  on_kernel (set_IDT_entry 32 timer_isr 0x8F IDT) ;;;
  map_ioapic 32 2 0 false false ;;;
  lock_pit.

(** In apic.c again: [num_ticks] of the timer per 10 ms. *)
Definition init_lapic_timer (schedule : list nat) : M Apic (list nat) :=
  let* s := get in
  let lapic_addr := lapic_addr s in
  write_lapic lapic_addr LAPIC_TIMER_INITIAL_COUNT_REGISTER 0 ;;;
  write_lapic lapic_addr LAPIC_TIMER_DIVIDER_REGISTER 3 ;;;
  write_lapic lapic_addr LAPIC_TIMER_INITIAL_COUNT_REGISTER 0xFFFFFFFF ;;;
  let* rest := pit_wait schedule 10 in
  let* current_count := read_lapic lapic_addr LAPIC_TIMER_CURRENT_COUNT_REGISTER in
  write_lapic lapic_addr LAPIC_TIMER_INITIAL_COUNT_REGISTER 0 ;;;
  let num_ticks := u32 (0xFFFFFFFF - current_count) in
  write_lapic lapic_addr LAPIC_TIMER_LVT_REGISTER (Z.lor 40 0x20000) ;;;
  write_lapic lapic_addr LAPIC_TIMER_DIVIDER_REGISTER 3 ;;;
  write_lapic lapic_addr LAPIC_TIMER_INITIAL_COUNT_REGISTER num_ticks ;;;
  ret rest.

(** ** acpi.c and the walk of the MADT *)

(** The firmware's tables: the bytes from an address to the end of the table. *)
Context (tables : Z -> list Z).

Definition sizeof_ISDTHeader : Z := 36.
Definition sizeof_MADT : Z := 44.
Definition LOCAL_APIC : Z := 0.
Definition IOAPIC : Z := 1.

Definition init_acpi (rsdp_table : Z) : M Apic unit :=
  let* s := get in
  let root := u64 (cr3 s + hhdm (kernel s)) in
  on_kernel (map_pages root rsdp_table (u64 (rsdp_table - hhdm (kernel s))) 1 KERNEL_PFLAG_PRESENT) ;;;
  let* revision := lift (rd (tables rsdp_table) 15) in
  if negb (revision =? 0) then halt
  else
    let* rsdt_address := lift (le_field 4 (tables rsdp_table) 16) in
    on_kernel (map_pages root (u64 (rsdt_address + hhdm (kernel s))) rsdt_address 1 KERNEL_PFLAG_PRESENT) ;;;
    modify (set_rsdt (u64 (rsdt_address + hhdm (kernel s)))).

(** [n] iterations from [i] on.  The function has no [return] behind its loop,
    and its caller uses the value. *)
Fixpoint find_MADT_loop (n : nat) (root_rsdt : list Z) (hhdm i : Z) : outcome Z :=
  match n with
  | O => Fault
  | S n' =>
      let+ entry := le_field 4 root_rsdt (sizeof_ISDTHeader + 4 * i) in
      let this_header := u64 (entry + hhdm) in
      let+ is_madt := ku_memcmp (tables this_header) [65; 80; 73; 67] 4 in
      if is_madt : bool then Ok this_header else find_MADT_loop n' root_rsdt hhdm (i + 1)
  end.
Definition find_MADT (root_rsdt : list Z) (hhdm : Z) : outcome Z :=
  let+ length := le_field 4 root_rsdt 4 in
  let num_entries := u64 (length - sizeof_ISDTHeader) / 4 in
  find_MADT_loop (Z.to_nat num_entries) root_rsdt hhdm 0.

Definition verify_apic : M Apic bool := ret (negb (Z.land cpuid_features (Z.shiftl 1 9) =? 0)).

Definition map_apic_into_task (task_cr3_phys : Z) : M Apic unit :=
  let* s := get in
  let root := u64 (task_cr3_phys + hhdm (kernel s)) in
  on_kernel (map_pages root (u64 (kernel_ioapic_addr s + hhdm (kernel s))) (kernel_ioapic_addr s) 1 present_writable) ;;;
  on_kernel (map_pages root (lapic_addr s) (u64 (lapic_addr s - hhdm (kernel s))) 1 present_writable).

(** The entry is at [incremented] of the table [madt]. *)
Fixpoint madt_loop (fuel : nat) (madt : list Z) (length incremented : Z) : M Apic unit :=
  if incremented <? length then
    match fuel with
    | O => fun _ => Spin
    | S fuel' =>
        let* s := get in
        let* entry_type := lift (rd madt incremented) in
        (if entry_type =? IOAPIC then
           let* id := lift (rd madt (incremented + 2)) in
           let* addr := lift (le_field 4 madt (incremented + 4)) in
           let* base := lift (le_field 4 madt (incremented + 8)) in
           on_kernel (map_pages (u64 (cr3 s + hhdm (kernel s))) (u64 (addr + hhdm (kernel s))) addr 1 present_writable) ;;;
           modify (set_ioapic (MkIOApic id addr base))
         else ret tt) ;;;
        let* record_length := lift (rd madt (incremented + 1)) in
        madt_loop fuel' madt length (u64 (incremented + record_length))
    end
  else ret tt.

Definition init_apic (fuel : nat) : M Apic unit :=
  let* ok := verify_apic in
  if negb ok then halt
  else
    outb 0x21 0xff ;;;
    outb 0xA1 0xff ;;;
    let* s := get in
    let* madt := lift (find_MADT (tables (rsdt s)) (hhdm (kernel s))) in
    let* local_apic_addr := lift (le_field 4 (tables madt) 36) in
    let lapic_registers_virt := u64 (local_apic_addr + hhdm (kernel s)) in
    on_kernel (map_pages (u64 (cr3 s + hhdm (kernel s))) lapic_registers_virt local_apic_addr 1 present_writable) ;;;
    modify (set_lapic_addr lapic_registers_virt) ;;;
    init_local_apic lapic_registers_virt ;;;
    let* length := lift (le_field 4 (tables madt) 4) in
    madt_loop fuel (tables madt) length sizeof_MADT.
End Code.

(** ** What the manuals promise

    The registers of the I/O APIC are reached through a select register at [io]
    and a window at [io + 16]; the registers 0x10 to 0x3F hold the redirection
    entries, two words each.  The local APIC has a register at every offset from
    [lapic]; the current count of its timer runs. *)

(** The bits of a redirection entry that can be written: in the low word not
    the delivery status (12), the remote IRR (14) and the reserved ones, in the
    high word the destination. *)
Definition writable (r i : Z) : bool :=
  if Z.even r then (i <=? 16) && negb (i =? 12) && negb (i =? 14) else 24 <=? i.

Definition redirection_register (r : Z) : Prop := 0x10 <= r < 0x40.

Definition lapic_offset (off : Z) : Prop := 0 <= off < 4096.

(** The bits of the registers of the local APIC that keep what is written. *)
Definition local_masks : list (Z * Z) :=
  [(LAPIC_TASK_PRIORITY_REGISTER, 0xFF); (LAPIC_SPURIOUS_INTERRUPT_VECTOR_REGISTER, 0x1FF);
   (LAPIC_TIMER_DIVIDER_REGISTER, 0xB); (LAPIC_TIMER_INITIAL_COUNT_REGISTER, 0xFFFFFFFF);
   (LAPIC_TIMER_LVT_REGISTER, 0x300FF)].

Class ApicLaws `{Hardware} (io lapic : Z) := {
  selected : hw -> Z;
  io_register : hw -> Z -> Z;
  local : hw -> Z -> Z;
  io_register_range h r : 0 <= io_register h r < 2 ^ 32;
  select_selected v h : selected (mmio_write io v h) = v;
  select_register v h r : io_register (mmio_write io v h) r = io_register h r;
  window_read h : mmio_read (io + 16) h = io_register h (selected h);
  window_other v h r : r <> selected h -> io_register (mmio_write (io + 16) v h) r = io_register h r;
  window_write v h i : redirection_register (selected h) -> 0 <= i < 32 ->
    Z.testbit (io_register (mmio_write (io + 16) v h) (selected h)) i =
      if writable (selected h) i then Z.testbit v i else Z.testbit (io_register h (selected h)) i;
  (** A pin is enabled when its entry is not masked. *)
  pin_enabled_iff n h : pin_enabled n h = negb (Z.testbit (io_register h (0x10 + 2 * n)) 16);
  local_read off h : lapic_offset off -> mmio_read (u64 (lapic + off)) h = local h off;
  local_write off mask v h : (off, mask) ∈ local_masks -> Z.land v mask = v ->
    local (mmio_write (u64 (lapic + off)) v h) off = v;
  local_write_other off off' v h : lapic_offset off -> lapic_offset off' -> off <> off' ->
    off' <> LAPIC_TIMER_CURRENT_COUNT_REGISTER -> local (mmio_write (u64 (lapic + off)) v h) off' = local h off';
  (** The devices are apart, and the ports are neither. *)
  local_write_io off v h r : lapic_offset off -> io_register (mmio_write (u64 (lapic + off)) v h) r = io_register h r;
  select_local v h off : lapic_offset off -> local (mmio_write io v h) off = local h off;
  window_local v h off : lapic_offset off -> local (mmio_write (io + 16) v h) off = local h off;
  port_io p v h r : io_register (port_write p v h) r = io_register h r;
  port_local p v h off : local (port_write p v h) off = local h off;
  elapse_io h r : io_register (elapse h) r = io_register h r;
  elapse_local h off : off <> LAPIC_TIMER_CURRENT_COUNT_REGISTER -> local (elapse h) off = local h off
}.

(** A redirection entry, by its fields. *)
Record Redirection := MkRedirection {
  vector : Z; delivery_mode : Z; logical : bool; active_low : bool; level : bool; masked : bool; destination : Z
}.
Definition redirection_of (low high : Z) : Redirection :=
  MkRedirection (field low 0 8) (field low 8 3) (Z.testbit low 11) (Z.testbit low 13) (Z.testbit low 15)
    (Z.testbit low 16) (field high 24 8).

(** ** Words of a redirection entry *)

Lemma below_32 (P : Z -> Prop) : (forall i, i ∈ seqZ 0 32 -> P i) -> forall i, 0 <= i < 32 -> P i.
Proof. intros HP i Hi. apply HP, elem_of_seqZ. lia. Qed.

Ltac each_bit :=
  apply below_32; let l := eval vm_compute in (seqZ 0 32) in change (seqZ 0 32) with l;
  let i := fresh "i" in let Hi := fresh "Hi" in intros i Hi;
  repeat (apply elem_of_cons in Hi as [->|Hi]); [..|by apply not_elem_of_nil in Hi].

(** The low word [map_ioapic] writes. *)
Definition low_word (e vec : Z) (polarity trigger : bool) : Z :=
  let e := Z.lor (Z.land e (lnot_w 32 0xFF)) vec in
  let e := Z.land e (lnot_w 32 0x700) in
  let e := Z.land e (lnot_w 32 0x800) in
  let e := if polarity then Z.lor e 0x2000 else Z.land e (lnot_w 32 0x2000) in
  let e := if trigger then Z.lor e 0x8000 else Z.land e (lnot_w 32 0x8000) in
  Z.land e (lnot_w 32 0x10000).

Definition low_bit (e vec : Z) (polarity trigger : bool) (i : Z) : bool :=
  if i <? 8 then Z.testbit vec i
  else if i <? 12 then false
  else if i =? 13 then polarity
  else if i =? 15 then trigger
  else if i =? 16 then false
  else Z.testbit e i.

Ltac const_bits :=
  repeat match goal with
    | |- context [Z.testbit ?c ?n] =>
        let b := eval vm_compute in (Z.testbit c n) in
        lazymatch b with true => idtac | false => idtac end; change (Z.testbit c n) with b
    end.
Ltac word_bits := repeat first [rewrite Z.land_spec | rewrite Z.lor_spec]; const_bits;
  rewrite ?andb_true_r, ?andb_false_r, ?orb_false_r, ?orb_true_r; try reflexivity.

Lemma low_word_bits e vec polarity trigger :
  0 <= vec < 2 ^ 8 -> forall i, 0 <= i < 32 -> Z.testbit (low_word e vec polarity trigger) i = low_bit e vec polarity trigger i.
Proof.
  intros Hvec. each_bit; unfold low_word; cbv zeta; destruct polarity, trigger; word_bits;
    rewrite (testbit_high vec 8) by lia; rewrite ?orb_false_r; reflexivity.
Qed.

Section Theory.
Context `{ApicLaws io lapic}.

(** The registers of the I/O APIC of the state. *)
Definition registers (s : Apic) (r : Z) : Z := io_register (device s) r.
(** The kernel's pointers lead to the devices. *)
Definition connected (s : Apic) : Prop :=
  u64 (ioapic_addr (ioapic_device s) + hhdm (kernel s)) = io /\ lapic_addr s = lapic.
Definition entry_at_pin (s : Apic) (n : Z) : Redirection :=
  redirection_of (registers s (0x10 + 2 * n)) (registers s (0x11 + 2 * n)).

(** [s'] is [s] but for the devices, of which the registers of the local APIC
    are as they were, and those of the I/O APIC outside [R]. *)
Record io_step (R : Z -> Prop) (s s' : Apic) : Prop := {
  step_same : exists f, s' = set_device f s;
  step_other r : ~ R r -> registers s' r = registers s r;
  step_local off : lapic_offset off -> local (device s') off = local (device s) off
}.

Lemma io_step_trans R s1 s2 s3 : io_step R s1 s2 -> io_step R s2 s3 -> io_step R s1 s3.
Proof using.
  intros [[f ->] A2 A3] [[g ->] B2 B3]. split.
  - by exists (fun h => g (f h)).
  - intros r Hr. by rewrite B2, A2.
  - intros off Hoff. by rewrite B3, A3.
Qed.

Lemma io_step_weaken (R R' : Z -> Prop) s s' : (forall r, R r -> R' r) -> io_step R s s' -> io_step R' s s'.
Proof using. intros HR [H1 H2 H3]. split; auto. Qed.

Lemma read_ioapic_run s r :
  0 <= r < 256 -> exists s', read_ioapic io r s = Ok (registers s r, s') /\ io_step (fun _ => False) s s'.
Proof using lapic.
  intros Hr. unfold read_ioapic. rewrite bind_modify, bind_get. eexists. split.
  - unfold ret. rewrite window_read. cbn [device set_device]. rewrite select_selected, select_register.
    change 0xff with (Z.ones 8). rewrite Z.land_ones, Z.mod_small by lia. reflexivity.
  - split; [by eexists| |]; intros; [apply select_register|by apply select_local].
Qed.

Lemma write_ioapic_run s r v :
  redirection_register r ->
  exists s', write_ioapic io r v s = Ok (tt, s') /\ io_step (fun q => q = r) s s' /\
    forall i, 0 <= i < 32 ->
      Z.testbit (registers s' r) i = if writable r i then Z.testbit v i else Z.testbit (registers s r) i.
Proof using lapic.
  intros Hr. unfold redirection_register in Hr. unfold write_ioapic. rewrite bind_modify.
  change 0xff with (Z.ones 8). rewrite Z.land_ones, Z.mod_small by lia.
  eexists. split; [reflexivity|]. split; [split|].
  - by exists (fun h => mmio_write (io + 16) v (mmio_write io r h)).
  - intros q Hq. unfold registers. cbn [device set_device].
    rewrite window_other by (by rewrite select_selected). apply select_register.
  - intros off Hoff. cbn [device set_device]. by rewrite window_local, select_local.
  - intros i Hi. unfold registers. cbn [device set_device].
    pose proof (window_write v (mmio_write io r (device s)) i) as Hw.
    rewrite select_selected in Hw. rewrite Hw by done. by rewrite select_register.
Qed.

(** A register is known by its 32 bits. *)
Lemma register_bits s s' r r' :
  (forall i, 0 <= i < 32 -> Z.testbit (registers s r) i = Z.testbit (registers s' r') i) ->
  registers s r = registers s' r'.
Proof using.
  intros Hb. apply Z.bits_inj'. intros n Hn. destruct (Z_lt_le_dec n 32); [apply Hb; lia|].
  rewrite !(testbit_high _ 32 n) by (lia || apply io_register_range). done.
Qed.

Lemma word_range x : 0 <= Z.land x (Z.ones 32) < 2 ^ 32.
Proof using. rewrite Z.land_ones by lia. by apply Z.mod_pos_bound. Qed.

(** The even register of an entry after writing [v] to it. *)
Lemma write_low_run s r v :
  redirection_register r -> Z.even r = true ->
  (forall i, 17 <= i < 32 -> Z.testbit v i = Z.testbit (registers s r) i) ->
  exists s', write_ioapic io r v s = Ok (tt, s') /\ io_step (fun q => q = r) s s' /\
    forall i, 0 <= i < 32 -> i <> 12 -> i <> 14 -> Z.testbit (registers s' r) i = Z.testbit v i.
Proof using lapic.
  intros Hr Hev Hv. destruct (write_ioapic_run s r v Hr) as (s' & E & Hs & Hb). exists s'. split_and!; [done..|].
  intros i Hi H12 H14. rewrite Hb by done. unfold writable. rewrite Hev.
  destruct (Z.leb_spec i 16); [|cbn [andb]; symmetry; apply Hv; lia].
  destruct (Z.eqb_spec i 12), (Z.eqb_spec i 14); done || lia.
Qed.

Lemma pin_registers s irq :
  0 <= irq < 24 -> global_system_interrupt_base (ioapic_device s) = 0 ->
  u32 (0x10 + u32 (global_system_interrupt_base (ioapic_device s) + irq * 2)) = 0x10 + 2 * irq.
Proof using. intros Hirq ->. rewrite Z.add_0_l, (u32_small (irq * 2)) by lia. rewrite u32_small by lia. lia. Qed.

Definition mask_bit (b : bool) (e : Z) : Z := if b then Z.lor e 0x10000 else Z.land e (lnot_w 32 0x10000).

Lemma mask_bit_spec b e i : 0 <= i < 32 -> Z.testbit (mask_bit b e) i = if i =? 16 then b else Z.testbit e i.
Proof using. revert i. unfold mask_bit. each_bit; destruct b; word_bits. Qed.

(** [mask_ioapic] and [unmask_ioapic] change the mask bit of the pin only. *)
Lemma set_mask_run (b : bool) irq lapic_id s :
  connected s -> 0 <= irq < 24 -> global_system_interrupt_base (ioapic_device s) = 0 ->
  exists s', (if b then mask_ioapic irq lapic_id else unmask_ioapic irq lapic_id) s = Ok (tt, s') /\
    io_step (fun q => q = 0x10 + 2 * irq) s s' /\
    registers s' (0x10 + 2 * irq) = mask_bit b (registers s (0x10 + 2 * irq)).
Proof using.
  intros [Hio Hla] Hirq Hbase. set (r := 0x10 + 2 * irq).
  assert (Z.even r = true) as Hev by (unfold r; rewrite Z.even_add_mul_2; done).
  destruct (read_ioapic_run s r ltac:(unfold r; lia)) as (s1 & E1 & Hs1).
  assert (registers s1 r = registers s r) as Hr1 by (apply (step_other _ _ _ Hs1); tauto).
  destruct (write_ioapic_run s1 r (mask_bit b (registers s r)) ltac:(unfold redirection_register, r; lia))
    as (s2 & E2 & Hs2 & Hb).
  exists s2. split; [|split].
  - unfold mask_ioapic, unmask_ioapic. destruct b; rewrite bind_get; cbv zeta; rewrite Hio, pin_registers by done; fold r;
      rewrite (bind_run _ _ _ _ _ E1); exact E2.
  - eapply io_step_trans; [eapply io_step_weaken; [|exact Hs1]; tauto|exact Hs2].
  - apply Z.bits_inj'. intros i Hi. destruct (Z_lt_le_dec i 32).
    + rewrite Hb, Hr1, mask_bit_spec by lia. unfold writable. rewrite Hev. case_bool.
    + assert (0 <= mask_bit b (registers s r) < 2 ^ 32) as Hm.
      { pose proof (io_register_range (device s) r) as Hreg. fold (registers s r) in Hreg.
        assert (mask_bit b (registers s r) = Z.land (mask_bit b (registers s r)) (Z.ones 32)) as ->; [|apply word_range].
        apply Z.bits_inj'. intros n Hn. rewrite land_mask_bits by lia. destruct (Z.ltb_spec n 32); [done|].
        unfold mask_bit. destruct b; [rewrite Z.lor_spec, (testbit_high 0x10000 32) by lia; rewrite orb_false_r|rewrite Z.land_spec];
          rewrite (testbit_high (registers s r) 32) by lia; done. }
      rewrite !(testbit_high _ 32 i) by (done || lia || apply io_register_range). done.
Qed.

(** The two registers of the entry, bit by bit. *)
Lemma map_ioapic_run vec irq lapic_id (polarity trigger : bool) s :
  connected s -> 0 <= irq < 24 -> global_system_interrupt_base (ioapic_device s) = 0 -> 0 <= vec < 2 ^ 8 ->
  exists s', map_ioapic vec irq lapic_id polarity trigger s = Ok (tt, s') /\
    io_step (fun r => r = 0x10 + 2 * irq \/ r = 0x11 + 2 * irq) s s' /\
    (forall i, 0 <= i < 32 -> Z.testbit (registers s' (0x10 + 2 * irq)) i =
      if (i =? 12) || (i =? 14) || (17 <=? i) then Z.testbit (registers s (0x10 + 2 * irq)) i
      else low_bit (registers s (0x10 + 2 * irq)) vec polarity trigger i) /\
    (forall i, 0 <= i < 32 -> Z.testbit (registers s' (0x11 + 2 * irq)) i =
      if 28 <=? i then Z.testbit (lapic_id mod 16) (i - 28) else if 24 <=? i then false
      else Z.testbit (registers s (0x11 + 2 * irq)) i).
Proof.
  intros [Hio Hla] Hirq Hbase Hvec. set (r0 := 0x10 + 2 * irq). set (r1 := 0x11 + 2 * irq).
  assert (Z.even r0 = true /\ Z.even r1 = false) as [He0 He1].
  { split; [unfold r0; by rewrite Z.even_add_mul_2|unfold r1; by rewrite Z.even_add_mul_2]. }
  assert (redirection_register r0 /\ redirection_register r1) as [Hr0 Hr1] by (unfold redirection_register, r0, r1; lia).
  destruct (read_ioapic_run s r0 ltac:(unfold r0; lia)) as (s1 & E1 & Hs1).
  destruct (read_ioapic_run s1 r1 ltac:(unfold r1; lia)) as (s2 & E2 & Hs2).
  set (low := low_word (registers s r0) vec polarity trigger). set (high := u32 (Z.shiftl (Z.land lapic_id 0xF) 28)).
  destruct (write_ioapic_run s2 r0 low Hr0) as (s3 & E3 & Hs3 & Hb3).
  destruct (write_ioapic_run s3 r1 high Hr1) as (s4 & E4 & Hs4 & Hb4).
  assert (io_step (fun _ => False) s s2) as Hs12 by (by eapply io_step_trans).
  assert (registers s2 r0 = registers s r0) as Er0 by (apply (step_other _ _ _ Hs12); tauto).
  assert (registers s3 r1 = registers s r1) as Er1.
  { rewrite (step_other _ _ _ Hs3) by (unfold r0, r1; lia). apply (step_other _ _ _ Hs12); tauto. }
  assert (registers s4 r0 = registers s3 r0) as Er4 by (apply (step_other _ _ _ Hs4); unfold r0, r1; lia).
  assert (forall i, 0 <= i < 32 -> Z.testbit (registers s4 r0) i =
    if (i =? 12) || (i =? 14) || (17 <=? i) then Z.testbit (registers s r0) i else low_bit (registers s r0) vec polarity trigger i) as Hlow.
  { intros i Hi. rewrite Er4, Hb3, Er0 by done. unfold low. rewrite low_word_bits by done. unfold writable. rewrite He0. case_bool. }
  assert (forall i, 0 <= i < 32 -> Z.testbit (registers s4 r1) i =
    if 28 <=? i then Z.testbit (lapic_id mod 16) (i - 28) else if 24 <=? i then false else Z.testbit (registers s r1) i) as Hhigh.
  { intros i Hi. rewrite Hb4, Er1 by done. unfold writable. rewrite He1. unfold high. change 0xF with (Z.ones 4).
    rewrite Z.land_ones by lia. change (2 ^ 4) with 16. rewrite u32_small.
    2:{ rewrite Z.shiftl_mul_pow2 by lia. pose proof (Z.mod_pos_bound lapic_id 16). lia. }
    rewrite shiftl_bits by lia. destruct (Z.leb_spec 24 i); [|by case_bool].
    destruct (Z.leb_spec 0 i), (Z.leb_spec 28 i); try lia. by rewrite Z.testbit_neg_r by lia. }
  exists s4. split; [|split; [|split; [exact Hlow|exact Hhigh]]].
  - unfold map_ioapic. rewrite bind_get. cbv zeta.
    rewrite Hio, Hbase, (u32_small (irq * 2)), (u32_small (0 + irq * 2)) by lia. rewrite !u32_small by lia.
    replace (16 + (0 + irq * 2)) with r0 by (unfold r0; lia). replace (17 + (0 + irq * 2)) with r1 by (unfold r1; lia).
    rewrite (bind_run _ _ _ _ _ E1), (bind_run _ _ _ _ _ E2).
    change (bind (write_ioapic io r0 low) (fun _ => write_ioapic io r1 high) s2 = Ok (tt, s4)).
    by rewrite (bind_run _ _ _ _ _ E3).
  - eapply io_step_trans; [eapply io_step_weaken; [|exact Hs12]; tauto|].
    eapply io_step_trans; (eapply io_step_weaken; [|eassumption]); cbn; tauto.
Qed.

(** C31: [map_ioapic] routes an interrupt.  On the I/O APIC of the first
    interrupts, the redirection entry of the pin [irq] afterwards says: the
    vector [vec], fixed delivery to a physical destination, the polarity and the
    trigger mode asked for, not masked; the destination is 16 times the low four
    bits of [lapic_id].  The read-only bits keep their values, and no register
    but the two of the entry changes. *)
Theorem map_ioapic_routes vec irq lapic_id (polarity trigger : bool) s :
  connected s -> 0 <= irq < 24 -> global_system_interrupt_base (ioapic_device s) = 0 -> 0 <= vec < 2 ^ 8 ->
  exists s', map_ioapic vec irq lapic_id polarity trigger s = Ok (tt, s') /\
    io_step (fun r => r = 0x10 + 2 * irq \/ r = 0x11 + 2 * irq) s s' /\
    entry_at_pin s' irq =
      MkRedirection vec 0 false polarity trigger false (16 * (lapic_id mod 16)) /\
    (forall i, i = 12 \/ i = 14 \/ 17 <= i < 32 ->
      Z.testbit (registers s' (0x10 + 2 * irq)) i = Z.testbit (registers s (0x10 + 2 * irq)) i) /\
    (forall i, 0 <= i < 24 ->
      Z.testbit (registers s' (0x11 + 2 * irq)) i = Z.testbit (registers s (0x11 + 2 * irq)) i).
Proof.
  intros Hc Hirq Hbase Hvec. set (r0 := 0x10 + 2 * irq). set (r1 := 0x11 + 2 * irq).
  destruct (map_ioapic_run vec irq lapic_id polarity trigger s Hc Hirq Hbase Hvec) as (s4 & E & Hs & Hlow & Hhigh).
  fold r0 r1 in Hs, Hlow, Hhigh. exists s4. split; [exact E|]. split; [exact Hs|]. split; [|split].
  - unfold entry_at_pin. fold r0 r1. unfold redirection_of. pose proof (io_register_range (device s4) r1) as Hreg.
    fold (registers s4 r1) in Hreg. pose proof (Z.mod_pos_bound lapic_id 16 ltac:(lia)).
    f_equal; [| |by rewrite Hlow by lia..|].
    + apply Z.bits_inj'. intros n Hn. unfold field. rewrite land_mask_bits, Z.shiftr_0_r by lia.
      destruct (Z.ltb_spec n 8); [cbn [andb]; rewrite Hlow by lia; unfold low_bit; case_bool|by rewrite (testbit_high vec 8) by lia].
    + apply Z.bits_inj'. intros n Hn. unfold field. rewrite land_mask_bits, shiftr_bits, Z.bits_0 by lia.
      destruct (Z.ltb_spec n 3); [cbn [andb]; rewrite Hlow by lia; unfold low_bit; case_bool|done].
    + apply Z.bits_inj'. intros n Hn. unfold field. rewrite land_mask_bits, shiftr_bits by lia.
      replace (16 * (lapic_id mod 16)) with (Z.shiftl (lapic_id mod 16) 4) by (rewrite Z.shiftl_mul_pow2; lia).
      rewrite shiftl_bits by lia. destruct (Z.ltb_spec n 8).
      * rewrite Hhigh by lia. replace (n + 24 - 28) with (n - 4) by lia. case_bool. by rewrite Z.testbit_neg_r by lia.
      * rewrite (testbit_high (lapic_id mod 16) 4) by lia. by rewrite andb_false_r.
  - intros i Hi. rewrite Hlow by lia. case_bool.
  - intros i Hi. rewrite Hhigh by lia. case_bool.
Qed.

(** *** Waiting *)

(** [s'] is [s] but for the PIT counter, the interrupt flag and the devices, of
    which the registers of the I/O APIC outside [R] and those of the local APIC
    are as they were, the end-of-interrupt register and the running count apart. *)
Record quiet (R : Z -> Prop) (s s' : Apic) : Prop := {
  quiet_same : exists f c b, s' = set_device f (set_interrupts b (set_pit_counter c s));
  quiet_other r : ~ R r -> registers s' r = registers s r;
  quiet_local off : lapic_offset off -> off <> LAPIC_END_OF_INTERRUPT_REGISTER ->
    off <> LAPIC_TIMER_CURRENT_COUNT_REGISTER -> local (device s') off = local (device s) off
}.

Lemma quiet_trans R s1 s2 s3 : quiet R s1 s2 -> quiet R s2 s3 -> quiet R s1 s3.
Proof using.
  intros [(f & c & b & ->) A2 A3] [(g & d & e & ->) B2 B3]. split.
  - by exists (fun h => g (f h)), d, e.
  - intros r Hr. by rewrite B2, A2.
  - intros off H1 H2 H3. by rewrite B3, A3.
Qed.

Lemma quiet_weaken (R R' : Z -> Prop) s s' : (forall r, R r -> R' r) -> quiet R s s' -> quiet R' s s'.
Proof using. intros HR [H1 H2 H3]. split; auto. Qed.

Lemma io_step_quiet R s s' : io_step R s s' -> quiet R s s' /\ pit_counter s' = pit_counter s /\ interrupts s' = interrupts s.
Proof using.
  intros [[f ->] H2 H3]. split; [|done]. split; [|done|auto].
  exists f, (pit_counter s), (interrupts s). by destruct s.
Qed.

Lemma quiet_counter c b s : quiet (fun _ => False) s (set_interrupts b (set_pit_counter c s)).
Proof using. split; [|done|done]. exists (fun h => h), c, b. done. Qed.

Lemma quiet_refl R s : quiet R s s.
Proof using.
  split; [|done|done]. exists (fun h => h), (pit_counter s), (interrupts s). by destruct s.
Qed.

Lemma quiet_connected R s s' : quiet R s s' -> connected s -> connected s'.
Proof using. by intros [(f & c & b & ->) _ _]. Qed.

Definition listening (s : Apic) : Prop :=
  connected s /\ interrupts s = true /\ Z.testbit (registers s 0x14) 16 = false.

Lemma timer_interrupt_run s :
  listening s -> exists s', timer_interrupt s = Ok (tt, s') /\ quiet (fun _ => False) s s' /\ listening s' /\
    pit_counter s' = u64 (pit_counter s - 1).
Proof using.
  intros ([Hio Hla] & Hi & Hm). assert (lapic_offset LAPIC_END_OF_INTERRUPT_REGISTER) as Hoff by done.
  unfold timer_interrupt, pit_decrement_counter. rewrite bind_modify. unfold end_of_interrupt. rewrite bind_get.
  eexists. split; [reflexivity|]. cbn [lapic_addr set_pit_counter]. rewrite Hla. split; [split|split; [|done]].
  - eexists _, _, true. cbn. reflexivity.
  - intros r _. by apply local_write_io.
  - intros off H1 H2 H3. by apply local_write_other.
  - split; [done|]. split; [done|]. rewrite <- Hm. f_equal. by apply local_write_io.
Qed.

(** The number of ticks of a schedule. *)
Definition total (schedule : list nat) : Z := foldr (fun n t => Z.of_nat n + t) 0 schedule.

Lemma total_nonneg schedule : 0 <= total schedule.
Proof using. induction schedule; simpl; lia. Qed.

Lemma interrupts_run n s c :
  listening s -> pit_counter s = u64 c ->
  exists s', Nat.iter n (fun rest =>
      (let* s := get in if interrupts s && pin_enabled 2 (device s) then timer_interrupt else ret tt) ;;; rest) (ret tt) s
      = Ok (tt, s') /\ quiet (fun _ => False) s s' /\ listening s' /\ pit_counter s' = u64 (c - Z.of_nat n).
Proof using.
  revert s c. induction n as [|n IH]; intros s c Hs Hc.
  - exists s. split_and!; [done|apply quiet_refl|done|by rewrite Z.sub_0_r].
  - cbn [Nat.iter nat_rect]. rewrite bind_assoc, bind_get.
    pose proof Hs as (_ & Hi & Hm). rewrite Hi, pin_enabled_iff. fold (registers s (0x10 + 2 * 2)).
    change (0x10 + 2 * 2) with 0x14. rewrite Hm. cbn [andb negb].
    destruct (timer_interrupt_run s Hs) as (s1 & E1 & Hq & Hs1 & Hc1). rewrite (bind_run _ _ _ _ _ E1).
    destruct (IH s1 (c - 1) Hs1) as (s2 & E2 & Hq2 & Hs2 & Hc2).
    { rewrite Hc1, Hc. unfold u64. by rewrite Zminus_mod_idemp_l. }
    exists s2. split; [exact E2|]. split; [by eapply quiet_trans|]. split; [done|]. rewrite Hc2. f_equal. lia.
Qed.

Lemma loop_body_run n s c :
  listening s -> pit_counter s = u64 c ->
  exists s', (outb 0x80 0 ;;; ticks n) s = Ok (tt, s') /\ quiet (fun _ => False) s s' /\ listening s' /\
    pit_counter s' = u64 (c - Z.of_nat n).
Proof using.
  intros Hs Hc. unfold outb, ticks. rewrite bind_modify, bind_modify.
  set (s1 := set_device elapse (set_device (port_write 0x80 0) s)).
  assert (quiet (fun _ => False) s s1) as Hq1.
  { split.
    - exists (fun h => elapse (port_write 0x80 0 h)), (pit_counter s), (interrupts s). by destruct s.
    - intros r _. unfold registers. cbn. by rewrite elapse_io, port_io.
    - intros off H1 H2 H3. cbn. by rewrite elapse_local, port_local. }
  assert (listening s1) as Hs1.
  { destruct Hs as (H1 & H2 & H3). split; [by eapply quiet_connected|]. split; [done|].
    by rewrite (quiet_other _ _ _ Hq1) by tauto. }
  destruct (interrupts_run n s1 c Hs1 Hc) as (s2 & E & Hq2 & Hs2 & Hc2).
  exists s2. split_and!; [exact E|by eapply quiet_trans|done|done].
Qed.

(** The test of the loop after [t] ticks of the [ms] it waits for. *)
Lemma counter_test ms t : 0 < ms -> 0 <= t -> t + ms < 2 ^ 63 ->
  (0 <? u64 (ms - t)) && (u64 (ms - t) <=? ms) = (t <? ms).
Proof using.
  intros Hms Ht Hmax. destruct (Z.ltb_spec t ms); [rewrite u64_small; lia|].
  unfold u64. destruct (Z.eq_dec t ms) as [->|]; [by rewrite Z.sub_diag|].
  replace ((ms - t) mod 2 ^ 64) with (ms - t + 2 ^ 64); [lia|].
  rewrite <- (Z.mod_add _ 1), Z.mod_small by lia. lia.
Qed.

Lemma pit_wait_loop_run schedule ms t s :
  listening s -> 0 < ms -> 0 <= t -> t + total schedule + ms < 2 ^ 63 -> pit_counter s = u64 (ms - t) ->
  (t + total schedule < ms -> pit_wait_loop schedule ms s = Spin) /\
  (ms <= t + total schedule -> exists n s', pit_wait_loop schedule ms s = Ok (drop n schedule, s') /\
    (n <= length schedule)%nat /\ ms <= t + total (take n schedule) /\
    (forall m, (m < n)%nat -> t + total (take m schedule) < ms) /\ quiet (fun _ => False) s s').
Proof using.
  intros Hs Hms. revert t s Hs. induction schedule as [|n schedule IH]; intros t s Hs Ht Hmax Hc;
    cbn [pit_wait_loop]; rewrite bind_get, Hc.
  - cbn [total foldr] in *. rewrite counter_test by lia. destruct (Z.ltb_spec t ms); split; try done; try lia.
    intros _. exists O, s. split_and!; [done|lia|cbn; lia|lia|apply quiet_refl].
  - pose proof (total_nonneg schedule). cbn [total foldr] in *. fold (total schedule) in *.
    rewrite counter_test by lia. destruct (Z.ltb_spec t ms).
    + destruct (loop_body_run n s (ms - t) Hs Hc) as (s1 & E1 & Hq1 & Hs1 & Hc1).
      rewrite <- bind_assoc, (bind_run _ _ _ _ _ E1).
      destruct (IH (t + Z.of_nat n) s1 Hs1) as [Hspin Hret]; [lia|lia|rewrite Hc1; f_equal; lia|].
      split; [intros; apply Hspin; lia|]. intros Hle.
      destruct Hret as (k & s2 & E2 & Hk & Hge & Hlt & Hq2); [lia|]. exists (S k), s2.
      split_and!; [exact E2|cbn; lia| | |by eapply quiet_trans].
      * cbn [take total foldr]. fold (total (take k schedule)). lia.
      * intros [|m] Hm; [cbn; lia|]. cbn [take total foldr]. fold (total (take m schedule)). specialize (Hlt m). lia.
    + split; [lia|]. intros _. exists O, s. split_and!; [done|lia|cbn; lia|lia|apply quiet_refl].
Qed.

(** What waiting for the [n] first iterations of [schedule] means. *)
Definition waits (schedule : list nat) (ms : Z) (n : nat) : Prop :=
  (n <= length schedule)%nat /\ ms <= total (take n schedule) /\
  forall m, (m < n)%nat -> total (take m schedule) < ms.

(** Unmasking lets the PIT through. *)
Lemma pit_wait_run schedule ms s :
  connected s -> global_system_interrupt_base (ioapic_device s) = 0 -> 0 < ms -> total schedule + ms < 2 ^ 63 ->
  (total schedule < ms -> pit_wait schedule ms s = Spin) /\
  (ms <= total schedule -> exists n s', pit_wait schedule ms s = Ok (drop n schedule, s') /\ waits schedule ms n /\
    quiet (fun r => r = 0x14) s s' /\ interrupts s' = false /\
    forall i, 0 <= i < 32 -> Z.testbit (registers s' 0x14) i = if i =? 16 then true else Z.testbit (registers s 0x14) i).
Proof using.
  intros Hcn Hbase Hms Hmax. set (s0 := set_pit_counter ms s).
  destruct (set_mask_run false 2 0 s0 Hcn ltac:(lia) Hbase) as (s1 & E1 & Hs1 & Hm1). change (0x10 + 2 * 2) with 0x14 in *.
  pose proof (io_step_quiet _ _ _ Hs1) as (Hq1 & Hc1 & _).
  set (s2 := set_interrupts true s1).
  assert (quiet (fun r => r = 0x14) s s2) as Hq2.
  { eapply quiet_trans; [|eapply quiet_trans; [exact Hq1|]].
    - eapply quiet_weaken; [|exact (quiet_counter ms (interrupts s) s)]. by intros r [].
    - eapply quiet_weaken; [|exact (quiet_counter (pit_counter s1) true s1)]. by intros r []. }
  assert (listening s2) as Hs2.
  { split; [by eapply quiet_connected|]. split; [done|]. change (registers s2 0x14) with (registers s1 0x14).
    rewrite Hm1. by rewrite mask_bit_spec by lia. }
  assert (pit_counter s2 = u64 (ms - 0)) as Hc2.
  { change (pit_counter s2) with (pit_counter s1). rewrite Hc1, Z.sub_0_r, u64_small by (pose proof (total_nonneg schedule); lia). done. }
  destruct (pit_wait_loop_run schedule ms 0 s2 Hs2 Hms ltac:(lia) ltac:(lia) Hc2) as [Hspin Hret].
  assert (forall f : unit -> M Apic (list nat), bind unlock_pit f s0 = f tt s1) as Hun.
  { intros f. exact (bind_run _ _ _ _ _ E1). }
  unfold pit_wait. rewrite bind_modify. fold s0. rewrite Hun. unfold enable_interrupts. rewrite bind_modify. fold s2. split.
  - intros Hlt. unfold bind. by rewrite Hspin by lia.
  - intros Hle. destruct (Hret ltac:(lia)) as (n & s3 & E3 & Hn & Hge & Hlt & Hq3).
    rewrite (bind_run _ _ _ _ _ E3). unfold disable_interrupts. rewrite bind_modify. set (s4 := set_interrupts false s3).
    assert (quiet (fun _ => False) s2 s4) as Hq4.
    { eapply quiet_trans; [exact Hq3|]. destruct (quiet_counter (pit_counter s3) false s3). split; [|done|done].
      exists (fun h => h), (pit_counter s3), false. by destruct s3. }
    assert (quiet (fun r => r = 0x14) s s4) as Hq04.
    { eapply quiet_trans; [exact Hq2|]. eapply quiet_weaken; [|exact Hq4]. by intros r []. }
    destruct (set_mask_run true 2 0 s4) as (s5 & E5 & Hs5 & Hm5); [by eapply quiet_connected|lia| |].
    { destruct Hq04 as [(f & c & b & E) _ _]. rewrite E. exact Hbase. }
    pose proof (io_step_quiet _ _ _ Hs5) as (Hq5 & Hc5 & Hi5). change (0x10 + 2 * 2) with 0x14 in *.
    assert (forall f : unit -> M Apic (list nat), bind lock_pit f s4 = f tt s5) as Hlk.
    { intros f. exact (bind_run _ _ _ _ _ E5). }
    exists n, s5. split; [by rewrite Hlk|]. split; [by split_and!|]. split; [by eapply quiet_trans|]. split; [done|].
    intros i Hi. rewrite Hm5, mask_bit_spec by done. destruct (Z.eqb_spec i 16); [done|].
    rewrite (quiet_other _ _ _ Hq4) by tauto. change (registers s2 0x14) with (registers s1 0x14).
    rewrite Hm1, mask_bit_spec by done. by destruct (Z.eqb_spec i 16).
Qed.

(** C29: [pit_wait] waits for its ticks.  Whatever number of timer ticks arrives
    during each iteration, the call returns after the first iteration at whose
    end at least [ms] ticks have arrived, with the PIT masked, interrupts off
    and every other register as before; it waits forever exactly when fewer
    than [ms] ticks ever arrive. *)
Theorem pit_wait_returns schedule ms s :
  connected s -> global_system_interrupt_base (ioapic_device s) = 0 -> 0 < ms -> total schedule + ms < 2 ^ 63 ->
  (total schedule < ms -> pit_wait schedule ms s = Spin) /\
  (ms <= total schedule -> exists n s', pit_wait schedule ms s = Ok (drop n schedule, s') /\ waits schedule ms n /\
    quiet (fun r => r = 0x14) s s' /\ interrupts s' = false /\ masked (entry_at_pin s' 2) = true).
Proof.
  intros Hcn Hbase Hms Hmax. destruct (pit_wait_run schedule ms s Hcn Hbase Hms Hmax) as [Hspin Hret]. split; [done|].
  intros Hle. destruct (Hret Hle) as (n & s' & E & Hw & Hq & Hi & Hb). exists n, s'. split_and!; try done.
  change (Z.testbit (registers s' 0x14) 16 = true). by rewrite Hb by lia.
Qed.

(** *** The local APIC *)

Definition local_of (s : Apic) (off : Z) : Z := local (device s) off.

Lemma read_lapic_run s off :
  lapic_offset off -> read_lapic lapic off s = Ok (local_of s off, s).
Proof using. intros Hoff. unfold read_lapic. rewrite bind_get. unfold ret. by rewrite local_read. Qed.

(** A write to a register of the local APIC. *)
Lemma write_lapic_run s off mask v :
  (off, mask) ∈ local_masks -> Z.land v mask = v ->
  exists s', write_lapic lapic off v s = Ok (tt, s') /\ local_of s' off = v /\
    (exists f, s' = set_device f s) /\ (forall r, registers s' r = registers s r) /\
    (forall off', lapic_offset off' -> off' <> off -> off' <> LAPIC_TIMER_CURRENT_COUNT_REGISTER ->
      local_of s' off' = local_of s off').
Proof using.
  intros Hin Hv. assert (lapic_offset off) as Hoff.
  { unfold local_masks in Hin. rewrite !elem_of_cons, elem_of_nil in Hin. unfold lapic_offset.
    destruct_or! Hin; simplify_eq; done. }
  eexists. split; [reflexivity|]. split; [by eapply local_write|]. split; [by eexists|]. split.
  - intros r. by apply local_write_io.
  - intros off' H1 H2 H3. by apply local_write_other.
Qed.

Ltac lapic_register := unfold local_masks; set_solver.

Lemma writes_connected s s' : (exists f, s' = set_device f s) -> connected s -> connected s'.
Proof using. by intros [f ->]. Qed.

(** C32: [init_lapic_timer] calibrates the timer.  When ten ticks of the PIT
    arrive, it returns; the timer is then periodic on vector 40, and its initial
    count is the number of counts that went by while [pit_wait] waited for ten
    milliseconds. *)
Theorem init_lapic_timer_calibrates schedule s :
  connected s -> global_system_interrupt_base (ioapic_device s) = 0 -> total schedule < 2 ^ 62 -> 10 <= total schedule ->
  exists n s1 s2 s', waits schedule 10 n /\ pit_wait schedule 10 s1 = Ok (drop n schedule, s2) /\
    local_of s1 LAPIC_TIMER_INITIAL_COUNT_REGISTER = 0xFFFFFFFF /\ local_of s1 LAPIC_TIMER_DIVIDER_REGISTER = 3 /\
    init_lapic_timer schedule s = Ok (drop n schedule, s') /\
    local_of s' LAPIC_TIMER_LVT_REGISTER = 40 + 2 ^ 17 /\ local_of s' LAPIC_TIMER_DIVIDER_REGISTER = 3 /\
    local_of s' LAPIC_TIMER_INITIAL_COUNT_REGISTER = u32 (0xFFFFFFFF - local_of s2 LAPIC_TIMER_CURRENT_COUNT_REGISTER) /\
    interrupts s' = false.
Proof.
  intros Hcn Hbase Hmax Hten. pose proof Hcn as [Hio Hla]. unfold init_lapic_timer. rewrite bind_get. cbv zeta. rewrite Hla.
  destruct (write_lapic_run s LAPIC_TIMER_INITIAL_COUNT_REGISTER 0xFFFFFFFF 0) as (a1 & E1 & _ & Ha1 & _); [lapic_register|done|].
  destruct (write_lapic_run a1 LAPIC_TIMER_DIVIDER_REGISTER 0xB 3) as (a2 & E2 & D2 & Ha2 & _); [lapic_register|done|].
  destruct (write_lapic_run a2 LAPIC_TIMER_INITIAL_COUNT_REGISTER 0xFFFFFFFF 0xFFFFFFFF) as (a3 & E3 & I3 & Ha3 & _ & L3);
    [lapic_register|done|].
  rewrite (bind_run _ _ _ _ _ E1), (bind_run _ _ _ _ _ E2), (bind_run _ _ _ _ _ E3).
  destruct (pit_wait_run schedule 10 a3) as [_ Hret]; [|by destruct Ha1 as [f1 ->], Ha2 as [f2 ->], Ha3 as [f3 ->]|lia|lia|].
  { do 3 (eapply writes_connected; [eassumption|]). done. }
  destruct (Hret Hten) as (n & w & Ew & Hw & Hq & Hi & _). rewrite (bind_run _ _ _ _ _ Ew).
  rewrite (bind_run _ _ _ _ _ (read_lapic_run w LAPIC_TIMER_CURRENT_COUNT_REGISTER ltac:(done))).
  set (c := local_of w LAPIC_TIMER_CURRENT_COUNT_REGISTER).
  destruct (write_lapic_run w LAPIC_TIMER_INITIAL_COUNT_REGISTER 0xFFFFFFFF 0) as (b1 & F1 & _ & Hb1 & _); [lapic_register|done|].
  destruct (write_lapic_run b1 LAPIC_TIMER_LVT_REGISTER 0x300FF (Z.lor 40 0x20000)) as (b2 & F2 & V2 & Hb2 & _); [lapic_register|done|].
  destruct (write_lapic_run b2 LAPIC_TIMER_DIVIDER_REGISTER 0xB 3) as (b3 & F3 & V3 & Hb3 & _ & L3'); [lapic_register|done|].
  destruct (write_lapic_run b3 LAPIC_TIMER_INITIAL_COUNT_REGISTER 0xFFFFFFFF (u32 (0xFFFFFFFF - c))) as (b4 & F4 & V4 & Hb4 & _ & L4);
    [lapic_register| |].
  { change 0xFFFFFFFF with (Z.ones 32) at 2. rewrite Z.land_ones by lia. apply Z.mod_mod. lia. }
  rewrite (bind_run _ _ _ _ _ F1), (bind_run _ _ _ _ _ F2), (bind_run _ _ _ _ _ F3), (bind_run _ _ _ _ _ F4).
  exists n, a3, w, b4. split_and!; try done.
  - rewrite L3 by done. exact D2.
  - rewrite L4 by done. rewrite L3' by done. exact V2.
  - rewrite L4 by done. exact V3.
  - destruct Hb1 as [g1 ->], Hb2 as [g2 ->], Hb3 as [g3 ->], Hb4 as [g4 ->]. exact Hi.
Qed.
End Theory.

(** ** The MADT *)

(** Little-endian bytes of a field. *)
Fixpoint le_bytes (n : nat) (v : Z) : list Z :=
  match n with O => [] | S n' => u8 v :: le_bytes n' (v / 256) end.

Lemma le_bytes_length n v : Zlen (le_bytes n v) = Z.of_nat n.
Proof. revert v. induction n as [|n IH]; intros v; [done|]. cbn [le_bytes]. rewrite Zlen_cons, IH. lia. Qed.

Lemma le_field_bytes n pre v post off :
  off = Zlen pre -> 0 <= v < 2 ^ (8 * Z.of_nat n) -> le_field n (pre ++ le_bytes n v ++ post) off = Ok v.
Proof.
  revert pre v off. induction n as [|n IH]; intros pre v off -> Hv; cbn [le_field le_bytes].
  { f_equal. cbn in Hv. lia. }
  cbn [app]. rewrite rd_mid by done. cbn [obind].
  replace (pre ++ u8 v :: le_bytes n (v / 256) ++ post) with ((pre ++ [u8 v]) ++ le_bytes n (v / 256) ++ post)
    by (by rewrite <- app_assoc).
  rewrite Nat2Z.inj_succ, Z.mul_succ_r, Z.pow_add_r in Hv by lia. change (2 ^ 8) with 256 in Hv.
  rewrite (IH (pre ++ [u8 v]) (v / 256)); [|zlen|set (p := 2 ^ (8 * Z.of_nat n)) in *; divlia].
  cbn [obind]. f_equal. unfold u8. change (2 ^ 8) with 256. pose proof (Z.div_mod v 256). lia.
Qed.

(** The records of the table: I/O APICs, and others, which the kernel skips. *)
Inductive MadtRecord :=
  | IoApicRecord (id reserved addr base : Z)
  | OtherRecord (ty : Z) (body : list Z).

Definition record_bytes (r : MadtRecord) : list Z :=
  match r with
  | IoApicRecord id reserved addr base => [1; 12; id; reserved] ++ le_bytes 4 addr ++ le_bytes 4 base
  | OtherRecord ty body => ty :: Zlen body + 2 :: body
  end.
Definition record_ok (r : MadtRecord) : Prop :=
  match r with
  | IoApicRecord id reserved addr base => is_u32 addr /\ is_u32 base /\ addr mod 4096 = 0
  | OtherRecord ty body => ty <> IOAPIC /\ Zlen body + 2 < 256
  end.
Definition records_bytes (rs : list MadtRecord) : list Z := concat (map record_bytes rs).

(** The I/O APIC of the last record of one. *)
Definition last_ioapic (rs : list MadtRecord) (d : IOApic * Z) : IOApic * Z :=
  fold_left (fun d r => match r with
    | IoApicRecord id _ addr base => (MkIOApic id addr base, addr)
    | OtherRecord _ _ => d end) rs d.
Definition ioapic_pages (rs : list MadtRecord) : list Z :=
  omap (fun r => match r with IoApicRecord _ _ addr _ => Some addr | OtherRecord _ _ => None end) rs.

Lemma record_length r : record_ok r -> 2 <= Zlen (record_bytes r) < 256.
Proof.
  destruct r as [id reserved addr base|ty body]; cbn [record_bytes record_ok]; intros Hr.
  - rewrite !Zlen_app, !le_bytes_length. unfold Zlen. cbn. lia.
  - zlen.
Qed.

(** *** Pages of devices in the kernel's address space *)

Definition device_page (k : Kernel) (a : Z) : Z := page_of (u64 (a + hhdm k)).
Definition device_mapped (k : Kernel) (T : tables) (a : Z) : Prop := pte k T (device_page k a) = Z.lor a 3.
Definition device_addr (a : Z) : Prop := is_u32 a /\ a mod 4096 = 0.

Lemma device_page_inj k a b :
  hhdm k mod 4096 = 0 -> device_addr a -> device_addr b -> device_page k a = device_page k b -> a = b.
Proof.
  intros Hh [Ha Hma] [Hb Hmb] E. unfold device_page, page_of, u64, is_u32 in *.
  assert (forall x, (x mod 2 ^ 64) mod 2 ^ 48 = x mod 2 ^ 48) as Hmm.
  { intros x. divlia. }
  rewrite !Hmm in E. divlia.
Qed.

(** Mapping one page of a device. *)
Lemma map_device k root T a :
  pt_inv k root T -> hhdm k mod 4096 = 0 -> device_addr a ->
  map_pages root (u64 (a + hhdm k)) a 1 present_writable k = Halted \/
  exists k' T', map_pages root (u64 (a + hhdm k)) a 1 present_writable k = Ok (tt, k') /\ pt_inv k' root T' /\
    extends k T k' T' /\ device_mapped k' T' a /\
    forall b, device_addr b -> device_mapped k T b -> device_mapped k' T' b.
Proof.
  intros Hinv Hh Ha. pose proof Ha as [Har Ham]. unfold is_u32 in Har. change present_writable with 3.
  destruct (map_pages_spec 3 (page_of (u64 (a + hhdm k))) a 1 ltac:(lia) ltac:(lia) ltac:(lia)
    k root T (u64 (a + hhdm k)) Hinv ltac:(apply u64_range) eq_refl ltac:(lia))
    as [E|(k' & T' & E & Hinv' & Hext & _ & HA & HB & _)]; [by left|right].
  pose proof (ext_config _ _ _ _ Hext) as (_ & Hk & _).
  assert (forall b, device_page k' b = device_page k b) as Hpg by (intros b; unfold device_page; by rewrite Hk).
  assert (device_mapped k' T' a) as Hma.
  { unfold device_mapped. rewrite Hpg. fold (device_page k a) in HA. rewrite (HA (device_page k a)) by lia.
    unfold map_entry. f_equal. lia. }
  exists k', T'. split_and!; [done..|]. intros b Hb Hmb.
  destruct (Z.eq_dec (device_page k b) (device_page k a)) as [Eq|Hne].
  - by rewrite (device_page_inj k b a).
  - unfold device_mapped in *. rewrite Hpg. fold (device_page k a) in HB. rewrite HB by lia. done.
Qed.

(** The page shows the device: the kernel's address translates to it. *)
Lemma device_translates k root T a :
  pt_inv k root T -> hhdm k mod 4096 = 0 -> device_addr a -> device_mapped k T a ->
  virt_to_phys root (u64 (a + hhdm k)) k = a.
Proof.
  intros Hinv Hh [Ha Hm] Hmap. unfold is_u32 in Ha. pose proof (u64_range (a + hhdm k)) as Hr.
  rewrite (translate_mapped k root T _ a 3) by (done || lia).
  assert (u64 (a + hhdm k) mod 4096 = 0) as -> by (unfold u64; divlia). lia.
Qed.

Lemma rd_app_at {A} (pre l : list A) i : 0 <= i -> rd (pre ++ l) (Zlen pre + i) = rd l i.
Proof.
  intros Hi. pose proof (Zlen_nonneg pre). unfold rd. destruct (Z.ltb_spec (Zlen pre + i) 0), (Z.ltb_spec i 0); try lia.
  rewrite lookup_app_r by (unfold Zlen; lia).
  by replace (Z.to_nat (Zlen pre + i) - length pre)%nat with (Z.to_nat i) by (unfold Zlen; lia).
Qed.

Lemma le_field_app_at n pre l i : 0 <= i -> le_field n (pre ++ l) (Zlen pre + i) = le_field n l i.
Proof.
  revert i. induction n as [|n IH]; intros i Hi; [done|]. cbn [le_field]. rewrite rd_app_at by done.
  rewrite <- Z.add_assoc. by rewrite (IH (i + 1)) by lia.
Qed.

(** The fields of a record in a table. *)
Lemma record_fields pre r post :
  record_ok r ->
  rd (pre ++ record_bytes r ++ post) (Zlen pre + 1) = Ok (Zlen (record_bytes r)) /\
  match r with
  | IoApicRecord id _ addr base =>
      rd (pre ++ record_bytes r ++ post) (Zlen pre) = Ok IOAPIC /\
      rd (pre ++ record_bytes r ++ post) (Zlen pre + 2) = Ok id /\
      le_field 4 (pre ++ record_bytes r ++ post) (Zlen pre + 4) = Ok addr /\
      le_field 4 (pre ++ record_bytes r ++ post) (Zlen pre + 8) = Ok base
  | OtherRecord ty _ => rd (pre ++ record_bytes r ++ post) (Zlen pre) = Ok ty
  end.
Proof.
  intros Hr. rewrite rd_app_at by lia. pose proof (rd_app_at pre (record_bytes r ++ post) 0 ltac:(lia)) as H0.
  rewrite Z.add_0_r in H0. rewrite H0. destruct r as [id reserved addr base|ty body].
  - destruct Hr as (Ha & Hb & _). rewrite rd_app_at, !le_field_app_at by lia. unfold record_bytes.
    split; [|split_and!; [done|done| |]].
    + rewrite !Zlen_app, !le_bytes_length. done.
    + rewrite <- !app_assoc. by apply le_field_bytes.
    + rewrite <- !app_assoc. rewrite app_assoc. apply le_field_bytes; [|done]. rewrite Zlen_app, le_bytes_length. done.
  - unfold record_bytes. split; [|done]. rewrite !Zlen_cons. change (Ok (Zlen body + 2) = Ok (Zlen body + 1 + 1)). f_equal. lia.
Qed.

Section Walk.
Context `{Hardware}.

(** The walk over the records [rs] of a table, from its place [at_] on. *)
Lemma madt_loop_run madt rs : forall fuel at_ s T,
  madt = at_ ++ records_bytes rs -> Zlen madt < 2 ^ 32 -> Forall record_ok rs -> (length rs < fuel)%nat ->
  pt_inv (kernel s) (u64 (cr3 s + hhdm (kernel s))) T -> hhdm (kernel s) mod 4096 = 0 ->
  madt_loop fuel madt (Zlen madt) (Zlen at_) s = Halted \/
  exists s' T', madt_loop fuel madt (Zlen madt) (Zlen at_) s = Ok (tt, s') /\
    pt_inv (kernel s') (u64 (cr3 s + hhdm (kernel s))) T' /\ extends (kernel s) T (kernel s') T' /\
    (ioapic_device s', kernel_ioapic_addr s') = last_ioapic rs (ioapic_device s, kernel_ioapic_addr s) /\
    lapic_addr s' = lapic_addr s /\ device s' = device s /\
    forall b, device_addr b -> b ∈ ioapic_pages rs \/ device_mapped (kernel s) T b -> device_mapped (kernel s') T' b.
Proof using.
  induction rs as [|r rs IH]; intros fuel at_ s T Hmadt Hlen Hok Hfuel Hinv Hh.
  - right. rewrite app_nil_r in Hmadt. subst at_.
    exists s, T. split; [destruct fuel; cbn [madt_loop]; by rewrite Z.ltb_irrefl|].
    split_and!; [done|apply extends_refl|done|done|done|]. intros b _ [Hb|Hb]; [by apply elem_of_nil in Hb|done].
  - apply Forall_cons in Hok as [Hr Hok]. destruct fuel as [|fuel]; [cbn in Hfuel; lia|]. cbn [length] in Hfuel.
    pose proof (record_length r Hr) as Hrl.
    assert (madt = at_ ++ record_bytes r ++ records_bytes rs) as Hm by done.
    assert (Zlen madt = Zlen at_ + Zlen (record_bytes r) + Zlen (records_bytes rs)) as Hml by (rewrite Hm; zlen).
    pose proof (Zlen_nonneg at_). pose proof (Zlen_nonneg (records_bytes rs)).
    pose proof (record_fields at_ r (records_bytes rs) Hr) as [El Hf]. rewrite <- Hm in El, Hf.
    assert (u64 (Zlen at_ + Zlen (record_bytes r)) = Zlen (at_ ++ record_bytes r)) as Hnext by (rewrite u64_small, Zlen_app; lia).
    assert (madt = (at_ ++ record_bytes r) ++ records_bytes rs) as Hm' by (by rewrite <- app_assoc).
    cbn [madt_loop]. destruct (Z.ltb_spec (Zlen at_) (Zlen madt)); [|lia]. rewrite bind_get.
    destruct r as [id reserved addr base|ty body].
    + destruct Hf as (E0 & E2 & E4 & E8). destruct Hr as (Ha & Hb & Hal).
      rewrite (bind_lift _ _ _ _ E0), Z.eqb_refl, bind_assoc, (bind_lift _ _ _ _ E2), bind_assoc,
        (bind_lift _ _ _ _ E4), bind_assoc, (bind_lift _ _ _ _ E8), bind_assoc.
      destruct (map_device (kernel s) _ T addr Hinv Hh ltac:(by split)) as [E|(k1 & T1 & E & Hinv1 & Hext & Hma & Hkeep)].
      { left. unfold on_kernel. unfold bind at 1. by rewrite E. }
      assert (on_kernel (map_pages (u64 (cr3 s + hhdm (kernel s))) (u64 (addr + hhdm (kernel s))) addr 1 present_writable) s
        = Ok (tt, set_kernel k1 s)) as Eon by (unfold on_kernel; by rewrite E).
      rewrite (bind_run _ _ _ _ _ Eon), bind_modify, (bind_lift _ _ _ _ El), Hnext.
      set (s1 := set_ioapic (MkIOApic id addr base) (set_kernel k1 s)).
      pose proof (ext_config _ _ _ _ Hext) as (_ & Hk1 & _).
      assert (cr3 s1 = cr3 s /\ hhdm (kernel s1) = hhdm (kernel s)) as [Hc1 Hh1] by done.
      destruct (IH fuel (at_ ++ record_bytes (IoApicRecord id reserved addr base)) s1 T1 Hm' Hlen Hok ltac:(lia))
        as [E'|(s2 & T2 & E' & Hinv2 & Hext2 & Hlast & Hla & Hdev & Hmap)];
        [by rewrite Hc1, Hh1|by rewrite Hh1|by left|right].
      rewrite Hc1, Hh1 in Hinv2. exists s2, T2. split_and!; [done|done|by eapply extends_trans|done|done|done|].
      intros b Hb' Hor. apply Hmap; [done|]. destruct Hor as [Hin|Hold]; [|right; by apply Hkeep].
      apply elem_of_cons in Hin as [->|Hin]; [by right|by left].
    + destruct Hr as [Hty _]. rewrite (bind_lift _ _ _ _ Hf). destruct (Z.eqb_spec ty IOAPIC); [done|].
      rewrite bind_ret, (bind_lift _ _ _ _ El), Hnext.
      apply (IH fuel (at_ ++ record_bytes (OtherRecord ty body)) s T Hm' Hlen Hok ltac:(lia) Hinv Hh).
Qed.
End Walk.

Lemma ioapic_pages_ok rs a : Forall record_ok rs -> a ∈ ioapic_pages rs -> device_addr a.
Proof.
  induction 1 as [|r rs Hr _ IH]; [by intros ?%elem_of_nil|]. destruct r as [id reserved addr base|ty body]; [|done].
  destruct Hr as (Ha & _ & Hal). intros [->|Hin]%elem_of_cons; [by split|by apply IH].
Qed.

(** C30: [init_apic] finds the interrupt controllers.  On a MADT made of a header
    and records, it halts for want of a page for the page tables or returns;
    then the kernel knows the local APIC of the header, which is enabled with
    the spurious vector 255, and the I/O APIC of the last record of one (or
    still the old one when there is none), and the kernel's address of each of
    these devices translates to the device. *)
Theorem init_apic_reads_madt `{ApicLaws io lapic} tables madt header rs fuel la s T :
  lapic = u64 (la + hhdm (kernel s)) -> Z.testbit cpuid_features 9 = true ->
  find_MADT tables (tables (rsdt s)) (hhdm (kernel s)) = Ok madt ->
  tables madt = header ++ records_bytes rs -> Zlen header = sizeof_MADT -> Zlen (tables madt) < 2 ^ 32 ->
  le_field 4 (tables madt) 4 = Ok (Zlen (tables madt)) -> le_field 4 (tables madt) 36 = Ok la -> device_addr la ->
  Forall record_ok rs -> (length rs < fuel)%nat ->
  pt_inv (kernel s) (u64 (cr3 s + hhdm (kernel s))) T -> hhdm (kernel s) mod 4096 = 0 ->
  init_apic tables fuel s = Halted \/
  exists s' T', init_apic tables fuel s = Ok (tt, s') /\
    pt_inv (kernel s') (u64 (cr3 s + hhdm (kernel s))) T' /\ extends (kernel s) T (kernel s') T' /\
    lapic_addr s' = lapic /\ local_of s' LAPIC_SPURIOUS_INTERRUPT_VECTOR_REGISTER = 0x1FF /\
    (ioapic_device s', kernel_ioapic_addr s') = last_ioapic rs (ioapic_device s, kernel_ioapic_addr s) /\
    forall a, a ∈ la :: ioapic_pages rs ->
      virt_to_phys (u64 (cr3 s + hhdm (kernel s))) (u64 (a + hhdm (kernel s))) (kernel s') = a.
Proof.
  intros Hla Hcpu Hfind Htab Hhead Hsize Hlen Hfield Hda Hok Hfuel Hinv Hh. unfold init_apic, verify_apic.
  rewrite bind_ret.
  assert ((Z.land cpuid_features (Z.shiftl 1 9) =? 0) = false) as ->.
  { apply Z.eqb_neq. intros E. apply (f_equal (fun x => Z.testbit x 9)) in E.
    rewrite Z.land_spec, Hcpu in E. discriminate E. }
  cbn [negb]. unfold outb. rewrite !bind_modify, bind_get. set (s1 := set_device (port_write 0xA1 0xff) _).
  change (rsdt s1) with (rsdt s). change (kernel s1) with (kernel s). change (cr3 s1) with (cr3 s).
  rewrite (bind_lift _ _ _ _ Hfind), (bind_lift _ _ _ _ Hfield). cbv zeta.
  set (root := u64 (cr3 s + hhdm (kernel s))) in *.
  destruct (map_device (kernel s) root T la Hinv Hh Hda) as [E|(k1 & T1 & E & Hinv1 & Hext & Hma & Hkeep)].
  { left. unfold on_kernel. unfold bind at 1. change (kernel s1) with (kernel s). by rewrite E. }
  assert (on_kernel (map_pages root (u64 (la + hhdm (kernel s))) la 1 present_writable) s1 = Ok (tt, set_kernel k1 s1)) as Eon
    by (unfold on_kernel; change (kernel s1) with (kernel s); by rewrite E).
  rewrite (bind_run _ _ _ _ _ Eon), bind_modify, <- Hla. set (s2 := set_lapic_addr lapic (set_kernel k1 s1)).
  assert (forall f : unit -> M Apic unit, exists s3, bind (init_local_apic lapic) f s2 = f tt s3 /\
    (exists g, s3 = set_device g s2) /\ local_of s3 LAPIC_SPURIOUS_INTERRUPT_VECTOR_REGISTER = 0x1FF) as Hinit.
  { intros f. unfold init_local_apic, write_lapic. rewrite !bind_assoc, bind_modify, bind_assoc, bind_modify, bind_modify.
    eexists. split; [reflexivity|]. split; [by eexists (fun h => mmio_write _ _ (mmio_write _ _ (mmio_write _ _ h)))|].
    apply (local_write LAPIC_SPURIOUS_INTERRUPT_VECTOR_REGISTER 0x1FF); [unfold local_masks; set_solver|done]. }
  match goal with |- context [bind (init_local_apic lapic) ?f s2] => destruct (Hinit f) as (s3 & -> & [g Hs3] & Hsvr) end.
  rewrite (bind_lift _ _ _ _ Hlen). rewrite <- Hhead.
  pose proof (ext_config _ _ _ _ Hext) as (_ & Hk1 & _).
  assert (kernel s3 = k1 /\ cr3 s3 = cr3 s /\ lapic_addr s3 = lapic /\
    (ioapic_device s3, kernel_ioapic_addr s3) = (ioapic_device s, kernel_ioapic_addr s)) as (Ek & Ec & El & Ei) by (by rewrite Hs3).
  destruct (madt_loop_run (tables madt) rs fuel header s3 T1 Htab Hsize Hok Hfuel)
    as [E'|(s4 & T4 & E' & Hinv4 & Hext4 & Hlast & Hla4 & Hdev & Hmap)];
    [rewrite Ek, Ec, Hk1; exact Hinv1|by rewrite Ek, Hk1|left; exact E'|right].
  rewrite Ek, Ec, Hk1 in Hinv4. fold root in Hinv4. rewrite Ek in Hext4, Hmap. pose proof (ext_config _ _ _ _ Hext4) as (_ & Hk4 & _).
  exists s4, T4. split_and!; [exact E'|done|by eapply extends_trans|by rewrite Hla4| |by rewrite Hlast, Ei|].
  - unfold local_of in *. by rewrite Hdev.
  - intros a Ha. assert (hhdm (kernel s4) = hhdm (kernel s)) as Hhk by (by rewrite Hk4, Hk1). rewrite <- Hhk.
    apply elem_of_cons in Ha as [->|Ha].
    + apply (device_translates _ root T4); [done|by rewrite Hhk|done|]. apply Hmap; [done|by right].
    + pose proof (ioapic_pages_ok rs a Hok Ha). apply (device_translates _ root T4); [done|by rewrite Hhk|done|].
      apply Hmap; [done|by left].
Qed.

(** A record of length zero stops the boot.  When the walk over the MADT
    comes to a record that is no I/O APIC and whose length field is zero, the
    walk never ends. *)
Theorem madt_zero_record_spins `{Hardware} madt length at_ ty fuel s :
  0 <= at_ < length -> length < 2 ^ 32 -> rd madt at_ = Ok ty -> ty <> IOAPIC -> rd madt (at_ + 1) = Ok 0 ->
  madt_loop fuel madt length at_ s = Spin.
Proof.
  intros Hat Hlen Hty Hne H0. induction fuel as [|fuel IH]; cbn [madt_loop];
    (destruct (Z.ltb_spec at_ length); [|lia]); [done|].
  rewrite bind_get, (bind_lift _ _ _ _ Hty). destruct (Z.eqb_spec ty IOAPIC); [done|].
  rewrite bind_ret, (bind_lift _ _ _ _ H0), Z.add_0_r, u64_small by lia. exact IH.
Qed.

(** ** A machine

    Registers as functions; time does not pass by itself. *)
Record Chips := MkChips { chip_select : Z; chip_entries : Z -> Z; chip_local : Z -> Z }.
Definition demo_io : Z := 2 ^ 47 + 0xFEC00000.
Definition demo_lapic : Z := 2 ^ 47 + 0xFEE00000.

Definition update (f : Z -> Z) (i v : Z) : Z -> Z := fun j => if j =? i then v else f j.
Definition merge (r v old : Z) : Z :=
  let m := if Z.even r then 0x1AFFF else 0xFF000000 in Z.lor (Z.land v m) (Z.land old (lnot_w 32 m)).

#[local] Instance demo_hardware : Hardware := {
  hw := Chips;
  mmio_read a h := if a =? demo_io + 16 then u32 (chip_entries h (chip_select h)) else chip_local h a;
  mmio_write a v h :=
    if a =? demo_io then MkChips v (chip_entries h) (chip_local h)
    else if a =? demo_io + 16 then
      MkChips (chip_select h)
        (update (chip_entries h) (chip_select h) (merge (chip_select h) v (chip_entries h (chip_select h)))) (chip_local h)
    else MkChips (chip_select h) (chip_entries h) (update (chip_local h) a v);
  port_write _ _ h := h;
  elapse h := h;
  pin_enabled n h := negb (Z.testbit (u32 (chip_entries h (0x10 + 2 * n))) 16);
  cpuid_features := 512
}.

Lemma u32_testbit x i : 0 <= i < 32 -> Z.testbit (u32 x) i = Z.testbit x i.
Proof. intros Hi. unfold u32. rewrite <- Z.land_ones, land_mask_bits by lia. destruct (Z.ltb_spec i 32); [done|lia]. Qed.

Lemma merge_bits r v old i : 0 <= i < 32 ->
  Z.testbit (merge r v old) i = if writable r i then Z.testbit v i else Z.testbit old i.
Proof.
  revert i. unfold merge, writable. cbv zeta. destruct (Z.even r); each_bit; word_bits.
Qed.

Lemma demo_local_addr off : lapic_offset off ->
  u64 (demo_lapic + off) = demo_lapic + off /\ demo_lapic + off <> demo_io /\ demo_lapic + off <> demo_io + 16.
Proof. unfold lapic_offset, demo_lapic, demo_io. intros Hoff. rewrite u64_small by lia. lia. Qed.

#[local] Program Instance demo_laws : ApicLaws demo_io demo_lapic := {
  selected h := chip_select h;
  io_register h r := u32 (chip_entries h r);
  local h off := chip_local h (u64 (demo_lapic + off))
}.
Next Obligation. intros h r. apply Z.mod_pos_bound. lia. Qed.
Next Obligation. intros v h. cbn. by rewrite Z.eqb_refl. Qed.
Next Obligation. intros v h r. cbn. by rewrite Z.eqb_refl. Qed.
Next Obligation. intros h. cbn. by rewrite Z.eqb_refl. Qed.
Next Obligation.
  intros v h r Hr. cbn. change (demo_io + 16 =? demo_io) with false. rewrite Z.eqb_refl. cbn. unfold update.
  by destruct (Z.eqb_spec r (chip_select h)).
Qed.
Next Obligation.
  intros v h i _ Hi. cbn. change (demo_io + 16 =? demo_io) with false. rewrite Z.eqb_refl. cbn. unfold update.
  rewrite Z.eqb_refl, !u32_testbit by done. by apply merge_bits.
Qed.
Next Obligation. done. Qed.
Next Obligation.
  intros off h Hoff. destruct (demo_local_addr off Hoff) as (E & H1 & H2). rewrite E. cbn. by rewrite (proj2 (Z.eqb_neq _ _) H2).
Qed.
Next Obligation.
  intros off mask v h Hin _. assert (lapic_offset off) as Hoff.
  { unfold local_masks in Hin. rewrite !elem_of_cons, elem_of_nil in Hin. unfold lapic_offset. destruct_or! Hin; simplify_eq; done. }
  destruct (demo_local_addr off Hoff) as (E & H1 & H2). rewrite E. cbn.
  rewrite (proj2 (Z.eqb_neq _ _) H1), (proj2 (Z.eqb_neq _ _) H2). cbn. unfold update. by rewrite Z.eqb_refl.
Qed.
Next Obligation.
  intros off off' v h Hoff Hoff' Hne _. destruct (demo_local_addr off Hoff) as (E & H1 & H2).
  destruct (demo_local_addr off' Hoff') as (E' & _). rewrite E, E'. cbn.
  rewrite (proj2 (Z.eqb_neq _ _) H1), (proj2 (Z.eqb_neq _ _) H2). cbn. unfold update.
  destruct (Z.eqb_spec (demo_lapic + off') (demo_lapic + off)); [lia|done].
Qed.
Next Obligation.
  intros off v h r Hoff. destruct (demo_local_addr off Hoff) as (E & H1 & H2). rewrite E. cbn.
  by rewrite (proj2 (Z.eqb_neq _ _) H1), (proj2 (Z.eqb_neq _ _) H2).
Qed.
Next Obligation. intros v h off _. cbn. by rewrite Z.eqb_refl. Qed.
Next Obligation. intros v h off _. cbn. change (demo_io + 16 =? demo_io) with false. by rewrite Z.eqb_refl. Qed.
Next Obligation. done. Qed.
Next Obligation. done. Qed.
Next Obligation. done. Qed.
Next Obligation. done. Qed.

(** All pins masked, the kernel at the devices. *)
Definition demo_apic (k : Kernel) (root : Z) : Apic :=
  MkApic k (u64 (root - hhdm k)) 0x1000 demo_lapic (MkIOApic 0 0xFEC00000 0) 0xFEC00000 0 false true
    (MkChips 0 (fun _ => 0x10000) (fun _ => 0)).

Lemma demo_connected root : connected (io := demo_io) (lapic := demo_lapic) (demo_apic small_kernel root).
Proof. done. Qed.

Lemma map_ioapic_routes_witness :
  exists s', map_ioapic 33 1 0 false false (demo_apic small_kernel 0) = Ok (tt, s') /\
    entry_at_pin s' 1 = MkRedirection 33 0 false false false false 0.
Proof.
  destruct (map_ioapic_routes (lapic := demo_lapic) 33 1 0 false false (demo_apic small_kernel 0))
    as (s' & E & _ & He & _); [apply demo_connected|lia|done|lia|].
  exists s'. split; [exact E|exact He].
Defined.

Lemma pit_wait_returns_witness :
  exists n s', pit_wait [1; 0; 2; 1]%nat 3 (demo_apic small_kernel 0) = Ok (drop n [1; 0; 2; 1]%nat, s') /\
    masked (entry_at_pin s' 2) = true.
Proof.
  destruct (pit_wait_returns (lapic := demo_lapic) [1; 0; 2; 1]%nat 3 (demo_apic small_kernel 0)) as [_ H];
    [apply demo_connected|done|lia|done|].
  destruct (H ltac:(discriminate)) as (n & s' & E & _ & _ & _ & Hm). exists n, s'. split; [exact E|exact Hm].
Defined.

Lemma init_lapic_timer_calibrates_witness :
  exists n s', init_lapic_timer [6; 6]%nat (demo_apic small_kernel 0) = Ok (drop n [6; 6]%nat, s') /\
    local_of s' LAPIC_TIMER_LVT_REGISTER = 40 + 2 ^ 17.
Proof.
  destruct (init_lapic_timer_calibrates (lapic := demo_lapic) [6; 6]%nat (demo_apic small_kernel 0))
    as (n & s1 & s2 & s' & _ & _ & _ & _ & E & Hv & _); [apply demo_connected|done|done|discriminate|].
  exists n, s'. split; [exact E|exact Hv].
Defined.

Lemma madt_zero_record_spins_witness :
  madt_loop 100 (replicate 46 0) 46 44 (demo_apic small_kernel 0) = Spin.
Proof. apply (madt_zero_record_spins _ _ _ 0); done. Defined.

(** Tables with one MADT: a processor and an I/O APIC. *)
Definition demo_records : list MadtRecord := [OtherRecord LOCAL_APIC [0; 0; 1; 0; 0; 0]; IoApicRecord 2 0 0xFEC00000 0].
Definition demo_madt_header : list Z :=
  [65; 80; 73; 67] ++ le_bytes 4 64 ++ replicate 28 0 ++ le_bytes 4 0xFEE00000 ++ replicate 4 0.
Definition demo_tables (a : Z) : list Z :=
  if a =? 0x1000 then replicate 4 0 ++ le_bytes 4 40 ++ replicate 28 0 ++ le_bytes 4 0x2000
  else if a =? 2 ^ 47 + 0x2000 then demo_madt_header ++ records_bytes demo_records
  else [].

Lemma init_apic_reads_madt_witness :
  exists root k s', new_root small_kernel = Ok (root, k) /\ init_apic demo_tables 5 (demo_apic k root) = Ok (tt, s') /\
    ioapic_device s' = MkIOApic 2 0xFEC00000 0 /\ lapic_addr s' = demo_lapic /\
    virt_to_phys (u64 (u64 (root - hhdm k) + hhdm k)) (u64 (0xFEC00000 + hhdm k)) (kernel s') = 0xFEC00000.
Proof.
  assert (exists root k s', new_root small_kernel = Ok (root, k) /\ init_apic demo_tables 5 (demo_apic k root) = Ok (tt, s') /\
    root = 2 ^ 47 + 69632) as (root & k & s' & Er & E & Hr).
  { destruct (value_of_some (obind (new_root small_kernel) (fun '(root, k) =>
        let+ (u, s) := init_apic demo_tables 5 (demo_apic k root) in Ok (root, s))) (2 ^ 47 + 69632)) as [s' Hs];
      [vm_compute; reflexivity|].
    apply obind_ok in Hs as ([root k] & Er & Hs). apply obind_ok in Hs as ([[] s''] & E & [= Hroot <-]).
    by exists root, k, s''. }
  destruct (new_root_spec small_kernel small_kernel_wf small_kernel_aligned) as [E2|(root2 & k2 & E2 & Hinv & Hc & _)];
    rewrite Er in E2; [discriminate E2|]. injection E2 as <- <-. destruct Hc as (_ & Hk & _).
  assert (u64 (u64 (root - hhdm k) + hhdm k) = root) as Hroot by (rewrite Hk, Hr; done).
  destruct (init_apic_reads_madt (io := demo_io) (lapic := demo_lapic) demo_tables (2 ^ 47 + 0x2000) demo_madt_header demo_records 5
    0xFEE00000 (demo_apic k root) {[(0, 0) := root]}) as [E3|(s3 & T3 & E3 & _ & _ & Hla & _ & Hio & Hmap)];
    cbn [kernel cr3 rsdt demo_apic]; rewrite ?Hroot, ?Hk; try done.
  - repeat constructor; done.
  - cbn. lia.
  - rewrite E in E3. discriminate E3.
  - rewrite E in E3. injection E3 as <-. exists root, k, s'. split_and!; [done|done|by injection Hio|done|].
    cbn [kernel cr3 demo_apic] in Hmap. rewrite Hroot in Hmap. rewrite Hroot. apply Hmap. set_solver.
Defined.
