(* ===== verification/Keyboard.v ===== *)
(** * drivers/keyboard.c: the PS/2 keyboard

    The interrupt handler edits the buffer of the pending read.  What it draws
    on the screen and the end-of-interrupt it sends are recorded as a list of
    actions; the ports it reads are arguments. *)
From S2P Require Import Prelude.

(** ** The code *)

Definition character_table : list Z :=
  [ 0; 0; 49; 50; 51; 52; 53; 54; 55; 56; 57; 48;
    45; 61; 0; 9; 113; 119; 101; 114; 116; 121; 117; 105;
    111; 112; 91; 93; 0; 0; 97; 115; 100; 102; 103; 104;
    106; 107; 108; 59; 39; 96; 0; 92; 122; 120; 99; 118;
    98; 110; 109; 44; 46; 47; 0; 42; 0; 32; 0; 0;
    0; 0; 0; 0; 0; 0; 0; 0; 0; 0; 0; 0;
    0; 0; 0; 0; 0; 0; 0; 0; 27; 0; 0; 0;
    0; 0; 0; 0; 0; 0; 0; 14; 28; 0; 0; 0;
    0; 0; 0; 0; 0; 47; 0; 0; 0; 0; 0; 0;
    0; 0; 0; 0; 0; 0; 0; 0; 0; 0; 0; 0;
    30; 31; 32; 33; 34; 35; 36; 37; 38; 39; 40; 0;
    0; 0; 0; 0; 0; 0; 0; 44 ].

Definition shifted_character_table : list Z :=
  [ 0; 0; 33; 64; 35; 36; 37; 94; 38; 42; 40; 41;
    95; 43; 0; 9; 81; 87; 69; 82; 84; 89; 85; 73;
    79; 80; 123; 125; 0; 0; 65; 83; 68; 70; 71; 72;
    74; 75; 76; 58; 34; 126; 0; 124; 90; 88; 67; 86;
    66; 78; 77; 60; 62; 63; 0; 42; 0; 32; 0; 0;
    0; 0; 0; 0; 0; 0; 0; 0; 0; 0; 0; 0;
    0; 0; 0; 0; 0; 0; 0; 0; 27; 0; 0; 0;
    0; 0; 0; 0; 0; 0; 0; 14; 28; 0; 0; 0;
    0; 0; 0; 0; 0; 63; 0; 0; 0; 0; 0; 0;
    0; 0; 0; 0; 0; 0; 0; 0; 0; 0; 0; 0;
    30; 31; 32; 33; 34; 35; 36; 37; 38; 39; 40; 0;
    0; 0; 0; 0; 0; 0; 0; 44 ].

(** [current_buffer] is the caller's buffer itself. *)
Record KeyboardData := {
  input_len : Z;
  currently_reading : bool;
  shifted : bool;
  caps : bool;
  current_buffer : list Z;
  buffer_size : Z
}.

(** What the handler does to the rest of the machine. *)
Inductive action :=
  | Print (c : Z)
  | MoveX (d : Z)
  | DrawCursor
  | EndOfInterrupt
  | EnableInterrupts.

(** [current_input_data] ([None] for a null pointer) and the actions so far,
    the latest first. *)
Record KbState := { current_input_data : option KeyboardData; actions : list action }.

Definition do_action (a : action) : M KbState unit :=
  modify (fun s => {| current_input_data := current_input_data s; actions := a :: actions s |}).

(** [current_input_data->...]: a null pointer is a bad access. *)
Definition kb : M KbState KeyboardData :=
  fun s => match current_input_data s with Some d => Ok (d, s) | None => Fault end.
Definition set_kb (d : KeyboardData) : M KbState unit :=
  modify (fun s => {| current_input_data := Some d; actions := actions s |}).

Definition with_len (n : Z) (d : KeyboardData) : KeyboardData :=
  {| input_len := n; currently_reading := currently_reading d; shifted := shifted d;
     caps := caps d; current_buffer := current_buffer d; buffer_size := buffer_size d |}.
Definition with_reading (b : bool) (d : KeyboardData) : KeyboardData :=
  {| input_len := input_len d; currently_reading := b; shifted := shifted d;
     caps := caps d; current_buffer := current_buffer d; buffer_size := buffer_size d |}.
Definition with_shifted (b : bool) (d : KeyboardData) : KeyboardData :=
  {| input_len := input_len d; currently_reading := currently_reading d; shifted := b;
     caps := caps d; current_buffer := current_buffer d; buffer_size := buffer_size d |}.
Definition with_caps (b : bool) (d : KeyboardData) : KeyboardData :=
  {| input_len := input_len d; currently_reading := currently_reading d; shifted := shifted d;
     caps := b; current_buffer := current_buffer d; buffer_size := buffer_size d |}.
Definition with_buffer (l : list Z) (d : KeyboardData) : KeyboardData :=
  {| input_len := input_len d; currently_reading := currently_reading d; shifted := shifted d;
     caps := caps d; current_buffer := l; buffer_size := buffer_size d |}.

(** [current_input_data->current_buffer[i] = c]. *)
Definition buffer_write (i c : Z) : M KbState unit :=
  let* d := kb in
  let* l := lift (wr (current_buffer d) i c) in
  set_kb (with_buffer l d).

Definition draw_cursor : M KbState unit := do_action DrawCursor.
Definition end_of_interrupt : M KbState unit := do_action EndOfInterrupt.

Definition is_lower (c : Z) : bool := (97 <=? c) && (c <=? 122).

(** The choice of [ch] from the tables. *)
Definition key_char (shifted caps : bool) (scancode : Z) : outcome Z :=
  if shifted && negb caps then rd shifted_character_table scancode
  else if shifted && caps then
    let+ c := rd character_table scancode in
    if is_lower c then Ok c else rd shifted_character_table scancode
  else if negb shifted && caps then
    let+ c := rd character_table scancode in
    if is_lower c then rd shifted_character_table scancode else Ok c
  else rd character_table scancode.

(** One interrupt, with the values of the status and the data port. *)
Definition keyboard_isr (status scancode : Z) : M KbState unit :=
  let* s := get in
  match current_input_data s with
  | None => ret tt
  | Some d =>
    if negb (currently_reading d) then ret tt
    else if Z.land status 1 =? 0 then ret tt
    else if negb (Z.land scancode 0x80 =? 0) then
      (if (scancode =? 0xAA) || (scancode =? 0xB6) then set_kb (with_shifted false d) else ret tt) ;;;
      end_of_interrupt
    else if (scancode =? 0x0E) && (input_len d >? 0) then
      do_action (Print 32) ;;;
      do_action (MoveX (-16)) ;;;
      do_action (Print 32) ;;;
      do_action (MoveX (-8)) ;;;
      draw_cursor ;;;
      set_kb (with_len (u64 (input_len d - 1)) d) ;;;
      buffer_write (u64 (input_len d - 1)) 0 ;;;
      end_of_interrupt
    else if scancode =? 0x3A then
      set_kb (with_caps (negb (caps d)) d) ;;;
      end_of_interrupt
    else if (scancode =? 0x2A) || (scancode =? 0x36) then
      set_kb (with_shifted true d) ;;;
      end_of_interrupt
    else if (scancode =? 0x1C) || (buffer_size d =? input_len d) then
      buffer_write (input_len d) 0 ;;;
      let* d := kb in
      set_kb (with_reading false d) ;;;
      do_action (Print 32) ;;;
      do_action (MoveX (-8)) ;;;
      end_of_interrupt
    else
      let* ch := lift (key_char (shifted d) (caps d) scancode) in
      do_action (Print ch) ;;;
      buffer_write (input_len d) ch ;;;
      let* d := kb in
      set_kb (with_len (u64 (input_len d + 1)) d) ;;;
      draw_cursor ;;;
      end_of_interrupt
  end.

(** [while (kb_data->currently_reading)]: the interrupts that arrive meanwhile. *)
Fixpoint wait_loop (interrupts : list (Z * Z)) : M KbState unit :=
  let* d := kb in
  if negb (currently_reading d) then ret tt
  else match interrupts with
  | [] => fun _ => Spin
  | (status, scancode) :: interrupts' => keyboard_isr status scancode ;;; wait_loop interrupts'
  end.

(** [read_ps2_kb] on the device data [kb_data]: returns the caller's buffer and
    the device data, whose buffer is released. *)
Definition read_ps2_kb (kb_data : KeyboardData) (buffer : list Z) (max_len : Z)
    (interrupts : list (Z * Z)) : M KbState (list Z * KeyboardData) :=
  draw_cursor ;;;
  set_kb {| input_len := input_len kb_data; currently_reading := true; shifted := shifted kb_data;
            caps := caps kb_data; current_buffer := buffer; buffer_size := u64 (max_len - 1) |} ;;;
  do_action EnableInterrupts ;;;
  wait_loop interrupts ;;;
  let* d := kb in
  let d' := with_len 0 (with_buffer [] d) in
  set_kb d' ;;;
  ret (current_buffer d, d').

(** [open_ps2_kb]: a zeroed [KeyboardData], for reading only. *)
Definition MODE_READONLY : Z := 1.
Definition open_ps2_kb (mode : Z) : option KeyboardData :=
  if negb (mode =? MODE_READONLY) then None
  else Some {| input_len := 0; currently_reading := false; shifted := false; caps := false;
               current_buffer := []; buffer_size := 0 |}.

Definition fresh_kb : KeyboardData :=
  {| input_len := 0; currently_reading := false; shifted := false; caps := false;
     current_buffer := []; buffer_size := 0 |}.
Definition kb_start : KbState := {| current_input_data := None; actions := [] |}.

(** Shift-h, i, backspace, o, enter. *)
Example read_demo :
  obind (read_ps2_kb fresh_kb (replicate 8 7) 8
    (map (fun c => (1, c)) [0x2A; 0x23; 0xAA; 0x17; 0x0E; 0x18; 0x1C]) kb_start)
    (fun '(r, _) => Ok (fst r)) = Ok [72; 111; 0; 7; 7; 7; 7; 7].
Proof. vm_compute. reflexivity. Qed.

(** ** The line editor it implements *)

(** The line typed so far, and the two modifier keys. *)
Record editor := { line : list Z; shift_on : bool; caps_on : bool }.

(** A letter is upper case when exactly one of shift and caps lock is on; any
    other key follows shift alone. *)
Definition char_of (shift caps : bool) (scancode : Z) : Z :=
  let c := nth (Z.to_nat scancode) character_table 0 in
  let up := nth (Z.to_nat scancode) shifted_character_table 0 in
  if is_lower c then (if xorb shift caps then up else c) else (if shift then up else c).

(** The effect of one scancode on a line of at most [limit] characters; the
    boolean says that the line is finished. *)
Definition press (limit scancode : Z) (e : editor) : editor * bool :=
  if 128 <=? scancode then
    ({| line := line e;
        shift_on := shift_on e && negb ((scancode =? 0xAA) || (scancode =? 0xB6));
        caps_on := caps_on e |}, false)
  else if (scancode =? 0x0E) && negb (bool_decide (line e = [])) then
    ({| line := removelast (line e); shift_on := shift_on e; caps_on := caps_on e |}, false)
  else if scancode =? 0x3A then
    ({| line := line e; shift_on := shift_on e; caps_on := negb (caps_on e) |}, false)
  else if (scancode =? 0x2A) || (scancode =? 0x36) then
    ({| line := line e; shift_on := true; caps_on := caps_on e |}, false)
  else if (scancode =? 0x1C) || (limit =? Zlen (line e)) then (e, true)
  else ({| line := line e ++ [char_of (shift_on e) (caps_on e) scancode];
           shift_on := shift_on e; caps_on := caps_on e |}, false).

(** The device data of a read of [n] bytes in progress represents an editor. *)
Record editing (n : Z) (d : KeyboardData) (e : editor) : Prop := {
  ed_reading : currently_reading d = true;
  ed_shift : shifted d = shift_on e;
  ed_caps : caps d = caps_on e;
  ed_size : buffer_size d = n - 1;
  ed_len : input_len d = Zlen (line e);
  ed_fits : Zlen (line e) <= n - 1;
  ed_buffer : exists tl, current_buffer d = line e ++ tl /\ Zlen (line e ++ tl) = n
}.

(** The read is over: the buffer holds the line and its terminator. *)
Definition finished (n : Z) (d : KeyboardData) (e : editor) : Prop :=
  currently_reading d = false /\ shifted d = shift_on e /\ caps d = caps_on e /\
  exists tl, current_buffer d = line e ++ 0 :: tl /\ Zlen (line e ++ 0 :: tl) = n.

Lemma key_char_of shift caps scancode :
  0 <= scancode < 128 -> key_char shift caps scancode = Ok (char_of shift caps scancode).
Proof.
  intros H.
  assert (forallb (fun n => match key_char shift caps (Z.of_nat n) with
    | Ok c => c =? char_of shift caps (Z.of_nat n) | _ => false end) (seq 0 128) = true) as Hall.
  { destruct shift, caps; vm_compute; reflexivity. }
  rewrite forallb_forall in Hall. specialize (Hall (Z.to_nat scancode)).
  rewrite Z2Nat.id in Hall by lia. destruct (key_char shift caps scancode);
    [f_equal; apply Z.eqb_eq, Hall|exfalso; cut (false = true); [done|apply Hall]..];
    apply in_seq; lia.
Qed.

Lemma high_bit scancode : 0 <= scancode < 256 -> (Z.land scancode 0x80 =? 0) = (scancode <? 128).
Proof.
  intros H.
  assert (forallb (fun n => Bool.eqb (Z.land (Z.of_nat n) 0x80 =? 0) (Z.of_nat n <? 128)) (seq 0 256) = true)
    as Hall by (vm_compute; reflexivity).
  rewrite forallb_forall in Hall. specialize (Hall (Z.to_nat scancode)).
  rewrite Z2Nat.id in Hall by lia. apply eqb_true_iff, Hall, in_seq. lia.
Qed.

(** A write at the end of the line. *)
Lemma buffer_write_run d acts l y tl c i :
  current_buffer d = l ++ y :: tl -> i = Zlen l ->
  buffer_write i c {| current_input_data := Some d; actions := acts |} =
    Ok (tt, {| current_input_data := Some (with_buffer (l ++ c :: tl) d); actions := acts |}).
Proof.
  intros Hb ->. unfold buffer_write, kb. unfold bind at 1. cbn [obind current_input_data].
  unfold lift, bind. rewrite Hb, wr_mid by done. reflexivity.
Qed.

(** Handling one scancode during a read. *)
(** The interrupt takes the editor [e] in the data [d] one step further. *)
Definition isr_steps (n : Z) (d : KeyboardData) (acts : list action) (status scancode : Z) (e : editor) : Prop :=
  exists d' acts', keyboard_isr status scancode {| current_input_data := Some d; actions := acts |} =
      Ok (tt, {| current_input_data := Some d'; actions := EndOfInterrupt :: acts' ++ acts |}) /\
    (EndOfInterrupt ∉ acts') /\
    (let (e', fin) := press (n - 1) scancode e in
     if fin then finished n d' e' else editing n d' e').

(** The data while the line [ln] is typed into a buffer that goes on with [tl]. *)
Definition typing (n : Z) (ln tl : list Z) (shift cap : bool) : KeyboardData :=
  {| input_len := Zlen ln; currently_reading := true; shifted := shift; caps := cap;
     current_buffer := ln ++ tl; buffer_size := n - 1 |}.

Section Step.
Context (n y : Z) (tl : list Z) (shift cap : bool) (acts : list action) (status scancode : Z).
Context (Hn : n < 2 ^ 64) (Hst : Z.land status 1 <> 0).
Abbreviation steps ln := (isr_steps n (typing n ln (y :: tl) shift cap) acts status scancode
  {| line := ln; shift_on := shift; caps_on := cap |}).

Ltac start :=
  unfold isr_steps, typing, keyboard_isr, press; rewrite bind_get;
  cbn [current_input_data currently_reading negb line shift_on caps_on input_len buffer_size shifted caps];
  destruct (Z.eqb_spec (Z.land status 1) 0) as [|_]; [done|]; rewrite high_bit by lia.

(** A key is released. *)
Lemma isr_release ln : Zlen ln <= n - 1 -> Zlen (ln ++ y :: tl) = n -> 128 <= scancode < 256 -> steps ln.
Proof using Hn Hst.
  intros Hfit Hlen Hsc. start. replace (scancode <? 128) with false by lia. replace (128 <=? scancode) with true by lia. cbn [negb].
  destruct ((scancode =? 0xAA) || (scancode =? 0xB6)); eexists _, []; (split; [reflexivity|]); (split; [set_solver|]);
    rewrite ?andb_false_r, ?andb_true_r; (split; try done; by exists (y :: tl)).
Qed.

(** Backspace takes the last character. *)
Lemma isr_erase ln z :
  Zlen (ln ++ [z]) <= n - 1 -> Zlen ((ln ++ [z]) ++ y :: tl) = n -> scancode = 0x0E -> steps (ln ++ [z]).
Proof using Hn Hst.
  intros Hfit Hlen ->. start. cbn [Z.ltb Z.compare Pos.compare Pos.compare_cont Z.leb Z.eqb Pos.eqb negb andb].
  replace (Zlen (ln ++ [z]) >? 0) with true by zlen. rewrite bool_decide_eq_false_2 by (by destruct ln). cbn [negb andb].
  exists {| input_len := Zlen ln; currently_reading := true; shifted := shift; caps := cap;
            current_buffer := ln ++ 0 :: y :: tl; buffer_size := n - 1 |}.
  exists [DrawCursor; MoveX (-8); Print 32; MoveX (-16); Print 32].
  rewrite removelast_last. split; [|split; [set_solver|]].
  - unfold draw_cursor, set_kb, end_of_interrupt, do_action. rewrite !bind_modify. cbn [current_input_data actions].
    pose proof (Zlen_nonneg ln). replace (u64 (Zlen (ln ++ [z]) - 1)) with (Zlen ln) by (rewrite u64_small; zlen).
    rewrite <- app_assoc. by erewrite bind_run by (by apply (buffer_write_run _ _ ln z (y :: tl))).
  - split; try done; cbn [line]; [zlen|]. exists (0 :: y :: tl). split; [done|]. zlen.
Qed.

(** Every other key. *)
Lemma isr_press ln :
  Zlen ln <= n - 1 -> Zlen (ln ++ y :: tl) = n -> 0 <= scancode < 128 -> (scancode = 0x0E -> ln = []) -> steps ln.
Proof using Hn Hst.
  intros Hfit Hlen Hsc Hbs. pose proof (Zlen_nonneg ln) as Hl0. start.
  replace (scancode <? 128) with true by lia. replace (128 <=? scancode) with false by lia. cbn [negb].
  assert ((scancode =? 0x0E) && (Zlen ln >? 0) = false /\ (scancode =? 0x0E) && negb (bool_decide (ln = [])) = false) as [-> ->]
    by (destruct (Z.eqb_spec scancode 0x0E) as [E|]; [by rewrite (Hbs E)|done]).
  destruct (scancode =? 0x3A).
  { eexists _, []. split; [reflexivity|]. split; [set_solver|]. split; try done. by exists (y :: tl). }
  destruct ((scancode =? 0x2A) || (scancode =? 0x36)).
  { eexists _, []. split; [reflexivity|]. split; [set_solver|]. split; try done. by exists (y :: tl). }
  destruct ((scancode =? 0x1C) || (n - 1 =? Zlen ln)) eqn:Efin.
  { exists {| input_len := Zlen ln; currently_reading := false; shifted := shift; caps := cap;
              current_buffer := ln ++ 0 :: tl; buffer_size := n - 1 |}, [MoveX (-8); Print 32].
    split; [|split; [set_solver|]].
    - erewrite bind_run by (by apply (buffer_write_run _ _ ln y tl)). reflexivity.
    - split_and!; try done. exists tl. split; [done|]. cbn [line]. zlen. }
  exists {| input_len := Zlen ln + 1; currently_reading := true; shifted := shift; caps := cap;
            current_buffer := ln ++ char_of shift cap scancode :: tl; buffer_size := n - 1 |}.
  exists [DrawCursor; Print (char_of shift cap scancode)]. split; [|split; [set_solver|]].
  - rewrite key_char_of by lia. unfold lift at 1, bind at 1. cbn [obind].
    unfold do_action at 1. rewrite bind_modify.
    erewrite bind_run by (by apply (buffer_write_run _ _ ln y tl)).
    unfold kb, bind at 1. cbn [obind current_input_data with_buffer input_len]. rewrite u64_small by lia. reflexivity.
  - apply orb_false_elim in Efin as [_ Efull].
    split; try done; cbn [line input_len current_buffer]; [zlen|zlen|]. exists tl. rewrite <- app_assoc. split; [done|]. zlen.
Qed.
End Step.

Lemma isr_step n d e acts status scancode :
  editing n d e -> n < 2 ^ 64 -> Z.land status 1 <> 0 -> 0 <= scancode < 256 ->
  exists d' acts', keyboard_isr status scancode {| current_input_data := Some d; actions := acts |} =
      Ok (tt, {| current_input_data := Some d'; actions := EndOfInterrupt :: acts' ++ acts |}) /\
    (EndOfInterrupt ∉ acts') /\
    (let (e', fin) := press (n - 1) scancode e in
     if fin then finished n d' e' else editing n d' e').
Proof.
  intros He Hn Hst Hsc. destruct d as [len rd sh ca buf sz]. destruct e as [ln shift cap].
  destruct He as [E1 E2 E3 E4 E5 Hfit (tl & Hbuf & Hlen)].
  cbn [input_len currently_reading shifted caps current_buffer buffer_size line shift_on caps_on] in *. subst rd sh ca sz len buf.
  destruct tl as [|y tl]; [rewrite app_nil_r in Hlen; lia|].
  destruct (Z.ltb_spec scancode 128) as [Hlo|Hhi]; [|apply isr_release; (done || lia)].
  destruct (decide (scancode = 0x0E)) as [Ebs|]; [|apply isr_press; (done || lia)].
  destruct ln as [|z ln _] using rev_ind; [apply isr_press; (done || lia)|]. apply isr_erase; (done || lia).
Qed.

(** The line a list of interrupts types, if they finish it. *)
Fixpoint type_line (limit : Z) (interrupts : list (Z * Z)) (e : editor) : option editor :=
  match interrupts with
  | [] => None
  | (status, scancode) :: interrupts' =>
      if Z.land status 1 =? 0 then type_line limit interrupts' e
      else
        let (e', fin) := press limit scancode e in
        if fin : bool then Some e' else type_line limit interrupts' e'
  end.

Lemma wait_loop_spec n interrupts d e acts :
  editing n d e -> n < 2 ^ 64 -> Forall (fun i => 0 <= snd i < 256) interrupts ->
  match type_line (n - 1) interrupts e with
  | Some e' => exists d' acts', finished n d' e' /\
      wait_loop interrupts {| current_input_data := Some d; actions := acts |} =
        Ok (tt, {| current_input_data := Some d'; actions := acts' |})
  | None => wait_loop interrupts {| current_input_data := Some d; actions := acts |} = Spin
  end.
Proof.
  intros He Hn Hi. revert d e acts He. induction Hi as [|[status scancode] rest Hsc _ IH]; intros d e acts He;
    cbn [type_line].
  - cbn [wait_loop]. unfold bind, kb. cbn. by rewrite (ed_reading _ _ _ He).
  - assert (wait_loop ((status, scancode) :: rest) {| current_input_data := Some d; actions := acts |} =
      (keyboard_isr status scancode ;;; wait_loop rest) {| current_input_data := Some d; actions := acts |}) as ->.
    { cbn [wait_loop]. unfold kb at 1, bind at 1. cbn [obind current_input_data].
      by rewrite (ed_reading _ _ _ He). }
    destruct (Z.eqb_spec (Z.land status 1) 0) as [E|E].
    + assert (keyboard_isr status scancode {| current_input_data := Some d; actions := acts |} =
        Ok (tt, {| current_input_data := Some d; actions := acts |})) as Hisr.
      { unfold keyboard_isr. rewrite bind_get. cbn [current_input_data].
        by rewrite (ed_reading _ _ _ He), E. }
      rewrite (bind_run _ _ _ _ _ Hisr). by apply IH.
    + destruct (isr_step n d e acts status scancode He Hn E Hsc) as (d' & acts' & Hisr & _ & Hp).
      rewrite (bind_run _ _ _ _ _ Hisr). destruct (press (n - 1) scancode e) as [e' [|]].
      * exists d', (EndOfInterrupt :: acts' ++ acts). split; [done|].
        destruct Hp as (Hr & _). destruct rest as [|[? ?] rest]; cbn [wait_loop]; unfold bind, kb; cbn;
          by rewrite Hr.
      * by apply IH.
Qed.

(** ** Theorems *)

(** C9: The interrupt handler is a line editor.  During a read of [n] bytes, each
    scancode changes the represented line, shift and caps lock as [press] says,
    never writes outside the caller's buffer, and acknowledges the interrupt
    exactly once, as its last action; the line is finished by Enter, or by the
    first printing key after the buffer is full, and then it is terminated in
    the buffer.  When no read is pending the handler does nothing at all: the
    interrupt is not acknowledged either. *)
Theorem keyboard_isr_edits n d e acts status scancode :
  (editing n d e -> n < 2 ^ 64 -> Z.land status 1 <> 0 -> 0 <= scancode < 256 ->
   exists d' acts', keyboard_isr status scancode {| current_input_data := Some d; actions := acts |} =
       Ok (tt, {| current_input_data := Some d'; actions := EndOfInterrupt :: acts' ++ acts |}) /\
     (EndOfInterrupt ∉ acts') /\
     (let (e', fin) := press (n - 1) scancode e in
      if fin then finished n d' e' else editing n d' e')) /\
  (forall s, (forall d, current_input_data s = Some d -> currently_reading d = false) ->
     keyboard_isr status scancode s = Ok (tt, s)).
Proof.
  split; [apply isr_step|]. intros [c acts'] Hc. unfold keyboard_isr. rewrite bind_get.
  cbn [current_input_data] in *. destruct c as [d'|]; [|done]. by rewrite (Hc d' eq_refl).
Qed.

Lemma editing_start n kb_data buffer :
  input_len kb_data = 0 -> Zlen buffer = n -> 1 <= n ->
  editing n {| input_len := 0; currently_reading := true; shifted := shifted kb_data;
               caps := caps kb_data; current_buffer := buffer; buffer_size := n - 1 |}
    {| line := []; shift_on := shifted kb_data; caps_on := caps kb_data |}.
Proof. intros Hl Hb Hn. split; try done; cbn [line]; [zlen|]. by exists buffer. Qed.

Lemma keyboard_isr_edits_witness :
  exists d' acts', keyboard_isr 1 0x23
      {| current_input_data := Some {| input_len := 0; currently_reading := true; shifted := false;
           caps := true; current_buffer := [5; 5; 5]; buffer_size := 2 |}; actions := [] |} =
       Ok (tt, {| current_input_data := Some d'; actions := EndOfInterrupt :: acts' ++ [] |}) /\
     (EndOfInterrupt ∉ acts') /\ editing 3 d' {| line := [72]; shift_on := false; caps_on := true |}.
Proof.
  refine (proj1 (keyboard_isr_edits 3 _ {| line := []; shift_on := false; caps_on := true |} [] 1 0x23)
    _ _ _ _); [|lia|done|lia].
  apply (editing_start 3 (with_caps true fresh_kb) [5; 5; 5]); [done|done|lia].
Defined.

(** C37: A read of [n] bytes from the keyboard returns exactly the line the
    interrupts type: the caller's buffer starts with the typed line and its
    terminator, its length is unchanged, the modifier keys persist, and the
    device is ready for the next read.  It waits forever exactly when the
    interrupts never finish the line. *)
Theorem read_ps2_kb_reads_line kb_data buffer n interrupts s :
  input_len kb_data = 0 -> Zlen buffer = n -> 1 <= n < 2 ^ 64 ->
  Forall (fun i => 0 <= snd i < 256) interrupts ->
  match type_line (n - 1) interrupts {| line := []; shift_on := shifted kb_data; caps_on := caps kb_data |} with
  | Some e => exists tl kb' s', read_ps2_kb kb_data buffer n interrupts s =
      Ok ((line e ++ 0 :: tl, kb'), s') /\ Zlen (line e ++ 0 :: tl) = n /\
      input_len kb' = 0 /\ currently_reading kb' = false /\ shifted kb' = shift_on e /\ caps kb' = caps_on e
  | None => read_ps2_kb kb_data buffer n interrupts s = Spin
  end.
Proof.
  intros Hl Hb Hn Hi. unfold read_ps2_kb, draw_cursor, do_action, set_kb. rewrite !bind_modify.
  cbn [current_input_data actions]. rewrite Hl, u64_small by lia.
  pose proof (wait_loop_spec n interrupts _ _ (EnableInterrupts :: DrawCursor :: actions s)
    (editing_start n kb_data buffer Hl Hb (proj1 Hn)) (proj2 Hn) Hi) as Hw.
  destruct (type_line _ _ _) as [e|].
  - destruct Hw as (d' & acts' & (Hr & Hs & Hc & tl & Hbuf & Hlen) & Hw).
    rewrite (bind_run _ _ _ _ _ Hw). unfold kb, bind at 1. cbn [obind current_input_data].
    rewrite bind_modify, Hbuf. exists tl, (with_len 0 (with_buffer [] d')). eexists. by split_and!.
  - unfold bind. by rewrite Hw.
Qed.

Lemma read_ps2_kb_reads_line_witness :
  exists tl kb' s', read_ps2_kb fresh_kb (replicate 8 7) 8
      (map (fun c => (1, c)) [0x2A; 0x23; 0xAA; 0x17; 0x0E; 0x18; 0x1C]) kb_start =
    Ok (([72; 111] ++ 0 :: tl, kb'), s') /\ Zlen ([72; 111] ++ 0 :: tl) = 8 /\
    input_len kb' = 0 /\ currently_reading kb' = false /\ shifted kb' = false /\ caps kb' = false.
Proof.
  refine (read_ps2_kb_reads_line fresh_kb (replicate 8 7) 8
    (map (fun c => (1, c)) [0x2A; 0x23; 0xAA; 0x17; 0x0E; 0x18; 0x1C]) kb_start _ _ _ _);
    [done|done|lia|repeat constructor; simpl; lia].
Defined.

(** A read of zero bytes is not bounded by the caller's buffer: its size
    wraps to 2^64 - 1, and the first printing key (or Enter) writes outside it. *)
Theorem read_zero_length_overruns kb_data scancode s :
  input_len kb_data = 0 -> 0 <= scancode < 128 -> scancode <> 0x3A -> scancode <> 0x2A ->
  scancode <> 0x36 -> read_ps2_kb kb_data [] 0 [(1, scancode)] s = Fault.
Proof.
  intros Hl Hsc H1 H2 H3. unfold read_ps2_kb, draw_cursor, do_action, set_kb. rewrite !bind_modify.
  cbn [current_input_data actions]. rewrite Hl. change (u64 (0 - 1)) with (2 ^ 64 - 1).
  assert (forall d acts i c, current_buffer d = [] ->
    buffer_write i c {| current_input_data := Some d; actions := acts |} = Fault) as Hw.
  { intros d acts i c Hd. unfold buffer_write, kb, bind, lift. cbn [obind current_input_data]. rewrite Hd.
    unfold wr. cbn [length Z.of_nat]. by destruct (_ || _) eqn:E; [|lia]. }
  cbn [wait_loop]. unfold bind at 1, bind at 1, kb at 1. cbn [obind current_input_data currently_reading negb].
  unfold bind at 1, keyboard_isr. rewrite bind_get. cbn [current_input_data currently_reading negb].
  change (Z.land 1 1 =? 0) with false. cbn iota.
  rewrite high_bit by lia. replace (scancode <? 128) with true by lia. cbn [negb input_len].
  rewrite andb_false_r.
  replace (scancode =? 0x3A) with false by lia.
  replace ((scancode =? 0x2A) || (scancode =? 0x36)) with false by lia. cbn [buffer_size].
  change (2 ^ 64 - 1 =? 0) with false. rewrite orb_false_r. destruct (scancode =? 0x1C).
  - unfold bind at 1. by rewrite Hw.
  - rewrite key_char_of by lia. unfold lift at 1, bind at 1. cbn [obind]. unfold do_action at 1.
    rewrite bind_modify. cbn [current_input_data actions]. unfold bind at 1. by rewrite Hw.
Qed.

Lemma read_zero_length_overruns_witness :
  read_ps2_kb fresh_kb [] 0 [(1, 0x1E)] kb_start = Fault.
Proof. apply (read_zero_length_overruns fresh_kb 0x1E kb_start); [done|lia|lia|lia|lia]. Defined.
