(* ===== verification/TempFS.v ===== *)
(** * fs/tempfs.c: the in-memory file system

    Inodes, directory entries and file nodes are objects of the store
    (Allocator.v).  A device inode dispatches to the functions of its driver,
    which are parameters; so is what [malloc] leaves in a block. *)
From S2P Require Import Prelude Allocator Chain Memory PMM KHeap Strings.

(** ** Data *)

(** [DeviceOps]: the addresses of the driver's functions. *)
Record DeviceOps := { dev_read : Z; dev_write : Z; dev_open : Z; dev_close : Z }.

Definition FILENODE_DATA_SIZE : Z := 4096 - 8.
Definition FILETYPE_DEVICE : Z := 1.
Definition FILENAME_SIZE : Z := 20.

Record FileNode := { data : list Z; fnext : Z }.
Record DirEntryNode := { entry_is_dir : bool; inode : Z; dnext : Z }.

(** [file_first_node] and [dir_first_node] are one field of a union. *)
Record Inode := {
  filename : list Z;
  size_pages : Z;
  file_len : Z;
  is_dir : bool;
  ftype : Z;
  operations : DeviceOps;
  private : Z;
  first_node : Z;
  num_entries : Z
}.

Definition sizeof_FileNode : Z := 4096.
Definition sizeof_DirEntryNode : Z := 24.
Definition sizeof_Inode : Z := 104.

(** A zeroed object. *)
Definition zero_Inode : Inode :=
  {| filename := replicate 20 0; size_pages := 0; file_len := 0; is_dir := false; ftype := 0;
     operations := {| dev_read := 0; dev_write := 0; dev_open := 0; dev_close := 0 |};
     private := 0; first_node := 0; num_entries := 0 |}.
Definition zero_DirEntryNode : DirEntryNode := {| entry_is_dir := false; inode := 0; dnext := 0 |}.

Definition set_filename (f : list Z) (n : Inode) : Inode :=
  {| filename := f; size_pages := size_pages n; file_len := file_len n; is_dir := is_dir n;
     ftype := ftype n; operations := operations n; private := private n;
     first_node := first_node n; num_entries := num_entries n |}.
Definition set_len (v : Z) (n : Inode) : Inode :=
  {| filename := filename n; size_pages := size_pages n; file_len := v; is_dir := is_dir n;
     ftype := ftype n; operations := operations n; private := private n;
     first_node := first_node n; num_entries := num_entries n |}.
Definition set_is_dir (b : bool) (n : Inode) : Inode :=
  {| filename := filename n; size_pages := size_pages n; file_len := file_len n; is_dir := b;
     ftype := ftype n; operations := operations n; private := private n;
     first_node := first_node n; num_entries := num_entries n |}.
Definition set_device (t : Z) (o : DeviceOps) (n : Inode) : Inode :=
  {| filename := filename n; size_pages := size_pages n; file_len := file_len n; is_dir := is_dir n;
     ftype := t; operations := o; private := private n;
     first_node := first_node n; num_entries := num_entries n |}.
Definition set_first (v : Z) (n : Inode) : Inode :=
  {| filename := filename n; size_pages := size_pages n; file_len := file_len n; is_dir := is_dir n;
     ftype := ftype n; operations := operations n; private := private n;
     first_node := v; num_entries := num_entries n |}.
Definition set_entries (v : Z) (n : Inode) : Inode :=
  {| filename := filename n; size_pages := size_pages n; file_len := file_len n; is_dir := is_dir n;
     ftype := ftype n; operations := operations n; private := private n;
     first_node := first_node n; num_entries := v |}.
Definition set_inode (v : Z) (e : DirEntryNode) : DirEntryNode :=
  {| entry_is_dir := entry_is_dir e; inode := v; dnext := dnext e |}.
Definition set_dnext (v : Z) (e : DirEntryNode) : DirEntryNode :=
  {| entry_is_dir := entry_is_dir e; inode := inode e; dnext := v |}.
Definition set_entry_is_dir (b : bool) (e : DirEntryNode) : DirEntryNode :=
  {| entry_is_dir := b; inode := inode e; dnext := dnext e |}.
Definition set_fnext (v : Z) (f : FileNode) : FileNode := {| data := data f; fnext := v |}.
Definition set_file_data (d : list Z) (f : FileNode) : FileNode := {| data := d; fnext := fnext f |}.

Section TempFS.
Context `{AL : Allocator} {Obj : Type}.
Context `{OI : !Object Inode Obj, OD : !Object DirEntryNode Obj, OF : !Object FileNode Obj}.
Abbreviation Mem := (M (Store Obj)).

(** ** The code *)

Section Entries.
(** What a fresh block of the heap holds. *)
Context (junk_Inode : Z -> Inode) (junk_DirEntryNode : Z -> DirEntryNode).

Definition tempfs_addentry (current_dir : Z) (dirname : list Z) (isdir : bool) : Mem Z :=
  let* dir := get_obj Inode current_dir in
  let this_entry := first_node dir in
  let* inode_new := raw_obj sizeof_Inode junk_Inode in
  let* new_entry := raw_obj sizeof_DirEntryNode junk_DirEntryNode in
  put_obj new_entry zero_DirEntryNode ;;;
  put_obj inode_new zero_Inode ;;;
  (if negb (this_entry =? 0) then
     let* dir := get_obj Inode current_dir in
     let* this_entry := linked_walk dnext (Z.to_nat (num_entries dir)) this_entry in
     set_field this_entry (set_dnext new_entry)
   else set_field current_dir (set_first new_entry)) ;;;
  let* ino := get_obj Inode inode_new in
  let* len := lift (ku_strlen dirname) in
  let* name := lift (ku_memcpy (filename ino) dirname len) in
  put_obj inode_new (set_filename name ino) ;;;
  set_field inode_new (set_is_dir isdir) ;;;
  set_field new_entry (set_inode inode_new) ;;;
  let* dir := get_obj Inode current_dir in
  put_obj current_dir (set_entries (u64 (num_entries dir + 1)) dir) ;;;
  let* e := get_obj DirEntryNode new_entry in
  ret (inode e).

Definition tempfs_mkdir_nonlinear (current_dir : Z) (dirname : list Z) (first_dir_entry : Z) : Mem unit :=
  let* new_inode := tempfs_addentry current_dir dirname true in
  set_field new_inode (set_first first_dir_entry).

Definition dot : list Z := [46; 0].
Definition dotdot : list Z := [46; 46; 0].

(** [p->filename[i] = c]. *)
Definition set_filename_char (p i c : Z) : Mem unit :=
  let* n := get_obj Inode p in
  let* f := lift (wr (filename n) i c) in
  put_obj p (set_filename f n).

Definition tempfs_new : Mem Z :=
  let* root_inode := raw_obj sizeof_Inode junk_Inode in
  let* first := raw_obj sizeof_DirEntryNode junk_DirEntryNode in
  set_field root_inode (set_first first) ;;;
  let* first_inode := raw_obj sizeof_Inode junk_Inode in
  set_field first (set_inode first_inode) ;;;
  set_field first (set_entry_is_dir true) ;;;
  set_filename_char first_inode 0 46 ;;;
  set_filename_char first_inode 1 0 ;;;
  set_field first_inode (set_is_dir true) ;;;
  set_field first_inode (set_first first) ;;;
  set_field first_inode (set_entries 2) ;;;
  tempfs_mkdir_nonlinear root_inode dotdot first ;;;
  set_field root_inode (set_is_dir true) ;;;
  ret root_inode.

Definition tempfs_mkdir (current_dir : Z) (dirname : list Z) : Mem unit :=
  let* new_inode := tempfs_addentry current_dir dirname true in
  let* first := raw_obj sizeof_DirEntryNode junk_DirEntryNode in
  set_field new_inode (set_first first) ;;;
  let* first_inode := raw_obj sizeof_Inode junk_Inode in
  set_field first (set_inode first_inode) ;;;
  put_obj first_inode zero_Inode ;;;
  set_field first (set_entry_is_dir true) ;;;
  put_obj first_inode zero_Inode ;;;
  set_filename_char first_inode 0 46 ;;;
  set_field first_inode (set_is_dir true) ;;;
  set_field first_inode (set_first first) ;;;
  set_field first_inode (set_entries 2) ;;;
  let* dir := get_obj Inode current_dir in
  tempfs_mkdir_nonlinear new_inode dotdot (first_node dir).

Definition tempfs_mkfile (current_dir : Z) (name : list Z) : Mem unit :=
  tempfs_addentry current_dir name false ;;; ret tt.

Definition tempfs_create_device (current_dir : Z) (devname : list Z) (ops : DeviceOps) : Mem unit :=
  let* new_device := tempfs_addentry current_dir devname false in
  set_field new_device (set_device FILETYPE_DEVICE ops).

End Entries.

(** [while (this_entry != NULL)]; [this_inode] is the inode of [this_entry]. *)
Fixpoint find_loop (fuel : nat) (this_entry this_inode : Z) (dirname : list Z) : Mem Z :=
  if this_entry =? 0 then ret 0
  else match fuel with
  | O => fun _ => Spin
  | S fuel' =>
      let* ino := get_obj Inode this_inode in
      let* eq := lift (ku_strcmp (filename ino) dirname) in
      let* e := get_obj DirEntryNode this_entry in
      if eq : bool then ret (inode e)
      else
        if negb (dnext e =? 0) then
          let* e' := get_obj DirEntryNode (dnext e) in
          find_loop fuel' (dnext e) (inode e') dirname
        else find_loop fuel' (dnext e) this_inode dirname
  end.
Definition tempfs_find (current_dir : Z) (dirname : list Z) : Mem Z :=
  let* dir := get_obj Inode current_dir in
  let* e := get_obj DirEntryNode (first_node dir) in
  let* s := get in
  find_loop (base.size (objs s)) (first_node dir) (inode e) dirname.

Definition tempfs_find_root (fs : Z) : Z := fs.

Definition tempfs_length (file : Z) : Mem Z :=
  let* f := get_obj Inode file in ret (file_len f).

Section Files.
Context (junk_FileNode : Z -> FileNode).
(** The drivers behind the function pointers. *)
Context (call_read : Z -> Z -> list Z -> Z -> Mem (Z * list Z)) (call_write : Z -> Z -> list Z -> Z -> Mem Z).
Context (call_open : Z -> Z -> Z -> Mem unit) (call_close : Z -> Z -> Mem unit).

(** [for (i = 0; i < len; i += FILENODE_DATA_SIZE)]; [from] is what is left of
    the caller's buffer from [data + i]. *)
Fixpoint write_loop (fuel : nat) (this_fnode : Z) (from : list Z) (i len len_left : Z) : Mem unit :=
  if negb (i <? len) then ret tt
  else match fuel with
  | O => fun _ => Spin
  | S fuel' =>
      let* f := get_obj FileNode this_fnode in
      (if fnext f =? 0 then
         let* n := raw_obj sizeof_FileNode junk_FileNode in
         set_field this_fnode (set_fnext n) ;;;
         set_field n (set_fnext 0)
       else ret tt) ;;;
      let amount_to_copy := if len_left >? FILENODE_DATA_SIZE then FILENODE_DATA_SIZE else len_left in
      let* f := get_obj FileNode this_fnode in
      let* d := lift (ku_memcpy (data f) from amount_to_copy) in
      put_obj this_fnode (set_file_data d f) ;;;
      write_loop fuel' (fnext f) (drop (Z.to_nat FILENODE_DATA_SIZE) from)
        (u64 (i + FILENODE_DATA_SIZE)) len (u64 (len_left - FILENODE_DATA_SIZE))
  end.
Definition tempfs_write (file : Z) (from : list Z) (len : Z) : Mem Z :=
  let* f := get_obj Inode file in
  if ftype f =? FILETYPE_DEVICE then call_write (dev_write (operations f)) file from len
  else
    put_obj file (set_len len f) ;;;
    (if first_node f =? 0 then
       let* n := raw_obj sizeof_FileNode junk_FileNode in
       set_field file (set_first n)
     else ret tt) ;;;
    let* f := get_obj Inode file in
    write_loop (S (Z.to_nat (len / FILENODE_DATA_SIZE))) (first_node f) from 0 len len ;;;
    ret 0.

(** [buffer] is the caller's whole buffer. *)
Fixpoint read_loop (fuel : nat) (this_fnode : Z) (buffer : list Z) (i max_len len_left : Z)
    : Mem (list Z) :=
  if negb ((i <? max_len) && negb (this_fnode =? 0)) then ret buffer
  else match fuel with
  | O => fun _ => Spin
  | S fuel' =>
      let amount_to_copy := if len_left >? FILENODE_DATA_SIZE then FILENODE_DATA_SIZE else len_left in
      let* f := get_obj FileNode this_fnode in
      let* tl := lift (ku_memcpy (drop (Z.to_nat i) buffer) (data f) amount_to_copy) in
      read_loop fuel' (fnext f) (take (Z.to_nat i) buffer ++ tl)
        (u64 (i + FILENODE_DATA_SIZE)) max_len (u64 (len_left - FILENODE_DATA_SIZE))
  end.
Definition tempfs_read (file : Z) (buffer : list Z) (max_len : Z) : Mem (Z * list Z) :=
  let* f := get_obj Inode file in
  if ftype f =? FILETYPE_DEVICE then call_read (dev_read (operations f)) file buffer max_len
  else
    let* b := read_loop (S (Z.to_nat (max_len / FILENODE_DATA_SIZE))) (first_node f) buffer 0 max_len max_len in
    ret (0, b).

Definition tempfs_open_dir (dir : Z) : Mem Z :=
  let* d := get_obj Inode dir in
  if is_dir d then ret dir else ret 0.

Definition tempfs_open_file (file mode : Z) : Mem Z :=
  let* f := get_obj Inode file in
  if ftype f =? FILETYPE_DEVICE then
    call_open (dev_open (operations f)) file mode ;;; ret file
  else if negb (is_dir f) then ret file else ret 0.

Definition tempfs_close (ino : Z) : Mem unit :=
  let* f := get_obj Inode ino in
  if ftype f =? FILETYPE_DEVICE then call_close (dev_close (operations f)) ino else ret tt.
End Files.

(** ** What a directory represents *)

(** The inode of the first entry called [nm], or NULL. *)
Fixpoint find_entry (nm : list Z) (ents : list (list Z * Z)) : Z :=
  match ents with
  | [] => 0
  | (nm', p) :: ents' => if bool_decide (nm' = nm) then p else find_entry nm ents'
  end.

Abbreviation entries := (linked dnext inode).

(** The directory inode [d] has the entries [ents] (names and inodes), in the
    nodes [ns]. *)
Record directory (s : Store Obj) (d : Z) (ns : list Z) (ents : list (list Z * Z)) : Prop := {
  dir_inode : exists r, typed_at s d r /\ is_dir r = true /\ num_entries r = Zlen ents - 1 /\
    entries s (first_node r) ns (map snd ents) 0;
  dir_nonempty : ents <> [];
  dir_names : Forall (fun e => exists x, typed_at s (snd e) x /\ c_string (fst e) (filename x) /\
    Zlen (fst e) < FILENAME_SIZE) ents;
  dir_nodup : NoDup (d :: ns)
}.

Lemma find_loop_spec s a ns ents nm dirname fuel :
  store_ok s -> entries s a ns (map snd ents) 0 ->
  Forall (fun e => exists x, typed_at s (snd e) x /\ c_string (fst e) (filename x) /\
    Zlen (fst e) < FILENAME_SIZE) ents ->
  c_string nm dirname -> Zlen nm < 2 ^ 31 -> (length ents <= fuel)%nat ->
  find_loop fuel a (match ents with (_, p) :: _ => p | [] => 0 end) dirname s =
    Ok (find_entry nm ents, s).
Proof using.
  intros Hok. revert a ns ents.
  induction fuel as [|fuel IH]; intros a ns ents Hch Hn Hc Hl Hf;
    (destruct ents as [|[nm0 p0] ents]; cbn [map] in Hch;
     [apply linked_nil in Hch as [_ ->]; reflexivity|]); cbn in Hf; [lia|].
  pose proof (linked_not_null _ _ _ _ _ Hok Hch ltac:(done)) as Ha.
  cbn [find_loop]. destruct (Z.eqb_spec a 0) as [|_]; [done|].
  apply Forall_cons in Hn as [(x & Hx & Hnm & Hlen) Hn]. cbn [fst snd] in *.
  apply linked_cons in Hch as (r & ns' & -> & Hr & Hv & Hch). cbn [fst snd] in Hv.
  rewrite (bind_run _ _ _ _ _ (get_obj_run _ _ _ Hx)).
  unfold FILENAME_SIZE in Hlen.
  rewrite (ku_strcmp_spec nm0 nm _ _ Hnm Hc) by lia. unfold lift at 1, bind at 1. cbn [obind].
  rewrite (bind_run _ _ _ _ _ (get_obj_run _ _ _ Hr)). cbn [find_entry].
  destruct (bool_decide (nm0 = nm)); [by rewrite Hv|].
  destruct ents as [|[nm1 p1] ents].
  - apply linked_nil in Hch as [_ E]. rewrite E. cbn [Z.eqb negb].
    destruct fuel; reflexivity.
  - cbn [map fst snd] in Hch. pose proof (linked_not_null _ _ _ _ _ Hok Hch ltac:(done)) as Hne.
    destruct (Z.eqb_spec (dnext r) 0) as [|_]; [done|]. cbn [negb].
    pose proof Hch as Hch'. apply linked_cons in Hch' as (r1 & ns1 & _ & Hr1 & Hv1 & _).
    rewrite (bind_run _ _ _ _ _ (get_obj_run _ _ _ Hr1)), Hv1.
    eapply (IH _ _ ((nm1, p1) :: ents)); try done. cbn in *. lia.
Qed.

Definition named (s : Store Obj) (ents : list (list Z * Z)) : Prop :=
  Forall (fun e => exists x, typed_at s (snd e) x /\ c_string (fst e) (filename x) /\
    Zlen (fst e) < FILENAME_SIZE) ents.

(** Whatever [num_entries] says, [tempfs_find] goes through the whole chain. *)
Lemma tempfs_find_chain s d r ns ents nm dirname :
  store_ok s -> typed_at s d r -> entries s (first_node r) ns (map snd ents) 0 -> ents <> [] ->
  named s ents -> NoDup ns -> c_string nm dirname -> Zlen nm < 2 ^ 31 ->
  tempfs_find d dirname s = Ok (find_entry nm ents, s).
Proof using.
  intros Hok Hr Hch Hne Hn Hnd Hc Hl. unfold tempfs_find.
  rewrite (bind_run _ _ _ _ _ (get_obj_run _ _ _ Hr)).
  destruct ents as [|[nm0 p0] ents]; [done|]. pose proof Hch as Hch'. cbn [map fst snd] in Hch'.
  apply linked_cons in Hch' as (r0 & ns0 & -> & Hr0 & Hv0 & _).
  rewrite (bind_run _ _ _ _ _ (get_obj_run _ _ _ Hr0)), bind_get, Hv0.
  eapply (find_loop_spec s _ _ ((nm0, p0) :: ents)); try done.
  pose proof (linked_length _ _ _ _ _ Hch) as Hlen. pose proof (linked_in_store _ _ _ _ _ Hch) as Hd.
  apply subseteq_size in Hd. rewrite size_list_to_set, size_dom in Hd by done.
  unfold Zlen in Hlen. rewrite length_map in Hlen. lia.
Qed.

Lemma tempfs_find_spec s d ns ents nm dirname :
  store_ok s -> directory s d ns ents -> c_string nm dirname -> Zlen nm < 2 ^ 31 ->
  tempfs_find d dirname s = Ok (find_entry nm ents, s).
Proof using.
  intros Hok [(r & Hr & _ & _ & Hch) Hne Hn [_ Hnd]%NoDup_cons] Hc Hl.
  by eapply tempfs_find_chain.
Qed.

Lemma find_entry_app nm ents nm' p :
  find_entry nm (ents ++ [(nm', p)]) =
    if bool_decide (nm ∈ map fst ents) then find_entry nm ents
    else if bool_decide (nm' = nm) then p else 0.
Proof using.
  induction ents as [|[nm0 p0] ents IH]; [done|]. cbn [app find_entry map fst].
  rewrite IH. destruct (decide (nm0 = nm)) as [->|Hne].
  - rewrite !(bool_decide_eq_true_2 (nm = nm)) by done. by rewrite bool_decide_eq_true_2 by left.
  - rewrite (bool_decide_eq_false_2 (nm0 = nm)) by done.
    erewrite (bool_decide_ext (nm ∈ nm0 :: map fst ents)); [done|].
    rewrite elem_of_cons. naive_solver.
Qed.

(** ** Adding an entry *)

Section AddEntry.
Context (junk_Inode : Z -> Inode) (junk_DirEntryNode : Z -> DirEntryNode).
Abbreviation addentry := (tempfs_addentry junk_Inode junk_DirEntryNode).

(** The inode [tempfs_addentry] makes. *)
Definition entry_Inode (nm : list Z) (isdir : bool) : Inode :=
  set_is_dir isdir (set_filename (nm ++ drop (length nm) (replicate 20 0)) zero_Inode).

Lemma entry_name nm : Zlen nm < FILENAME_SIZE -> Forall (fun c => c <> 0) nm ->
  c_string nm (nm ++ drop (length nm) (replicate 20 0)).
Proof using.
  intros Hl Hn. split; [done|]. unfold FILENAME_SIZE, Zlen in Hl. rewrite drop_replicate.
  destruct (20 - length nm)%nat as [|m] eqn:E; [lia|]. by exists (replicate m 0).
Qed.

(** The store after the two allocations and the writes of [tempfs_addentry]. *)
Definition added (s : Store Obj) (d c p n : Z) (rd : Inode) (rc : DirEntryNode) (nm : list Z) (isdir : bool)
    : gmap Z Obj :=
  <[d := to_obj (set_entries (num_entries rd + 1) rd)]>
  (<[n := to_obj (set_inode p zero_DirEntryNode)]>
  (<[p := to_obj (entry_Inode nm isdir)]>
  (<[c := to_obj (set_dnext n rc)]> (objs s)))).

(** The two zeroed records of a new entry. *)
Lemma fresh_entry {B} s (f : Z -> Z -> Mem B) :
  store_ok s ->
  let m := (let* p := raw_obj sizeof_Inode junk_Inode in
            let* n := raw_obj sizeof_DirEntryNode junk_DirEntryNode in
            put_obj n zero_DirEntryNode ;;; put_obj p zero_Inode ;;; f p n) in
  (exists p n s', m s = f p n s' /\ store_ok s' /\ (p ∉ dom (objs s)) /\ (n ∉ dom (objs s)) /\ p <> n /\
     objs s' = <[p := to_obj zero_Inode]> (<[n := to_obj zero_DirEntryNode]> (objs s))) \/
  m s = Halted.
Proof using.
  intros Hok m. unfold m.
  destruct (raw_obj_spec s sizeof_Inode junk_Inode Hok) as [(p & s1 & E1 & Hp & _ & Hok1 & Ho1)|E1];
    [by unfold sizeof_Inode| |right; unfold bind; by rewrite E1].
  rewrite (bind_run _ _ _ _ _ E1).
  destruct (raw_obj_spec s1 sizeof_DirEntryNode junk_DirEntryNode Hok1)
    as [(n & s2 & E2 & Hn & _ & Hok2 & Ho2)|E2];
    [by unfold sizeof_DirEntryNode|left|right; unfold bind; by rewrite E2].
  rewrite (bind_run _ _ _ _ _ E2).
  rewrite Ho1, dom_insert in Hn. apply not_elem_of_union in Hn as [Hnp%not_elem_of_singleton Hn].
  assert (typed_at s2 n (junk_DirEntryNode n)) as Hn2 by (unfold typed_at; by rewrite Ho2, lookup_insert_eq).
  rewrite (bind_run _ _ _ _ _ (put_obj_run _ _ _ zero_DirEntryNode Hn2)). set (s3 := MkStore _ _).
  assert (objs s2 !! p = Some (to_obj (junk_Inode p))) as Hp2 by (by rewrite Ho2, Ho1, lookup_insert_ne, lookup_insert_eq).
  assert (typed_at s3 p (junk_Inode p)) as Hp3 by look.
  rewrite (bind_run _ _ _ _ _ (put_obj_run _ _ _ zero_Inode Hp3)). exists p, n. eexists. split; [reflexivity|].
  split_and!; try done; [eapply put_obj_ok; [|exact Hp3]; by eapply put_obj_ok|].
  unfold s3. cbn [objs]. rewrite Ho2, Ho1. apply map_eq. intros q.
  destruct (decide (q = p)) as [->|]; [by simplify_map_eq|]. destruct (decide (q = n)) as [->|]; by simplify_map_eq.
Qed.

(** The name of an entry, its records and the count of its directory. *)
Lemma fill_entry s d r p n nm dirname isdir :
  typed_at s d r -> typed_at s p zero_Inode -> typed_at s n zero_DirEntryNode -> d <> p -> d <> n -> p <> n ->
  c_string nm dirname -> Zlen nm < FILENAME_SIZE -> 0 <= num_entries r < 2 ^ 64 - 1 -> store_ok s ->
  let m := (let* ino := get_obj Inode p in
            let* len := lift (ku_strlen dirname) in
            let* name := lift (ku_memcpy (filename ino) dirname len) in
            put_obj p (set_filename name ino) ;;;
            set_field p (set_is_dir isdir) ;;;
            set_field n (set_inode p) ;;;
            let* dir := get_obj Inode d in
            put_obj d (set_entries (u64 (num_entries dir + 1)) dir) ;;;
            let* e := get_obj DirEntryNode n in ret (inode e)) in
  exists s', m s = Ok (p, s') /\ store_ok s' /\
    objs s' = <[d := to_obj (set_entries (num_entries r + 1) r)]> (<[n := to_obj (set_inode p zero_DirEntryNode)]>
      (<[p := to_obj (entry_Inode nm isdir)]> (objs s))).
Proof using.
  intros Hd Hp Hn Hdp Hdn Hpn Hc Hl Hnum Hok m. unfold m. clear m.
  rewrite (bind_run _ _ _ _ _ (get_obj_run _ _ _ Hp)), (bind_lift _ _ _ _ (c_string_strlen _ _ Hc)).
  destruct Hc as [Hnz [tl ->]]. unfold FILENAME_SIZE in Hl.
  assert (ku_memcpy (filename zero_Inode) (nm ++ 0 :: tl) (Zlen nm) = Ok (nm ++ drop (length nm) (replicate 20 0))) as Hcpy.
  { unfold ku_memcpy. cbn [filename zero_Inode]. rewrite Zlen_to_nat, take_app_length. destruct (_ && _) eqn:E; [done|]. zlen. }
  rewrite (bind_lift _ _ _ _ Hcpy), (bind_run _ _ _ _ _ (put_obj_run _ _ _ _ Hp)). set (s6 := MkStore _ _).
  assert (typed_at s6 p (set_filename (nm ++ drop (length nm) (replicate 20 0)) zero_Inode)) as Hp6 by look.
  rewrite (bind_run _ _ _ _ _ (set_field_run _ _ _ _ Hp6)). set (s7 := MkStore _ _).
  assert (typed_at s7 n zero_DirEntryNode) as Hn7 by look.
  rewrite (bind_run _ _ _ _ _ (set_field_run _ _ _ _ Hn7)). set (s8 := MkStore _ _).
  assert (typed_at s8 d r) as Hd8 by look.
  rewrite (bind_run _ _ _ _ _ (get_obj_run _ _ _ Hd8)), u64_small by lia.
  rewrite (bind_run _ _ _ _ _ (put_obj_run _ _ _ _ Hd8)). set (s9 := MkStore _ _).
  assert (typed_at s9 n (set_inode p zero_DirEntryNode)) as Hn9 by look.
  rewrite (bind_run _ _ _ _ _ (get_obj_run _ _ _ Hn9)). exists s9. split; [reflexivity|]. split.
  - apply (put_obj_ok s8 d r); [|done]. apply (put_obj_ok s7 n zero_DirEntryNode); [|done].
    eapply (put_obj_ok s6 p); [|exact Hp6]. by eapply put_obj_ok.
  - unfold s9, s8, s7, s6. cbn [objs]. by rewrite insert_insert_eq.
Qed.

Lemma addentry_run s d r ns1 c rc ents1 nm dirname isdir :
  store_ok s -> typed_at s d r -> entries s (first_node r) ns1 ents1 c -> typed_at s c rc ->
  c <> 0 -> first_node r <> 0 -> num_entries r = Zlen ents1 -> Zlen ents1 + 1 < 2 ^ 64 ->
  d <> c -> c_string nm dirname -> Zlen nm < FILENAME_SIZE ->
  (exists p n s', addentry d dirname isdir s = Ok (p, s') /\ store_ok s' /\
     (p ∉ dom (objs s)) /\ (n ∉ dom (objs s)) /\ p <> n /\ objs s' = added s d c p n r rc nm isdir) \/
  addentry d dirname isdir s = Halted.
Proof using.
  intros Hok Hr Hch Hrc Hc0 Hf0 Hnum Hlen Hdc Hc Hl. pose proof (Zlen_nonneg ents1).
  pose proof (elem_of_dom_2 _ _ _ Hr) as Hdd. pose proof (elem_of_dom_2 _ _ _ Hrc) as Hdc'.
  unfold tempfs_addentry. rewrite (bind_run _ _ _ _ _ (get_obj_run _ _ _ Hr)). cbv zeta.
  match goal with |- context [bind (raw_obj sizeof_Inode junk_Inode) (fun x => bind _ (fun y => bind _ (fun _ => bind _ (fun _ => @?f x y))))] =>
    destruct (fresh_entry s f Hok) as [(p & n & s4 & E & Hok4 & Hp & Hn & Hpn & Ho4)|E] end; rewrite E; [left|by right]. clear E.
  assert (d <> p /\ d <> n /\ c <> p /\ c <> n) as (Hdp & Hdn & Hcp & Hcn) by (split_and!; intros ->; done).
  assert (forall q, q ∈ dom (objs s) -> objs s4 !! q = objs s !! q) as Hold
    by (intros q Hq; rewrite Ho4, !lookup_insert_ne by congruence; done).
  destruct (Z.eqb_spec (first_node r) 0) as [|_]; [done|]. cbn [negb].
  assert (typed_at s4 d r) as Hr4 by (unfold typed_at; by rewrite Hold).
  assert (typed_at s4 c rc) as Hc4 by (unfold typed_at; by rewrite Hold).
  rewrite bind_assoc, (bind_run _ _ _ _ _ (get_obj_run _ _ _ Hr4)), Hnum, bind_assoc.
  assert (entries s4 (first_node r) ns1 ents1 c) as Hch4.
  { eapply linked_frame; [|exact Hch]. intros q Hq. apply Hold, (linked_in_store _ _ _ _ _ Hch). by apply elem_of_list_to_set. }
  rewrite (bind_run _ _ _ _ _ (linked_walk_run_Z _ _ _ _ _ _ Hch4 eq_refl)), (bind_run _ _ _ _ _ (set_field_run _ _ _ _ Hc4)).
  set (s5 := MkStore _ _).
  destruct (fill_entry s5 d r p n nm dirname isdir) as (s9 & E & Hok9 & Ho9); try done; try lia;
    [look|unfold typed_at, s5; cbn [objs]; rewrite lookup_insert_ne, Ho4 by done; by simplify_map_eq|
     unfold typed_at, s5; cbn [objs]; rewrite lookup_insert_ne, Ho4 by done; by simplify_map_eq|by eapply put_obj_ok|].
  exists p, n, s9. split; [exact E|]. split_and!; try done. rewrite Ho9. unfold s5, added. cbn [objs]. rewrite Ho4.
  apply map_eq. intros q. destruct (decide (q = d)) as [->|]; [by simplify_map_eq|].
  destruct (decide (q = n)) as [->|]; [by simplify_map_eq|]. destruct (decide (q = p)) as [->|]; [by simplify_map_eq|].
  destruct (decide (q = c)) as [->|]; by simplify_map_eq.
Qed.

(** What [added] keeps and changes. *)
Lemma added_spec s s' d c p n r rc nm isdir :
  objs s' = added s d c p n r rc nm isdir -> typed_at s d r -> typed_at s c rc ->
  (p ∉ dom (objs s)) -> (n ∉ dom (objs s)) -> p <> n -> d <> c ->
  typed_at s' p (entry_Inode nm isdir) /\ typed_at s' n (set_inode p zero_DirEntryNode) /\ typed_at s' c (set_dnext n rc) /\
  typed_at s' d (set_entries (num_entries r + 1) r) /\ dom (objs s) ⊆ dom (objs s') /\ same_except {[d; c]} s s'.
Proof using.
  intros Ho Hr Hrc Hp Hn Hpn Hdc. apply elem_of_dom_2 in Hr as Hd, Hrc as Hc.
  assert (d <> p /\ d <> n /\ c <> p /\ c <> n) as (Hdp & Hdn & Hcp & Hcn) by (split_and!; intros ->; done).
  unfold typed_at. rewrite Ho. unfold added. split_and!; [by simplify_map_eq..| |].
  - rewrite !dom_insert. clear junk_Inode junk_DirEntryNode. set_solver.
  - intros q Hq Hqd. rewrite Ho. unfold added. apply not_elem_of_union in Hq as [?%not_elem_of_singleton ?%not_elem_of_singleton].
    by rewrite !lookup_insert_ne by congruence.
Qed.

(** A directory with one more entry. *)
Lemma addentry_spec s d ns ents nm dirname isdir :
  store_ok s -> directory s d ns ents -> c_string nm dirname -> Zlen nm < FILENAME_SIZE ->
  Zlen ents < 2 ^ 64 -> (d ∉ map snd ents) -> (forall q, q ∈ ns -> q ∉ map snd ents) ->
  (exists p n s', addentry d dirname isdir s = Ok (p, s') /\ store_ok s' /\
     (p ∉ dom (objs s)) /\ (n ∉ dom (objs s)) /\ p <> n /\
     directory s' d (ns ++ [n]) (ents ++ [(nm, p)]) /\ typed_at s' p (entry_Inode nm isdir) /\
     same_except ({[d]} ∪ list_to_set ns) s s' /\ dom (objs s) ⊆ dom (objs s') /\ (n ∈ dom (objs s')) /\
     (forall r, typed_at s d r -> typed_at s' d (set_entries (num_entries r + 1) r))) \/
  addentry d dirname isdir s = Halted.
Proof using.
  intros Hok [(r & Hr & His & Hnum & Hch) Hne Hn Hnd] Hc Hl Hlen Hdi Hni.
  destruct ents as [|[nmc pc] ents _] using rev_ind; [done|].
  rewrite map_app in Hch. cbn [map fst snd] in Hch.
  pose proof (linked_not_null _ _ _ _ _ Hok Hch ltac:(by destruct (map snd ents))) as Hf0.
  pose proof (linked_length _ _ _ _ _ Hch) as Hlns. pose proof (linked_in_store _ _ _ _ _ Hch) as Hdom.
  apply linked_app in Hch as (ns1 & ns2 & c & -> & H1 & H2).
  pose proof (linked_not_null _ _ _ _ _ Hok H2 ltac:(done)) as Hc0.
  apply linked_cons in H2 as (rc & ns' & -> & Hrc & Hv & H2). apply linked_nil in H2 as [-> Hcn].
  pose proof Hnd as [Hd Hnd']%NoDup_cons. apply NoDup_app in Hnd' as (_ & Hcns & _).
  assert (d <> c) as Hdc by (intros ->; apply Hd, elem_of_app; right; by left).
  pose proof (linked_length _ _ _ _ _ H1) as Hl1.
  destruct (addentry_run s d r ns1 c rc (map snd ents) nm dirname isdir)
    as [(p & n & s' & E & Hok' & Hp & Hnn & Hpn & Ho)|E]; try done; [zlen|zlen|left|by right].
  destruct (added_spec _ _ _ _ _ _ _ _ _ _ Ho Hr Hrc Hp Hnn Hpn Hdc) as (Hp' & Hn' & Hc' & Hd' & Hdom' & Hs).
  assert (forall q, q ∈ dom (objs s) -> q <> d -> q <> c -> objs s' !! q = objs s !! q) as Hsame
    by (intros q Hq Hqd Hqc; apply Hs; [by apply not_elem_of_union; split; apply not_elem_of_singleton|done]).
  exists p, n, s'. split_and!; try done; [constructor| |by eapply elem_of_dom_2|intros r' Hr'; by rewrite (typed_at_unique _ _ _ _ Hr' Hr)].
  - exists (set_entries (num_entries r + 1) r). split; [done|]. split; [done|]. split; [cbn [num_entries set_entries]; rewrite Hnum; zlen|].
    cbn [first_node set_entries]. rewrite !map_app. cbn [map fst snd]. rewrite <- !app_assoc. cbn [app]. eapply linked_app_2.
    + eapply linked_frame; [|exact H1]. intros q Hq. apply Hsame; [|intros ->; apply Hd, elem_of_app; by left|intros ->; apply (Hcns c Hq); by left].
      apply Hdom. apply elem_of_list_to_set, elem_of_app. by left.
    + split; [done|]. exists (set_dnext n rc). split; [done|]. split; [done|]. split; [done|]. by exists (set_inode p zero_DirEntryNode).
  - by destruct ents.
  - apply Forall_app. split; [|constructor; [|constructor]].
    + apply Forall_forall. intros e He. pose proof (proj1 (Forall_forall _ _) Hn e He) as (x & Hx & Hxn & Hxl).
      exists x. split_and!; try done. unfold typed_at. rewrite Hsame; [done|by eapply elem_of_dom_2| |]; intros Heq.
      * apply Hdi. rewrite <- Heq. by apply list_elem_of_fmap_2.
      * apply (Hni c); [apply elem_of_app; right; by left|]. rewrite <- Heq. by apply list_elem_of_fmap_2.
    + exists (entry_Inode nm isdir). cbn [fst snd]. split_and!; try done. apply entry_name; [done|apply Hc].
  - change (d :: (ns1 ++ [c]) ++ [n]) with ((d :: ns1 ++ [c]) ++ [n]).
    apply NoDup_app. split_and!; [done| |apply NoDup_singleton].
    intros q Hq ->%list_elem_of_singleton. apply Hnn.
    apply elem_of_cons in Hq as [->|Hq]; [by eapply elem_of_dom_2|]. apply Hdom. by apply elem_of_list_to_set.
  - intros q Hq Hqd. apply not_elem_of_union in Hq as [Hq1%not_elem_of_singleton Hq2]. apply Hsame; [done..|].
    intros ->. apply Hq2, elem_of_list_to_set, elem_of_app. right. by left.
Qed.

(** An inode that aliases the entries of a directory but counts none of them,
    as [..] does, cuts the directory down to its first entry. *)
Lemma alias_addentry s d r ns e0 e1 ents up x nm dirname isdir :
  store_ok s -> typed_at s d r -> entries s (first_node r) ns (map snd (e0 :: e1 :: ents)) 0 ->
  named s (e0 :: e1 :: ents) -> typed_at s up x -> first_node x = first_node r -> num_entries x = 0 ->
  (up ∉ ns) -> up <> d -> (d ∉ ns) -> snd e0 <> up -> (snd e0 ∉ ns) ->
  c_string nm dirname -> Zlen nm < FILENAME_SIZE ->
  (exists p n s', addentry up dirname isdir s = Ok (p, s') /\ store_ok s' /\
     forall nm' dirname', c_string nm' dirname' -> Zlen nm' < 2 ^ 31 ->
       tempfs_find d dirname' s' = Ok (find_entry nm' [e0; (nm, p)], s') /\ n <> 0) \/
  addentry up dirname isdir s = Halted.
Proof using.
  intros Hok Hr Hch Hn Hx Hfx Hnx Hun Hud Hdn H0u H0n Hc Hl. cbn [map] in Hch.
  pose proof (linked_not_null _ _ _ _ _ Hok Hch ltac:(done)) as Hf0.
  apply linked_cons in Hch as (rc & ns' & -> & Hrc & Hv & Hch). set (c := first_node r) in *.
  destruct (addentry_run s up x [] c rc [] nm dirname isdir)
    as [(p & n & s' & E & Hok' & Hp & Hnn & Hpn & Ho)|E]; try done; [by rewrite Hfx|by set_solver|left|by right].
  exists p, n, s'. split; [done|]. split; [done|]. intros nm' dirname' Hc' Hl'.
  assert (forall q, q ∈ dom (objs s) -> q <> p /\ q <> n) as Hold by (intros q Hq; split; congruence).
  assert (d ∈ dom (objs s)) as Hdd by (by eapply elem_of_dom_2). destruct (Hold d Hdd) as [Hdp Hdn'].
  assert (up ∈ dom (objs s)) as Huu by (by eapply elem_of_dom_2). destruct (Hold up Huu) as [Hup Hupn].
  assert (c ∈ dom (objs s)) as Hcd by (by eapply elem_of_dom_2). destruct (Hold c Hcd) as [Hcp Hcn'].
  assert (c <> up /\ c <> d) as [Hcu Hcd'] by (split; intros ->; set_solver).
  assert (typed_at s' p (entry_Inode nm isdir)) as Hp' by (unfold typed_at; rewrite Ho; unfold added; by simplify_map_eq).
  assert (typed_at s' n (set_inode p zero_DirEntryNode)) as Hn' by (unfold typed_at; rewrite Ho; unfold added; by simplify_map_eq).
  assert (typed_at s' c (set_dnext n rc)) as Hc'' by (unfold typed_at; rewrite Ho; unfold added; by simplify_map_eq).
  assert (typed_at s' d r) as Hd' by (unfold typed_at; rewrite Ho; unfold added; by simplify_map_eq).
  split.
  - eapply (tempfs_find_chain s' d r [c; n]); try done.
    + cbn [map snd linked]. fold c. split; [done|]. exists (set_dnext n rc). split_and!; try done.
      by exists (set_inode p zero_DirEntryNode).
    + apply Forall_cons in Hn as [(x0 & Hx0 & Hn0 & Hl0) _]. constructor; [|constructor; [|constructor]].
      * exists x0. split_and!; try done. pose proof (elem_of_dom_2 _ _ _ Hx0) as H0d.
        destruct (Hold _ H0d). unfold typed_at. rewrite Ho. unfold added.
        rewrite !lookup_insert_ne; [done|..]; try done; set_solver.
      * exists (entry_Inode nm isdir). cbn [fst snd]. split_and!; try done.
        apply entry_name; [done|apply Hc].
    + apply NoDup_cons. split; [set_solver|apply NoDup_singleton].
  - destruct Hok' as (A & _ & _ & Hz). intros ->. by apply elem_of_dom_2 in Hn'.
Qed.

(** *** A new file system *)

Definition name_dot : list Z := [46].
Definition name_dotdot : list Z := [46; 46].

(** What is known of the inodes of [.] and [..] of a fresh directory. *)
Definition self_links (s : Store Obj) (first fi up : Z) : Prop :=
  (exists x, typed_at s fi x /\ first_node x = first /\ num_entries x = 2 /\ is_dir x = true) /\
  (exists x, typed_at s up x /\ first_node x = first /\ num_entries x = 0 /\ is_dir x = true).

Lemma set_filename_char_run s p x i c f :
  typed_at s p x -> wr (filename x) i c = Ok f ->
  set_filename_char p i c s =
    Ok (tt, MkStore (store_heap s) (<[p := to_obj (set_filename f x)]> (objs s))).
Proof using.
  intros Hx Hf. unfold set_filename_char.
  by rewrite (bind_run _ _ _ _ _ (get_obj_run _ _ _ Hx)), (bind_lift _ _ _ _ Hf), (put_obj_run _ _ _ _ Hx).
Qed.

(** Two stores with the same objects but the one at [p]. *)
Definition updated (p : Z) (s s' : Store Obj) : Prop :=
  store_ok s' /\ forall q, q <> p -> objs s' !! q = objs s !! q.

(** The statements that make the inode of [.]. *)
Lemma init_dot_run {B} s fi x first (k : Mem B) :
  store_ok s -> typed_at s fi x -> Zlen (filename x) = FILENAME_SIZE ->
  exists s' x', 
    (set_filename_char fi 0 46 ;;; set_filename_char fi 1 0 ;;;
      set_field fi (set_is_dir true) ;;; set_field fi (set_first first) ;;;
      set_field fi (set_entries 2) ;;; k) s = k s' /\
    updated fi s s' /\ typed_at s' fi x' /\ c_string name_dot (filename x') /\
    first_node x' = first /\ num_entries x' = 2 /\ is_dir x' = true.
Proof using.
  clear junk_Inode junk_DirEntryNode. intros Hok Hx Hlen. unfold FILENAME_SIZE in Hlen.
  destruct (filename x) as [|c0 [|c1 fn]] eqn:Efn; [zlen|zlen|].
  set (x0 := set_filename (46 :: 0 :: fn) (set_filename (46 :: c1 :: fn) x)).
  set (x' := set_entries 2 (set_first first (set_is_dir true x0))).
  eexists (MkStore (store_heap s) _), x'. split.
  - rewrite (bind_run _ _ _ _ _ (set_filename_char_run _ _ _ _ _ (46 :: c1 :: fn) Hx ltac:(by rewrite Efn, wr_hd))).
    set (s1 := MkStore _ _). assert (typed_at s1 fi (set_filename (46 :: c1 :: fn) x)) as H1 by look.
    rewrite (bind_run _ _ _ _ _ (set_filename_char_run _ _ _ _ _ (46 :: 0 :: fn) H1 (wr_snd 0 c1 46 fn))).
    set (s2 := MkStore _ _). assert (typed_at s2 fi x0) as H2 by look.
    rewrite (bind_run _ _ _ _ _ (set_field_run _ _ _ _ H2)). set (s3 := MkStore _ _).
    assert (typed_at s3 fi (set_is_dir true x0)) as H3 by look.
    rewrite (bind_run _ _ _ _ _ (set_field_run _ _ _ _ H3)). set (s4 := MkStore _ _).
    assert (typed_at s4 fi (set_first first (set_is_dir true x0))) as H4 by look.
    rewrite (bind_run _ _ _ _ _ (set_field_run _ _ _ _ H4)). reflexivity.
  - unfold updated. cbn [objs]. split; [split|].
    + apply store_ok_dom; [done|]. pose proof (elem_of_dom_2 _ _ _ Hx).
      rewrite !dom_insert_L. set_solver.
    + intros q Hq. by rewrite !lookup_insert_ne.
    + split; [unfold typed_at; cbn [objs]; by rewrite lookup_insert_eq|].
      split_and!; try done. split; [repeat constructor; lia|by exists fn].
Qed.

(** A fresh directory. *)
Lemma two_entries s d first n fi up (r : Inode) e0 e1 (i0 i1 : Inode) :
  typed_at s d r -> typed_at s first e0 -> typed_at s n e1 -> typed_at s fi i0 -> typed_at s up i1 ->
  is_dir r = true -> num_entries r = 1 -> first_node r = first ->
  dnext e0 = n -> inode e0 = fi -> inode e1 = up -> dnext e1 = 0 ->
  c_string name_dot (filename i0) -> c_string name_dotdot (filename i1) -> NoDup [d; first; n] ->
  directory s d [first; n] [(name_dot, fi); (name_dotdot, up)].
Proof using.
  clear junk_Inode junk_DirEntryNode. intros Hr H0 H1 Hi0 Hi1 Hd Hnum Hf E1 E2 E3 E4 Hc0 Hc1 Hnd.
  constructor; [|done| |done].
  - exists r. split_and!; try done. split; [done|]. exists e0. split_and!; [done..|].
    split; [done|]. by exists e1.
  - constructor; [by exists i0|]. constructor; [by exists i1|constructor].
Qed.

(** The root, its first node and the inode of [.]. *)
Lemma new_root_run {B} s (k : Z -> Z -> Mem B) :
  store_ok s -> (forall a, Zlen (filename (junk_Inode a)) = FILENAME_SIZE) ->
  let m :=
    let* root_inode := raw_obj sizeof_Inode junk_Inode in
    let* first := raw_obj sizeof_DirEntryNode junk_DirEntryNode in
    set_field root_inode (set_first first) ;;;
    let* first_inode := raw_obj sizeof_Inode junk_Inode in
    set_field first (set_inode first_inode) ;;;
    set_field first (set_entry_is_dir true) ;;;
    set_filename_char first_inode 0 46 ;;;
    set_filename_char first_inode 1 0 ;;;
    set_field first_inode (set_is_dir true) ;;;
    set_field first_inode (set_first first) ;;;
    set_field first_inode (set_entries 2) ;;;
    k root_inode first in
  m s = Halted \/
  exists root first fi x s', m s = k root first s' /\ store_ok s' /\ NoDup [root; first; fi] /\
    typed_at s' root (set_first first (junk_Inode root)) /\
    typed_at s' first (set_entry_is_dir true (set_inode fi (junk_DirEntryNode first))) /\
    typed_at s' fi x /\ c_string name_dot (filename x) /\ first_node x = first /\ num_entries x = 2 /\ is_dir x = true /\
    first <> 0 /\ (forall q, q ∈ [root; first; fi] -> q ∉ dom (objs s)) /\ same_except ∅ s s' /\
    dom (objs s) ⊆ dom (objs s').
Proof using.
  intros Hok Hj. cbv zeta.
  destruct (raw_obj_spec s sizeof_Inode junk_Inode Hok) as [(root & s1 & E1 & Hroot & _ & Hok1 & Ho1)|E1];
    [by unfold sizeof_Inode| |left; unfold bind; by rewrite E1].
  rewrite (bind_run _ _ _ _ _ E1).
  destruct (raw_obj_spec s1 sizeof_DirEntryNode junk_DirEntryNode Hok1)
    as [(first & s2 & E2 & Hfirst & Hf0 & Hok2 & Ho2)|E2];
    [by unfold sizeof_DirEntryNode| |left; unfold bind; by rewrite E2].
  rewrite (bind_run _ _ _ _ _ E2). rewrite Ho1, dom_insert in Hfirst.
  assert (first <> root) as Hfr by set_solver.
  assert (typed_at s2 root (junk_Inode root)) as Hr2 by (unfold typed_at; by rewrite Ho2, Ho1, lookup_insert_ne, lookup_insert_eq).
  rewrite (bind_run _ _ _ _ _ (set_field_run _ _ _ _ Hr2)). set (s3 := MkStore _ _).
  destruct (raw_obj_spec s3 sizeof_Inode junk_Inode) as [(fi & s4 & E4 & Hfi & _ & Hok4 & Ho4)|E4];
    [by eapply put_obj_ok|by unfold sizeof_Inode| |left; unfold bind; by rewrite E4].
  rewrite (bind_run _ _ _ _ _ E4). unfold s3 in Hfi, Ho4. cbn [objs] in Hfi, Ho4. rewrite Ho2, Ho1 in Hfi, Ho4.
  rewrite !dom_insert in Hfi. assert (fi <> root /\ fi <> first) as [Hfir Hfif] by set_solver.
  assert (typed_at s4 first (junk_DirEntryNode first) /\ typed_at s4 fi (junk_Inode fi) /\
    typed_at s4 root (set_first first (junk_Inode root))) as (Hd4 & Hi4 & Hr4)
    by (split_and!; unfold typed_at; rewrite Ho4; by simplify_map_eq).
  rewrite (bind_run _ _ _ _ _ (set_field_run _ _ _ _ Hd4)). set (s5 := MkStore _ _).
  assert (typed_at s5 first (set_inode fi (junk_DirEntryNode first))) as Hd5 by look.
  rewrite (bind_run _ _ _ _ _ (set_field_run _ _ _ _ Hd5)). set (s6 := MkStore _ _).
  assert (typed_at s6 fi (junk_Inode fi)) as Hi6 by look.
  assert (store_ok s6) as Hok6 by (eapply put_obj_ok; [eapply put_obj_ok|]; done).
  destruct (init_dot_run s6 fi _ first (k root first) Hok6 Hi6 (Hj fi))
    as (s' & x & -> & [Hok' Hupd] & Hx & Hdot & Hf & Hnum & Hdir).
  assert (forall q, q <> root -> q <> first -> q <> fi -> objs s' !! q = objs s !! q) as Hold.
  { intros q H1 H2 H3. rewrite Hupd by done. unfold s6, s5. cbn [objs]. rewrite Ho4. by rewrite !lookup_insert_ne. }
  assert (forall q, q ∈ [root; first; fi] -> q ∉ dom (objs s)) as Hfresh by set_solver.
  right. exists root, first, fi, x, s'. split_and!; try done.
  - repeat constructor; set_solver.
  - unfold typed_at. rewrite Hupd by done. unfold s6, s5. cbn [objs]. by simplify_map_eq.
  - unfold typed_at. rewrite Hupd by done. unfold s6, s5. cbn [objs]. by simplify_map_eq.
  - intros q _ Hq. apply Hold; intros Heq; (eapply Hfresh; [|exact Hq]); rewrite Heq; set_solver.
  - intros q Hq. apply elem_of_dom. rewrite Hold; [by apply elem_of_dom|..]; intros Heq; (eapply Hfresh; [|exact Hq]);
      rewrite Heq; set_solver.
Qed.

Lemma tempfs_new_spec s :
  store_ok s -> (forall a, num_entries (junk_Inode a) = 0) ->
  (forall a, Zlen (filename (junk_Inode a)) = FILENAME_SIZE) ->
  (exists root first n fi up s', tempfs_new junk_Inode junk_DirEntryNode s = Ok (root, s') /\
     store_ok s' /\ directory s' root [first; n] [(name_dot, fi); (name_dotdot, up)] /\
     NoDup [root; first; n; fi; up] /\ self_links s' first fi up /\
     (forall q, q ∈ [root; first; n; fi; up] -> q ∉ dom (objs s)) /\ same_except ∅ s s' /\
     dom (objs s) ⊆ dom (objs s')) \/
  tempfs_new junk_Inode junk_DirEntryNode s = Halted.
Proof using.
  intros Hok Hj1 Hj2. unfold tempfs_new.
  destruct (new_root_run s (fun root_inode first =>
    tempfs_mkdir_nonlinear junk_Inode junk_DirEntryNode root_inode dotdot first ;;;
    set_field root_inode (set_is_dir true) ;;; ret root_inode) Hok Hj2)
    as [E|(root & first & fi & fi1 & s1 & E & Hok1 & Hnd & Hr1 & Hd1 & Hi1 & Hdot & Hfst & Hnum & Hdir & Hf0 & Hfresh & Hs1 & Hdom1)];
    cbv zeta in E; rewrite E; [by right|]. clear E.
  set (e0 := set_entry_is_dir true (set_inode fi (junk_DirEntryNode first))) in *.
  set (r0 := set_first first (junk_Inode root)) in *.
  assert (root <> first /\ root <> fi /\ first <> fi) as (Hrf & Hri & Hfi).
  { apply NoDup_cons in Hnd as [H1 [H2 _]%NoDup_cons]. set_solver. }
  unfold tempfs_mkdir_nonlinear. rewrite bind_assoc.
  destruct (addentry_run s1 root r0 [] first e0 [] name_dotdot dotdot true)
    as [(up & n & s2 & E & Hok2 & Hup & Hn & Hupn & Ho)|E]; try done.
  { apply Hj1. } { split; [repeat constructor; lia|by exists []]. }
  2:{ right. unfold bind. by rewrite E. }
  left. rewrite (bind_run _ _ _ _ _ E).
  assert (forall q, q ∈ dom (objs s1) -> q <> up /\ q <> n) as Hold by (intros q Hq; split; congruence).
  destruct (Hold root ltac:(by eapply elem_of_dom_2)) as [Hru Hrn].
  destruct (Hold first ltac:(by eapply elem_of_dom_2)) as [Hfu Hfn].
  destruct (Hold fi ltac:(by eapply elem_of_dom_2)) as [Hiu Hin].
  assert (typed_at s2 up (entry_Inode name_dotdot true)) as Hu2 by (unfold typed_at; rewrite Ho; unfold added; by simplify_map_eq).
  rewrite (bind_run _ _ _ _ _ (set_field_run _ _ _ _ Hu2)). set (s3 := MkStore _ _).
  set (r1 := set_entries (num_entries r0 + 1) r0) in Ho.
  assert (typed_at s3 root r1) as Hr3 by (unfold typed_at, s3; cbn [objs]; rewrite Ho; unfold added; by simplify_map_eq).
  rewrite (bind_run _ _ _ _ _ (set_field_run _ _ _ _ Hr3)). set (s4 := MkStore _ _).
  assert (typed_at s4 root (set_is_dir true r1) /\ typed_at s4 first (set_dnext n e0) /\
    typed_at s4 n (set_inode up zero_DirEntryNode) /\ typed_at s4 fi fi1 /\
    typed_at s4 up (set_first first (entry_Inode name_dotdot true))) as (Hr4 & Hf4 & Hn4 & Hi4 & Hu4).
  { split_and!; unfold typed_at, s4, s3; cbn [objs]; rewrite Ho; unfold added; by simplify_map_eq. }
  exists root, first, n, fi, up, s4. split; [reflexivity|]. split.
  { eapply put_obj_ok; [|exact Hr3]. by eapply put_obj_ok. }
  split; [|split; [repeat constructor; set_solver|split; [split; [by exists fi1|by eexists]|split; [|split]]]].
  - eapply (two_entries _ _ _ _ _ _ _ _ _ _ _ Hr4 Hf4 Hn4 Hi4 Hu4); try done; [cbn; by rewrite Hj1| |].
    + split; [repeat constructor; lia|by eexists].
    + repeat constructor; set_solver.
  - set_solver.
  - intros q _ Hq. assert (q ∈ dom (objs s1)) as Hq1 by set_solver. destruct (Hold q Hq1).
    assert (q <> root /\ q <> first) as [? ?] by (split; intros Heq; (eapply Hfresh; [|exact Hq]); rewrite Heq; set_solver).
    unfold s4, s3. cbn [objs]. rewrite Ho. unfold added. rewrite !lookup_insert_ne by done. by apply Hs1.
  - unfold s4, s3. cbn [objs]. rewrite Ho. unfold added. rewrite !dom_insert. set_solver.
Qed.
(** *** A subdirectory *)

Lemma directory_frame s s' d ns ents :
  directory s d ns ents -> (forall q, q ∈ d :: ns -> objs s' !! q = objs s !! q) -> named s' ents ->
  directory s' d ns ents.
Proof using.
  intros [(r & Hr & His & Hnum & Hch) Hne _ Hnd] Hs Hn. constructor; try done.
  exists r. unfold typed_at. rewrite Hs by left. split_and!; try done.
  eapply linked_frame; [|exact Hch]. intros q Hq. apply Hs. by right.
Qed.

(** The statements that make the entry [.] of a subdirectory. *)
Lemma dot_inode_run {B} s first fi (e : DirEntryNode) (x : Inode) (k : Mem B) :
  typed_at s first e -> typed_at s fi x -> fi <> first ->
  (set_field first (set_inode fi) ;;; put_obj fi zero_Inode ;;; set_field first (set_entry_is_dir true) ;;;
   put_obj fi zero_Inode ;;; set_filename_char fi 0 46 ;;; set_field fi (set_is_dir true) ;;;
   set_field fi (set_first first) ;;; set_field fi (set_entries 2) ;;; k) s =
  k (MkStore (store_heap s) (<[fi := to_obj (set_entries 2 (set_first first (set_is_dir true
        (set_filename (46 :: replicate 19 0) zero_Inode))))]>
      (<[first := to_obj (set_entry_is_dir true (set_inode fi e))]> (objs s)))).
Proof using.
  clear junk_Inode junk_DirEntryNode. intros He Hx Hne.
  rewrite (bind_run _ _ _ _ _ (set_field_run _ _ _ _ He)). set (s1 := MkStore _ _).
  assert (typed_at s1 fi x) as H1 by look.
  rewrite (bind_run _ _ _ _ _ (put_obj_run _ _ _ zero_Inode H1)). set (s2 := MkStore _ _).
  assert (typed_at s2 first (set_inode fi e)) as H2 by look.
  rewrite (bind_run _ _ _ _ _ (set_field_run _ _ _ _ H2)). set (s3 := MkStore _ _).
  assert (typed_at s3 fi zero_Inode) as H3 by look.
  rewrite (bind_run _ _ _ _ _ (put_obj_run _ _ _ zero_Inode H3)). set (s4 := MkStore _ _).
  assert (typed_at s4 fi zero_Inode) as H4 by look.
  rewrite (bind_run _ _ _ _ _ (set_filename_char_run _ _ _ 0 46 (46 :: replicate 19 0) H4 eq_refl)). set (s5 := MkStore _ _).
  assert (typed_at s5 fi (set_filename (46 :: replicate 19 0) zero_Inode)) as H5 by look.
  rewrite (bind_run _ _ _ _ _ (set_field_run _ _ _ _ H5)). set (s6 := MkStore _ _).
  assert (typed_at s6 fi (set_is_dir true (set_filename (46 :: replicate 19 0) zero_Inode))) as H6 by look.
  rewrite (bind_run _ _ _ _ _ (set_field_run _ _ _ _ H6)). set (s7 := MkStore _ _).
  assert (typed_at s7 fi (set_first first (set_is_dir true (set_filename (46 :: replicate 19 0) zero_Inode)))) as H7 by look.
  rewrite (bind_run _ _ _ _ _ (set_field_run _ _ _ _ H7)). f_equal. f_equal.
  apply map_eq. intros q. unfold s7, s6, s5, s4, s3, s2, s1. cbn [objs].
  destruct (decide (q = fi)) as [->|]; [by simplify_map_eq|].
  destruct (decide (q = first)) as [->|]; by simplify_map_eq.
Qed.

(** The first node of a subdirectory and the inode of [.]. *)
Definition dot_node (first fi : Z) : DirEntryNode := set_entry_is_dir true (set_inode fi (junk_DirEntryNode first)).
Definition dot_Inode (first : Z) : Inode :=
  set_entries 2 (set_first first (set_is_dir true (set_filename (46 :: replicate 19 0) zero_Inode))).

Lemma new_dots_run {B} s new x (k : Mem B) :
  store_ok s -> typed_at s new x ->
  let m :=
    let* first := raw_obj sizeof_DirEntryNode junk_DirEntryNode in
    set_field new (set_first first) ;;;
    let* first_inode := raw_obj sizeof_Inode junk_Inode in
    set_field first (set_inode first_inode) ;;;
    put_obj first_inode zero_Inode ;;;
    set_field first (set_entry_is_dir true) ;;;
    put_obj first_inode zero_Inode ;;;
    set_filename_char first_inode 0 46 ;;;
    set_field first_inode (set_is_dir true) ;;;
    set_field first_inode (set_first first) ;;;
    set_field first_inode (set_entries 2) ;;;
    k in
  m s = Halted \/
  exists first fi s', m s = k s' /\ store_ok s' /\ first <> 0 /\ first <> fi /\
    (first ∉ dom (objs s)) /\ (fi ∉ dom (objs s)) /\
    objs s' = <[fi := to_obj (dot_Inode first)]> (<[first := to_obj (dot_node first fi)]>
      (<[new := to_obj (set_first first x)]> (objs s))).
Proof using.
  intros Hok Hx. cbv zeta.
  destruct (raw_obj_spec s sizeof_DirEntryNode junk_DirEntryNode Hok) as [(first & s1 & E1 & Hfirst & Hf0 & Hok1 & Ho1)|E1];
    [by unfold sizeof_DirEntryNode| |left; unfold bind; by rewrite E1].
  rewrite (bind_run _ _ _ _ _ E1). pose proof (elem_of_dom_2 _ _ _ Hx) as Hxd.
  assert (new <> first) as Hnf by congruence.
  assert (typed_at s1 new x) as Hx1 by (unfold typed_at; by rewrite Ho1, lookup_insert_ne).
  rewrite (bind_run _ _ _ _ _ (set_field_run _ _ _ _ Hx1)). set (s2 := MkStore _ _).
  assert (store_ok s2) as Hok2 by (by eapply put_obj_ok).
  destruct (raw_obj_spec s2 sizeof_Inode junk_Inode Hok2) as [(fi & s3 & E3 & Hfi & _ & Hok3 & Ho3)|E3];
    [by unfold sizeof_Inode| |left; unfold bind; by rewrite E3].
  rewrite (bind_run _ _ _ _ _ E3). unfold s2 in Hfi, Ho3. cbn [objs] in Hfi, Ho3. rewrite Ho1 in Ho3.
  rewrite Ho1, !dom_insert, !not_elem_of_union, !not_elem_of_singleton in Hfi. destruct Hfi as (Hin & Hif & Hid).
  assert (typed_at s3 first (junk_DirEntryNode first) /\ typed_at s3 fi (junk_Inode fi)) as [Hf3 Hi3].
  { split; unfold typed_at; rewrite Ho3; by simplify_map_eq. }
  rewrite (dot_inode_run s3 first fi _ _ _ Hf3 Hi3 ltac:(done)). right. eexists first, fi, _. split; [reflexivity|].
  split_and!; try done.
  - apply store_ok_dom; [done|]. rewrite !dom_insert_L.
    pose proof (elem_of_dom_2 _ _ _ Hf3). pose proof (elem_of_dom_2 _ _ _ Hi3). set_solver.
  - cbn [objs]. rewrite Ho3. apply map_eq. intros q. unfold dot_node, dot_Inode.
    destruct (decide (q = fi)) as [->|]; [by simplify_map_eq|].
    destruct (decide (q = first)) as [->|]; [by simplify_map_eq|]. rewrite !(lookup_insert_ne _ fi) by done.
    rewrite (lookup_insert_ne _ first) by done. destruct (decide (q = new)) as [->|]; by simplify_map_eq.
Qed.

(** The part of [tempfs_mkdir] after the entry is made. *)
Lemma fill_dir_run s d r new x :
  store_ok s -> typed_at s d r -> typed_at s new x -> d <> new -> num_entries x = 0 -> is_dir x = true ->
  let m :=
    let* first := raw_obj sizeof_DirEntryNode junk_DirEntryNode in
    set_field new (set_first first) ;;;
    let* first_inode := raw_obj sizeof_Inode junk_Inode in
    set_field first (set_inode first_inode) ;;;
    put_obj first_inode zero_Inode ;;;
    set_field first (set_entry_is_dir true) ;;;
    put_obj first_inode zero_Inode ;;;
    set_filename_char first_inode 0 46 ;;;
    set_field first_inode (set_is_dir true) ;;;
    set_field first_inode (set_first first) ;;;
    set_field first_inode (set_entries 2) ;;;
    let* dir := get_obj Inode d in
    tempfs_mkdir_nonlinear junk_Inode junk_DirEntryNode new dotdot (first_node dir) in
  m s = Halted \/
  exists first n fi up s' x', m s = Ok (tt, s') /\ store_ok s' /\
    directory s' new [first; n] [(name_dot, fi); (name_dotdot, up)] /\
    typed_at s' new x' /\ filename x' = filename x /\
    (exists y, typed_at s' up y /\ first_node y = first_node r /\ num_entries y = 0 /\ is_dir y = true) /\
    same_except {[new]} s s' /\ dom (objs s) ⊆ dom (objs s') /\
    NoDup [new; first; n; fi; up] /\ (forall q, q ∈ [first; n; fi; up] -> q ∉ dom (objs s)).
Proof using.
  intros Hok Hr Hx Hdn Hnum Hisd.
  destruct (new_dots_run s new x (let* dir := get_obj Inode d in
    tempfs_mkdir_nonlinear junk_Inode junk_DirEntryNode new dotdot (first_node dir)) Hok Hx)
    as [E|(first & fi & s1 & E & Hok1 & Hf0 & Hff & Hfirst & Hfi & Ho1)]; cbv zeta in E |- *; rewrite E; [by left|]. clear E.
  pose proof (elem_of_dom_2 _ _ _ Hx) as Hxd. pose proof (elem_of_dom_2 _ _ _ Hr) as Hrd.
  assert (new <> first /\ new <> fi /\ d <> first /\ d <> fi) as (Hnf & Hni & Hdf & Hdi) by (split_and!; congruence).
  assert (typed_at s1 d r /\ typed_at s1 new (set_first first x) /\ typed_at s1 first (dot_node first fi) /\
    typed_at s1 fi (dot_Inode first)) as (Hr1 & Hx1 & Hf1 & Hi1).
  { unfold typed_at in *. rewrite Ho1. split_and!; by simplify_map_eq. }
  assert (dom (objs s) ⊆ dom (objs s1)) as Hdom1 by (rewrite Ho1, !dom_insert; intros q Hq; do 3 (apply elem_of_union_r); exact Hq).
  rewrite (bind_run _ _ _ _ _ (get_obj_run _ _ _ Hr1)). unfold tempfs_mkdir_nonlinear.
  destruct (addentry_run s1 new (set_first first x) [] first (dot_node first fi) [] name_dotdot dotdot true)
    as [(up & n & s2 & E & Hok2 & Hup & Hn & Hupn & Ho)|E]; try done.
  { split; [repeat constructor; lia|by exists []]. }
  2:{ left. unfold bind. by rewrite E. }
  right. rewrite (bind_run _ _ _ _ _ E).
  assert (forall q, q ∈ dom (objs s1) -> q <> up /\ q <> n) as Hfresh by (intros q Hq; split; congruence).
  destruct (Hfresh new ltac:(by eapply elem_of_dom_2)) as [Hnu Hnn].
  destruct (Hfresh first ltac:(by eapply elem_of_dom_2)) as [Hfu Hfn].
  destruct (Hfresh fi ltac:(by eapply elem_of_dom_2)) as [Hiu Hinn].
  assert (typed_at s2 up (entry_Inode name_dotdot true)) as Hu2 by (unfold typed_at; rewrite Ho; unfold added; by simplify_map_eq).
  rewrite (set_field_run _ _ _ _ Hu2). set (s3 := MkStore _ _).
  set (x1 := set_entries (num_entries (set_first first x) + 1) (set_first first x)) in Ho.
  assert (typed_at s3 new x1 /\ typed_at s3 first (set_dnext n (dot_node first fi)) /\
    typed_at s3 n (set_inode up zero_DirEntryNode) /\ typed_at s3 fi (dot_Inode first) /\
    typed_at s3 up (set_first (first_node r) (entry_Inode name_dotdot true))) as (Hx3 & Hf3 & Hn3 & Hi3 & Hu3).
  { unfold typed_at, s3. cbn [objs]. rewrite Ho. unfold added. split_and!; by simplify_map_eq. }
  exists first, n, fi, up, s3, x1. split; [done|]. split; [by eapply put_obj_ok|].
  split; [|split; [done|split; [done|split; [by eexists|split; [|split; [|split]]]]]].
  - eapply (two_entries _ _ _ _ _ _ _ _ _ _ _ Hx3 Hf3 Hn3 Hi3 Hu3); try done.
    + cbn. by rewrite Hnum.
    + split; [repeat constructor; lia|by eexists].
    + split; [repeat constructor; lia|by eexists].
    + distinct.
  - intros q Hq Hqd. apply not_elem_of_singleton in Hq. destruct (Hfresh q (Hdom1 q Hqd)).
    assert (q <> first /\ q <> fi) as [? ?] by (split; congruence). unfold s3. cbn [objs]. rewrite Ho. unfold added.
    rewrite !lookup_insert_ne, Ho1 by done. by rewrite !lookup_insert_ne.
  - etransitivity; [exact Hdom1|]. unfold s3. cbn [objs]. rewrite Ho. unfold added. rewrite !dom_insert.
    intros q Hq. do 5 (apply elem_of_union_r). exact Hq.
  - distinct.
  - intros q Hq Hqd. destruct (Hfresh q (Hdom1 q Hqd)).
    rewrite !elem_of_cons in Hq. destruct Hq as [->|[->|[->|[->|[]%elem_of_nil]]]]; done.
Qed.

(** *** The operations on a directory *)

(** A directory whose inode, nodes and entries' inodes are distinct objects. *)
Definition tree_directory (s : Store Obj) (d : Z) (ns : list Z) (ents : list (list Z * Z)) : Prop :=
  directory s d ns ents /\ NoDup (d :: ns ++ map snd ents).

Lemma tree_directory_disjoint s d ns ents :
  tree_directory s d ns ents -> (d ∉ map snd ents) /\ (forall q, q ∈ ns -> q ∉ map snd ents).
Proof using.
  clear junk_Inode junk_DirEntryNode. intros [_ [Hd Hnd]%NoDup_cons]. apply NoDup_app in Hnd as (_ & Hnd & _). split; [set_solver|done].
Qed.

Lemma tree_directory_in_store s d ns ents q :
  tree_directory s d ns ents -> q ∈ d :: ns ++ map snd ents -> q ∈ dom (objs s).
Proof using.
  clear junk_Inode junk_DirEntryNode. intros [[(r & Hr & _ & _ & Hch) _ Hn _] _] [->|[Hq|Hq]%elem_of_app]%elem_of_cons.
  - by eapply elem_of_dom_2.
  - apply linked_in_store in Hch. set_solver.
  - apply list_elem_of_fmap in Hq as (e & -> & He).
    pose proof (proj1 (Forall_forall _ _) Hn e He) as (x & Hx & _). by eapply elem_of_dom_2.
Qed.

(** Fresh addresses keep the objects of a directory distinct. *)
Lemma fresh_entry_NoDup s d ns ents p n nm :
  tree_directory s d ns ents -> (p ∉ dom (objs s)) -> (n ∉ dom (objs s)) -> p <> n ->
  NoDup (d :: (ns ++ [n]) ++ map snd (ents ++ [(nm, p)])).
Proof using.
  clear junk_Inode junk_DirEntryNode. intros Ht Hp Hn Hpn. rewrite map_app. cbn [map snd].
  assert (d :: (ns ++ [n]) ++ map snd ents ++ [p] ≡ₚ n :: p :: d :: ns ++ map snd ents) as -> by solve_Permutation.
  apply NoDup_cons. split; [|apply NoDup_cons; split; [|apply Ht]].
  - intros [->|Hin]%elem_of_cons; [done|]. by apply Hn, (tree_directory_in_store _ _ _ _ _ Ht).
  - intros Hin. by apply Hp, (tree_directory_in_store _ _ _ _ _ Ht).
Qed.

(** [tempfs_mkfile] appends an entry for an empty regular file to a
    directory, keeps the directory well formed, and afterwards [tempfs_find]
    returns for every name what it returned before, and the new inode for the
    new name if the name was free. *)
Theorem tempfs_mkfile_then_find s d ns ents nm fname :
  store_ok s -> tree_directory s d ns ents -> c_string nm fname -> Zlen nm < FILENAME_SIZE ->
  Zlen ents < 2 ^ 64 ->
  (exists p n s', tempfs_mkfile junk_Inode junk_DirEntryNode d fname s = Ok (tt, s') /\ store_ok s' /\
     tree_directory s' d (ns ++ [n]) (ents ++ [(nm, p)]) /\ typed_at s' p (entry_Inode nm false) /\
     (forall nm' dirname, c_string nm' dirname -> Zlen nm' < 2 ^ 31 ->
        tempfs_find d dirname s = Ok (find_entry nm' ents, s) /\
        tempfs_find d dirname s' =
          Ok (if bool_decide (nm' ∈ map fst ents) then find_entry nm' ents
              else if bool_decide (nm = nm') then p else 0, s'))) \/
  tempfs_mkfile junk_Inode junk_DirEntryNode d fname s = Halted.
Proof using.
  intros Hok Ht Hc Hl Hlen. destruct (tree_directory_disjoint _ _ _ _ Ht) as [H1 H2].
  pose proof Ht as [Hdir _]. unfold tempfs_mkfile.
  destruct (addentry_spec s d ns ents nm fname false Hok Hdir Hc Hl Hlen H1 H2)
    as [(p & n & s' & E & Hok' & Hp & Hn & Hpn & Hdir' & Hp' & _)|E]; [left|right; unfold bind; by rewrite E].
  exists p, n, s'. rewrite (bind_run _ _ _ _ _ E). split; [done|]. split; [done|].
  split; [split; [done|by eapply fresh_entry_NoDup]|]. split; [done|].
  intros nm' dirname Hc' Hl'. split; [by eapply tempfs_find_spec|].
  rewrite <- find_entry_app. by eapply tempfs_find_spec.
Qed.

(** What [tempfs_mkdir] does: the parent has one more entry, the new inode is a
    directory with the entries [.] and [..], and nothing else changes. *)
Lemma mkdir_spec s d ns ents nm dirname :
  store_ok s -> tree_directory s d ns ents -> c_string nm dirname -> Zlen nm < FILENAME_SIZE -> Zlen ents < 2 ^ 64 ->
  (exists new n s' first n' fi up x', tempfs_mkdir junk_Inode junk_DirEntryNode d dirname s = Ok (tt, s') /\
     store_ok s' /\ tree_directory s' d (ns ++ [n]) (ents ++ [(nm, new)]) /\
     directory s' new [first; n'] [(name_dot, fi); (name_dotdot, up)] /\
     typed_at s' new x' /\ c_string nm (filename x') /\
     (forall r, typed_at s d r -> typed_at s' d (set_entries (num_entries r + 1) r) /\
        exists y, typed_at s' up y /\ first_node y = first_node r /\ is_dir y = true) /\
     same_except ({[d]} ∪ list_to_set ns) s s' /\ dom (objs s) ⊆ dom (objs s') /\
     NoDup [n; new; first; n'; fi; up] /\ (forall q, q ∈ [n; new; first; n'; fi; up] -> q ∉ dom (objs s))) \/
  tempfs_mkdir junk_Inode junk_DirEntryNode d dirname s = Halted.
Proof using.
  intros Hok Ht Hc Hl Hlen. destruct (tree_directory_disjoint _ _ _ _ Ht) as [H1 H2].
  pose proof Ht as [Hdir _]. unfold tempfs_mkdir.
  destruct (addentry_spec s d ns ents nm dirname true Hok Hdir Hc Hl Hlen H1 H2)
    as [(new & n & s1 & E & Hok1 & Hp & Hn & Hpn & Hdir1 & Hp' & Hs1 & Hdom1 & Hn1 & Hr1)|E]; [|right; unfold bind; by rewrite E].
  rewrite (bind_run _ _ _ _ _ E).
  pose proof (fresh_entry_NoDup s d ns ents new n nm Ht Hp Hn Hpn) as Hnd.
  assert (d <> new) as Hdn.
  { intros ->. apply Hp. apply (tree_directory_in_store _ _ _ _ _ Ht). by left. }
  destruct Hdir as [(r & Hr & _) _ _ _]. pose proof (Hr1 r Hr) as Hd1. pose proof Hdir1 as [_ _ Hnamed _].
  destruct (fill_dir_run s1 d _ new _ Hok1 Hd1 Hp' Hdn eq_refl eq_refl)
    as [E1|(first & n' & fi & up & s2 & x' & E1 & Hok2 & Hsub & Hx' & Hfn & (y & Hy & Hyf & _ & Hyd) & Hs & Hdom2 & Hnd2 & Hfresh)];
    [by right|left].
  assert (forall q, q ∈ d :: ns ++ [n] -> objs s2 !! q = objs s1 !! q) as Hsame.
  { intros q Hq. apply Hs.
    - intros ->%elem_of_singleton. apply (NoDup_app (d :: ns ++ [n])) in Hnd as (_ & Hnd & _).
      apply (Hnd new Hq). rewrite map_app. set_solver.
    - by apply (tree_directory_in_store _ _ _ _ q (conj Hdir1 Hnd)), (elem_of_app (d :: ns ++ [n])); left. }
  assert (c_string nm (filename (entry_Inode nm true))) as Hcn by (apply entry_name; [done|apply Hc]).
  exists new, n, s2, first, n', fi, up, x'. split_and!; try done.
  - split; [|done]. eapply directory_frame; [exact Hdir1|exact Hsame|].
    eapply Forall_impl; [exact Hnamed|]. intros [nm0 p0] (x & Hx & Hxn & Hxl). cbn [fst snd] in *.
    destruct (decide (p0 = new)) as [->|Hne]; [exists x'; rewrite Hfn; by rewrite (typed_at_unique _ _ _ _ Hx Hp') in Hxn|].
    exists x. split_and!; try done. eapply same_except_typed; [exact Hs|by apply not_elem_of_singleton|done].
  - by rewrite Hfn.
  - intros r' Hr'. rewrite (typed_at_unique _ _ _ _ Hr' Hr) in *. split; [|by exists y].
    unfold typed_at. by rewrite Hsame by left.
  - intros q Hq Hqd. rewrite Hs; [by apply Hs1| |by apply Hdom1]. intros ->%elem_of_singleton. done.
  - by etransitivity.
  - apply NoDup_cons. split; [|done]. apply elem_of_dom_2 in Hp'.
    rewrite elem_of_cons. intros [->|Hq]; [done|]. by apply (Hfresh n Hq).
  - intros q Hq Hqd. rewrite !elem_of_cons in Hq. destruct Hq as [->|[->|Hq]]; [done|done|].
    rewrite <- !elem_of_cons in Hq. by apply (Hfresh q Hq), Hdom1.
Qed.

(** [tempfs_mkdir] appends an entry to the parent directory and makes it a
    well-formed directory with exactly the entries [.] and [..], where [..]
    lists the entries of the parent. *)
Theorem tempfs_mkdir_makes_directory s d ns ents nm dirname :
  store_ok s -> tree_directory s d ns ents -> c_string nm dirname -> Zlen nm < FILENAME_SIZE ->
  Zlen ents < 2 ^ 64 ->
  (exists new n s' first n' fi up, tempfs_mkdir junk_Inode junk_DirEntryNode d dirname s = Ok (tt, s') /\
     store_ok s' /\ tree_directory s' d (ns ++ [n]) (ents ++ [(nm, new)]) /\
     directory s' new [first; n'] [(name_dot, fi); (name_dotdot, up)] /\
     exists r y, typed_at s' d r /\ typed_at s' up y /\ first_node y = first_node r /\ is_dir y = true) \/
  tempfs_mkdir junk_Inode junk_DirEntryNode d dirname s = Halted.
Proof using.
  intros Hok Ht Hc Hl Hlen. pose proof Ht as [[(r & Hr & _) _ _ _] _].
  destruct (mkdir_spec s d ns ents nm dirname Hok Ht Hc Hl Hlen)
    as [(new & n & s' & first & n' & fi & up & x' & E & Hok' & Ht' & Hd' & _ & _ & Hup & _)|E]; [left|by right].
  exists new, n, s', first, n', fi, up. split_and!; try done. destruct (Hup r Hr) as (Hr' & y & Hy & Hyf & Hyd).
  by exists (set_entries (num_entries r + 1) r), y.
Qed.

(** [tempfs_new], which does not clear what it allocates, makes a root
    directory when the fresh inodes read 0 at [num_entries]: it has the entries
    [.] and [..], and [tempfs_find] finds those two names and nothing else. *)
Theorem tempfs_new_makes_root s :
  store_ok s -> (forall a, num_entries (junk_Inode a) = 0) ->
  (forall a, Zlen (filename (junk_Inode a)) = FILENAME_SIZE) ->
  (exists root ns fi up s', tempfs_new junk_Inode junk_DirEntryNode s = Ok (root, s') /\ store_ok s' /\
     tree_directory s' root ns [(name_dot, fi); (name_dotdot, up)] /\
     forall nm dirname, c_string nm dirname -> Zlen nm < 2 ^ 31 ->
       tempfs_find root dirname s' =
         Ok (if bool_decide (nm = name_dot) then fi
             else if bool_decide (nm = name_dotdot) then up else 0, s')) \/
  tempfs_new junk_Inode junk_DirEntryNode s = Halted.
Proof using.
  intros Hok Hj1 Hj2.
  destruct (tempfs_new_spec s Hok Hj1 Hj2) as [(root & first & n & fi & up & s' & E & Hok' & Hdir & Hnd & _)|E];
    [left|by right].
  exists root, [first; n], fi, up, s'. split; [done|]. split; [done|]. split; [by split|].
  intros nm dirname Hc Hl. rewrite (tempfs_find_spec _ _ _ _ _ _ Hok' Hdir Hc Hl). cbn [find_entry].
  rewrite (bool_decide_ext (nm = name_dot) (name_dot = nm)), (bool_decide_ext (nm = name_dotdot) (name_dotdot = nm))
    by (split; congruence). done.
Qed.

(** The entry [..] of a directory [d] (an inode that shares the entry chain
    of [d] but counts no entries) cannot be used to create files: adding a name
    through it leaves in [d] the first entry and the new one only, so every
    other name of [d] is lost. *)
Theorem adding_through_dotdot_loses_entries s d r ns e0 e1 ents up x nm dirname isdir :
  store_ok s -> typed_at s d r -> entries s (first_node r) ns (map snd (e0 :: e1 :: ents)) 0 ->
  named s (e0 :: e1 :: ents) -> typed_at s up x -> first_node x = first_node r -> num_entries x = 0 ->
  NoDup (up :: d :: ns) -> snd e0 <> up -> (snd e0 ∉ ns) ->
  c_string nm dirname -> Zlen nm < FILENAME_SIZE ->
  (exists p s', addentry up dirname isdir s = Ok (p, s') /\
     forall nm' dirname', c_string nm' dirname' -> Zlen nm' < 2 ^ 31 ->
       tempfs_find d dirname' s = Ok (find_entry nm' (e0 :: e1 :: ents), s) /\
       tempfs_find d dirname' s' = Ok (find_entry nm' [e0; (nm, p)], s')) \/
  addentry up dirname isdir s = Halted.
Proof using.
  intros Hok Hr Hch Hn Hx Hfx Hnx Hnd H0u H0n Hc Hl.
  apply NoDup_cons in Hnd as [[Hud Hun]%not_elem_of_cons [Hdn Hns]%NoDup_cons].
  destruct (alias_addentry s d r ns e0 e1 ents up x nm dirname isdir Hok Hr Hch Hn Hx Hfx Hnx Hun Hud Hdn H0u H0n Hc Hl)
    as [(p & n & s' & E & _ & Hf)|E]; [left|by right].
  exists p, s'. split; [done|]. intros nm' dirname' Hc' Hl'. split; [by eapply tempfs_find_chain|by apply Hf].
Qed.
End AddEntry.

(** ** File contents *)

Abbreviation chunks := (linked fnext data).
Definition full_chunks (cs : list (list Z)) : Prop := Forall (fun c => Zlen c = FILENODE_DATA_SIZE) cs.

(** What reading [bytes] into [buffer] leaves there. *)
Definition overlay (buffer bytes : list Z) : list Z :=
  take (length buffer) bytes ++ drop (length bytes) buffer.

Lemma overlay_app r1 r2 c bs : length r1 = length c -> overlay (r1 ++ r2) (c ++ bs) = c ++ overlay r2 bs.
Proof using.
  intros Hl. unfold overlay. rewrite !length_app, !Hl.
  rewrite take_app_add, <- app_assoc. do 2 f_equal.
  rewrite <- Hl. apply drop_app_add.
Qed.

Lemma overlay_short r c bs : (length r <= length c)%nat -> overlay r (c ++ bs) = take (length r) c.
Proof using.
  intros Hl. unfold overlay. rewrite take_app_le by done. rewrite drop_ge by (rewrite length_app; lia).
  by rewrite app_nil_r.
Qed.

Lemma overlay_nil_r r : overlay r [] = r.
Proof using. unfold overlay. by rewrite take_nil. Qed.

(** Copying over the front of an array. *)
Lemma memcpy_front mid post from :
  Zlen mid <= Zlen from -> ku_memcpy (mid ++ post) from (Zlen mid) = Ok (take (length mid) from ++ post).
Proof using.
  intros Hl. unfold ku_memcpy. rewrite Zlen_to_nat, drop_app_length.
  destruct (_ && _) eqn:E; [done|zlen].
Qed.

(** The fuel of the two loops over the chunks is enough. *)
Lemma chunk_fuel n : 0 <= n -> n < FILENODE_DATA_SIZE * Z.of_nat (S (Z.to_nat (n / FILENODE_DATA_SIZE))).
Proof using.
  intros Hn. unfold FILENODE_DATA_SIZE. rewrite Nat2Z.inj_succ, Z2Nat.id by divlia. divlia.
Qed.

Lemma read_loop_spec s cs : forall a ns pre rest post fuel max_len,
  store_ok s -> chunks s a ns cs 0 -> full_chunks cs -> max_len + FILENODE_DATA_SIZE < 2 ^ 64 ->
  Zlen pre + Zlen rest = max_len -> Zlen rest < FILENODE_DATA_SIZE * Z.of_nat fuel ->
  read_loop fuel a (pre ++ rest ++ post) (Zlen pre) max_len (Zlen rest) s =
    Ok (pre ++ overlay rest (concat cs) ++ post, s).
Proof using.
  assert (FILENODE_DATA_SIZE = 4088) as Hsz by done. induction cs as [|c cs IH]; intros a ns pre rest post fuel max_len Hok Hch Hfull Hmax Hlen Hf;
    (destruct fuel as [|fuel]; [zlen|]); cbn [read_loop concat].
  { apply linked_nil in Hch as [_ ->]. rewrite overlay_nil_r, andb_false_r. done. }
  pose proof (linked_not_null _ _ _ _ _ Hok Hch ltac:(done)) as Ha.
  destruct (Z.eqb_spec a 0) as [|_]; [done|]. rewrite andb_true_r.
  apply Forall_cons in Hfull as [Hc Hfull].
  destruct (Z.ltb_spec (Zlen pre) max_len) as [Hlt|Hge]; cbn [negb].
  2:{ assert (rest = []) as -> by (destruct rest; [done|zlen]). by destruct (c ++ concat cs). }
  apply linked_cons in Hch as (r & ns' & -> & Hr & Hv & Hch).
  rewrite (bind_run _ _ _ _ _ (get_obj_run _ _ _ Hr)), Hv.
  rewrite Zlen_to_nat, drop_app_length, take_app_length.
  destruct (Z.gtb_spec (Zlen rest) FILENODE_DATA_SIZE) as [Hgt|Hle].
  - destruct (list_split_at rest FILENODE_DATA_SIZE) as (r1 & r2 & -> & Hr1); [lia|].
    rewrite <- (app_assoc r1 r2 post). rewrite <- Hr1 at 1.
    rewrite (bind_lift _ _ _ _ (memcpy_front r1 (r2 ++ post) c ltac:(lia))).
    assert (length r1 = length c) as Hl by (unfold Zlen in *; lia).
    rewrite Hl, firstn_all, app_assoc, overlay_app by done.
    rewrite !u64_small by zlen.
    replace (Zlen pre + FILENODE_DATA_SIZE) with (Zlen (pre ++ c)) by zlen.
    replace (Zlen (r1 ++ r2) - FILENODE_DATA_SIZE) with (Zlen r2) by zlen.
    rewrite (IH _ ns' (pre ++ c) r2 post fuel max_len) by (done || zlen).
    by rewrite <- !app_assoc.
  - rewrite (bind_lift _ _ _ _ (memcpy_front rest post c ltac:(lia))).
    rewrite overlay_short by (unfold Zlen in *; lia).
    rewrite (u64_small (Zlen pre + FILENODE_DATA_SIZE)) by zlen.
    destruct fuel as [|fuel]; cbn [read_loop];
      (destruct (Z.ltb_spec (Zlen pre + FILENODE_DATA_SIZE) max_len) as [|_]; [zlen|reflexivity]).
Qed.

Section WriteFile.
Context (junk_FileNode : Z -> FileNode).
Context (junk_len : forall a, Zlen (data (junk_FileNode a)) = FILENODE_DATA_SIZE).

(** The file nodes reachable from [a] after a write of [bytes], over the old
    nodes [ns]: new nodes are fresh and only old nodes change. *)
Definition written (s : Store Obj) (a : Z) (ns : list Z) (bytes : list Z) (s' : Store Obj) : Prop :=
  exists ns' cs', chunks s' a ns' cs' 0 /\ full_chunks cs' /\ NoDup ns' /\
    (exists tl, concat cs' = bytes ++ tl) /\
    (forall q, q ∈ ns' -> q ∈ ns \/ q ∉ dom (objs s)) /\
    same_except (list_to_set ns) s s' /\ dom (objs s) ⊆ dom (objs s') /\ store_ok s'.

(** Making sure that node [a] has a successor. *)
Lemma next_node_run s a r ns cs :
  store_ok s -> typed_at s a r -> chunks s (fnext r) ns cs 0 -> full_chunks cs -> NoDup (a :: ns) ->
  let m := if fnext r =? 0 then
      let* n := raw_obj sizeof_FileNode junk_FileNode in
      set_field a (set_fnext n) ;;; set_field n (set_fnext 0)
    else ret tt in
  m s = Halted \/
  exists s' r' ns' cs', m s = Ok (tt, s') /\ store_ok s' /\ typed_at s' a r' /\ data r' = data r /\
    chunks s' (fnext r') ns' cs' 0 /\ cs' <> [] /\ full_chunks cs' /\ NoDup (a :: ns') /\
    (forall q, q ∈ ns' -> q ∈ ns \/ q ∉ dom (objs s)) /\ same_except {[a]} s s' /\
    dom (objs s) ⊆ dom (objs s').
Proof using junk_len.
  intros Hok Hr Hch Hfull Hnd. cbv zeta. destruct (Z.eqb_spec (fnext r) 0) as [E|E].
  - destruct (raw_obj_spec s sizeof_FileNode junk_FileNode Hok) as [(n & s1 & E1 & Hn & Hn0 & Hok1 & Ho1)|E1];
      [by unfold sizeof_FileNode|right|left; unfold bind; by rewrite E1].
    pose proof (elem_of_dom_2 _ _ _ Hr) as Had. assert (a <> n) as Han by congruence.
    rewrite (bind_run _ _ _ _ _ E1).
    assert (typed_at s1 a r) as Ha1 by (unfold typed_at; by rewrite Ho1, lookup_insert_ne).
    rewrite (bind_run _ _ _ _ _ (set_field_run _ _ _ _ Ha1)). set (s2 := MkStore _ _).
    assert (typed_at s2 n (junk_FileNode n)) as Hn2.
    { unfold typed_at, s2. cbn [objs]. by rewrite lookup_insert_ne, Ho1, lookup_insert_eq. }
    rewrite (set_field_run _ _ _ _ Hn2). set (s3 := MkStore _ _).
    assert (typed_at s3 a (set_fnext n r) /\ typed_at s3 n (set_fnext 0 (junk_FileNode n))) as [Ha3 Hn3].
    { split; unfold typed_at, s3, s2; cbn [objs]; by simplify_map_eq. }
    exists s3, (set_fnext n r), [n], [data (junk_FileNode n)]. split_and!; try done.
    + eapply put_obj_ok; [by eapply put_obj_ok|exact Hn2].
    + cbn [linked fnext set_fnext]. split; [done|]. by exists (set_fnext 0 (junk_FileNode n)).
    + by constructor.
    + repeat constructor; set_solver.
    + intros q ->%list_elem_of_singleton. by right.
    + intros q Hq Hqd. unfold s3, s2. cbn [objs]. rewrite Ho1.
      assert (q <> a) by set_solver. assert (q <> n) by congruence. by rewrite !lookup_insert_ne.
    + unfold s3, s2. cbn [objs]. rewrite Ho1, !dom_insert. set_solver.
  - right. exists s, r, ns, cs. split_and!; try done.
    + intros ->. by apply linked_nil in Hch as [_ ?].
    + intros q Hq. by left.
Qed.

(** A node [a] that holds [c'], and a file behind it. *)
Lemma written_cons s s2 s3 a x ns ns1 c' bytes rest :
  typed_at s2 a x -> data x = c' -> Zlen c' = FILENODE_DATA_SIZE -> c' = bytes ->
  (a ∉ ns1) -> same_except {[a]} s s2 -> dom (objs s) ⊆ dom (objs s2) ->
  (forall q, q ∈ ns1 -> q ∈ ns \/ q ∉ dom (objs s)) ->
  written s2 (fnext x) ns1 rest s3 -> written s a (a :: ns) (bytes ++ rest) s3.
Proof using.
  clear junk_len junk_FileNode. intros Hx Hxc Hc <- Ha Hs2 Hd2 Hns1 (ns' & cs' & H1 & H2 & H3 & [tl H4] & H5 & H6 & H7 & H8).
  assert (a ∉ ns') as Han'.
  { intros Hin. apply H5 in Hin as [?|Hn]; [done|]. apply Hn. by eapply elem_of_dom_2. }
  exists (a :: ns'), (c' :: cs'). split_and!; try done.
  - split; [done|]. exists x. split; [|done]. eapply same_except_typed; [exact H6| |exact Hx]. by rewrite elem_of_list_to_set.
  - by constructor.
  - by apply NoDup_cons.
  - exists tl. cbn [concat]. by rewrite H4, app_assoc.
  - intros q [->|Hq]%elem_of_cons; [left; by left|].
    apply H5 in Hq as [Hq|Hq]; [apply Hns1 in Hq as [?|?]; [left; by right|by right]|right; set_solver].
  - intros q Hq Hqd. rewrite H6; [apply Hs2; [set_solver|done]| |set_solver].
    rewrite elem_of_list_to_set. intros Hin. apply Hns1 in Hin as [?|?]; set_solver.
  - set_solver.
Qed.

(** A last node [a]: the nodes behind it stay. *)
Lemma written_last s s2 a x ns ns1 cs1 c' bytes tl :
  typed_at s2 a x -> data x = c' -> Zlen c' = FILENODE_DATA_SIZE -> c' = bytes ++ tl -> store_ok s2 ->
  NoDup (a :: ns1) -> same_except {[a]} s s2 -> dom (objs s) ⊆ dom (objs s2) -> chunks s2 (fnext x) ns1 cs1 0 -> full_chunks cs1 ->
  (forall q, q ∈ ns1 -> q ∈ ns \/ q ∉ dom (objs s)) -> written s a (a :: ns) bytes s2.
Proof using.
  clear junk_len junk_FileNode. intros Hx Hxc Hc -> Hok2 Hnd Hs2 Hd2 Hch Hfull Hns1. exists (a :: ns1), ((bytes ++ tl) :: cs1). split_and!; try done.
  - split; [done|]. by exists x.
  - by constructor.
  - cbn [concat]. eexists. by rewrite <- app_assoc.
  - intros q [->|Hq]%elem_of_cons; [left; by left|]. apply Hns1 in Hq as [?|?]; [left; by right|by right].
  - intros q Hq Hqd. apply Hs2; [set_solver|done].
Qed.

Lemma write_loop_spec fuel : forall s a ns cs from i len left,
  store_ok s -> chunks s a ns cs 0 -> cs <> [] -> full_chunks cs -> NoDup ns ->
  0 <= i -> 0 < left -> i + left = len -> len + FILENODE_DATA_SIZE < 2 ^ 64 -> left <= Zlen from ->
  left < FILENODE_DATA_SIZE * Z.of_nat fuel ->
  write_loop junk_FileNode fuel a from i len left s = Halted \/
  exists s', write_loop junk_FileNode fuel a from i len left s = Ok (tt, s') /\
    written s a ns (take (Z.to_nat left) from) s'.
Proof using junk_len.
  assert (FILENODE_DATA_SIZE = 4088) as Hsz by done.
  induction fuel as [|fuel IH]; intros s a ns cs from i len left Hok Hch Hne Hfull Hnd Hi Hl Hil Hlen Hfrom Hf; [lia|].
  destruct cs as [|c cs]; [done|]. apply linked_cons in Hch as (r & ns0 & -> & Hr & Hv & Hch).
  apply Forall_cons in Hfull as [Hc Hfull].
  cbn [write_loop]. replace (i <? len) with true by lia. cbn [negb].
  rewrite (bind_run _ _ _ _ _ (get_obj_run _ _ _ Hr)).
  destruct (next_node_run s a r ns0 cs Hok Hr Hch Hfull Hnd)
    as [E|(s1 & r1 & ns1 & cs1 & E & Hok1 & Hr1 & Hd1 & Hch1 & Hne1 & Hfull1 & Hnd1 & Hns1 & Hs1 & Hdom1)];
    [left; unfold bind at 1; by rewrite E|].
  rewrite (bind_run _ _ _ _ _ E), (bind_run _ _ _ _ _ (get_obj_run _ _ _ Hr1)). clear E.
  set (amount := if left >? FILENODE_DATA_SIZE then FILENODE_DATA_SIZE else left).
  assert (0 < amount <= FILENODE_DATA_SIZE /\ amount <= left /\ (amount < FILENODE_DATA_SIZE -> amount = left))
    as (Ham & Haml & Ham') by (unfold amount; destruct (Z.gtb_spec left FILENODE_DATA_SIZE); lia).
  assert (ku_memcpy (data r1) from amount = Ok (take (Z.to_nat amount) from ++ drop (Z.to_nat amount) c)) as Hcpy.
  { unfold ku_memcpy. rewrite Hd1, Hv, Hc. destruct (_ && _) eqn:E; [done|lia]. }
  assert (Zlen (take (Z.to_nat amount) from ++ drop (Z.to_nat amount) c) = FILENODE_DATA_SIZE) as Hc'.
  { unfold Zlen in *. rewrite length_app, length_take, length_drop. lia. }
  rewrite (bind_lift _ _ _ _ Hcpy), (bind_run _ _ _ _ _ (put_obj_run _ _ _ _ Hr1)). set (x := set_file_data _ r1). set (s2 := MkStore _ _).
  assert (store_ok s2) as Hok2 by (by eapply put_obj_ok).
  assert (chunks s2 (fnext r1) ns1 cs1 0) as Hch2.
  { eapply linked_frame; [|exact Hch1]. intros q Hq. unfold s2. cbn [objs]. apply lookup_insert_ne. intros <-. by apply NoDup_cons in Hnd1 as [? _]. }
  assert (typed_at s2 a x) as Hr2 by look.
  assert (same_except {[a]} s s2) as Hs2.
  { intros q Hq Hqd. unfold s2. cbn [objs]. rewrite lookup_insert_ne by set_solver. by apply Hs1. }
  assert (dom (objs s) ⊆ dom (objs s2)) as Hdom2 by (unfold s2; cbn [objs]; rewrite dom_insert; set_solver).
  rewrite (u64_small (i + FILENODE_DATA_SIZE)) by lia.
  destruct (Z_lt_le_dec amount left) as [Hmore|Hlast].
  - assert (amount = FILENODE_DATA_SIZE) as Eam by lia. rewrite u64_small by lia. apply NoDup_cons in Hnd1 as [Ha1 Hnd1].
    destruct (IH s2 (fnext r1) ns1 cs1 (drop (Z.to_nat FILENODE_DATA_SIZE) from) (i + FILENODE_DATA_SIZE) len
      (left - FILENODE_DATA_SIZE)) as [E|(s3 & E & Hw)]; try done; try lia;
      [unfold Zlen in *; rewrite length_drop; lia|by left|right]. exists s3. split; [done|].
    replace (take (Z.to_nat left) from) with (take (Z.to_nat amount) from ++ take (Z.to_nat (left - FILENODE_DATA_SIZE)) (drop (Z.to_nat FILENODE_DATA_SIZE) from))
      by (rewrite Eam, take_take_drop; f_equal; lia).
    eapply written_cons; [exact Hr2|done|exact Hc'| |exact Ha1|done|done|exact Hns1|exact Hw].
    change (take (Z.to_nat amount) from ++ drop (Z.to_nat amount) c = take (Z.to_nat amount) from). rewrite (drop_ge c) by (unfold Zlen in *; lia). apply app_nil_r.
  - assert (amount = left) as Eam by lia. right. exists s2. split.
    { destruct fuel; cbn [write_loop]; (replace (i + FILENODE_DATA_SIZE <? len) with false by lia); done. }
    eapply (written_last _ _ _ x _ ns1 cs1 _ _ (drop (Z.to_nat amount) c)); [exact Hr2|done|exact Hc'|by rewrite <- Eam|done..].
Qed.
(** A regular file with the chunks [cs] in the nodes [ns]. *)
Definition regular_file (s : Store Obj) (file : Z) (ns : list Z) (cs : list (list Z)) : Prop :=
  exists f, typed_at s file f /\ ftype f <> FILETYPE_DEVICE /\ chunks s (first_node f) ns cs 0 /\
    full_chunks cs /\ NoDup (file :: ns).

(** Where a file gets its first node, which [tempfs_write] does not initialise,
    the block that [malloc] returns happens to have a null [next_node]. *)
Definition null_next (s : Store Obj) : Prop := forall a, (a ∉ dom (objs s)) -> fnext (junk_FileNode a) = 0.

(** Making sure that a file has a first node. *)
Lemma first_chunk_run s file f ns cs :
  (first_node f = 0 -> null_next s) ->
  store_ok s -> typed_at s file f -> chunks s (first_node f) ns cs 0 -> full_chunks cs -> NoDup (file :: ns) ->
  let m := if first_node f =? 0 then
      let* n := raw_obj sizeof_FileNode junk_FileNode in set_field file (set_first n)
    else ret tt in
  m s = Halted \/
  exists s' v ns' cs', m s = Ok (tt, s') /\ store_ok s' /\ typed_at s' file (set_first v f) /\
    chunks s' v ns' cs' 0 /\ cs' <> [] /\ full_chunks cs' /\ NoDup (file :: ns') /\
    (forall q, q ∈ ns' -> q ∈ ns \/ q ∉ dom (objs s)) /\ same_except {[file]} s s' /\ dom (objs s) ⊆ dom (objs s').
Proof using junk_len.
  intros Hjn Hok Hf Hch Hfull Hnd. cbv zeta. destruct (Z.eqb_spec (first_node f) 0) as [E|E].
  - destruct (raw_obj_spec s sizeof_FileNode junk_FileNode Hok) as [(n & s1 & E1 & Hn & Hn0 & Hok1 & Ho1)|E1];
      [by unfold sizeof_FileNode|right|left; unfold bind; by rewrite E1].
    assert (file <> n) as Hfn by (intros ->; by apply elem_of_dom_2 in Hf).
    rewrite (bind_run _ _ _ _ _ E1).
    assert (typed_at s1 file f) as Hf1 by (unfold typed_at; by rewrite Ho1, lookup_insert_ne).
    rewrite (set_field_run _ _ _ _ Hf1). set (s2 := MkStore _ _).
    exists s2, n, [n], [data (junk_FileNode n)]. split_and!; try done.
    + by eapply put_obj_ok.
    + look.
    + cbn [linked]. split; [done|]. exists (junk_FileNode n).
      split; [unfold typed_at, s2; cbn [objs]; rewrite Ho1; by simplify_map_eq|]. split; [done|]. by apply Hjn.
    + by constructor.
    + repeat constructor; set_solver.
    + intros q ->%list_elem_of_singleton. by right.
    + intros q Hq%not_elem_of_singleton Hqd. unfold s2. cbn [objs]. rewrite lookup_insert_ne, Ho1 by done.
      apply lookup_insert_ne. congruence.
    + unfold s2. cbn [objs]. rewrite Ho1, !dom_insert. set_solver.
  - right. exists s, (first_node f), ns, cs. split_and!; try done.
    + by destruct f.
    + intros ->. by apply linked_nil in Hch as [_ ?].
    + intros q Hq. by left.
Qed.

(** What [tempfs_write] does to a regular file: it holds the bytes, and only the
    file and its nodes change. *)
Lemma tempfs_write_spec call_write s file f ns cs from len :
  (first_node f = 0 -> null_next s) ->
  store_ok s -> typed_at s file f -> ftype f <> FILETYPE_DEVICE -> chunks s (first_node f) ns cs 0 -> full_chunks cs ->
  NoDup (file :: ns) -> 0 <= len -> len + FILENODE_DATA_SIZE < 2 ^ 64 -> len <= Zlen from ->
  (exists s' v ns' cs' tl, tempfs_write junk_FileNode call_write file from len s = Ok (0, s') /\ store_ok s' /\
     typed_at s' file (set_first v (set_len len f)) /\ chunks s' v ns' cs' 0 /\ full_chunks cs' /\ NoDup (file :: ns') /\
     concat cs' = take (Z.to_nat len) from ++ tl /\
     (forall q, q ∈ ns' -> q ∈ ns \/ q ∉ dom (objs s)) /\ same_except ({[file]} ∪ list_to_set ns) s s' /\
     dom (objs s) ⊆ dom (objs s')) \/
  tempfs_write junk_FileNode call_write file from len s = Halted.
Proof using junk_len.
  intros Hjn Hok Hf Ht Hch Hfull Hnd Hl Hlim Hfrom. unfold tempfs_write.
  rewrite (bind_run _ _ _ _ _ (get_obj_run _ _ _ Hf)). destruct (Z.eqb_spec (ftype f) FILETYPE_DEVICE) as [|_]; [done|].
  rewrite (bind_run _ _ _ _ _ (put_obj_run _ _ _ _ Hf)). set (s1 := MkStore _ _).
  pose proof Hnd as [Hfns _]%NoDup_cons. pose proof (elem_of_dom_2 _ _ _ Hf) as Hfd.
  assert (typed_at s1 file (set_len len f)) as Hf1 by look.
  assert (chunks s1 (first_node (set_len len f)) ns cs 0) as Hch1.
  { eapply linked_frame; [|exact Hch]. intros q Hq. unfold s1. cbn [objs]. apply lookup_insert_ne. set_solver. }
  assert (dom (objs s1) = dom (objs s)) as Hdom1 by (apply dom_insert_lookup_L; by exists (to_obj f)).
  assert (first_node (set_len len f) = 0 -> null_next s1) as Hjn1 by (unfold null_next; by rewrite Hdom1).
  destruct (first_chunk_run s1 file (set_len len f) ns cs Hjn1 ltac:(by eapply put_obj_ok) Hf1 Hch1 Hfull Hnd)
    as [E|(s2 & v & ns2 & cs2 & E & Hok2 & Hf2 & Hch2 & Hne2 & Hfull2 & Hnd2 & Hns2 & Hs2 & Hdom2)];
    cbn [first_node set_len] in E; [right; unfold bind at 1; by rewrite E|].
  rewrite (bind_run _ _ _ _ _ E), (bind_run _ _ _ _ _ (get_obj_run _ _ _ Hf2)). clear E.
  pose proof Hnd2 as [Hfns2 Hnd2']%NoDup_cons.
  rewrite Hdom1 in Hdom2, Hns2. change (first_node (set_first v (set_len len f))) with v.
  assert (forall q, q <> file -> q ∈ dom (objs s) -> objs s2 !! q = objs s !! q) as Hs02.
  { intros q Hq Hqd. rewrite Hs2; [unfold s1; cbn [objs]; by apply lookup_insert_ne|by apply not_elem_of_singleton|].
    by rewrite Hdom1. }
  destruct (decide (len = 0)) as [->|Hne0].
  { left. exists s2, v, ns2, cs2, (concat cs2). rewrite (bind_run (write_loop _ _ _ _ _ _ _) _ s2 tt s2) by done.
    split_and!; try done. intros q Hq Hqd. apply Hs02; [set_solver|done]. }
  destruct (write_loop_spec (S (Z.to_nat (len / FILENODE_DATA_SIZE))) s2 v ns2 cs2 from 0 len len)
    as [E|(s3 & E & ns3 & cs3 & Hch3 & Hfull3 & Hnd3 & [tl Htl] & Hns3 & Hs3 & Hdom3 & Hok3)];
    try done; [lia|apply chunk_fuel; lia|right; unfold bind; by rewrite E|left].
  rewrite (bind_run _ _ _ _ _ E). exists s3, v, ns3, cs3, tl. split_and!; try done.
  - eapply same_except_typed; [exact Hs3| |exact Hf2]. by rewrite elem_of_list_to_set.
  - apply NoDup_cons. split; [|done]. intros [?|Hn]%Hns3; [done|]. apply Hn. by eapply elem_of_dom_2.
  - intros q [Hq|Hq]%Hns3; [apply Hns2 in Hq as [?|?]; set_solver|set_solver].
  - intros q Hq Hqd. rewrite Hs3; [apply Hs02; set_solver| |set_solver].
    rewrite elem_of_list_to_set. intros Hin. apply Hns2 in Hin as [?|?]; set_solver.
  - set_solver.
Qed.

(** Reading a file whose first bytes are [bytes]. *)
Lemma tempfs_read_prefix call_read s file ns cs bytes tl buffer n :
  store_ok s -> regular_file s file ns cs -> concat cs = bytes ++ tl ->
  0 <= n <= Zlen bytes -> n <= Zlen buffer -> n + FILENODE_DATA_SIZE < 2 ^ 64 ->
  tempfs_read call_read file buffer n s =
    Ok ((0, take (Z.to_nat n) bytes ++ drop (Z.to_nat n) buffer), s).
Proof using.
  clear junk_FileNode junk_len.
  intros Hok (f & Hf & Ht & Hch & Hfull & _) Hcs Hn Hb Hlim. unfold tempfs_read.
  rewrite (bind_run _ _ _ _ _ (get_obj_run _ _ _ Hf)). destruct (Z.eqb_spec (ftype f) FILETYPE_DEVICE) as [|_]; [done|].
  destruct (list_split_at buffer n) as (rest & post & -> & Hr); [lia|].
  pose proof (read_loop_spec s cs (first_node f) ns [] rest post (S (Z.to_nat (n / FILENODE_DATA_SIZE))) n Hok Hch Hfull Hlim)
    as Hrun. cbn [app] in Hrun. rewrite Hr in Hrun.
  rewrite (bind_run _ _ _ _ _ (Hrun ltac:(unfold Zlen; cbn; lia) (chunk_fuel n ltac:(lia)))).
  assert (length rest = Z.to_nat n) as Hlr by (unfold Zlen in Hr; lia).
  rewrite <- Hlr, drop_app_length. do 3 f_equal. rewrite Hcs. unfold overlay, Zlen in *.
  rewrite take_app_le by lia. rewrite (drop_ge rest) by (rewrite length_app; lia). by rewrite app_nil_r.
Qed.

(** Without that luck: the block behind the first node's is none of the
    objects of the store. *)
Definition wild_next (s : Store Obj) : Prop := forall a, (a ∉ dom (objs s)) ->
  fnext (junk_FileNode a) <> 0 /\ fnext (junk_FileNode a) <> a /\ (fnext (junk_FileNode a) ∉ dom (objs s)).

Lemma tempfs_write_wild call_write s file f from len :
  wild_next s -> store_ok s -> typed_at s file f -> ftype f <> FILETYPE_DEVICE -> first_node f = 0 ->
  FILENODE_DATA_SIZE < len -> len + FILENODE_DATA_SIZE < 2 ^ 64 -> len <= Zlen from ->
  tempfs_write junk_FileNode call_write file from len s = Halted \/
  tempfs_write junk_FileNode call_write file from len s = Fault.
Proof using junk_len.
  assert (FILENODE_DATA_SIZE = 4088) as Hsz by done. intros Hj Hok Hf Ht Hz Hl Hlim Hfrom. unfold tempfs_write.
  rewrite (bind_run _ _ _ _ _ (get_obj_run _ _ _ Hf)). destruct (Z.eqb_spec (ftype f) FILETYPE_DEVICE) as [|_]; [done|].
  rewrite (bind_run _ _ _ _ _ (put_obj_run _ _ _ _ Hf)). set (s1 := MkStore _ _). rewrite Hz. cbn [Z.eqb].
  pose proof (put_obj_ok _ _ _ (set_len len f) Hok Hf) as Hok1. fold s1 in Hok1.
  assert (dom (objs s1) = dom (objs s)) as Hdom1 by (apply dom_insert_lookup_L; by exists (to_obj f)).
  destruct (raw_obj_spec s1 sizeof_FileNode junk_FileNode Hok1) as [(n & s2 & E & Hn & _ & _ & Ho)|E];
    [done|right|left; rewrite bind_assoc; unfold bind at 1; by rewrite E].
  rewrite Hdom1 in Hn. destruct (Hj n Hn) as (Hn1 & Hn2 & Hn3).
  assert (typed_at s2 file (set_len len f)) as Hf2
    by (unfold typed_at, s1 in *; rewrite Ho; cbn [objs]; apply elem_of_dom_2 in Hf; by rewrite lookup_insert_ne, lookup_insert_eq by congruence).
  assert (file <> n) as Hfn by (intros ->; by apply elem_of_dom_2 in Hf).
  rewrite bind_assoc, (bind_run _ _ _ _ _ E), (bind_run _ _ _ _ _ (set_field_run _ _ _ _ Hf2)). set (s3 := MkStore _ _).
  assert (typed_at s3 file (set_first n (set_len len f)) /\ typed_at s3 n (junk_FileNode n)) as [Hf3 Hn3']
    by (split; unfold typed_at, s3; cbn [objs]; rewrite ?Ho; by simplify_map_eq).
  rewrite (bind_run _ _ _ _ _ (get_obj_run _ _ _ Hf3)). cbn [first_node set_first].
  destruct (Z.to_nat (len / FILENODE_DATA_SIZE)) as [|fuel] eqn:Ef; [divlia|]. cbn [write_loop].
  replace (0 <? len) with true by lia. cbn [negb].
  rewrite bind_assoc, (bind_run _ _ _ _ _ (get_obj_run _ _ _ Hn3')). destruct (Z.eqb_spec (fnext (junk_FileNode n)) 0) as [|_]; [done|].
  rewrite bind_assoc, bind_ret, bind_assoc, (bind_run _ _ _ _ _ (get_obj_run _ _ _ Hn3')).
  replace (len >? FILENODE_DATA_SIZE) with true by lia. rewrite bind_assoc.
  erewrite bind_lift; [|unfold ku_memcpy; rewrite junk_len; destruct (_ && _) eqn:Eb; [reflexivity|lia]].
  rewrite bind_assoc, (bind_run _ _ _ _ _ (put_obj_run _ _ _ _ Hn3')). cbn [fnext set_file_data].
  rewrite u64_small by lia. replace (0 + FILENODE_DATA_SIZE <? len) with true by lia. cbn [negb].
  rewrite bind_assoc. unfold bind at 1. rewrite get_obj_none; [done|]. cbn [objs]. apply not_elem_of_dom.
  unfold s3. cbn [objs]. rewrite !dom_insert, Ho, dom_insert, Hdom1. apply elem_of_dom_2 in Hf. set_solver.
Qed.

(** C10: What [tempfs_write] stores in a regular file, of whatever length and
    over whatever contents, [tempfs_read] returns, and [tempfs_length] is the
    length written; the file stays well formed.  ([tempfs_read] does not look at
    the length of the file: the statement is for reads within it.)  A file that
    has no node yet gets its first one from [malloc], and nothing initialises
    its [next_node]: there the claim is for a heap whose free blocks happen to
    have it null ([null_next]), which [malloc] does not promise.  The second
    half says what the omission costs: with a [next_node] that is no object, a
    write of more than one node's bytes to such a file is a bad access. *)
Theorem tempfs_write_read call_write call_read s file ns cs from len :
  store_ok s -> regular_file s file ns cs ->
  0 <= len -> len + FILENODE_DATA_SIZE < 2 ^ 64 -> len <= Zlen from ->
  ((ns = [] -> null_next s) ->
   (exists s' ns' cs', tempfs_write junk_FileNode call_write file from len s = Ok (0, s') /\ store_ok s' /\
      regular_file s' file ns' cs' /\ tempfs_length file s' = Ok (len, s') /\
      forall buffer n, 0 <= n <= len -> n <= Zlen buffer ->
        tempfs_read call_read file buffer n s' =
          Ok ((0, take (Z.to_nat n) from ++ drop (Z.to_nat n) buffer), s')) \/
   tempfs_write junk_FileNode call_write file from len s = Halted) /\
  (ns = [] -> wild_next s -> FILENODE_DATA_SIZE < len ->
   tempfs_write junk_FileNode call_write file from len s = Halted \/
   tempfs_write junk_FileNode call_write file from len s = Fault).
Proof using junk_len.
  intros Hok (f & Hf & Ht & Hch & Hfull & Hnd) Hl Hlim Hfrom. split.
  - intros Hjn. assert (first_node f = 0 -> null_next s) as Hjn'.
    { intros Hz. apply Hjn. rewrite Hz in Hch. destruct cs as [|c cs]; [by apply linked_nil in Hch as [-> _]|].
      by pose proof (linked_not_null _ _ _ _ _ Hok Hch ltac:(done)). }
    destruct (tempfs_write_spec call_write s file f ns cs from len)
      as [(s' & v & ns' & cs' & tl & E & Hok' & Hf' & Hch' & Hfull' & Hnd' & Hcs & _)|E]; try done; [left|by right].
    assert (regular_file s' file ns' cs') as Hreg by (by exists (set_first v (set_len len f))).
    exists s', ns', cs'. split_and!; try done.
    { unfold tempfs_length. by rewrite (bind_run _ _ _ _ _ (get_obj_run _ _ _ Hf')). }
    intros buffer n Hn Hb.
    rewrite (tempfs_read_prefix _ _ _ _ _ _ _ _ _ Hok' Hreg Hcs); try done; [|unfold Zlen in *; rewrite length_take; lia|lia].
    rewrite take_take. rewrite Nat.min_l by lia. done.
  - intros -> Hj Hlen. apply tempfs_write_wild with f; try done. destruct cs; [by apply linked_nil in Hch as [_ ?]|done].
Qed.
End WriteFile.
End TempFS.


(** ** Examples: the file system of a machine with zeroed memory *)

Abbreviation FsObj := (Inode + DirEntryNode + FileNode)%type.
Definition zero_FileNode : FileNode := {| data := replicate (Z.to_nat FILENODE_DATA_SIZE) 0; fnext := 0 |}.
Definition fs_new : M (Store FsObj) Z := tempfs_new (fun _ => zero_Inode) (fun _ => zero_DirEntryNode).
Definition fs_mkfile (d : Z) (nm : list Z) : M (Store FsObj) unit :=
  tempfs_mkfile (fun _ => zero_Inode) (fun _ => zero_DirEntryNode) d nm.
Definition fs_mkdir (d : Z) (nm : list Z) : M (Store FsObj) unit :=
  tempfs_mkdir (fun _ => zero_Inode) (fun _ => zero_DirEntryNode) d nm.
Definition fs_write (file : Z) (bytes : list Z) : M (Store FsObj) Z :=
  tempfs_write (fun _ => zero_FileNode) (fun _ _ _ _ => ret 0) file bytes (Zlen bytes).
Definition fs_read (file : Z) (buffer : list Z) (n : Z) : M (Store FsObj) (Z * list Z) :=
  tempfs_read (fun _ _ b _ => ret (0, b)) file buffer n.

(** A file and a directory are made, written and found. *)
Example fs_demo :
  value_of (on_boot (let* root := fs_new in fs_mkfile root [97; 0] ;;; fs_mkdir root [98; 0] ;;;
    let* f := tempfs_find root [97; 0] in
    let* d := tempfs_find root [98; 0] in
    let* none := tempfs_find root [99; 0] in
    fs_write f (replicate (Z.to_nat 5000) 7) ;;;
    let* dotdot := tempfs_find d dotdot in
    let* f' := tempfs_find dotdot [97; 0] in
    let* r := fs_read f (replicate (Z.to_nat 5001) 9) 5000 in
    ret (bool_decide (f' = f), none, bool_decide (snd r = replicate (Z.to_nat 5000) 7 ++ [9])))) =
  Some (true, 0, true).
Proof. vm_compute. reflexivity. Qed.

(** The file system right after [tempfs_new]. *)
Lemma fs_start : exists (s : Store FsObj) root first n fi up,
  store_ok s /\ directory s root [first; n] [(name_dot, fi); (name_dotdot, up)] /\
  NoDup [root; first; n; fi; up] /\ self_links s first fi up.
Proof.
  destruct (on_boot_start (Obj := FsObj) fs_new (2 ^ 47 + 65536 + 4096 + 26)) as (s0 & s & E & Hok & Ho);
    [vm_compute; reflexivity|].
  destruct (tempfs_new_spec (fun _ => zero_Inode) (fun _ => zero_DirEntryNode) s0 Hok) as
    [(root & first & n & fi & up & s' & E' & Hok' & Hdir & Hnd & Hl & _)|E']; try done.
  - by exists s', root, first, n, fi, up.
  - unfold fs_new in E. by rewrite E' in E.
Qed.

Lemma fs_names : c_string [97] [97; 0] /\ Zlen [97] < FILENAME_SIZE.
Proof. repeat split; [repeat constructor; lia|by exists []]. Qed.

Lemma tempfs_mkfile_then_find_witness :
  exists (s : Store FsObj) d ns ents, tree_directory s d ns ents /\
    ((exists p n s', fs_mkfile d [97; 0] s = Ok (tt, s') /\ store_ok s' /\
       tree_directory s' d (ns ++ [n]) (ents ++ [([97], p)]) /\ typed_at s' p (entry_Inode [97] false) /\
       (forall nm' dirname, c_string nm' dirname -> Zlen nm' < 2 ^ 31 ->
          tempfs_find d dirname s = Ok (find_entry nm' ents, s) /\
          tempfs_find d dirname s' =
            Ok (if bool_decide (nm' ∈ map fst ents) then find_entry nm' ents
                else if bool_decide ([97] = nm') then p else 0, s'))) \/
    fs_mkfile d [97; 0] s = Halted).
Proof.
  destruct fs_start as (s & root & first & n & fi & up & Hok & Hdir & Hnd & _).
  exists s, root, [first; n], [(name_dot, fi); (name_dotdot, up)]. split; [exact (conj Hdir Hnd)|].
  exact (tempfs_mkfile_then_find (fun _ => zero_Inode) (fun _ => zero_DirEntryNode) s root _ _ [97] [97; 0] Hok (conj Hdir Hnd)
    (proj1 fs_names) (proj2 fs_names) eq_refl).
Defined.

Lemma tempfs_mkdir_makes_directory_witness :
  exists (s : Store FsObj) d ns ents, tree_directory s d ns ents /\
    ((exists new n s' first n' fi up, fs_mkdir d [97; 0] s = Ok (tt, s') /\
       store_ok s' /\ tree_directory s' d (ns ++ [n]) (ents ++ [([97], new)]) /\
       directory s' new [first; n'] [(name_dot, fi); (name_dotdot, up)] /\
       exists r y, typed_at s' d r /\ typed_at s' up y /\ first_node y = first_node r /\ is_dir y = true) \/
     fs_mkdir d [97; 0] s = Halted).
Proof.
  destruct fs_start as (s & root & first & n & fi & up & Hok & Hdir & Hnd & _).
  exists s, root, [first; n], [(name_dot, fi); (name_dotdot, up)]. split; [exact (conj Hdir Hnd)|].
  exact (tempfs_mkdir_makes_directory (fun _ => zero_Inode) (fun _ => zero_DirEntryNode) s root _ _ [97] [97; 0] Hok (conj Hdir Hnd)
    (proj1 fs_names) (proj2 fs_names) eq_refl).
Defined.

Lemma tempfs_new_makes_root_witness :
  exists s : Store FsObj, store_ok s /\
    ((exists root ns fi up s', fs_new s = Ok (root, s') /\ store_ok s' /\
       tree_directory s' root ns [(name_dot, fi); (name_dotdot, up)] /\
       forall nm dirname, c_string nm dirname -> Zlen nm < 2 ^ 31 ->
         tempfs_find root dirname s' =
           Ok (if bool_decide (nm = name_dot) then fi
               else if bool_decide (nm = name_dotdot) then up else 0, s')) \/
     fs_new s = Halted).
Proof.
  destruct (on_boot_start (Obj := FsObj) (ret tt) tt) as (s0 & s & _ & Hok & _); [vm_compute; reflexivity|].
  exists s0. split; [exact Hok|].
  exact (tempfs_new_makes_root (fun _ => zero_Inode) (fun _ => zero_DirEntryNode) s0 Hok (fun _ => eq_refl) (fun _ => eq_refl)).
Defined.

Lemma adding_through_dotdot_loses_entries_witness :
  exists (s : Store FsObj) d up e0 e1,
    (exists p s', tempfs_addentry (fun _ => zero_Inode) (fun _ => zero_DirEntryNode) up [97; 0] false s = Ok (p, s') /\
       forall nm' dirname', c_string nm' dirname' -> Zlen nm' < 2 ^ 31 ->
         tempfs_find d dirname' s = Ok (find_entry nm' [e0; e1], s) /\
         tempfs_find d dirname' s' = Ok (find_entry nm' [e0; ([97], p)], s')) \/
    tempfs_addentry (fun _ => zero_Inode) (fun _ => zero_DirEntryNode) up [97; 0] false s = Halted.
Proof.
  destruct fs_start as (s & root & first & n & fi & up & Hok & Hdir & Hnd & _ & (x & Hx & Hxf & Hxn & _)).
  destruct Hdir as [(r & Hr & _ & _ & Hch) _ Hn _].
  assert (first_node r = first) as Hf by (by destruct Hch as [? _]).
  exists s, root, up, (name_dot, fi), (name_dotdot, up).
  refine (adding_through_dotdot_loses_entries (fun _ => zero_Inode) (fun _ => zero_DirEntryNode) s root r [first; n] (name_dot, fi) (name_dotdot, up) [] up x
    [97] [97; 0] false Hok Hr Hch Hn Hx (eq_trans Hxf (eq_sym Hf)) Hxn _ _ _ (proj1 fs_names) (proj2 fs_names)).
  - rewrite !NoDup_cons in *. split_and!; [set_solver..|apply NoDup_nil_2].
  - rewrite !NoDup_cons in Hnd. cbn [snd]. set_solver.
  - rewrite !NoDup_cons in Hnd. cbn [snd]. set_solver.
Defined.

(** A new empty file. *)
Lemma file_start : exists (s : Store FsObj) file, store_ok s /\ regular_file s file [] [].
Proof.
  destruct (on_boot_start (Obj := FsObj) (let* r := fs_new in
      tempfs_addentry (fun _ => zero_Inode) (fun _ => zero_DirEntryNode) r [97; 0] false ;;; ret tt) tt)
    as (s0 & s & E & Hok & Ho); [vm_compute; reflexivity|].
  apply bind_ok in E as (r & s1 & E1 & E). apply bind_ok in E as (p & s2 & E2 & _).
  destruct (tempfs_new_spec (fun _ => zero_Inode) (fun _ => zero_DirEntryNode) s0 Hok) as
    [(root & first & n & fi & up & s' & E' & Hok' & Hdir & Hnd & _)|E']; try done;
    unfold fs_new in E1; rewrite E1 in E'; [|done]. injection E' as <- <-.
  destruct (tree_directory_disjoint _ _ _ _ (conj Hdir Hnd)) as [H1 H2].
  destruct (addentry_spec (fun _ => zero_Inode) (fun _ => zero_DirEntryNode) s1 r _ _ [97] [97; 0] false Hok' Hdir
    (proj1 fs_names) (proj2 fs_names) eq_refl H1 H2) as [(p' & n' & s2' & E' & Hok2 & _ & _ & _ & _ & Hp & _)|E'];
    rewrite E2 in E'; [|done]. injection E' as <- <-.
  exists s2, p. split; [done|]. exists (entry_Inode [97] false).
  split_and!; try done; [constructor|repeat constructor; set_solver].
Qed.

(** Blocks whose [next_node] is wild. *)
Lemma wild_exists (s : Store FsObj) : exists junk, wild_next junk s /\ forall a, Zlen (data (junk a)) = FILENODE_DATA_SIZE.
Proof.
  set (g := fresh (dom (objs s) ∪ {[0]})). set (h := fresh (dom (objs s) ∪ {[0; g]})).
  pose proof (is_fresh (dom (objs s) ∪ {[0]})) as Hg. pose proof (is_fresh (dom (objs s) ∪ {[0; g]})) as Hh. fold g in Hg. fold h in Hh.
  exists (fun a => set_fnext (if decide (a = g) then h else g) zero_FileNode). split; [|done].
  intros a Ha. cbn [fnext set_fnext]. destruct (decide (a = g)) as [->|]; set_solver.
Qed.

Lemma tempfs_write_read_witness :
  exists (s : Store FsObj) file, regular_file s file [] [] /\
    ((exists s' ns' cs', fs_write file [1; 2; 3] s = Ok (0, s') /\ store_ok s' /\
       regular_file s' file ns' cs' /\ tempfs_length file s' = Ok (3, s') /\
       forall buffer n, 0 <= n <= 3 -> n <= Zlen buffer ->
         fs_read file buffer n s' =
           Ok ((0, take (Z.to_nat n) [1; 2; 3] ++ drop (Z.to_nat n) buffer), s')) \/
     fs_write file [1; 2; 3] s = Halted) /\
    exists junk, wild_next junk s /\ let bytes := replicate (Z.to_nat 4089) 1 in
      (tempfs_write junk (fun _ _ _ _ => ret 0) file bytes 4089 s = Halted \/
       tempfs_write junk (fun _ _ _ _ => ret 0) file bytes 4089 s = Fault).
Proof.
  destruct file_start as (s & file & Hok & Hreg). exists s, file. split; [exact Hreg|]. split.
  - refine (proj1 (tempfs_write_read (fun _ => zero_FileNode) (fun _ => eq_refl) (fun _ _ _ _ => ret 0)
      (fun _ _ b _ => ret (0, b)) s file [] [] [1; 2; 3] 3 Hok Hreg _ _ _) (fun _ _ _ => eq_refl));
      vm_compute; try reflexivity; discriminate.
  - destruct (wild_exists s) as (junk & Hw & Hlen). exists junk. split; [exact Hw|].
    refine (proj2 (tempfs_write_read junk Hlen (fun _ _ _ _ => ret 0) (fun _ _ b _ => ret (0, b)) s file [] []
      (replicate (Z.to_nat 4089) 1) 4089 Hok Hreg _ _ _) eq_refl Hw _); vm_compute; try reflexivity; discriminate.
Defined.
