(* ===== verification/Blocks.v ===== *)
(** * Heap blocks used as character arrays

    Strings on the heap are objects of the store (Allocator.v) of type [list Z];
    a [char *] into one is the address of the block and an offset.  [slack] is
    the number of bytes behind a block that can be accessed without harm: C
    promises none, the pools of KHeap.v usually leave one.  Accesses beyond are
    a [Fault].  What a fresh block holds is a parameter, too. *)
From S2P Require Import Prelude Allocator Strings.

Definition Block : Type := list Z.

(** A [char *]: the block and the offset in it. *)
Record Ptr := MkPtr { block : Z; offset : Z }.
Definition ptr_add (p : Ptr) (i : Z) : Ptr := MkPtr (block p) (offset p + i).

(** Copying into the middle of an array. *)
Definition memcpy_at (dest : list Z) (i : Z) (from : list Z) (n : Z) : outcome (list Z) :=
  if (i <? 0) || (Zlen dest <? i) then Fault
  else let+ tl := ku_memcpy (drop (Z.to_nat i) dest) from n in Ok (take (Z.to_nat i) dest ++ tl).

Lemma memcpy_at_mid (pre mid post from : list Z) i n :
  i = Zlen pre -> n = Zlen mid -> n <= Zlen from ->
  memcpy_at (pre ++ mid ++ post) i from n = Ok (pre ++ take (length mid) from ++ post).
Proof.
  intros -> -> Hn. unfold memcpy_at. destruct (_ || _) eqn:E; [zlen|].
  rewrite Zlen_to_nat, drop_app_length, take_app_length. unfold ku_memcpy.
  destruct (_ && _) eqn:E'; [|zlen]. by rewrite Zlen_to_nat, drop_app_length.
Qed.

Lemma memcpy_at_run (b from : list Z) i n :
  0 <= i -> 0 <= n -> i + n <= Zlen b -> n <= Zlen from ->
  exists pre post, memcpy_at b i from n = Ok (pre ++ take (Z.to_nat n) from ++ post) /\
    pre = take (Z.to_nat i) b /\ Zlen pre = i /\ Zlen post = Zlen b - i - n.
Proof.
  intros Hi Hn Hb Hf. destruct (list_split_at b i) as (pre & rest & -> & Hp); [zlen|].
  destruct (list_split_at rest n) as (mid & post & -> & Hm); [zlen|]. exists pre, post.
  rewrite (memcpy_at_mid pre mid post from i n) by done. rewrite <- Hp, <- Hm, !Zlen_to_nat, take_app_length.
  split_and!; [done|done|done|zlen].
Qed.

(** The start of an array that holds a C string. *)
Lemma c_string_prefix s a :
  c_string s a -> Zlen s + 1 <= Zlen a /\ take (Z.to_nat (Zlen s)) a = s /\ take (Z.to_nat (Zlen s + 1)) a = s ++ [0].
Proof.
  intros [_ [tl ->]]. split; [zlen|]. rewrite Zlen_to_nat, take_app_length. split; [done|].
  replace (Z.to_nat (Zlen s + 1)) with (length (s ++ [0])) by (rewrite length_app; unfold Zlen; cbn; lia).
  change (s ++ 0 :: tl) with (s ++ [0] ++ tl). by rewrite app_assoc, take_app_length.
Qed.

(** A copy past the end, and the length after a copy. *)
Lemma memcpy_at_end dest i from n : Zlen dest < i + n -> 0 <= n -> memcpy_at dest i from n = Fault.
Proof.
  intros H Hn. unfold memcpy_at. destruct (_ || _) eqn:E; [done|]. unfold ku_memcpy.
  destruct (_ && _) eqn:E'; [|done]. unfold Zlen in *. rewrite length_drop in E'. lia.
Qed.

Lemma memcpy_at_length dest i from n d : memcpy_at dest i from n = Ok d -> 0 <= n -> Zlen d = Zlen dest.
Proof.
  unfold memcpy_at. destruct (_ || _) eqn:E; [done|]. intros H Hn. apply obind_ok in H as (tl & Htl & [= <-]).
  unfold ku_memcpy in Htl. destruct (_ && _) eqn:E'; [|done]. injection Htl as <-.
  unfold Zlen in *. rewrite length_drop in E'. rewrite !length_app, !length_take, !length_drop. lia.
Qed.

(** The copy of a C string, terminator included, leaves that string. *)
Lemma memcpy_at_string dest i s a d :
  c_string s a -> memcpy_at dest i a (Zlen s + 1) = Ok d -> c_string s (drop (Z.to_nat i) d).
Proof.
  intros [Hn [tl ->]] H. unfold memcpy_at in H. destruct (_ || _) eqn:E; [done|].
  apply obind_ok in H as (t & Ht & [= <-]). unfold ku_memcpy in Ht. destruct (_ && _) eqn:E'; [|done].
  injection Ht as <-. split; [done|].
  rewrite drop_app_le by (rewrite length_take; unfold Zlen in *; lia).
  rewrite (drop_ge (take _ _)) by (rewrite length_take; lia). cbn [app].
  replace (Z.to_nat (Zlen s + 1)) with (length (s ++ [0])) by (rewrite length_app; unfold Zlen; cbn; lia).
  change (s ++ 0 :: tl) with (s ++ [0] ++ tl). rewrite app_assoc, take_app_length. eexists. by rewrite <- app_assoc.
Qed.

Section Blocks.
Context `{AL : Allocator} {Obj : Type} `{OB : !Object Block Obj}.
Context (slack : Z) (junk_Block : Z -> Block).
Abbreviation Mem := (M (Store Obj)).

(** [malloc(n)] for a character array. *)
Definition malloc_block (n : Z) : Mem Ptr :=
  let* p := raw_obj n (fun a => resize (Z.to_nat (n + slack)) 0 (junk_Block a)) in
  ret (MkPtr p 0).

(** The bytes from a pointer to the end of its block. *)
Definition bytes_at (p : Ptr) : Mem (list Z) :=
  let* b := get_obj Block (block p) in
  if (offset p <? 0) || (Zlen b <? offset p) then fault else ret (drop (Z.to_nat (offset p)) b).

(** [p[i]], [p[i] = c] and the copies into a block. *)
Definition load_char (p : Ptr) (i : Z) : Mem Z :=
  let* b := get_obj Block (block p) in lift (rd b (offset p + i)).
Definition store_char (p : Ptr) (i c : Z) : Mem unit :=
  let* b := get_obj Block (block p) in
  let* b := lift (wr b (offset p + i) c) in put_obj (block p) b.
Definition memcpy_to (p : Ptr) (from : list Z) (n : Z) : Mem unit :=
  let* b := get_obj Block (block p) in
  let* b := lift (memcpy_at b (offset p) from n) in put_obj (block p) b.
Definition memset_to (p : Ptr) (c n : Z) : Mem unit :=
  memcpy_to p (replicate (Z.to_nat n) (u8 c)) n.
Definition strlen_at (p : Ptr) : Mem Z :=
  let* s := bytes_at p in lift (ku_strlen s).

(** [free(p)]: only the start of a block can be freed. *)
Definition free_block (p : Ptr) : Mem unit :=
  if offset p =? 0 then free_obj (block p) else fault.

(** *** Lemmas *)

Lemma malloc_block_spec s n :
  store_ok s -> 0 <= n < 2 ^ 63 -> 0 <= slack ->
  (exists p d s', malloc_block n s = Ok (MkPtr p 0, s') /\ (p ∉ dom (objs s)) /\ store_ok s' /\
     typed_at s' p d /\ Zlen d = n + slack /\ objs s' = <[p := to_obj d]> (objs s)) \/
  malloc_block n s = Halted.
Proof using.
  intros Hok Hn Hs. unfold malloc_block.
  destruct (raw_obj_spec s n (fun a => resize (Z.to_nat (n + slack)) 0 (junk_Block a)) Hok Hn)
    as [(p & s' & E & Hp & _ & Hok' & Ho)|E]; [left|right; unfold bind; by rewrite E].
  eexists p, _, s'. rewrite (bind_run _ _ _ _ _ E). split_and!; try done.
  - unfold typed_at. by rewrite Ho, lookup_insert_eq.
  - unfold Zlen. rewrite length_resize. lia.
Qed.

Lemma bytes_at_run s p o d :
  typed_at s p d -> 0 <= o <= Zlen d -> bytes_at (MkPtr p o) s = Ok (drop (Z.to_nat o) d, s).
Proof using.
  intros Hd Ho. unfold bytes_at. cbn [block offset]. rewrite (bind_run _ _ _ _ _ (get_obj_run _ _ _ Hd)).
  by destruct (_ || _) eqn:E; [lia|].
Qed.

Lemma memcpy_to_run s p o d from n d' :
  typed_at s p d -> memcpy_at d o from n = Ok d' ->
  memcpy_to (MkPtr p o) from n s = Ok (tt, MkStore (store_heap s) (<[p := to_obj d']> (objs s))).
Proof using.
  intros Hd Hc. unfold memcpy_to. cbn [block offset].
  by rewrite (bind_run _ _ _ _ _ (get_obj_run _ _ _ Hd)), (bind_lift _ _ _ _ Hc), (put_obj_run _ _ _ _ Hd).
Qed.

Lemma memcpy_to_fault s p o d from n :
  typed_at s p d -> memcpy_at d o from n = Fault -> memcpy_to (MkPtr p o) from n s = Fault.
Proof using.
  intros Hd Hc. unfold memcpy_to. cbn [block offset]. rewrite (bind_run _ _ _ _ _ (get_obj_run _ _ _ Hd)).
  unfold bind, lift. by rewrite Hc.
Qed.

Lemma store_char_run s p o i c d d' :
  typed_at s p d -> wr d (o + i) c = Ok d' ->
  store_char (MkPtr p o) i c s = Ok (tt, MkStore (store_heap s) (<[p := to_obj d']> (objs s))).
Proof using.
  intros Hd Hc. unfold store_char. cbn [block offset].
  by rewrite (bind_run _ _ _ _ _ (get_obj_run _ _ _ Hd)), (bind_lift _ _ _ _ Hc), (put_obj_run _ _ _ _ Hd).
Qed.

(** The C string [str] at the pointer [p]. *)
Definition string_at (s : Store Obj) (p : Ptr) (str : list Z) : Prop :=
  exists d, typed_at s (block p) d /\ 0 <= offset p <= Zlen d /\ c_string str (drop (Z.to_nat (offset p)) d).

Lemma string_bytes s p str :
  string_at s p str -> exists a, bytes_at p s = Ok (a, s) /\ c_string str a.
Proof using.
  intros (d & Hd & Ho & Hc). destruct p as [p o]. cbn [block offset] in *.
  eexists. split; [by apply bytes_at_run|done].
Qed.

Lemma strlen_at_run s p str : string_at s p str -> strlen_at p s = Ok (Zlen str, s).
Proof using.
  intros (a & E & Hc)%string_bytes. unfold strlen_at.
  rewrite (bind_run _ _ _ _ _ E). unfold lift. by rewrite (c_string_strlen _ _ Hc).
Qed.

Lemma string_at_frame D s s' p str :
  same_except D s s' -> block p ∉ D -> string_at s p str -> string_at s' p str.
Proof using.
  intros Hs Hp (d & Hd & Ho & Hc). exists d. split; [by eapply same_except_typed|done].
Qed.
End Blocks.
