(* ===== verification/Tasks.v ===== *)
(** * tasks/: the task list, the scheduler, exit, and the spinlock

    The task list is a vector of pointers to [Task] objects; a second vector
    holds, per processor, the index of the task it runs.  [task_select] is the
    scheduler the timer interrupt calls.  The calls of this file run on the
    processor [core], what [get_current_processor] reads from the local APIC. *)
From S2P Require Import Prelude Allocator Chain Memory PMM KHeap Strings Vector Events Blocks.

(** ** Data *)

Definition TASK_PRESENT : Z := 0x1.
Definition TASK_FIRST_EXEC : Z := 0x2.
Definition TASK_RUNNING : Z := 0x4.
Definition NUM_RESOURCES : Z := 20.

Record Task := {
  is_user : bool;
  event_queue : Z;
  current_dir : Ptr;
  argc : Z;
  argv : Z;
  pml4_addr : Z;
  kernel_rsp : Z;
  current_rsp : Z;
  entry_point : Z;
  resources : list Z;
  parent : Z;
  flags : Z;
  errno : Z;
  mmap_upto : Z
}.
Definition sizeof_Task : Z := 264.

(** [(Task) {...}]: the fields not named are zero. *)
Definition zero_Task : Task :=
  {| is_user := false; event_queue := 0; current_dir := MkPtr 0 0; argc := 0; argv := 0; pml4_addr := 0;
     kernel_rsp := 0; current_rsp := 0; entry_point := 0; resources := replicate (Z.to_nat NUM_RESOURCES) 0;
     parent := 0; flags := 0; errno := 0; mmap_upto := 0 |}.

Definition set_flags (f : Z) (t : Task) : Task :=
  {| is_user := is_user t; event_queue := event_queue t; current_dir := current_dir t; argc := argc t;
     argv := argv t; pml4_addr := pml4_addr t; kernel_rsp := kernel_rsp t; current_rsp := current_rsp t;
     entry_point := entry_point t; resources := resources t; parent := parent t; flags := f;
     errno := errno t; mmap_upto := mmap_upto t |}.
Definition set_current_dir (p : Ptr) (t : Task) : Task :=
  {| is_user := is_user t; event_queue := event_queue t; current_dir := p; argc := argc t;
     argv := argv t; pml4_addr := pml4_addr t; kernel_rsp := kernel_rsp t; current_rsp := current_rsp t;
     entry_point := entry_point t; resources := resources t; parent := parent t; flags := flags t;
     errno := errno t; mmap_upto := mmap_upto t |}.
Definition set_current_rsp (v : Z) (t : Task) : Task :=
  {| is_user := is_user t; event_queue := event_queue t; current_dir := current_dir t; argc := argc t;
     argv := argv t; pml4_addr := pml4_addr t; kernel_rsp := kernel_rsp t; current_rsp := v;
     entry_point := entry_point t; resources := resources t; parent := parent t; flags := flags t;
     errno := errno t; mmap_upto := mmap_upto t |}.
Definition set_resources (r : list Z) (t : Task) : Task :=
  {| is_user := is_user t; event_queue := event_queue t; current_dir := current_dir t; argc := argc t;
     argv := argv t; pml4_addr := pml4_addr t; kernel_rsp := kernel_rsp t; current_rsp := current_rsp t;
     entry_point := entry_point t; resources := r; parent := parent t; flags := flags t;
     errno := errno t; mmap_upto := mmap_upto t |}.

(** [flags & bit], [flags &= ~bit] and [flags |= bit] on a [uint8_t]. *)
Definition has_flag (bit : Z) (t : Task) : bool := negb (Z.land (flags t) bit =? 0).
Definition clear_flag (bit : Z) (t : Task) : Task := set_flags (u8 (Z.land (flags t) (Z.lnot bit))) t.
Definition add_flag (bit : Z) (t : Task) : Task := set_flags (u8 (Z.lor (flags t) bit)) t.

Section Tasks.
Context `{AL : Allocator} {Obj : Type}.
Context `{OV : !Object Vector Obj, ON : !Object VectorNode Obj, OE : !Object Event Obj}.
Context `{OT : !Object Task Obj, OB : !Object Block Obj}.

(** The objects, the two vectors of [kernel.tasklist], and the locks. *)
Record Sched := MkSched {
  store : Store Obj;
  tasks : Z;
  current_tasks : Z;
  scheduler_lock : bool;
  get_current_task_lock : bool
}.
Abbreviation Mem := (M Sched).

Definition set_store (st : Store Obj) (k : Sched) : Sched :=
  MkSched st (tasks k) (current_tasks k) (scheduler_lock k) (get_current_task_lock k).
Definition set_scheduler_lock (b : bool) (k : Sched) : Sched :=
  MkSched (store k) (tasks k) (current_tasks k) b (get_current_task_lock k).
Definition set_get_current_task_lock (b : bool) (k : Sched) : Sched :=
  MkSched (store k) (tasks k) (current_tasks k) (scheduler_lock k) b.
Definition set_tasklist (l c : Z) (k : Sched) : Sched :=
  MkSched (store k) l c (scheduler_lock k) (get_current_task_lock k).

(** A call on the objects. *)
Definition on_store {A} (m : M (Store Obj) A) : Mem A :=
  fun k => let+ (a, st) := m (store k) in Ok (a, set_store st k).

(** ** The code *)

(** [while (atomic_flag_test_and_set(lock))]: nobody else runs, so a lock that
    is taken is waited for forever; [acquire] below is the concurrent step. *)
Definition spinlock_aquire (held : Sched -> bool) (put : bool -> Sched -> Sched) : Mem unit :=
  fun k => if held k then Spin else Ok (tt, put true k).
Definition spinlock_release (put : bool -> Sched -> Sched) : Mem unit := modify (put false).

Definition get_task (pid : Z) : Mem Z := let* k := get in on_store (vector_at (tasks k) pid).

Definition task_remove (pid : Z) : Mem unit := let* k := get in on_store (vector_pop (tasks k) pid).

(** The part of [create_task] that copies the current directory. *)
Definition copy_dir (slack : Z) (junk_Block : Z -> Block) (new_task : Z) (dir : Ptr) : M (Store Obj) unit :=
  let* dirname_len := strlen_at dir in
  let* d := malloc_block slack junk_Block dirname_len in
  let new_dir := ptr_add d 1 in
  set_field new_task (set_current_dir new_dir) ;;;
  memset_to new_dir 0 dirname_len ;;;
  let* name := bytes_at dir in
  memcpy_to new_dir name (u64 (dirname_len + 1)).

Section Core.
Context (core : Z).

Definition get_current_task : Mem Z :=
  spinlock_aquire get_current_task_lock set_get_current_task_lock ;;;
  let* k := get in
  let* n := on_store (vector_at (current_tasks k) core) in
  let* to_return := get_task n in
  spinlock_release set_get_current_task_lock ;;;
  ret to_return.

Fixpoint task_select (fuel : nat) : Mem Z :=
  match fuel with
  | O => fun _ => Spin
  | S fuel' =>
      spinlock_aquire scheduler_lock set_scheduler_lock ;;;
      let* k := get in
      let* current_task_num := on_store (vector_at (current_tasks k) core) in
      let* current_task := get_task current_task_num in
      on_store (set_field current_task (clear_flag TASK_RUNNING)) ;;;
      let* list := on_store (get_obj Vector (tasks k)) in
      if length_ list =? 1 then
        on_store (vector_set (current_tasks k) core 0) ;;;
        get_task 0
      else
        on_store (vector_set (current_tasks k) core (u64 (current_task_num + 1))) ;;;
        on_store (vector_at (current_tasks k) core) ;;;
        let* list := on_store (get_obj Vector (tasks k)) in
        (if length_ list <=? current_task_num
         then on_store (vector_set (current_tasks k) core 0) else ret tt) ;;;
        let* new_task := get_current_task in
        let* t := on_store (get_obj Task new_task) in
        if has_flag TASK_PRESENT t && negb (has_flag TASK_RUNNING t) then
          on_store (set_field new_task (add_flag TASK_RUNNING)) ;;;
          spinlock_release set_scheduler_lock ;;;
          ret new_task
        else
          spinlock_release set_scheduler_lock ;;;
          task_select fuel'
  end.

(** What [syscall_exit] does last: return to the caller (not a user task), wait
    for the next timer interrupt, or end in [all_tasks_ended]. *)
Inductive exit_end := NotUser | WaitsForTimer | AllTasksEnded.

Definition syscall_exit (exit_code : Z) : Mem exit_end :=
  let* k := get in
  let* current_task_num := on_store (vector_at (current_tasks k) core) in
  let* current_task := get_current_task in
  if current_task =? 0 then ret NotUser
  else
    let* t := on_store (get_obj Task current_task) in
    if negb (is_user t) then ret NotUser
    else
      let* p := on_store (get_obj Task (parent t)) in
      on_store (add_event (event_queue p) EVENT_TASK_EXITED current_task_num exit_code) ;;;
      on_store (set_field current_task (clear_flag TASK_PRESENT)) ;;;
      let* list := on_store (get_obj Vector (tasks k)) in
      if negb (length_ list =? 1) then ret WaitsForTimer else ret AllTasksEnded.

Section Create.
Context (slack : Z) (junk_Task : Z -> Task) (junk_Block : Z -> Block).
Context (cr3 cpu_count all_tasks_ended : Z).

Fixpoint push_zeros (n : nat) : Mem unit :=
  match n with
  | O => ret tt
  | S n' =>
      let* k := get in
      on_store (vector_push (current_tasks k) 0) ;;;
      push_zeros n'
  end.
Definition init_tasklist : Mem unit :=
  let* list := on_store (new_vector sizeof_Task) in
  modify (fun k => set_tasklist list (current_tasks k) k) ;;;
  let* first_task := on_store (raw_obj sizeof_Task junk_Task) in
  let* dir := on_store (malloc_block slack junk_Block 4) in
  on_store (memcpy_to dir [82; 58; 47; 0] 4) ;;;
  let* q := on_store new_event_queue in
  on_store (put_obj first_task
    {| is_user := false; event_queue := q; current_dir := dir; argc := 0; argv := 0; pml4_addr := cr3;
       kernel_rsp := KERNEL_STACK_PTR; current_rsp := KERNEL_STACK_PTR; entry_point := all_tasks_ended;
       resources := replicate (Z.to_nat NUM_RESOURCES) 0; parent := first_task; flags := 0; errno := 0;
       mmap_upto := 0 |}) ;;;
  let* k := get in
  on_store (vector_push (tasks k) first_task) ;;;
  let* cur := on_store (new_vector 8) in
  modify (fun k => set_tasklist (tasks k) cur k) ;;;
  push_zeros (Z.to_nat cpu_count).

Definition create_task (pml4 entry user_stack fl : Z) : Mem Z :=
  let* new_task := on_store (raw_obj sizeof_Task junk_Task) in
  on_store (put_obj new_task
    {| is_user := true; event_queue := 0; current_dir := MkPtr 0 0; argc := 0; argv := 0; pml4_addr := pml4;
       kernel_rsp := KERNEL_STACK_PTR; current_rsp := user_stack; entry_point := entry;
       resources := replicate (Z.to_nat NUM_RESOURCES) 0; parent := 0; flags := fl; errno := 0;
       mmap_upto := 0 |}) ;;;
  let* cur := get_current_task in
  let* t := on_store (get_obj Task cur) in
  on_store (copy_dir slack junk_Block new_task (current_dir t)) ;;;
  let* k := get in
  on_store (vector_push (tasks k) new_task) ;;;
  ret new_task.
End Create.
End Core.

(** The accessors the assembly of the task switch calls (tasks/switchutils.c). *)
Definition task_get_cr3 (task : Z) : Mem Z :=
  let* t := on_store (get_obj Task task) in ret (pml4_addr t).
Definition task_get_entry_point (task : Z) : Mem Z :=
  let* t := on_store (get_obj Task task) in ret (entry_point t).
Definition task_get_flags (task : Z) : Mem Z :=
  let* t := on_store (get_obj Task task) in ret (flags t).
Definition task_get_rsp (task : Z) : Mem Z :=
  let* t := on_store (get_obj Task task) in ret (current_rsp t).
Definition task_disable_first_exec (task : Z) : Mem unit :=
  on_store (set_field task (clear_flag TASK_FIRST_EXEC)).
Definition task_get_kernel_stack (task : Z) : Mem Z :=
  let* t := on_store (get_obj Task task) in ret (kernel_rsp t).
Definition task_get_argc (task : Z) : Mem Z :=
  let* t := on_store (get_obj Task task) in ret (argc t).
Definition task_get_argv (task : Z) : Mem Z :=
  let* t := on_store (get_obj Task task) in ret (argv t).
Definition task_set_rsp (task rsp : Z) : Mem unit :=
  on_store (set_field task (set_current_rsp rsp)).
(** ** What the task list represents *)

Abbreviation addrs := (list_to_set (C := gset Z)).

(** The task list holds the tasks [tks] at the addresses [ts]; [cs] are the
    indices of the tasks the processors run. *)
Record sched (k : Sched) (ts : list Z) (tks : list Task) (cs : list Z) : Prop := {
  sched_store : store_ok (store k);
  sched_vecs : exists ns ms, vec (store k) (tasks k) ns ts /\ vec (store k) (current_tasks k) ms cs /\
    addrs (tasks k :: ns) ## addrs (current_tasks k :: ms) /\
    addrs ts ## addrs (tasks k :: ns) ∪ addrs (current_tasks k :: ms);
  sched_tasks : Forall2 (typed_at (store k)) ts tks;
  sched_nodup : NoDup ts
}.

(** No processor holds a lock. *)
Definition unlocked (k : Sched) : Prop := scheduler_lock k = false /\ get_current_task_lock k = false.

(** Same vectors and locks. *)
Definition same_globals (k k' : Sched) : Prop := exists st, k' = set_store st k.

Lemma on_store_run {A} (m : M (Store Obj) A) k a st :
  m (store k) = Ok (a, st) -> on_store m k = Ok (a, set_store st k).
Proof using. intros H. unfold on_store. by rewrite H. Qed.

Lemma on_store_read {A} (m : M (Store Obj) A) k a :
  m (store k) = Ok (a, store k) -> on_store m k = Ok (a, k).
Proof using. intros H. rewrite (on_store_run _ _ _ _ H). by destruct k. Qed.

Lemma sched_at k ts tks cs pid : sched k ts tks cs -> 0 <= pid ->
  on_store (vector_at (tasks k) pid) k = Ok (default 0 (ts !! Z.to_nat pid), k).
Proof using.
  intros [Hok (ns & ms & Hv & _) _ _] Hp. apply on_store_read. by eapply vector_at_spec.
Qed.

Lemma sched_current k ts tks cs core : sched k ts tks cs -> 0 <= core ->
  on_store (vector_at (current_tasks k) core) k = Ok (default 0 (cs !! Z.to_nat core), k).
Proof using.
  intros [Hok (ns & ms & _ & Hv & _) _ _] Hp. apply on_store_read. by eapply vector_at_spec.
Qed.

Lemma sched_length k ts tks cs : sched k ts tks cs ->
  exists r, on_store (get_obj Vector (tasks k)) k = Ok (r, k) /\ length_ r = Zlen ts /\ Zlen ts < 2 ^ 64.
Proof using.
  intros [Hok (ns & ms & (r & Hr & Hl & Hb & _) & _) _ _]. exists r. split; [|done].
  apply on_store_read. by apply get_obj_run.
Qed.

Lemma sched_task k ts tks cs i p t : sched k ts tks cs -> ts !! i = Some p -> tks !! i = Some t ->
  typed_at (store k) p t.
Proof using. intros [_ _ H _] Hp Ht. by eapply (Forall2_lookup_lr _ _ _ _ _ _ H). Qed.

Lemma sched_tasks_length k ts tks cs : sched k ts tks cs -> length ts = length tks.
Proof using. intros [_ _ H _]. by eapply Forall2_length. Qed.

Lemma get_current_task_run k ts tks cs core cur :
  sched k ts tks cs -> get_current_task_lock k = false -> 0 <= core -> cs !! Z.to_nat core = Some cur ->
  0 <= cur -> get_current_task core k = Ok (default 0 (ts !! Z.to_nat cur), k).
Proof using.
  intros Hs Hl Hc Hcur H0. unfold get_current_task, spinlock_aquire. unfold bind at 1. rewrite Hl. cbn [obind].
  rewrite bind_get. set (k1 := set_get_current_task_lock true k).
  assert (sched k1 ts tks cs) as Hs1 by (by destruct Hs).
  rewrite (bind_run _ _ _ _ _ (sched_current k1 _ _ _ core Hs1 Hc)), Hcur. cbn [default from_option id].
  unfold get_task. rewrite bind_assoc, bind_get, (bind_run _ _ _ _ _ (sched_at k1 _ _ _ _ Hs1 H0)).
  unfold spinlock_release. rewrite bind_modify. unfold ret, k1. destruct k. cbn in *. by rewrite Hl.
Qed.

(** Updating the task at index [i]. *)
Lemma update_task k ts tks cs i p t f :
  sched k ts tks cs -> ts !! i = Some p -> tks !! i = Some t ->
  exists k', on_store (set_field p f) k = Ok (tt, k') /\ sched k' ts (<[i := f t]> tks) cs /\ same_globals k k' /\
    same_except {[p]} (store k) (store k').
Proof using.
  intros Hs Hp Ht. pose proof (sched_task _ _ _ _ _ _ _ Hs Hp Ht) as Hx.
  rewrite (on_store_run _ _ _ _ (set_field_run _ _ _ f Hx)). eexists. split; [reflexivity|].
  destruct Hs as [Hok (ns & ms & Hv & Hc & Hd & Hd') Hts Hnd]. set (st := MkStore _ _).
  assert (same_except {[p]} (store k) st) as Hse.
  { intros q Hq _. unfold st. cbn [objs]. apply lookup_insert_ne. set_solver. }
  assert (p ∈ addrs ts) as Hpin by (apply elem_of_list_to_set; by eapply list_elem_of_lookup_2).
  split; [|by split; [exists st|]]. split; cbn [set_store store tasks current_tasks].
  - by eapply put_obj_ok.
  - exists ns, ms. split_and!; [eapply vec_frame; [exact Hse| |done]; set_solver..|done|done].
  - apply Forall2_same_length_lookup. split; [rewrite length_insert; by eapply Forall2_length|].
    intros j q u Hq Hu. destruct (decide (j = i)) as [->|Hne].
    + rewrite list_lookup_insert_eq in Hu by (by eapply lookup_lt_Some). simplify_eq. look.
    + rewrite list_lookup_insert_ne in Hu by done. unfold typed_at, st. cbn [objs]. rewrite lookup_insert_ne.
      * by eapply (Forall2_lookup_lr _ _ _ _ _ _ Hts).
      * intros ->. apply Hne. eapply (NoDup_lookup _ _ _ _ Hnd); done.
  - done.
Qed.

(** Recording which task the processor runs. *)
Lemma set_current k ts tks cs core v :
  sched k ts tks cs -> 0 <= core ->
  exists k', on_store (vector_set (current_tasks k) core v) k = Ok (tt, k') /\
    sched k' ts tks (<[Z.to_nat core := v]> cs) /\ same_globals k k'.
Proof using.
  intros [Hok (ns & ms & Hv & Hc & Hd & Hd') Hts Hnd] H0.
  destruct (vector_set_spec _ _ _ _ core v Hok Hc H0) as (st & E & Hok' & Hv' & Hs).
  rewrite (on_store_run _ _ _ _ E). eexists. split; [reflexivity|]. split; [|by exists st].
  split; cbn [set_store store tasks current_tasks]; try done.
  - exists ns, ms. split_and!; [|done..]. eapply vec_frame; [exact Hs| |done]. set_solver.
  - eapply typed_list_frame; [exact Hs| |done]. set_solver.
Qed.
(** ** The scheduler *)

Definition runnable (t : Task) : bool := has_flag TASK_PRESENT t && negb (has_flag TASK_RUNNING t).

(** The tasks after the scheduler moved from index [cur] to index [j]. *)
Definition after_select (cur j : nat) (tks : list Task) : list Task :=
  imap (fun i t => if bool_decide (cur <= i < j)%nat then clear_flag TASK_RUNNING t
                   else if bool_decide (i = j) then add_flag TASK_RUNNING t else t) tks.

Lemma sched_lock k ts tks cs b : sched k ts tks cs -> sched (set_scheduler_lock b k) ts tks cs.
Proof using. by intros []. Qed.

Lemma same_globals_trans k1 k2 k3 : same_globals k1 k2 -> same_globals k2 k3 -> same_globals k1 k3.
Proof using. intros [st1 ->] [st2 ->]. by exists st2. Qed.

(** The pass of [task_select] up to the choice. *)
Lemma select_pass core fuel k ts tks cs cur :
  sched k ts tks cs -> unlocked k -> 0 <= core -> cs !! Z.to_nat core = Some (Z.of_nat cur) ->
  (cur < length ts)%nat -> (1 < length ts)%nat ->
  exists k1, sched k1 ts (alter (clear_flag TASK_RUNNING) cur tks) (<[Z.to_nat core := Z.of_nat (S cur)]> cs) /\
    same_globals (set_scheduler_lock true k) k1 /\
    task_select core (S fuel) k =
      (let* new_task := get_current_task core in
       let* t := on_store (get_obj Task new_task) in
       if runnable t then
         on_store (set_field new_task (add_flag TASK_RUNNING)) ;;;
         spinlock_release set_scheduler_lock ;;;
         ret new_task
       else
         spinlock_release set_scheduler_lock ;;;
         task_select core fuel) k1.
Proof using.
  intros Hs [Hl1 Hl2] Hcore Hcur Hlt H1. cbn [task_select].
  unfold bind at 1, spinlock_aquire at 1. rewrite Hl1. cbn [obind]. set (k0 := set_scheduler_lock true k).
  rewrite bind_get. assert (sched k0 ts tks cs) as Hs0 by by apply sched_lock.
  rewrite (bind_run _ _ _ _ _ (sched_current _ _ _ _ _ Hs0 Hcore)), Hcur. cbn [default from_option id].
  unfold get_task at 1. rewrite bind_assoc, bind_get, (bind_run _ _ _ _ _ (sched_at _ _ _ _ (Z.of_nat cur) Hs0 ltac:(lia))).
  rewrite Nat2Z.id. destruct (lookup_lt_is_Some_2 ts cur Hlt) as [p Hp]. rewrite Hp. cbn [default from_option id].
  rewrite (sched_tasks_length _ _ _ _ Hs0) in Hlt. destruct (lookup_lt_is_Some_2 tks cur Hlt) as [t Ht].
  destruct (update_task _ _ _ _ _ _ _ (clear_flag TASK_RUNNING) Hs0 Hp Ht) as (k2 & E2 & Hs2 & [st2 ->] & _).
  rewrite (bind_run _ _ _ _ _ E2).
  destruct (sched_length _ _ _ _ Hs2) as (r & Er & Hr & Hb). change (tasks (set_store st2 k0)) with (tasks k0) in Er.
  rewrite (bind_run _ _ _ _ _ Er), Hr. destruct (Z.eqb_spec (Zlen ts) 1) as [|_]; [unfold Zlen in *; lia|].
  rewrite <- (sched_tasks_length _ _ _ _ Hs0) in Hlt. rewrite u64_small by (unfold Zlen in Hb; lia).
  destruct (set_current _ _ _ _ core (Z.of_nat cur + 1) Hs2 Hcore) as (k3 & E3 & Hs3 & [st3 ->]).
  change (current_tasks (set_store st2 k0)) with (current_tasks k0) in E3. rewrite (bind_run _ _ _ _ _ E3).
  pose proof (sched_current _ _ _ _ _ Hs3 Hcore) as E4.
  change (current_tasks (set_store st3 _)) with (current_tasks k0) in E4. rewrite (bind_run _ _ _ _ _ E4).
  destruct (sched_length _ _ _ _ Hs3) as (r' & Er' & Hr' & _). change (tasks (set_store st3 _)) with (tasks k0) in Er'.
  rewrite (bind_run _ _ _ _ _ Er'), Hr'.
  destruct (Z.leb_spec (Zlen ts) (Z.of_nat cur)) as [|_];
    [unfold Zlen in *; lia|]. rewrite bind_ret.
  eexists. split; [|split; [|reflexivity]].
  - rewrite (list_alter_at _ _ _ _ Ht).
    replace (Z.of_nat (S cur)) with (Z.of_nat cur + 1) by lia. exact Hs3.
  - by exists st3.
Qed.
(** The choice at the task after the current one. *)
Definition select_choice (core : Z) (fuel : nat) : Mem Z :=
  let* new_task := get_current_task core in
  let* t := on_store (get_obj Task new_task) in
  if runnable t then
    on_store (set_field new_task (add_flag TASK_RUNNING)) ;;;
    spinlock_release set_scheduler_lock ;;;
    ret new_task
  else
    spinlock_release set_scheduler_lock ;;;
    task_select core fuel.

Lemma select_choice_run core fuel k ts tks cs (i : nat) :
  sched k ts tks cs -> get_current_task_lock k = false -> 0 <= core ->
  cs !! Z.to_nat core = Some (Z.of_nat i) ->
  match tks !! i with
  | Some t =>
      if runnable t then
        exists k', select_choice core fuel k = Ok (default 0 (ts !! i), k') /\
          sched k' ts (<[i := add_flag TASK_RUNNING t]> tks) cs /\ unlocked k'
      else select_choice core fuel k = task_select core fuel (set_scheduler_lock false k)
  | None => select_choice core fuel k = Fault
  end.
Proof using.
  intros Hs Hl Hcore Hi. unfold select_choice.
  rewrite (bind_run _ _ _ _ _ (get_current_task_run _ _ _ _ _ _ Hs Hl Hcore Hi ltac:(lia))), Nat2Z.id.
  pose proof (sched_tasks_length _ _ _ _ Hs) as Hlen.
  destruct (tks !! i) as [t|] eqn:Ht.
  - assert (i < length ts)%nat as Hlt by (rewrite Hlen; by eapply lookup_lt_Some).
    destruct (lookup_lt_is_Some_2 ts i Hlt) as [p Hp]. rewrite Hp. cbn [default from_option id].
    pose proof (sched_task _ _ _ _ _ _ _ Hs Hp Ht) as Hx.
    rewrite (bind_run _ _ _ _ _ (on_store_read _ _ _ (get_obj_run _ _ _ Hx))).
    destruct (runnable t); [|done].
    destruct (update_task _ _ _ _ _ _ _ (add_flag TASK_RUNNING) Hs Hp Ht) as (k2 & E2 & Hs2 & [st2 ->] & _).
    rewrite (bind_run _ _ _ _ _ E2). unfold spinlock_release. rewrite bind_modify.
    eexists. split; [reflexivity|]. split; [by apply sched_lock|by split].
  - rewrite lookup_ge_None_2 by (rewrite Hlen; by apply lookup_ge_None_1). cbn [default from_option].
    unfold bind at 1, on_store at 1. rewrite get_obj_null; [done|]. by destruct Hs.
Qed.

(** One pass of [task_select] on several tasks. *)
Lemma select_step core fuel k ts tks cs cur :
  sched k ts tks cs -> unlocked k -> 0 <= core -> cs !! Z.to_nat core = Some (Z.of_nat cur) ->
  (cur < length ts)%nat -> (1 < length ts)%nat ->
  let tks1 := alter (clear_flag TASK_RUNNING) cur tks in
  let cs1 := <[Z.to_nat core := Z.of_nat (S cur)]> cs in
  match tks !! S cur with
  | Some t =>
      if runnable t then
        exists k', task_select core (S fuel) k = Ok (default 0 (ts !! S cur), k') /\
          sched k' ts (<[S cur := add_flag TASK_RUNNING t]> tks1) cs1 /\ unlocked k'
      else exists k', task_select core (S fuel) k = task_select core fuel k' /\ sched k' ts tks1 cs1 /\ unlocked k'
  | None => task_select core (S fuel) k = Fault
  end.
Proof using.
  intros Hs Hu Hcore Hcur Hlt H1. cbv zeta.
  destruct (select_pass core fuel k ts tks cs cur Hs Hu Hcore Hcur Hlt H1) as (k1 & Hs1 & [st ->] & ->).
  fold (select_choice core fuel).
  pose proof (select_choice_run core fuel _ _ _ _ (S cur) Hs1 (proj2 Hu) Hcore) as Hch.
  rewrite list_lookup_insert_eq, list_lookup_alter_ne in Hch by (lia || by eapply lookup_lt_Some).
  specialize (Hch eq_refl). destruct (tks !! S cur) as [t|]; [|done].
  destruct (runnable t); [done|]. eexists. split; [exact Hch|]. split; [by apply sched_lock|]. split; [done|apply Hu].
Qed.

Lemma after_select_lookup cur j tks i :
  after_select cur j tks !! i =
    (fun t => if bool_decide (cur <= i < j)%nat then clear_flag TASK_RUNNING t
              else if bool_decide (i = j) then add_flag TASK_RUNNING t else t) <$> tks !! i.
Proof using. unfold after_select. by rewrite list_lookup_imap. Qed.

(** Moving on by one task, and arriving. *)
Lemma after_select_skip cur j tks : (S cur < j)%nat ->
  after_select (S cur) j (alter (clear_flag TASK_RUNNING) cur tks) = after_select cur j tks.
Proof using.
  intros Hj. apply list_eq. intros i. rewrite !after_select_lookup.
  destruct (decide (i = cur)) as [->|Hne].
  - rewrite list_lookup_alter_eq. destruct (tks !! cur); [|done]. cbn. repeat case_bool_decide; lia || done.
  - rewrite list_lookup_alter_ne by done. destruct (tks !! i); [|done]. cbn. repeat case_bool_decide; lia || done.
Qed.

Lemma after_select_next cur tks t : tks !! S cur = Some t ->
  <[S cur := add_flag TASK_RUNNING t]> (alter (clear_flag TASK_RUNNING) cur tks) = after_select cur (S cur) tks.
Proof using.
  intros Ht. apply list_eq. intros i. rewrite after_select_lookup.
  destruct (decide (i = S cur)) as [->|Hne].
  - rewrite list_lookup_insert_eq by (rewrite length_alter; by eapply lookup_lt_Some). rewrite Ht. cbn.
    repeat case_bool_decide; lia || done.
  - rewrite list_lookup_insert_ne by done. destruct (decide (i = cur)) as [->|Hne'].
    + rewrite list_lookup_alter_eq. destruct (tks !! cur); [|done]. cbn. repeat case_bool_decide; lia || done.
    + rewrite list_lookup_alter_ne by done. destruct (tks !! i); [|done]. cbn. repeat case_bool_decide; lia || done.
Qed.

Lemma task_select_found core d : forall fuel k ts tks cs cur j t,
  sched k ts tks cs -> unlocked k -> 0 <= core -> cs !! Z.to_nat core = Some (Z.of_nat cur) ->
  (j = S cur + d)%nat -> (d < fuel)%nat -> tks !! j = Some t -> runnable t = true ->
  (forall i u, (cur < i < j)%nat -> tks !! i = Some u -> runnable u = false) ->
  exists k', task_select core fuel k = Ok (default 0 (ts !! j), k') /\ unlocked k' /\
    sched k' ts (after_select cur j tks) (<[Z.to_nat core := Z.of_nat j]> cs).
Proof using.
  induction d as [|d IH]; intros [|fuel] k ts tks cs cur j t Hs Hu Hcore Hcur Hj Hf Ht Hr Hno; try lia;
    assert (j < length ts)%nat as Hlt by (rewrite (sched_tasks_length _ _ _ _ Hs); by eapply lookup_lt_Some);
    pose proof (select_step core fuel k ts tks cs cur Hs Hu Hcore Hcur ltac:(lia) ltac:(lia)) as Hst; cbv zeta in Hst.
  - assert (j = S cur) as -> by lia. rewrite Ht, Hr in Hst. destruct Hst as (k' & E & Hs' & Hu').
    exists k'. split_and!; [done|done|]. by rewrite <- (after_select_next _ _ _ Ht).
  - destruct (lookup_lt_is_Some_2 tks (S cur)) as [u Hx]; [rewrite <- (sched_tasks_length _ _ _ _ Hs); lia|].
    rewrite Hx, (Hno (S cur) u) in Hst by (done || lia). destruct Hst as (k1 & -> & Hs1 & Hu1).
    destruct (IH fuel k1 ts (alter (clear_flag TASK_RUNNING) cur tks) (<[Z.to_nat core := Z.of_nat (S cur)]> cs) (S cur) j t)
      as (k' & E & Hu' & Hs'); try done; try lia.
    + by rewrite list_lookup_insert_eq by by eapply lookup_lt_Some.
    + by rewrite list_lookup_alter_ne by lia.
    + intros i v Hi. rewrite list_lookup_alter_ne by lia. apply Hno. lia.
    + exists k'. split_and!; [done|done|]. by rewrite after_select_skip, list_insert_insert_eq in Hs' by lia.
Qed.

Lemma task_select_none core d : forall fuel k ts tks cs cur,
  sched k ts tks cs -> unlocked k -> 0 <= core -> cs !! Z.to_nat core = Some (Z.of_nat cur) ->
  (length ts = S cur + d)%nat -> (d < fuel)%nat -> (1 < length ts)%nat ->
  (forall i u, (cur < i)%nat -> tks !! i = Some u -> runnable u = false) ->
  task_select core fuel k = Fault.
Proof using.
  induction d as [|d IH]; intros [|fuel] k ts tks cs cur Hs Hu Hcore Hcur Hlen Hf H1 Hno; try lia;
    pose proof (select_step core fuel k ts tks cs cur Hs Hu Hcore Hcur ltac:(lia) ltac:(lia)) as Hst; cbv zeta in Hst;
    rewrite (sched_tasks_length _ _ _ _ Hs) in Hlen, H1.
  - rewrite lookup_ge_None_2 in Hst by lia. done.
  - destruct (lookup_lt_is_Some_2 tks (S cur)) as [u Hx]; [lia|].
    rewrite Hx, (Hno (S cur) u) in Hst by (done || lia). destruct Hst as (k1 & -> & Hs1 & Hu1).
    rewrite <- (sched_tasks_length _ _ _ _ Hs) in Hlen, H1.
    eapply (IH fuel k1 ts (alter (clear_flag TASK_RUNNING) cur tks) _ (S cur)); try done; try lia.
    + by rewrite list_lookup_insert_eq by by eapply lookup_lt_Some.
    + intros i v Hi. rewrite list_lookup_alter_ne by lia. apply Hno. lia.
Qed.

Lemma clear_flag_has bit t : has_flag bit (clear_flag bit t) = false.
Proof using.
  unfold has_flag, clear_flag. cbn [flags set_flags]. unfold u8. rewrite <- Z.land_ones by done.
  replace (Z.land _ bit) with 0; [done|]. symmetry. apply Z.bits_inj'. intros n Hn.
  rewrite !Z.land_spec, Z.lnot_spec, Z.bits_0 by done.
  by destruct (Z.testbit (flags t) n), (Z.testbit (Z.ones 8) n), (Z.testbit bit n).
Qed.

(** ** Tasks that have ended *)

Lemma clear_flag_keeps bit bit' t : has_flag bit t = false -> has_flag bit (clear_flag bit' t) = false.
Proof using.
  unfold has_flag, clear_flag. cbn [flags set_flags]. unfold u8. rewrite <- Z.land_ones by done.
  intros H%negb_false_iff%Z.eqb_eq. apply negb_false_iff, Z.eqb_eq, Z.bits_inj'. intros n Hn.
  apply (f_equal (fun x => Z.testbit x n)) in H. rewrite Z.land_spec, Z.bits_0 in H.
  rewrite !Z.land_spec, Z.bits_0. by destruct (Z.testbit (flags t) n), (Z.testbit bit n), (Z.testbit (Z.ones 8) n), (Z.testbit (Z.lnot bit') n).
Qed.

(** The task at [p] is one of several and not present; [n] processors each run
    a task of the list. *)
Definition ended (n : nat) (p : Z) (k : Sched) : Prop :=
  unlocked k /\ exists ts tks cs i u, sched k ts tks cs /\ (1 < length ts)%nat /\ ts !! i = Some p /\ tks !! i = Some u /\
    has_flag TASK_PRESENT u = false /\ length cs = n /\ Forall (fun c => 0 <= c < Zlen ts) cs.

Lemma select_ended core n p : 0 <= core < Z.of_nat n -> forall fuel k q k',
  ended n p k -> task_select core fuel k = Ok (q, k') -> q <> p /\ ended n p k'.
Proof using.
  intros Hcore. induction fuel as [|fuel IH]; intros k q k' (Hu & ts & tks & cs & i & u & Hs & H1 & Hp & Hx & Hno & Hn & Hcs) E; [done|].
  destruct (lookup_lt_is_Some_2 cs (Z.to_nat core)) as [c Hc]; [lia|].
  pose proof (Forall_lookup_1 _ _ _ _ Hcs Hc) as Hcr. cbv beta in Hcr. set (cur := Z.to_nat c).
  assert (c = Z.of_nat cur) as Ec by lia. rewrite Ec in Hc. unfold Zlen in Hcr. pose proof (sched_tasks_length _ _ _ _ Hs) as Hlen.
  pose proof (select_step core fuel k ts tks cs cur Hs Hu ltac:(lia) Hc ltac:(lia) H1) as Hst. cbv zeta in Hst.
  destruct (tks !! S cur) as [t|] eqn:Ht; [|by rewrite Hst in E]. apply lookup_lt_Some in Ht as Hlt.
  assert (exists u', alter (clear_flag TASK_RUNNING) cur tks !! i = Some u' /\ has_flag TASK_PRESENT u' = false) as (u' & Hu' & Hno').
  { destruct (decide (i = cur)) as [->|Hne]; [rewrite list_lookup_alter_eq, Hx|rewrite list_lookup_alter_ne by done; by exists u].
    eexists. split; [done|]. by apply clear_flag_keeps. }
  assert (Forall (fun c => 0 <= c < Zlen ts) (<[Z.to_nat core := Z.of_nat (S cur)]> cs)) as Hcs'
    by (apply Forall_insert; [done|unfold Zlen; lia]).
  destruct (runnable t) eqn:Hr.
  - destruct Hst as (k1 & E1 & Hs1 & Hu1). rewrite E1 in E. injection E as <- <-.
    assert (i <> S cur) as Hi by (intros ->; rewrite Hx in Ht; injection Ht as ->; unfold runnable in Hr; by rewrite Hno in Hr).
    split.
    + destruct (lookup_lt_is_Some_2 ts (S cur)) as [q Hq]; [lia|]. rewrite Hq. cbn [default from_option id]. intros ->.
      apply Hi. eapply NoDup_lookup; [by eapply sched_nodup|done|done].
    + split; [done|]. exists ts, (<[S cur := add_flag TASK_RUNNING t]> (alter (clear_flag TASK_RUNNING) cur tks)), (<[Z.to_nat core := Z.of_nat (S cur)]> cs), i, u'.
      rewrite list_lookup_insert_ne, length_insert by done. by split_and!.
  - destruct Hst as (k1 & E1 & Hs1 & Hu1). rewrite E1 in E. apply (IH k1); [|exact E]. split; [done|].
    exists ts, (alter (clear_flag TASK_RUNNING) cur tks), (<[Z.to_nat core := Z.of_nat (S cur)]> cs), i, u'. rewrite length_insert. by split_and!.
Qed.

(** What else the kernel does between two calls of the scheduler: it removes no
    task from the list and makes none present again. *)
Definition keeps_tasks (k k1 : Sched) : Prop :=
  (unlocked k -> unlocked k1) /\
  forall ts tks cs, sched k ts tks cs -> exists ts' tks1, sched k1 (ts ++ ts') tks1 cs /\
    forall i t, tks !! i = Some t -> exists t1, tks1 !! i = Some t1 /\
      (has_flag TASK_PRESENT t1 = true -> has_flag TASK_PRESENT t = true).

(** The tasks that any of [n] processors select from [k] on. *)
Inductive selects (n : nat) : Sched -> list Z -> Sched -> Prop :=
  | selects_nil k : selects n k [] k
  | selects_task k core fuel q k1 l k2 :
      0 <= core < Z.of_nat n -> task_select core fuel k = Ok (q, k1) -> selects n k1 l k2 -> selects n k (q :: l) k2
  | selects_other k k1 l k2 : keeps_tasks k k1 -> selects n k1 l k2 -> selects n k l k2.

Lemma keeps_ended n p k k1 : keeps_tasks k k1 -> ended n p k -> ended n p k1.
Proof using.
  intros [Hlock Hk] (Hu & ts & tks & cs & i & u & Hs & H1 & Hp & Hx & Hno & Hn & Hcs). split; [by apply Hlock|].
  destruct (Hk _ _ _ Hs) as (ts' & tks1 & Hs1 & Hf). destruct (Hf i u Hx) as (t1 & Ht1 & Hp1).
  exists (ts ++ ts'), tks1, cs, i, t1. split_and!; try done; [rewrite length_app; lia|by apply lookup_app_l_Some| |].
  - destruct (has_flag TASK_PRESENT t1); [|done]. rewrite Hno in Hp1. by discriminate Hp1.
  - eapply Forall_impl; [exact Hcs|]. cbv beta. intros c Hc. rewrite Zlen_app. pose proof (Zlen_nonneg ts'). lia.
Qed.

Lemma selects_ended n p k l k2 : selects n k l k2 -> ended n p k -> (p ∉ l).
Proof using.
  induction 1 as [k|k core fuel q k1 l k2 Hc E _ IH|k k1 l k2 Hk _ IH]; intros He; [by apply not_elem_of_nil| |by eapply IH, keeps_ended].
  destruct (select_ended _ _ _ Hc _ _ _ _ He E) as [Hq He1]. apply not_elem_of_cons. split; [congruence|by apply IH].
Qed.

(** ** Exit *)

(** [D] holds none of the objects of the task list. *)
Definition apart (k : Sched) (ts cs : list Z) (D : gset Z) : Prop :=
  D ## addrs ts /\
  (forall ns, vec (store k) (tasks k) ns ts -> D ## addrs (tasks k :: ns)) /\
  (forall ms, vec (store k) (current_tasks k) ms cs -> D ## addrs (current_tasks k :: ms)).

Lemma sched_frame k ts tks cs D st :
  sched k ts tks cs -> apart k ts cs D -> store_ok st -> same_except D (store k) st ->
  sched (set_store st k) ts tks cs.
Proof using.
  intros [Hok (ns & ms & Hv & Hc & Hd & Hd') Hts Hnd] (Ha & Hav & Hac) Hok' Hs.
  split; cbn [set_store store tasks current_tasks]; try done.
  - exists ns, ms. split_and!; [eapply vec_frame; [exact Hs| |done]; auto..|done|done].
  - by eapply typed_list_frame.
Qed.

Lemma apart_empty k ts cs : apart k ts cs ∅.
Proof using. repeat split; intros; set_solver. Qed.

Lemma syscall_exit_spec core k ts tks cs (cur : nat) t pt ns ps es code :
  sched k ts tks cs -> unlocked k -> 0 <= core -> cs !! Z.to_nat core = Some (Z.of_nat cur) ->
  tks !! cur = Some t -> is_user t = true -> typed_at (store k) (parent t) pt ->
  queue (store k) (event_queue pt) ns ps es ->
  apart k ts cs (addrs (event_queue pt :: ns) ∪ addrs ps) -> Zlen es + 1 < 2 ^ 64 ->
  (exists k' ns' p,
     syscall_exit core code k = Ok (if Zlen ts =? 1 then AllTasksEnded else WaitsForTimer, k') /\
     sched k' ts (<[cur := clear_flag TASK_PRESENT t]> tks) cs /\ unlocked k' /\
     queue (store k') (event_queue pt) ns' (ps ++ [p])
       (es ++ [{| do_handle := true; event_id := EVENT_TASK_EXITED; data0 := Z.of_nat cur; data1 := code |}])) \/
  syscall_exit core code k = Halted.
Proof using.
  intros Hs Hu Hcore Hcur Ht Huser Hpt Hq Hap Hes. pose proof Hs as [Hok _ _ _].
  assert (cur < length ts)%nat as Hlt by (rewrite (sched_tasks_length _ _ _ _ Hs); by eapply lookup_lt_Some).
  destruct (lookup_lt_is_Some_2 ts cur Hlt) as [p Hp]. pose proof (sched_task _ _ _ _ _ _ _ Hs Hp Ht) as Hx.
  unfold syscall_exit. rewrite bind_get, (bind_run _ _ _ _ _ (sched_current _ _ _ _ _ Hs Hcore)), Hcur.
  cbn [default from_option id].
  rewrite (bind_run _ _ _ _ _ (get_current_task_run _ _ _ _ _ _ Hs (proj2 Hu) Hcore Hcur ltac:(lia))), Nat2Z.id, Hp.
  cbn [default from_option id]. destruct (Z.eqb_spec p 0) as [->|_].
  { destruct Hok as (A & _ & _ & H0). destruct H0. by eapply elem_of_dom_2. }
  rewrite (bind_run _ _ _ _ _ (on_store_read _ _ _ (get_obj_run _ _ _ Hx))), Huser. cbn [negb].
  rewrite (bind_run _ _ _ _ _ (on_store_read _ _ _ (get_obj_run _ _ _ Hpt))).
  destruct (add_event_full (store k) (event_queue pt) ns ps es EVENT_TASK_EXITED (Z.of_nat cur) code Hok Hq Hes)
    as [(st & n & pe & E & Hok1 & Hq1 & Hn & Hpe & Hs1)|E]; [left|right; unfold bind at 1, on_store at 1; by rewrite E].
  rewrite (bind_run _ _ _ _ _ (on_store_run _ _ _ _ E)).
  assert (apart k ts cs (addrs (event_queue pt :: ns))) as Hap1.
  { destruct Hap as (A1 & A2 & A3). split; [set_solver|]. split; intros m Hm; [specialize (A2 m Hm)|specialize (A3 m Hm)]; set_solver. }
  pose proof (sched_frame _ _ _ _ _ _ Hs Hap1 Hok1 Hs1) as Hsch1.
  destruct (update_task _ _ _ _ _ _ _ (clear_flag TASK_PRESENT) Hsch1 Hp Ht) as (k2 & E2 & Hs2 & [st2 ->] & Hse).
  rewrite (bind_run _ _ _ _ _ E2).
  destruct (sched_length _ _ _ _ Hs2) as (r & Er & Hr & _). cbn [set_store tasks] in Er. unfold set_store in *.
  rewrite (bind_run _ _ _ _ _ Er), Hr. eexists _, _, pe. split; [by destruct (Zlen ts =? 1)|].
  split; [exact Hs2|]. split; [by destruct Hu|]. cbn [store] in *.
  eapply queue_frame; [exact Hse| | |exact Hq1].
  - destruct Hap as (A1 & _ & _). assert (p ∈ dom (objs (store k))) by (by eapply elem_of_dom_2).
    assert (p ∈ addrs ts) by (apply elem_of_list_to_set; by eapply list_elem_of_lookup_2).
    change (event_queue pt :: ns ++ [n]) with ((event_queue pt :: ns) ++ [n]). rewrite list_to_set_app_L. set_solver.
  - destruct Hap as (A1 & _ & _). assert (p ∈ dom (objs (store k))) by (by eapply elem_of_dom_2).
    assert (p ∈ addrs ts) by (apply elem_of_list_to_set; by eapply list_elem_of_lookup_2).
    rewrite list_to_set_app_L. set_solver.
Qed.

(** ** Creating a task *)

(** The task [create_task] makes. *)
Definition new_Task (pml4 entry user_stack fl : Z) (dir : Ptr) : Task :=
  {| is_user := true; event_queue := 0; current_dir := dir; argc := 0; argv := 0; pml4_addr := pml4;
     kernel_rsp := KERNEL_STACK_PTR; current_rsp := user_stack; entry_point := entry;
     resources := replicate (Z.to_nat NUM_RESOURCES) 0; parent := 0; flags := fl; errno := 0;
     mmap_upto := 0 |}.

(** Pushing a fresh task. *)
Lemma push_task k ts tks cs p x :
  sched k ts tks cs -> typed_at (store k) p x -> apart k ts cs {[p]} -> Zlen ts + 1 < 2 ^ 64 ->
  (exists k', on_store (vector_push (tasks k) p) k = Ok (tt, k') /\ sched k' (ts ++ [p]) (tks ++ [x]) cs /\
     same_globals k k' /\ exists ns, vec (store k) (tasks k) ns ts /\
       same_except (addrs (tasks k :: ns)) (store k) (store k')) \/
  on_store (vector_push (tasks k) p) k = Halted.
Proof using.
  intros Hs Hx (Hp1 & Hp2 & Hp3) Hlen. pose proof Hs as [Hok (ns & ms & Hv & Hc & Hd & Hd') Hts Hnd].
  destruct (vector_push_spec (store k) (tasks k) ns ts p Hok Hv Hlen)
    as [(n & st & E & Hn & Hok' & Hv' & Hse)|E]; [left|right; unfold on_store; by rewrite E].
  rewrite (on_store_run _ _ _ _ E). eexists. split; [reflexivity|]. split; [|split; [by exists st|by exists ns]].
  pose proof (elem_of_dom_2 _ _ _ Hx) as Hpd. pose proof (vec_in_store _ _ _ _ Hc) as Hcd.
  assert (addrs ts ⊆ dom (objs (store k))) as Htd.
  { intros q Hq%elem_of_list_to_set. apply list_elem_of_lookup in Hq as [i Hi].
    destruct (Forall2_lookup_l _ _ _ _ _ Hts Hi) as (y & _ & Hy). by eapply elem_of_dom_2. }
  specialize (Hp2 ns Hv). specialize (Hp3 ms Hc).
  split; cbn [set_store store tasks current_tasks]; [done| | |].
  - exists (ns ++ [n]), ms. split; [done|]. split; [eapply vec_frame; [exact Hse|set_solver|done]|].
    change (tasks k :: ns ++ [n]) with ((tasks k :: ns) ++ [n]). rewrite !list_to_set_app_L. split; set_solver.
  - apply Forall2_app; [by eapply typed_list_frame; [exact Hse|set_solver|]|].
    constructor; [|constructor]. eapply same_except_typed; [exact Hse|set_solver|done].
  - apply NoDup_app. split_and!; [done| |apply NoDup_singleton]. intros q Hq ->%list_elem_of_singleton. set_solver.
Qed.

Lemma apart_fresh k ts tks cs st p :
  sched k ts tks cs -> (p ∉ dom (objs (store k))) -> sched (set_store st k) ts tks cs ->
  same_except ∅ (store k) st -> apart (set_store st k) ts cs {[p]}.
Proof using.
  intros Hs Hp Hs' Hse.
  pose proof Hs as [Hok (ns & ms & Hv & Hc & _) Hts Hnd]. pose proof Hs' as [_ _ Hts' _].
  pose proof (vec_in_store _ _ _ _ Hv) as Hvd. pose proof (vec_in_store _ _ _ _ Hc) as Hcd.
  split; [|split]; cbn [set_store tasks current_tasks store].
  - intros q ->%elem_of_singleton Hq%elem_of_list_to_set. apply list_elem_of_lookup in Hq as [i Hi].
    destruct (Forall2_lookup_l _ _ _ _ _ Hts Hi) as (y & _ & Hy). apply Hp. by eapply elem_of_dom_2.
  - intros m Hm. assert (m = ns) as ->; [|set_solver].
    eapply vec_nodes_unique; [exact Hm|]. eapply vec_frame; [exact Hse|set_solver|exact Hv].
  - intros m Hm. assert (m = ms) as ->; [|set_solver].
    eapply vec_nodes_unique; [exact Hm|]. eapply vec_frame; [exact Hse|set_solver|exact Hc].
Qed.

Lemma copy_dir_spec slack junk p x dir str s :
  store_ok s -> 0 <= slack -> typed_at s p x -> string_at s dir str -> block dir <> p -> Zlen str + 1 < 2 ^ 63 ->
  copy_dir slack junk p dir s = Halted \/
  if 2 <=? slack then
    exists b s', copy_dir slack junk p dir s = Ok (tt, s') /\ store_ok s' /\ (b ∉ dom (objs s)) /\
      typed_at s' p (set_current_dir (MkPtr b 1) x) /\ string_at s' (MkPtr b 1) str /\ same_except {[p]} s s'
  else copy_dir slack junk p dir s = Fault.
Proof using.
  intros Hok Hsl Hx Hstr Hdp Hlen. unfold copy_dir.
  rewrite (bind_run _ _ _ _ _ (strlen_at_run _ _ _ Hstr)).
  destruct (malloc_block_spec slack junk s (Zlen str) Hok ltac:(zlen) Hsl) as [(b & d & s1 & E & Hb & Hok1 & Hd & Hdl & Ho)|E];
    [right|left; unfold bind; by rewrite E].
  rewrite (bind_run _ _ _ _ _ E). cbv zeta. change (ptr_add (MkPtr b 0) 1) with (MkPtr b 1).
  assert (p <> b) as Hpb by (intros ->; by apply elem_of_dom_2 in Hx).
  assert (block dir <> b) as Hdb by (destruct Hstr as (dd & Hdd & _); apply elem_of_dom_2 in Hdd; congruence).
  assert (typed_at s1 p x) as Hx1 by (unfold typed_at; by rewrite Ho, lookup_insert_ne).
  rewrite (bind_run _ _ _ _ _ (set_field_run _ _ _ _ Hx1)). set (s2 := MkStore _ _).
  assert (store_ok s2) as Hok2 by (by eapply put_obj_ok).
  assert (typed_at (A := Block) s2 b d) as Hd2 by (unfold typed_at, s2; cbn [objs]; by rewrite lookup_insert_ne).
  destruct (Z.leb_spec 1 slack) as [Hs1|Hs1].
  2:{ destruct (Z.leb_spec 2 slack); [lia|]. unfold bind at 1, memset_to.
      by rewrite (memcpy_to_fault _ _ _ _ _ _ Hd2) by (apply memcpy_at_end; zlen). }
  assert (exists d1, memcpy_at d 1 (replicate (Z.to_nat (Zlen str)) (u8 0)) (Zlen str) = Ok d1) as [d1 Em].
  { destruct (list_split_at d 1) as (pre & d2 & -> & Hpre); [zlen|].
    destruct (list_split_at d2 (Zlen str)) as (mid & post & -> & Hmid); [zlen|].
    eexists. apply memcpy_at_mid; [lia|lia|]. rewrite Zlen_replicate. zlen. }
  assert (memset_to (MkPtr b 1) 0 (Zlen str) s2 = Ok (tt, MkStore (store_heap s2) (<[b := to_obj d1]> (objs s2)))) as Es
    by (by apply (memcpy_to_run _ _ _ _ _ _ _ Hd2)).
  rewrite (bind_run _ _ _ _ _ Es). set (s3 := MkStore (store_heap s2) _).
  assert (same_except {[p]} s s3) as Hs3.
  { intros q Hq Hqd. unfold s3, s2. cbn [objs]. rewrite Ho. rewrite !lookup_insert_ne; [done|congruence|set_solver|congruence]. }
  assert (block dir ∉ ({[p]} : gset Z)) as Hdp' by set_solver.
  destruct (string_bytes _ _ _ (string_at_frame _ _ _ _ _ Hs3 Hdp' Hstr)) as (a & Ea & Ha).
  rewrite (bind_run _ _ _ _ _ Ea). pose proof (memcpy_at_length _ _ _ _ _ Em ltac:(zlen)) as Hl1.
  rewrite u64_small by zlen. assert (typed_at (A := Block) s3 b d1) as Hd3 by look.
  destruct (Z.leb_spec 2 slack) as [Hge|Hlt].
  - destruct (list_split_at d1 1) as (pre & d2 & -> & Hpre); [zlen|].
    destruct (list_split_at d2 (Zlen str + 1)) as (mid & post & -> & Hmid); [zlen|].
    assert (Zlen str + 1 <= Zlen a) as Hal by (destruct Ha as [_ [tl ->]]; zlen).
    pose proof (memcpy_at_mid pre mid post a 1 (Zlen str + 1) ltac:(lia) ltac:(lia) Hal) as Ec.
    rewrite (memcpy_to_run _ _ _ _ _ _ _ Hd3 Ec). set (s4 := MkStore _ _). exists b, s4. split; [done|].
    assert (typed_at s4 b (pre ++ take (length mid) a ++ post)) as Hd4 by look.
    split; [eapply put_obj_ok; [|exact Hd3]; by eapply put_obj_ok|]. split; [done|]. split; [|split].
    + unfold typed_at, s4, s3, s2. cbn [objs]. by simplify_map_eq.
    + eexists. split; [exact Hd4|]. cbn [offset]. split; [zlen|].
      by apply (memcpy_at_string _ 1 str a _ Ha Ec).
    + intros q Hq Hqd. unfold s4. cbn [objs]. rewrite lookup_insert_ne by congruence. by apply Hs3.
  - by rewrite (memcpy_to_fault _ _ _ _ _ _ Hd3) by (apply memcpy_at_end; zlen).
Qed.

Lemma create_task_spec core slack jt jb k ts tks cs (cur : nat) t str pml4 entry user_stack fl :
  sched k ts tks cs -> unlocked k -> 0 <= core -> cs !! Z.to_nat core = Some (Z.of_nat cur) ->
  tks !! cur = Some t -> string_at (store k) (current_dir t) str -> Zlen str + 1 < 2 ^ 63 ->
  Zlen ts + 1 < 2 ^ 64 -> 0 <= slack ->
  create_task core slack jt jb pml4 entry user_stack fl k = Halted \/
  if 2 <=? slack then
    exists p b k', create_task core slack jt jb pml4 entry user_stack fl k = Ok (p, k') /\ unlocked k' /\
      sched k' (ts ++ [p]) (tks ++ [new_Task pml4 entry user_stack fl (MkPtr b 1)]) cs /\
      string_at (store k') (MkPtr b 1) str
  else create_task core slack jt jb pml4 entry user_stack fl k = Fault.
Proof using.
  intros Hs Hu Hcore Hcur Ht Hstr Hlen Hts Hsl. pose proof Hs as [Hok _ _ _]. unfold create_task.
  destruct (raw_obj_spec (store k) sizeof_Task jt Hok) as [(p & s1 & E1 & Hp & _ & Hok1 & Ho1)|E1];
    [by unfold sizeof_Task| |left; unfold bind at 1, on_store at 1; by rewrite E1].
  rewrite (bind_run _ _ _ _ _ (on_store_run _ _ _ _ E1)).
  assert (typed_at s1 p (jt p)) as Hp1 by (unfold typed_at; by rewrite Ho1, lookup_insert_eq).
  set (x0 := {| is_user := true |}).
  rewrite (bind_run _ _ _ _ _ (on_store_run _ (set_store s1 k) _ _ (put_obj_run _ _ _ x0 Hp1))).
  set (s2 := MkStore _ _). change (set_store s2 (set_store s1 k)) with (set_store s2 k).
  assert (same_except ∅ (store k) s2) as He2.
  { intros q _ Hq. unfold s2. cbn [objs]. rewrite Ho1, !lookup_insert_ne; congruence. }
  assert (store_ok s2) as Hok2 by (by eapply put_obj_ok).
  pose proof (sched_frame _ _ _ _ _ _ Hs (apart_empty _ _ _) Hok2 He2) as Hs2.
  assert (get_current_task_lock (set_store s2 k) = false) as Hl by apply Hu.
  rewrite (bind_run _ _ _ _ _ (get_current_task_run _ _ _ _ _ _ Hs2 Hl Hcore Hcur ltac:(lia))), Nat2Z.id.
  assert (cur < length ts)%nat as Hlt by (rewrite (sched_tasks_length _ _ _ _ Hs); by eapply lookup_lt_Some).
  destruct (lookup_lt_is_Some_2 ts cur Hlt) as [c Hc]. rewrite Hc. cbn [default from_option id].
  pose proof (sched_task _ _ _ _ _ _ _ Hs2 Hc Ht) as Hx.
  rewrite (bind_run _ _ _ _ _ (on_store_read _ _ _ (get_obj_run _ _ _ Hx))).
  assert (typed_at s2 p x0) as Hp2 by look.
  assert (block (current_dir t) <> p) as Hdp by (destruct Hstr as (dd & Hdd & _); apply elem_of_dom_2 in Hdd; congruence).
  destruct (copy_dir_spec slack jb p x0 _ str s2 Hok2 Hsl Hp2 (string_at_frame _ _ _ _ _ He2 (not_elem_of_empty _) Hstr) Hdp Hlen)
    as [E3|H3]; [left; unfold bind at 1, on_store at 1; cbn [store set_store]; by rewrite E3|].
  destruct (2 <=? slack); [|right; unfold bind at 1, on_store at 1; cbn [store set_store]; by rewrite H3].
  destruct H3 as (b & s3 & E3 & Hok3 & Hb & Hp3 & Hstr3 & He3).
  rewrite (bind_run _ _ _ _ _ (on_store_run _ (set_store s2 k) _ _ E3)), bind_get.
  change (set_store s3 (set_store s2 k)) with (set_store s3 k).
  assert (same_except ∅ (store k) s3) as He.
  { intros q Hq Hqd. rewrite He3; [by apply He2|set_solver|]. unfold s2. cbn [objs]. rewrite Ho1, !dom_insert. set_solver. }
  pose proof (sched_frame _ _ _ _ _ _ Hs (apart_empty _ _ _) Hok3 He) as Hs3.
  pose proof (apart_fresh k ts tks cs s3 p Hs Hp Hs3 He) as Hap.
  destruct (push_task _ _ _ _ _ _ Hs3 Hp3 Hap Hts) as [(k' & E4 & Hs4 & [st4 ->] & ns3 & Hv3 & He4)|E4];
    [right|left; unfold bind; by rewrite E4].
  rewrite (bind_run _ _ _ _ _ E4). exists p, b. eexists. split; [reflexivity|]. split; [apply Hu|]. split; [exact Hs4|].
  cbn [set_store store tasks] in *. eapply string_at_frame; [exact He4| |exact Hstr3]. cbn [block].
  pose proof Hs as [_ (ns & ms & Hv & _) _ _]. pose proof (vec_in_store _ _ _ _ Hv) as Hvd.
  rewrite (vec_nodes_unique _ _ _ _ _ Hv3 (vec_keep _ _ _ _ _ _ Hv He ltac:(set_solver))).
  intros Hin. apply Hb. unfold s2. cbn [objs]. rewrite Ho1, !dom_insert. set_solver.
Qed.

(** ** The initial task list *)

Lemma apart_frame k ts tks tks' cs D st :
  sched k ts tks cs -> apart k ts cs D -> sched (set_store st k) ts tks' cs ->
  (exists E, same_except E (store k) st /\
     (forall ns, vec (store k) (tasks k) ns ts -> E ## addrs (tasks k :: ns)) /\
     (forall ms, vec (store k) (current_tasks k) ms cs -> E ## addrs (current_tasks k :: ms))) ->
  apart (set_store st k) ts cs D.
Proof using.
  intros [Hok (ns & ms & Hv & Hc & _) _ _] (A1 & A2 & A3) Hs (E & Hse & E2 & E3).
  split; [done|]. split; cbn [set_store tasks current_tasks store]; intros m Hm.
  - assert (m = ns) as ->; [|by auto]. eapply vec_nodes_unique; [exact Hm|]. eapply vec_frame; [exact Hse|auto|done].
  - assert (m = ms) as ->; [|by auto]. eapply vec_nodes_unique; [exact Hm|]. eapply vec_frame; [exact Hse|auto|done].
Qed.

(** One more processor. *)
Lemma push_zero k ts tks cs D :
  sched k ts tks cs -> apart k ts cs D -> D ⊆ dom (objs (store k)) -> Zlen cs + 1 < 2 ^ 64 ->
  (exists k', on_store (vector_push (current_tasks k) 0) k = Ok (tt, k') /\ sched k' ts tks (cs ++ [0]) /\
     apart k' ts (cs ++ [0]) D /\ same_globals k k' /\ D ⊆ dom (objs (store k')) /\
     forall q, q ∈ D -> objs (store k') !! q = objs (store k) !! q) \/
  on_store (vector_push (current_tasks k) 0) k = Halted.
Proof using.
  intros [Hok (ns & ms & Hv & Hc & Hd & Hd') Hts Hnd] (A1 & A2 & A3) HD Hl.
  destruct (vector_push_spec (store k) (current_tasks k) ms cs 0 Hok Hc Hl)
    as [(n & st & E & Hn & Hok' & Hc' & Hse)|E]; [left|right; unfold on_store; by rewrite E].
  rewrite (on_store_run _ _ _ _ E). eexists. split; [reflexivity|].
  assert (vec st (tasks k) ns ts) as Hv' by (eapply vec_frame; [exact Hse|set_solver|done]).
  pose proof (vec_in_store _ _ _ _ Hv) as Hvd. specialize (A2 ns Hv). specialize (A3 ms Hc).
  assert (addrs ts ⊆ dom (objs (store k))) as Htd.
  { intros q Hq%elem_of_list_to_set. apply list_elem_of_lookup in Hq as [i Hi].
    destruct (Forall2_lookup_l _ _ _ _ _ Hts Hi) as (y & _ & Hy). by eapply elem_of_dom_2. }
  assert (forall q, q ∈ D -> objs st !! q = objs (store k) !! q) as HDs.
  { intros q Hq. apply Hse; set_solver. }
  assert (addrs (current_tasks k :: ms ++ [n]) = addrs (current_tasks k :: ms) ∪ {[n]}) as Heq.
  { change (current_tasks k :: ms ++ [n]) with ((current_tasks k :: ms) ++ [n]). rewrite list_to_set_app_L. set_solver. }
  split; [split; cbn [set_store store tasks current_tasks]; try done|split; [split; [done|split]|split; [by exists st|split; [|done]]]].
  - exists ns, (ms ++ [n]). rewrite Heq. split_and!; [done|done|set_solver..].
  - eapply typed_list_frame; [exact Hse|set_solver|done].
  - cbn [set_store tasks store]. intros m Hm. by rewrite (vec_nodes_unique _ _ _ _ _ Hm Hv').
  - cbn [set_store current_tasks store]. intros m Hm. rewrite (vec_nodes_unique _ _ _ _ _ Hm Hc'), Heq. set_solver.
  - cbn [set_store store]. intros q Hq. apply elem_of_dom. rewrite (HDs q Hq). apply elem_of_dom. set_solver.
Qed.

Lemma push_zeros_spec n : forall k ts tks cs D,
  sched k ts tks cs -> apart k ts cs D -> D ⊆ dom (objs (store k)) -> Zlen cs + Z.of_nat n < 2 ^ 64 ->
  (exists k', push_zeros n k = Ok (tt, k') /\ sched k' ts tks (cs ++ replicate n 0) /\
     apart k' ts (cs ++ replicate n 0) D /\ same_globals k k' /\
     forall q, q ∈ D -> objs (store k') !! q = objs (store k) !! q) \/
  push_zeros n k = Halted.
Proof using.
  induction n as [|n IH]; intros k ts tks cs D Hs Ha HD Hl; cbn [push_zeros].
  { left. exists k. rewrite app_nil_r. split_and!; try done. by exists (store k); destruct k. }
  rewrite bind_get.
  destruct (push_zero k ts tks cs D Hs Ha HD ltac:(lia)) as [(k1 & E1 & Hs1 & Ha1 & Hg1 & HD1 & Hsame1)|E1];
    [|right; unfold bind; by rewrite E1]. rewrite (bind_run _ _ _ _ _ E1).
  destruct (IH k1 ts tks (cs ++ [0]) D Hs1 Ha1 HD1 ltac:(zlen)) as [(k' & E & Hs' & Ha' & Hg' & Hsame)|E]; [left|by right].
  exists k'. rewrite <- app_assoc in Hs', Ha'. split_and!; try done; [by eapply same_globals_trans|].
  intros q Hq. by rewrite Hsame, Hsame1.
Qed.

(** The first task. *)
Definition first_Task (p q cr3 ended : Z) (dir : Ptr) : Task :=
  {| is_user := false; event_queue := q; current_dir := dir; argc := 0; argv := 0; pml4_addr := cr3;
     kernel_rsp := KERNEL_STACK_PTR; current_rsp := KERNEL_STACK_PTR; entry_point := ended;
     resources := replicate (Z.to_nat NUM_RESOURCES) 0; parent := p; flags := 0; errno := 0; mmap_upto := 0 |}.

Definition root_path : list Z := [82; 58; 47].

(** [init_tasklist] after its first four statements. *)
Definition init_rest_code (cr3 cpu_count ended p b : Z) : Mem unit :=
  let* q := on_store new_event_queue in
  on_store (put_obj p (first_Task p q cr3 ended (MkPtr b 0))) ;;;
  let* k := get in
  on_store (vector_push (tasks k) p) ;;;
  let* cur := on_store (new_vector 8) in
  modify (fun k => set_tasklist (tasks k) cur k) ;;;
  push_zeros (Z.to_nat cpu_count).

(** The entries of the processors, when everything else is there. *)
Lemma init_processors cpu_count k t p q b n dt :
  store_ok (store k) -> unlocked k -> 0 <= cpu_count < 2 ^ 63 ->
  vec (store k) (tasks k) [n] [p] -> vec (store k) (current_tasks k) [] [] -> vec (store k) q [] [] ->
  typed_at (store k) p (t : Task) -> typed_at (A := Block) (store k) b ([82; 58; 47; 0] ++ dt) ->
  NoDup [tasks k; current_tasks k; p; q; b] -> (n ∉ [current_tasks k; p; q; b]) ->
  (exists k', push_zeros (Z.to_nat cpu_count) k = Ok (tt, k') /\
     sched k' [p] [t] (replicate (Z.to_nat cpu_count) 0) /\ unlocked k' /\
     string_at (store k') (MkPtr b 0) root_path /\ queue (store k') q [] [] [] /\
     apart k' [p] (replicate (Z.to_nat cpu_count) 0) {[q; b]}) \/
  push_zeros (Z.to_nat cpu_count) k = Halted.
Proof using.
  intros Hok Hu Hcpu Hv Hc Hq Hp Hb Hnd Hn.
  rewrite !NoDup_cons in Hnd. destruct Hnd as (Hl & Hcu & Hpq & Hqb & _).
  assert (sched k [p] [t] []) as Hs.
  { split; [done|exists [n], []; split_and!; [done|done|set_solver..]| |apply NoDup_singleton]. by constructor; [|constructor]. }
  assert (apart k [p] [] {[q; b]}) as Ha.
  { split; [set_solver|]. split; intros m Hm.
    - rewrite (vec_nodes_unique _ _ _ _ _ Hm Hv). set_solver.
    - rewrite (vec_nodes_unique _ _ _ _ _ Hm Hc). set_solver. }
  assert ({[q; b]} ⊆ dom (objs (store k))) as HD by (apply elem_of_dom_2 in Hb; apply vec_in_store in Hq; set_solver).
  destruct (push_zeros_spec (Z.to_nat cpu_count) k _ _ [] _ Hs Ha HD ltac:(zlen)) as [(k' & E & Hs' & Ha' & [st ->] & Hsame)|E];
    [left; eexists; split; [exact E|]; split; [exact Hs'|]; split; [exact Hu|]|by right].
  cbn [set_store store] in *. split; [|split; [|done]].
  - exists ([82; 58; 47; 0] ++ dt). cbn [block offset]. split; [unfold typed_at; rewrite Hsame by set_solver; exact Hb|].
    split; [zlen|]. split; [repeat constructor; lia|by exists dt].
  - split; [|constructor|set_solver|constructor]. destruct Hq as (r & Hr & H). exists r. split; [|by destruct H as (?&?&?&?); destruct H].
    unfold typed_at. rewrite Hsame by set_solver. exact Hr.
Qed.

Lemma init_rest cr3 cpu_count ended k0 s4 l p b dt x0 :
  store_ok s4 -> unlocked k0 -> tasks k0 = l -> 0 <= cpu_count < 2 ^ 63 ->
  vec s4 l [] [] -> typed_at s4 p (x0 : Task) -> typed_at (A := Block) s4 b ([82; 58; 47; 0] ++ dt) ->
  p <> b -> l <> p -> l <> b ->
  (exists k' q, init_rest_code cr3 cpu_count ended p b (set_store s4 k0) = Ok (tt, k') /\
     sched k' [p] [first_Task p q cr3 ended (MkPtr b 0)] (replicate (Z.to_nat cpu_count) 0) /\ unlocked k' /\
     string_at (store k') (MkPtr b 0) root_path /\ queue (store k') q [] [] [] /\
     apart k' [p] (replicate (Z.to_nat cpu_count) 0) {[q; b]}) \/
  init_rest_code cr3 cpu_count ended p b (set_store s4 k0) = Halted.
Proof using.
  intros Hok4 Hu Hk0 Hcpu Hv4 Hp4 Hb4 Hpb Hlp Hlb. unfold init_rest_code.
  destruct (new_vector_spec s4 sizeof_Event Hok4) as [(q & s5 & E5 & Hq & Hok5 & Hq5 & He5)|E5];
    [|right; unfold bind at 1, on_store at 1, new_event_queue; cbn [store set_store]; by rewrite E5].
  rewrite (bind_run _ _ _ _ _ (on_store_run _ (set_store s4 k0) _ _ E5)).
  pose proof (elem_of_dom_2 _ _ _ Hp4) as Hpd. pose proof (elem_of_dom_2 _ _ _ Hb4) as Hbd.
  assert (l ∈ dom (objs s4)) as Hld by (apply vec_in_store in Hv4; set_solver).
  assert (q <> l /\ q <> p /\ q <> b) as (Hql & Hqp & Hqb) by (split_and!; congruence).
  assert (typed_at s5 p x0) as Hp5 by (eapply same_except_typed; [exact He5|set_solver|done]).
  rewrite (bind_run _ _ _ _ _ (on_store_run _ (set_store s5 (set_store s4 k0)) _ _ (put_obj_run _ _ _ (first_Task p q cr3 ended (MkPtr b 0)) Hp5))).
  set (s6 := MkStore _ _). assert (store_ok s6) as Hok6 by (by eapply put_obj_ok).
  assert (same_except {[p]} s5 s6) as He6.
  { intros a Ha _. unfold s6. cbn [objs]. apply lookup_insert_ne. set_solver. }
  pose proof (vec_keep _ _ _ _ _ _ (vec_keep _ _ _ _ _ _ Hv4 He5 ltac:(set_solver)) He6 ltac:(set_solver)) as Hv6.
  rewrite bind_get. cbn [set_store tasks]. rewrite Hk0.
  destruct (vector_push_spec s6 l [] [] p Hok6 Hv6 ltac:(done)) as [(n & s7 & E7 & Hn & Hok7 & Hv7 & He7)|E7];
    [|right; unfold bind at 1, on_store at 1; cbn [store set_store]; by rewrite E7].
  cbn [app] in Hv7. unfold set_store in *. cbn [tasks current_tasks scheduler_lock get_current_task_lock] in *.
  rewrite (bind_run _ _ _ _ _ (on_store_run _ (MkSched s6 _ _ _ _) _ _ E7)).
  assert (typed_at s6 p (first_Task p q cr3 ended (MkPtr b 0)) /\ typed_at (A := Block) s6 b ([82; 58; 47; 0] ++ dt) /\
    vec s6 q [] []) as (Hp6 & Hb6 & Hq6).
  { split; [look|]. split; [eapply same_except_typed; [exact He6|set_solver|];
      eapply same_except_typed; [exact He5|set_solver|exact Hb4]|].
    eapply vec_frame; [exact He6|set_solver|exact Hq5]. }
  assert (q ∈ dom (objs s6)) as Hqd by (apply vec_in_store in Hq6; set_solver).
  pose proof (elem_of_dom_2 _ _ _ Hp6) as Hpd6. pose proof (elem_of_dom_2 _ _ _ Hb6) as Hbd6.
  assert (n <> p /\ n <> q /\ n <> b) as (Hnp & Hnq & Hnb) by (split_and!; congruence).
  destruct (new_vector_spec s7 8 Hok7) as [(c & s8 & E8 & Hc & Hok8 & Hc8 & He8)|E8];
    [|right; unfold bind at 1, on_store at 1; cbn [store set_store]; by rewrite E8].
  rewrite (bind_run _ _ _ _ _ (on_store_run _ (set_store s7 (MkSched s6 (tasks k0) (current_tasks k0) (scheduler_lock k0)
    (get_current_task_lock k0))) _ _ E8)), bind_modify.
  assert (same_except {[l]} s6 s7) as He7' by (intros a Ha Had; apply He7; [set_solver|done]).
  assert (typed_at s7 p (first_Task p q cr3 ended (MkPtr b 0)) /\ typed_at (A := Block) s7 b ([82; 58; 47; 0] ++ dt) /\
    vec s7 q [] []) as (Hp7 & Hb7 & Hq7).
  { split; [eapply same_except_typed; [exact He7'|set_solver|exact Hp6]|].
    split; [eapply same_except_typed; [exact He7'|set_solver|exact Hb6]|].
    eapply vec_frame; [exact He7'|set_solver|exact Hq6]. }
  assert (q ∈ dom (objs s7)) as Hqd7 by (apply vec_in_store in Hq7; set_solver).
  pose proof (elem_of_dom_2 _ _ _ Hp7) as Hpd7. pose proof (elem_of_dom_2 _ _ _ Hb7) as Hbd7.
  pose proof (vec_in_store _ _ _ _ Hv7) as Hld7.
  pose proof (vec_keep _ _ _ _ _ _ Hv7 He8 ltac:(set_solver)) as Hv8.
  pose proof (same_except_typed _ _ _ _ _ He8 (not_elem_of_empty p) Hp7) as Hp8.
  pose proof (same_except_typed _ _ _ _ _ He8 (not_elem_of_empty b) Hb7) as Hb8.
  pose proof (vec_keep _ _ _ _ _ _ Hq7 He8 ltac:(set_solver)) as Hq8.
  set (k8 := MkSched s8 l c (scheduler_lock k0) (get_current_task_lock k0)).
  replace (set_tasklist _ c _) with k8 by (unfold k8; by rewrite <- Hk0).
  destruct (init_processors cpu_count k8 (first_Task p q cr3 ended (MkPtr b 0)) p q b n dt) as [(k' & E & H)|E]; try done;
    [| |left; by exists k', q|by right];
    (assert (c <> l /\ c <> n /\ c <> p /\ c <> q /\ c <> b) as (? & ? & ? & ? & ?) by (apply vec_in_store in Hv7; split_and!; intros ->; set_solver)).
  - cbn [tasks current_tasks k8]. distinct.
  - cbn [tasks current_tasks k8]. rewrite !not_elem_of_cons. split_and!; first [done|apply not_elem_of_nil|congruence].
Qed.

Lemma init_tasklist_spec slack jt jb cr3 cpu_count ended k :
  store_ok (store k) -> unlocked k -> 0 <= slack -> 0 <= cpu_count < 2 ^ 63 ->
  (exists k' p q b, init_tasklist slack jt jb cr3 cpu_count ended k = Ok (tt, k') /\
     sched k' [p] [first_Task p q cr3 ended (MkPtr b 0)] (replicate (Z.to_nat cpu_count) 0) /\ unlocked k' /\
     string_at (store k') (MkPtr b 0) root_path /\ queue (store k') q [] [] [] /\
     apart k' [p] (replicate (Z.to_nat cpu_count) 0) {[q; b]}) \/
  init_tasklist slack jt jb cr3 cpu_count ended k = Halted.
Proof using.
  intros Hok Hu Hsl Hcpu. unfold init_tasklist.
  destruct (new_vector_spec (store k) sizeof_Task Hok) as [(l & s1 & E1 & Hl & Hok1 & Hv1 & He1)|E1];
    [|right; unfold bind at 1, on_store at 1; by rewrite E1].
  rewrite (bind_run _ _ _ _ _ (on_store_run _ _ _ _ E1)), bind_modify.
  change (set_tasklist l (current_tasks (set_store s1 k)) (set_store s1 k)) with (set_store s1 (set_tasklist l (current_tasks k) k)).
  set (k0 := set_tasklist l (current_tasks k) k).
  assert (l ∈ dom (objs s1)) as Hl1 by (apply vec_in_store in Hv1; set_solver).
  destruct (raw_obj_spec s1 sizeof_Task jt Hok1) as [(p & s2 & E2 & Hp & _ & Hok2 & Ho2)|E2];
    [by unfold sizeof_Task| |right; unfold bind at 1, on_store at 1; cbn [store set_store]; by rewrite E2].
  rewrite (bind_run _ _ _ _ _ (on_store_run _ (set_store s1 k0) _ _ E2)).
  assert (typed_at s2 p (jt p)) as Hp2 by (unfold typed_at; by rewrite Ho2, lookup_insert_eq).
  destruct (malloc_block_spec slack jb s2 4 Hok2 ltac:(done) Hsl) as [(b & d & s3 & E3 & Hb & Hok3 & Hd & Hdl & Ho3)|E3];
    [|right; unfold bind at 1, on_store at 1; cbn [store set_store]; by rewrite E3].
  rewrite (bind_run _ _ _ _ _ (on_store_run _ (set_store s2 (set_store s1 k0)) _ _ E3)).
  destruct (list_split_at d 4) as (d4 & dt & -> & Hd4); [zlen|].
  pose proof (memcpy_at_mid [] d4 dt [82; 58; 47; 0] 0 4 eq_refl (eq_sym Hd4) ltac:(done)) as Ec. cbn [app] in Ec.
  rewrite firstn_all2 in Ec by (unfold Zlen in Hd4; cbn; lia).
  rewrite (bind_run _ _ _ _ _ (on_store_run _ (set_store s3 (set_store s2 (set_store s1 k0))) _ _ (memcpy_to_run _ _ _ _ _ _ _ Hd Ec))).
  set (s4 := MkStore _ _). assert (store_ok s4) as Hok4 by (by eapply put_obj_ok).
  assert (typed_at (A := Block) s4 b ([82; 58; 47; 0] ++ dt)) as Hb4 by look.
  assert (p <> b) as Hpb by (intros ->; by apply elem_of_dom_2 in Hp2).
  assert (l <> p) as Hlp by congruence.
  assert (l <> b) as Hlb by (intros <-; apply Hb; rewrite Ho2, dom_insert; set_solver).
  assert (same_except ∅ s1 s4) as He4.
  { intros q _ Hq. unfold s4. cbn [objs]. rewrite Ho3, Ho2, !lookup_insert_ne; [done|congruence|..].
    - intros <-. apply Hb. rewrite Ho2, dom_insert. set_solver.
    - intros <-. apply Hb. rewrite Ho2, dom_insert. set_solver. }
  assert (typed_at s4 p (jt p)) as Hp4.
  { unfold typed_at, s4. cbn [objs]. rewrite lookup_insert_ne, Ho3, lookup_insert_ne by done. exact Hp2. }
  pose proof (vec_keep _ _ _ _ _ _ Hv1 He4 ltac:(set_solver)) as Hv4.
  destruct (init_rest cr3 cpu_count ended k0 s4 l p b dt (jt p) Hok4 Hu eq_refl Hcpu Hv4 Hp4 Hb4 ltac:(done) ltac:(done) ltac:(done))
    as [(k' & q & E & H)|E]; [left; exists k', p, q, b; split; [exact E|exact H]|right; exact E].
Qed.

End Tasks.
Arguments Sched {_} Obj.

(** ** The spinlock between processors

    processors/spinlock.c as a transition system: each processor may call
    [spinlock_aquire], test and set the flag, and release the lock it holds. *)

Inductive lock_pc := Outside | Spinning | Inside.

Record LockState := MkLock { flag : bool; pc : nat -> lock_pc }.

Definition move (i : nat) (p : lock_pc) (f : nat -> lock_pc) : nat -> lock_pc :=
  fun j => if decide (j = i) then p else f j.

Inductive lock_step : LockState -> LockState -> Prop :=
  | step_call b f i : f i = Outside -> lock_step (MkLock b f) (MkLock b (move i Spinning f))
  | step_busy f i : f i = Spinning -> lock_step (MkLock true f) (MkLock true f)
  | step_aquire f i : f i = Spinning -> lock_step (MkLock false f) (MkLock true (move i Inside f))
  | step_release b f i : f i = Inside -> lock_step (MkLock b f) (MkLock false (move i Outside f)).

(** The flag is set exactly while a processor is inside, and only one is. *)
Definition lock_inv (s : LockState) : Prop :=
  (flag s = true <-> exists i, pc s i = Inside) /\
  (forall i j, pc s i = Inside -> pc s j = Inside -> i = j).

Lemma lock_step_inv s s' : lock_step s s' -> lock_inv s -> lock_inv s'.
Proof.
  intros [b f i Hi|f i Hi|f i Hi|b f i Hi] [H1 H2]; cbn [flag pc] in *; [|done| |]; split; cbn [flag pc].
  - rewrite H1. split; intros [j Hj]; exists j; unfold move in *; case_decide; congruence.
  - unfold move. intros j k. repeat case_decide; try congruence. apply H2.
  - split; [|done]. intros _. exists i. unfold move. by case_decide.
  - assert (forall j, f j <> Inside) as Hno by (intros j Hj; enough (false = true) by done; rewrite H1; by exists j).
    unfold move. intros j k. repeat case_decide; congruence.
  - split; [done|]. intros [j Hj]. unfold move in Hj. case_decide; [done|]. by destruct H; apply H2.
  - unfold move. intros j k. repeat case_decide; try congruence. apply H2.
Qed.

(** ** Theorems *)

(** C8: The scheduler.  On several tasks [task_select] runs the next runnable
    task after the current one: it returns it marked running, records it as the
    processor's task, clears the running flag of every task it passes over, and
    releases its lock.  When no runnable task follows, it does not wrap around to
    the first task but dereferences NULL, because its bound test looks at the
    old index. *)
Theorem task_select_next `{Allocator} {Obj}
    `{!Object Vector Obj, !Object VectorNode Obj, !Object Event Obj, !Object Task Obj}
    core fuel (k : Sched Obj) ts tks cs (cur : nat) :
  sched k ts tks cs -> unlocked k -> 0 <= core -> cs !! Z.to_nat core = Some (Z.of_nat cur) ->
  (cur < length ts)%nat -> (1 < length ts < fuel)%nat ->
  (forall j t, (cur < j)%nat -> tks !! j = Some t -> runnable t = true ->
     (forall i u, (cur < i < j)%nat -> tks !! i = Some u -> runnable u = false) ->
     exists k', task_select core fuel k = Ok (default 0 (ts !! j), k') /\ unlocked k' /\
       sched k' ts (after_select cur j tks) (<[Z.to_nat core := Z.of_nat j]> cs)) /\
  ((forall i u, (cur < i)%nat -> tks !! i = Some u -> runnable u = false) -> task_select core fuel k = Fault).
Proof.
  intros Hs Hu Hc Hcur Hlt Hf. pose proof (sched_tasks_length _ _ _ _ Hs) as Hlen. split.
  - intros j t Hj Ht Hr Hno. apply lookup_lt_Some in Ht as Hjl.
    eapply (task_select_found core (j - S cur)); try done; lia.
  - intros Hno. eapply (task_select_none core (length ts - S cur)); try done; lia.
Qed.

(** C21: [syscall_exit] of a user task appends an event with the task's index and
    its exit code to the queue of its parent, and clears the task's present
    flag; the task list and the locks stay as they were.  On a list of more than
    one task no processor ever selects the task again: not by any number of calls
    of [task_select] on any processors, whatever else the kernel does in between,
    as long as that removes no task from the list and sets no present flag
    ([selects]).  (Alone on the list, where [task_select] does not look at the
    flags, a task ends the system instead: [AllTasksEnded].) *)
Theorem syscall_exit_notifies_parent `{Allocator} {Obj}
    `{!Object Vector Obj, !Object VectorNode Obj, !Object Event Obj, !Object Task Obj}
    core (k : Sched Obj) ts tks cs (cur : nat) p t pt ns ps es code :
  sched k ts tks cs -> unlocked k -> 0 <= core -> cs !! Z.to_nat core = Some (Z.of_nat cur) ->
  ts !! cur = Some p -> tks !! cur = Some t -> is_user t = true -> typed_at (store k) (parent t) pt ->
  queue (store k) (event_queue pt) ns ps es ->
  apart k ts cs (list_to_set (event_queue pt :: ns) ∪ list_to_set ps) -> Zlen es + 1 < 2 ^ 64 ->
  (exists k' ns' pe,
     syscall_exit core code k = Ok (if Zlen ts =? 1 then AllTasksEnded else WaitsForTimer, k') /\
     sched k' ts (<[cur := clear_flag TASK_PRESENT t]> tks) cs /\ unlocked k' /\
     runnable (clear_flag TASK_PRESENT t) = false /\
     queue (store k') (event_queue pt) ns' (ps ++ [pe])
       (es ++ [{| do_handle := true; event_id := EVENT_TASK_EXITED; data0 := Z.of_nat cur; data1 := code |}]) /\
     ((1 < length ts)%nat -> Forall (fun c => 0 <= c < Zlen ts) cs ->
      forall l k2, selects (length cs) k' l k2 -> p ∉ l)) \/
  syscall_exit core code k = Halted.
Proof.
  intros Hs Hu Hcore Hcur Hp Ht Huser Hpt Hq Ha He.
  destruct (syscall_exit_spec core k ts tks cs cur t pt ns ps es code Hs Hu Hcore Hcur Ht Huser Hpt Hq Ha He)
    as [(k' & ns' & pe & E & Hs' & Hu' & Hq')|E]; [left|by right].
  pose proof (clear_flag_has TASK_PRESENT t) as Hno. exists k', ns', pe. split_and!; try done; [unfold runnable; by rewrite Hno|].
  intros H1 Hcs l k2 Hsel. eapply selects_ended; [exact Hsel|]. split; [done|].
  exists ts, (<[cur := clear_flag TASK_PRESENT t]> tks), cs, cur, (clear_flag TASK_PRESENT t). split_and!; try done.
  apply list_lookup_insert_eq. by eapply lookup_lt_Some.
Qed.

(** C24: [create_task] appends a task with the arguments and a copy of the current
    task's directory to the task list, and changes no other task.  The copy
    starts one byte into its block and runs two bytes over its end
    ([malloc(dirname_len) + 1]): where fewer than two bytes behind a block can be
    written, every call is a bad access. *)
Theorem create_task_appends `{Allocator} {Obj}
    `{!Object Vector Obj, !Object VectorNode Obj, !Object Event Obj, !Object Task Obj, !Object Block Obj}
    core slack jt jb (k : Sched Obj) ts tks cs (cur : nat) t str pml4 entry user_stack fl :
  sched k ts tks cs -> unlocked k -> 0 <= core -> cs !! Z.to_nat core = Some (Z.of_nat cur) ->
  tks !! cur = Some t -> string_at (store k) (current_dir t) str -> Zlen str + 1 < 2 ^ 63 ->
  Zlen ts + 1 < 2 ^ 64 -> 0 <= slack ->
  create_task core slack jt jb pml4 entry user_stack fl k = Halted \/
  if 2 <=? slack then
    exists p b k', create_task core slack jt jb pml4 entry user_stack fl k = Ok (p, k') /\ unlocked k' /\
      sched k' (ts ++ [p]) (tks ++ [new_Task pml4 entry user_stack fl (MkPtr b 1)]) cs /\
      string_at (store k') (MkPtr b 1) str
  else create_task core slack jt jb pml4 entry user_stack fl k = Fault.
Proof. apply create_task_spec. Qed.

(** [init_tasklist] establishes the invariant of the task list: one task,
    its own parent, not present, with the directory [R:/] and an empty event
    queue, which every processor runs. *)
Theorem init_tasklist_establishes `{Allocator} {Obj}
    `{!Object Vector Obj, !Object VectorNode Obj, !Object Event Obj, !Object Task Obj, !Object Block Obj}
    slack jt jb cr3 cpu_count ended (k : Sched Obj) :
  store_ok (store k) -> unlocked k -> 0 <= slack -> 0 <= cpu_count < 2 ^ 63 ->
  (exists k' p q b, init_tasklist slack jt jb cr3 cpu_count ended k = Ok (tt, k') /\
     sched k' [p] [first_Task p q cr3 ended (MkPtr b 0)] (replicate (Z.to_nat cpu_count) 0) /\ unlocked k' /\
     string_at (store k') (MkPtr b 0) root_path /\ queue (store k') q [] [] [] /\
     apart k' [p] (replicate (Z.to_nat cpu_count) 0) {[q; b]}) \/
  init_tasklist slack jt jb cr3 cpu_count ended k = Halted.
Proof. apply init_tasklist_spec. Qed.

(** C25: Mutual exclusion of [spinlock_aquire] and [spinlock_release]: in every
    state reachable from the released lock, by any interleaving of any number
    of processors, at most one of them is inside, and a processor that spins can
    enter as soon as nobody is. *)
Theorem spinlock_mutual_exclusion s :
  rtc lock_step (MkLock false (fun _ => Outside)) s ->
  (forall i j, pc s i = Inside -> pc s j = Inside -> i = j) /\
  (forall i, pc s i = Spinning -> (forall j, pc s j <> Inside) ->
     lock_step s (MkLock true (move i Inside (pc s)))).
Proof.
  intros Hr. assert (lock_inv s) as [H1 H2].
  { refine (rtc_ind_r lock_inv _ _ _ s Hr).
    - split; cbn [flag pc]; [|done]. split; [done|]. by intros [i Hi].
    - intros y z _ Hyz Hy. by eapply lock_step_inv. }
  split; [done|]. intros i Hi Hno. destruct s as [[] f]; cbn [flag pc] in *.
  - exfalso. destruct (proj1 H1 eq_refl) as [j Hj]. by eapply Hno.
  - by constructor.
Qed.

(** ** Examples *)

Abbreviation TaskObj := (Vector + VectorNode + Event + Task + Block)%type.

Definition boot_tasks : M (Store TaskObj) unit :=
  fun s => let+ (_, k) := init_tasklist 2 (fun _ => zero_Task) (fun _ => []) 0 2 0 (MkSched s 0 0 false false) in
    Ok (tt, store k).

(** The task list right after [init_tasklist] on two processors. *)
Lemma tasks_start : exists (s0 : Store TaskObj) k p q b,
  store_ok s0 /\ init_tasklist 2 (fun _ => zero_Task) (fun _ => []) 0 2 0 (MkSched s0 0 0 false false) = Ok (tt, k) /\
  sched k [p] [first_Task p q 0 0 (MkPtr b 0)] [0; 0] /\ unlocked k /\
  string_at (store k) (MkPtr b 0) root_path /\ queue (store k) q [] [] [] /\ apart k [p] [0; 0] {[q; b]}.
Proof.
  destruct (on_boot_start (Obj := TaskObj) boot_tasks tt) as (s0 & s & E & Hok & Ho); [vm_compute; reflexivity|].
  destruct (init_tasklist_spec 2 (fun _ => zero_Task) (fun _ => []) 0 2 0 (MkSched s0 0 0 false false) Hok
    ltac:(done) ltac:(done) ltac:(done)) as [(k & p & q & b & E' & H)|E'].
  - exists s0, k, p, q, b. split; [exact Hok|]. split; [exact E'|exact H].
  - exfalso. unfold boot_tasks in E. rewrite E' in E. discriminate E.
Qed.

Definition boot_two_tasks : M (Store TaskObj) unit :=
  fun s => let+ (_, k) := (init_tasklist 2 (fun _ => zero_Task) (fun _ => []) 0 2 0 ;;;
      create_task 0 2 (fun _ => zero_Task) (fun _ => []) 4096 8192 0 1) (MkSched s 0 0 false false) in
    Ok (tt, store k).

(** A second, runnable task. *)
Lemma two_tasks : exists (k : Sched TaskObj) p p' t b,
  sched k [p; p'] [t; new_Task 4096 8192 0 1 (MkPtr b 1)] [0; 0] /\ unlocked k.
Proof.
  destruct (on_boot_start (Obj := TaskObj) boot_two_tasks tt) as (s0 & s & E & Hok & Ho); [vm_compute; reflexivity|].
  destruct (init_tasklist_spec 2 (fun _ => zero_Task) (fun _ => []) 0 2 0 (MkSched s0 0 0 false false) Hok
    ltac:(done) ltac:(done) ltac:(done)) as [(k & p & q & b & E' & Hs & Hu & Hstr & _)|E'].
  - unfold boot_two_tasks, bind in E. rewrite E' in E. cbn [obind] in E.
    destruct (create_task_spec 0 2 (fun _ => zero_Task) (fun _ => []) k _ _ _ 0 _ root_path 4096 8192 0 1 Hs Hu
      ltac:(done) eq_refl eq_refl Hstr ltac:(done) ltac:(done) ltac:(done)) as [E2|(p' & b' & k' & _ & Hu' & Hs' & _)];
      [by rewrite E2 in E|]. by eexists k', p, p', _, b'.
  - exfalso. unfold boot_two_tasks, bind in E. rewrite E' in E. discriminate E.
Qed.

Lemma task_select_next_witness :
  exists (k : Sched TaskObj) p p' tks,
    (exists k' : Sched TaskObj, task_select 0 3 k = Ok (p', k') /\ unlocked k' /\
       sched k' [p; p'] (after_select 0 1 tks) [1; 0]) /\
    exists k1 : Sched TaskObj, sched k1 [p; p'] (after_select 0 1 tks) [1; 0] /\ task_select 0 3 k1 = Fault.
Proof.
  destruct two_tasks as (k & p & p' & t & b & Hs & Hu). exists k, p, p', [t; new_Task 4096 8192 0 1 (MkPtr b 1)].
  destruct (task_select_next 0 3 k _ _ _ 0 Hs Hu ltac:(done) eq_refl ltac:(cbn; lia) ltac:(cbn; lia)) as [Hsel _].
  destruct (Hsel 1%nat _ ltac:(lia) eq_refl eq_refl ltac:(intros; lia)) as (k1 & E & Hu1 & Hs1).
  split; [exists k1; split; [exact E|split; [exact Hu1|exact Hs1]]|].
  exists k1. split; [exact Hs1|].
  destruct (task_select_next 0 3 k1 _ _ _ 1 Hs1 Hu1 ltac:(done) eq_refl ltac:(cbn; lia) ltac:(cbn; lia)) as [_ Hnone].
  apply Hnone. intros [|[|i]] u Hi Hx; [lia|lia|discriminate Hx].
Defined.

(** Two tasks, the first of them a user task with an event queue and its own
    parent. *)
Definition as_user (q : Z) (t : Task) : Task :=
  {| is_user := true; event_queue := q; current_dir := current_dir t; argc := argc t;
     argv := argv t; pml4_addr := pml4_addr t; kernel_rsp := kernel_rsp t; current_rsp := current_rsp t;
     entry_point := entry_point t; resources := resources t; parent := parent t; flags := flags t;
     errno := errno t; mmap_upto := mmap_upto t |}.

Definition boot_user_tasks : M (Store TaskObj) unit := boot_two_tasks ;;; new_event_queue ;;; ret tt.

Lemma user_tasks : exists (k : Sched TaskObj) p p' q t b,
  sched k [p; p'] [as_user q t; new_Task 4096 8192 0 1 (MkPtr b 1)] [0; 0] /\ unlocked k /\ parent t = p /\
  queue (store k) q [] [] [] /\ apart k [p; p'] [0; 0] {[q]}.
Proof.
  destruct (on_boot_start (Obj := TaskObj) boot_user_tasks tt) as (s0 & s & E & Hok & Ho); [vm_compute; reflexivity|].
  unfold boot_user_tasks in E. apply bind_ok in E as ([] & s1 & E1 & E).
  destruct (init_tasklist_spec 2 (fun _ => zero_Task) (fun _ => []) 0 2 0 (MkSched s0 0 0 false false) Hok
    ltac:(done) ltac:(done) ltac:(done)) as [(k & p & q0 & b & E' & Hs & Hu & Hstr & _)|E'];
    [|exfalso; unfold boot_two_tasks, bind in E1; by rewrite E' in E1].
  unfold boot_two_tasks, bind in E1. rewrite E' in E1. cbn [obind] in E1.
  destruct (create_task_spec 0 2 (fun _ => zero_Task) (fun _ => []) k _ _ _ 0 _ root_path 4096 8192 0 1 Hs Hu
    ltac:(done) eq_refl eq_refl Hstr ltac:(done) ltac:(done) ltac:(done)) as [E2|(p' & b' & k' & E2 & Hu' & Hs' & _)];
    [by rewrite E2 in E1|]. rewrite E2 in E1. injection E1 as <-.
  destruct (new_vector_spec (store k') sizeof_Event (sched_store _ _ _ _ Hs')) as [(q & s2 & Eq & Hq & Hok2 & Hv & He)|Eq];
    [|exfalso; unfold bind at 1, new_event_queue in E; by rewrite Eq in E].
  pose proof (sched_frame _ _ _ _ _ _ Hs' (apart_empty _ _ _) Hok2 He) as Hs2.
  pose proof (apart_fresh _ _ _ _ _ _ Hs' Hq Hs2 He) as Ha.
  destruct (update_task _ _ _ _ 0 p _ (as_user q) Hs2 eq_refl eq_refl) as (k3 & E3 & Hs3 & [st ->] & Hse).
  assert (p <> q) as Hpq by (intros <-; apply Hq; eapply elem_of_dom_2, (sched_task _ _ _ _ 0 p _ Hs' eq_refl eq_refl)).
  eexists _, p, p', q, _, b'. split; [exact Hs3|]. split; [done|]. split; [done|]. split.
  - cbn [store set_store] in *. eapply queue_frame; [exact Hse|set_solver|set_solver|]. split; [exact Hv|constructor|set_solver|constructor].
  - eapply apart_frame in Ha; [exact Ha|exact Hs2|exact Hs3|]. exists {[p]}. split; [exact Hse|].
    destruct Hs2 as [_ (ns & ms & Hv2 & Hc2 & _ & Hd) _ _].
    split; intros m Hm; [rewrite (vec_nodes_unique _ _ _ _ _ Hm Hv2)|rewrite (vec_nodes_unique _ _ _ _ _ Hm Hc2)]; set_solver.
Qed.

(** The first of two tasks exits; then the second is selected, and the first
    never again. *)
Lemma syscall_exit_notifies_parent_witness :
  exists (k : Sched TaskObj) p p' q,
    (exists k' ns' pe, syscall_exit 0 7 k = Ok (WaitsForTimer, k') /\
       queue (store k') q ns' ([] ++ [pe])
         ([] ++ [{| do_handle := true; event_id := EVENT_TASK_EXITED; data0 := 0; data1 := 7 |}]) /\
       (exists k2, selects 2 k' [p'] k2) /\ forall l k2, selects 2 k' l k2 -> p ∉ l) \/
    syscall_exit 0 7 k = Halted.
Proof.
  destruct user_tasks as (k & p & p' & q & t & b & Hs & Hu & Hpar & Hq & Ha). exists k, p, p', q.
  pose proof (sched_task _ _ _ _ 0 p _ Hs eq_refl eq_refl) as Hpt. rewrite <- Hpar in Hpt.
  assert (apart k [p; p'] [0; 0] (list_to_set [q] ∪ list_to_set [])) as Ha'
    by (replace (list_to_set [q] ∪ list_to_set [] : gset Z) with ({[q]} : gset Z) by set_solver; exact Ha).
  destruct (syscall_exit_notifies_parent 0 k _ _ _ 0 p _ _ [] [] [] 7 Hs Hu ltac:(done) eq_refl eq_refl eq_refl
    eq_refl Hpt Hq Ha' ltac:(done)) as [(k' & ns' & pe & E & Hs' & Hu' & _ & Hq' & Hsel)|E]; [left|right; exact E].
  exists k', ns', pe. split; [exact E|]. split; [exact Hq'|]. split.
  - destruct (task_select_found 0 0 1 k' _ _ _ 0 1 (new_Task 4096 8192 0 1 (MkPtr b 1)) Hs' Hu' ltac:(done) eq_refl
      ltac:(done) ltac:(lia) eq_refl eq_refl ltac:(lia)) as (k2 & E2 & _).
    exists k2. eapply (selects_task _ _ 0 1); [done|exact E2|apply selects_nil].
  - apply Hsel; [cbn; lia|]. repeat constructor; done.
Defined.

Lemma create_task_appends_witness :
  exists (k : Sched TaskObj) p t,
    (create_task 0 2 (fun _ => zero_Task) (fun _ => []) 4096 8192 0 1 k = Halted \/
     exists p' b k', create_task 0 2 (fun _ => zero_Task) (fun _ => []) 4096 8192 0 1 k = Ok (p', k') /\ unlocked k' /\
       sched k' ([p] ++ [p']) ([t] ++ [new_Task 4096 8192 0 1 (MkPtr b 1)]) [0; 0] /\
       string_at (store k') (MkPtr b 1) root_path) /\
    (create_task 0 1 (fun _ => zero_Task) (fun _ => []) 4096 8192 0 1 k = Halted \/
     create_task 0 1 (fun _ => zero_Task) (fun _ => []) 4096 8192 0 1 k = Fault).
Proof.
  destruct tasks_start as (s0 & k & p & q & b & _ & _ & Hs & Hu & Hstr & _). exists k, p, (first_Task p q 0 0 (MkPtr b 0)). split.
  - exact (create_task_appends 0 2 _ _ k _ _ _ 0 _ root_path 4096 8192 0 1 Hs Hu ltac:(done) eq_refl eq_refl Hstr
      ltac:(done) ltac:(done) ltac:(done)).
  - exact (create_task_appends 0 1 _ _ k _ _ _ 0 _ root_path 4096 8192 0 1 Hs Hu ltac:(done) eq_refl eq_refl Hstr
      ltac:(done) ltac:(done) ltac:(done)).
Defined.

Lemma init_tasklist_establishes_witness :
  exists s0 : Store TaskObj, store_ok s0 /\
    ((exists k' p q b, init_tasklist 0 (fun _ => zero_Task) (fun _ => []) 0 2 0 (MkSched s0 0 0 false false) = Ok (tt, k') /\
       sched k' [p] [first_Task p q 0 0 (MkPtr b 0)] [0; 0] /\ unlocked k' /\
       string_at (store k') (MkPtr b 0) root_path /\ queue (store k') q [] [] [] /\
       apart k' [p] [0; 0] {[q; b]}) \/
     init_tasklist 0 (fun _ => zero_Task) (fun _ => []) 0 2 0 (MkSched s0 0 0 false false) = Halted).
Proof.
  destruct tasks_start as (s0 & _ & _ & _ & _ & Hok & _). exists s0. split; [exact Hok|].
  exact (init_tasklist_establishes 0 _ _ 0 2 0 (MkSched s0 0 0 false false) Hok ltac:(done) ltac:(done) ltac:(done)).
Defined.

(** Two processors: one is inside, the other spins. *)
Lemma spinlock_mutual_exclusion_witness :
  let f := move 1 Spinning (move 0 Inside (move 0 Spinning (fun _ => Outside))) in
  (forall i j, f i = Inside -> f j = Inside -> i = j) /\ f 0%nat = Inside /\ f 1%nat = Spinning.
Proof.
  intros f. split; [|done].
  refine (proj1 (spinlock_mutual_exclusion (MkLock true f) _)).
  apply (rtc_l _ _ (MkLock false (move 0 Spinning (fun _ => Outside)))); [by constructor|].
  apply (rtc_l _ _ (MkLock true (move 0 Inside (move 0 Spinning (fun _ => Outside))))); [by constructor|].
  apply rtc_once. by constructor.
Defined.
