(* ===== verification/VFS.v ===== *)
(** * fs/vfs.c: paths, drives and open files

    A drive is a mounted file system: the functions of its [FileSystem] and the
    address of its root.  The file system's functions are a record, as in the
    code; [FileSystemLaws] is what the VFS relies on, and TempFS.v's functions
    discharge it in Mount.v.

    The path buffers of a call ([path_ext], [new_path]) are blocks nobody else
    has the address of: [malloc] and [free] act on the store, the bytes of the
    buffer are a value the call threads.  [slack] is the number of accessible
    bytes behind a block (Blocks.v). *)
From S2P Require Import Prelude Allocator Chain Strings Vector Events Blocks Tasks TempFS.

(** ** Data *)

Definition O_CREAT : Z := 1.
Definition O_CREATALL : Z := 2.
Definition MODE_READONLY : Z := 1.
Definition MODE_WRITEONLY : Z := 2.
Definition MODE_READWRITE : Z := 3.
Definition FTYPE_REGULAR : Z := 1.
Definition FTYPE_STDOUT : Z := 2.
Definition FTYPE_STDIN : Z := 3.
Definition FTYPE_STDERR : Z := 4.
Definition FS_TEMPFS : Z := 0.

Record File := {
  f_present : bool; f_ftype : Z; f_length : Z; drive_char : Z; mode : Z; f_private : Z
}.
Definition sizeof_File : Z := 32.

Section FileSystem.
Context `{AL : Allocator} {Obj : Type}.
Abbreviation Mem := (M (Store Obj)).

(** The functions of a file system; a [char *] argument is what the array holds
    from the pointer on. *)
Record FileSystem := {
  fs_id : Z;
  find_function : Z -> list Z -> Mem Z;
  find_root_function : Z -> Mem Z;
  open_dir_function : Z -> Mem Z;
  open_file_function : Z -> Z -> Mem Z;
  mkdir_function : Z -> list Z -> Mem unit;
  mkfile_function : Z -> list Z -> Mem unit;
  close_function : Z -> Mem unit;
  write_function : Z -> list Z -> Z -> Mem Z;
  read_function : Z -> list Z -> Z -> Mem (Z * list Z);
  length_function : Z -> Mem Z;
  create_device_function : Z -> list Z -> DeviceOps -> Mem unit
}.

(** A zeroed [FileSystem]: calling a null function pointer is a bad access. *)
Definition no_fs : FileSystem :=
  {| fs_id := 0; find_function := fun _ _ => fault; find_root_function := fun _ => fault;
     open_dir_function := fun _ => fault; open_file_function := fun _ _ => fault;
     mkdir_function := fun _ _ => fault; mkfile_function := fun _ _ => fault; close_function := fun _ => fault;
     write_function := fun _ _ _ => fault; read_function := fun _ _ _ => fault;
     length_function := fun _ => fault; create_device_function := fun _ _ _ => fault |}.

(** What the VFS relies on: a name is the C string, not the bytes behind it. *)
Class FileSystemLaws (fs : FileSystem) : Prop := {
  find_name d nm a b : c_string nm a -> c_string nm b -> Zlen nm < 2 ^ 31 ->
    forall s, find_function fs d a s = find_function fs d b s;
  mkdir_name d nm a b : c_string nm a -> c_string nm b ->
    forall s, mkdir_function fs d a s = mkdir_function fs d b s;
  mkfile_name d nm a b : c_string nm a -> c_string nm b ->
    forall s, mkfile_function fs d a s = mkfile_function fs d b s;
  device_name d nm a b o : c_string nm a -> c_string nm b ->
    forall s, create_device_function fs d a o s = create_device_function fs d b o s
}.

(** [mem_offset] and [disk] share their storage. *)
Record Drive := {
  present : bool; drive_fs : FileSystem; in_memory : bool; mem_offset : Z; partition : Z
}.
Definition no_drive : Drive :=
  {| present := false; drive_fs := no_fs; in_memory := false; mem_offset := 0; partition := 0 |}.
End FileSystem.
Arguments FileSystem {_} Obj.
Arguments Drive {_} Obj.

(** ** Paths *)

(** The parts of a path between slashes: one more than there are slashes. *)
Fixpoint components (s : list Z) : list (list Z) :=
  match s with
  | [] => [[]]
  | c :: s' =>
      if c =? 47 then [] :: components s'
      else match components s' with
           | [] => [[c]]
           | w :: ws => (c :: w) :: ws
           end
  end.

Definition is_absolute (s : list Z) : bool :=
  match s with _ :: c1 :: c2 :: _ => (c1 =? 58) && (c2 =? 47) | _ => false end.

(** The path [s] seen from the directory [cd]. *)
Definition full_path (cd s : list Z) : list Z :=
  if is_absolute s then s
  else if bool_decide (head s = Some 47) then default 0 (head cd) :: 58 :: s
  else cd ++ s.

Lemma components_cons s : exists w ws, components s = w :: ws.
Proof. destruct s as [|c s]; cbn; [eauto|]. destruct (c =? 47); [eauto|]. destruct (components s); eauto. Qed.

Lemma components_last s : 47 ∉ s -> components s = [s].
Proof.
  induction s as [|c s IH]; cbn [components]; [done|]. intros [Hc Hs]%not_elem_of_cons.
  destruct (Z.eqb_spec c 47) as [->|_]; [done|]. by rewrite IH.
Qed.

Lemma components_slash w s : 47 ∉ w -> components (w ++ 47 :: s) = w :: components s.
Proof.
  induction w as [|c w IH]; cbn [components app]; [done|]. intros [Hc Hs]%not_elem_of_cons.
  destruct (Z.eqb_spec c 47) as [->|_]; [done|]. by rewrite IH.
Qed.

(** A path is its last component, or a component, a slash and a path. *)
Lemma path_cases s : 47 ∉ s \/ exists w s', s = w ++ 47 :: s' /\ 47 ∉ w.
Proof.
  destruct (decide (47 ∈ s)) as [H|H]; [right|by left].
  induction s as [|c s IH]; [set_solver|].
  destruct (decide (c = 47)) as [->|Hne]; [exists [], s; split; [done|set_solver]|].
  apply elem_of_cons in H as [E|H]; [by destruct Hne|]. destruct (IH H) as (w & s' & -> & Hw).
  exists (c :: w), s'. split; [done|set_solver].
Qed.

(** Induction over the components of a path. *)
Lemma path_ind (P : list Z -> Prop) :
  (forall s, 47 ∉ s -> P s) -> (forall w s, 47 ∉ w -> P s -> P (w ++ 47 :: s)) -> forall s, P s.
Proof.
  intros Hl Hs s. induction s as [s IH] using (induction_ltof1 _ (@length Z)).
  destruct (path_cases s) as [H|(w & s' & -> & Hw)]; [by apply Hl|].
  apply Hs; [done|]. apply IH. unfold ltof. rewrite length_app. cbn. lia.
Qed.

(** ** The code *)

Section VFS.
Context `{AL : Allocator} {Obj : Type}.
Context `{OV : !Object Vector Obj, ON : !Object VectorNode Obj, OE : !Object Event Obj}.
Context `{OT : !Object Task Obj, OB : !Object Block Obj, OL : !Object File Obj}.

Record Vfs := MkVfs { scheduler : Sched Obj; drives : list (Drive Obj); filesystems : list (FileSystem Obj) }.
Abbreviation Mem := (M Vfs).

Definition set_drives (d : list (Drive Obj)) (k : Vfs) : Vfs := MkVfs (scheduler k) d (filesystems k).
Definition on_sched {A} (m : M (Sched Obj) A) : Mem A :=
  fun k => let+ (a, s) := m (scheduler k) in Ok (a, MkVfs s (drives k) (filesystems k)).
Definition on_objs {A} (m : M (Store Obj) A) : Mem A := on_sched (on_store m).

(** The processor, what lies behind and in fresh blocks. *)
Context (core slack : Z) (junk_Block : Z -> Block) (junk_File : Z -> File).
(** What a pointer into a freed block reads. *)
Context (stale : Z -> Z -> list Z).
(** [printf] of a buffer (utils/printf.c, Printf.v): its console is not in this
    state, so it is any computation; a theorem says what it takes of it. *)
Context (printf : list Z -> Mem unit).

(** A path buffer: its block and its bytes. *)
Definition malloc_buffer (n : Z) : Mem (Z * list Z) :=
  on_objs (let* p := malloc_block slack junk_Block n in
           let* b := get_obj Block (block p) in
           ret (block p, b)).

Definition drive_at (n : Z) : Mem (Drive Obj) := let* k := get in lift (rd (drives k) n).
Definition set_drive (n : Z) (d : Drive Obj) : Mem unit :=
  let* k := get in let* l := lift (wr (drives k) n d) in modify (set_drives l).

(** The bytes of the current directory of a task. *)
Definition task_cd (task : Z) : Mem (list Z) :=
  on_objs (let* t := get_obj Task task in bytes_at (current_dir t)).

Definition init_vfs (TempFS : FileSystem Obj) : Mem unit :=
  modify (set_drives (replicate 26 no_drive)) ;;;
  modify (fun k => MkVfs (scheduler k) (drives k) [TempFS]).

(** [path[1] != ':' || path[2] != '/'] *)
Definition not_absolute (path : list Z) : outcome bool :=
  let+ c1 := rd path 1 in
  if negb (c1 =? 58) then Ok true
  else let+ c2 := rd path 2 in Ok (negb (c2 =? 47)).

(** The same lines of [create_device], [open] and [mkdir]: the path completed
    by the current directory, or by its drive. *)
Definition extend_path (current_task : Z) (path : list Z) : Mem (list Z) :=
  let* rel := lift (not_absolute path) in
  if negb rel then ret path
  else
    let* c0 := lift (rd path 0) in
    if c0 =? 47 then
      let* n := lift (ku_strlen path) in
      let* (_, b) := malloc_buffer (n + 3) in
      let* b := lift (memcpy_at b 2 path (n + 1)) in
      let* cd := task_cd current_task in
      let* c := lift (rd cd 0) in
      let* b := lift (wr b 0 c) in
      lift (wr b 1 58)
    else
      let* cd := task_cd current_task in
      let* cd_len := lift (ku_strlen cd) in
      let* path_len := lift (ku_strlen path) in
      let* (_, b) := malloc_buffer (cd_len + path_len + 1) in
      let* b := lift (memcpy_at b 0 cd cd_len) in
      lift (memcpy_at b cd_len path (path_len + 1)).

Definition bad_drive (c : Z) : bool := (c <? 65) || (90 <? c).
(** [if (drive >= 'a' && drive <= 'z') drive -= 32;] *)
Definition upper_drive (c : Z) : Z := if (97 <=? c) && (c <=? 122) then c - 32 else c.

(** [malloc(strlen(path))] and the copy, with the terminator put behind the
    block or, in [mkdir], none. *)
Definition copy_path (terminate : bool) (path : list Z) : Mem (Z * list Z) :=
  let* n := lift (ku_strlen path) in
  let* (p, b) := malloc_buffer n in
  let* b := lift (memcpy_at b 0 path n) in
  if terminate then let* b := lift (wr b n 0) in ret (p, b) else ret (p, b).

(** [for (; new_path[this_len] != '/' && new_path[this_len] != 0; this_len++);] *)
Fixpoint scan_component (fuel : nat) (new_path : list Z) (this_len : Z) : outcome Z :=
  match fuel with
  | O => Spin
  | S fuel' =>
      let+ c := rd new_path this_len in
      if negb (c =? 47) && negb (c =? 0) then scan_component fuel' new_path (this_len + 1) else Ok this_len
  end.

(** [free(new_path - i)] for [new_path] at offset [off] of the block [p]: only
    the start of a block can be freed. *)
Definition free_path (p off i : Z) : Mem unit :=
  if off =? i then on_objs (free_obj p) else fault.

(** One pass over a component: its name at [new_path], terminated in place,
    and whether a slash ended it. *)
Definition next_component (new_path : list Z) (off : Z) : outcome (bool * Z * list Z) :=
  let from := drop (Z.to_nat off) new_path in
  let+ this_len := scan_component (S (length from)) from 0 in
  let+ c := rd from this_len in
  let+ from := wr from this_len 0 in
  Ok (c =? 47, this_len, take (Z.to_nat off) new_path ++ from).

Section Walk.
Context (fs : FileSystem Obj).

(** The loop of [open]: [None] is an early [return NULL]. *)
Fixpoint open_loop (fuel : nat) (fl md : Z) (path new_path : list Z) (off i current_obj : Z)
    : Mem (option (Z * Z * Z)) :=
  let* c := lift (rd path i) in
  if c =? 0 then ret (Some (current_obj, off, i))
  else match fuel with
  | O => fun _ => Spin
  | S fuel' =>
      let* (is_dir, this_len, new_path) := lift (next_component new_path off) in
      let name := drop (Z.to_nat off) new_path in
      if is_dir : bool then
        let* this_dir := on_objs (find_function fs current_obj name) in
        let* this_dir :=
          (if this_dir =? 0 then
             if negb (Z.land fl O_CREATALL =? 0) then
               on_objs (mkdir_function fs current_obj name) ;;;
               let* d := on_objs (find_function fs current_obj name) in ret (Some d)
             else ret None
           else ret (Some this_dir)) in
        match this_dir with
        | None => ret None
        | Some this_dir =>
            let* current_obj := on_objs (open_dir_function fs this_dir) in
            open_loop fuel' fl md path new_path (off + this_len + 1) (i + this_len + 1) current_obj
        end
      else
        let* this_file := on_objs (find_function fs current_obj name) in
        let* this_file :=
          (if this_file =? 0 then
             if negb (Z.land fl O_CREAT =? 0) || negb (Z.land fl O_CREATALL =? 0) then
               on_objs (mkfile_function fs current_obj name) ;;;
               let* f := on_objs (find_function fs current_obj name) in ret (Some f)
             else ret None
           else ret (Some this_file)) in
        match this_file with
        | None => ret None
        | Some this_file =>
            let* current_obj := on_objs (open_file_function fs this_file md) in
            ret (Some (current_obj, off, i))
        end
  end.

(** The loop of [create_device]: the status to return, or where it stopped. *)
Fixpoint device_loop (fuel : nat) (ops : DeviceOps) (path new_path : list Z) (off i current_obj : Z)
    : Mem (Z + Z * Z) :=
  let* c := lift (rd path i) in
  if c =? 0 then ret (inr (off, i))
  else match fuel with
  | O => fun _ => Spin
  | S fuel' =>
      let* (is_dir, this_len, new_path) := lift (next_component new_path off) in
      let name := drop (Z.to_nat off) new_path in
      let* found := on_objs (find_function fs current_obj name) in
      if is_dir : bool then
        if found =? 0 then ret (inl 2)
        else
          let* current_obj := on_objs (open_dir_function fs found) in
          device_loop fuel' ops path new_path (off + this_len + 1) (i + this_len + 1) current_obj
      else if found =? 0 then
        on_objs (create_device_function fs current_obj name ops) ;;;
        on_objs (find_function fs current_obj name) ;;;
        ret (inr (off, i))
      else ret (inl 1)
  end.

(** The loop of [mkdir]; it passes over the end of a component's name whether a
    slash or the end of the path is there. *)
Fixpoint mkdir_loop (fuel : nat) (path new_path : list Z) (off i current_obj : Z) : Mem (Z * Z) :=
  let* c := lift (rd path i) in
  if c =? 0 then ret (off, i)
  else match fuel with
  | O => fun _ => Spin
  | S fuel' =>
      let* (_, this_len, new_path) := lift (next_component new_path off) in
      let name := drop (Z.to_nat off) new_path in
      let* c0 := lift (rd name 0) in
      if c0 =? 0 then ret (off, i)
      else
        let* this_dir := on_objs (find_function fs current_obj name) in
        let* this_dir :=
          (if this_dir =? 0 then
             on_objs (mkdir_function fs current_obj name) ;;;
             on_objs (find_function fs current_obj name)
           else ret this_dir) in
        let* current_obj := on_objs (open_dir_function fs this_dir) in
        mkdir_loop fuel' path new_path (off + this_len + 1) (i + this_len + 1) current_obj
  end.
End Walk.

Definition check_file_type (fname : list Z) : outcome Z :=
  let+ out := ku_strcmp fname [115; 116; 100; 111; 117; 116; 0] in
  if out : bool then Ok FTYPE_STDOUT
  else let+ inn := ku_strcmp fname [115; 116; 100; 105; 110; 0] in
  if inn : bool then Ok FTYPE_STDIN
  else let+ err := ku_strcmp fname [115; 116; 100; 101; 114; 114; 0] in
  Ok (if err : bool then FTYPE_STDERR else FTYPE_REGULAR).

(** The root directory of a drive, opened. *)
Definition open_root (d : Drive Obj) : Mem Z :=
  let* root := on_objs (find_root_function (drive_fs d) (mem_offset d)) in
  on_objs (open_dir_function (drive_fs d) root).

(** [new_path] points into the freed block when its type is looked up. *)
Definition new_file (p off : Z) (drive md obj : Z) : Mem Z :=
  on_objs (let* f := raw_obj sizeof_File junk_File in
    let* ty := lift (check_file_type (stale p off)) in
    let* r := get_obj File f in
    put_obj f {| f_present := true; f_ftype := ty; f_length := f_length r; drive_char := drive;
                 mode := md; f_private := obj |} ;;;
    ret f).

Definition open (path : list Z) (fl md : Z) : Mem Z :=
  let* current_task := on_sched (get_current_task core) in
  let* path := extend_path current_task path in
  let* drive := lift (rd path 0) in
  if bad_drive drive then ret 0
  else
    let* (p, new_path) := copy_path true path in
    let* d := drive_at (drive - 65) in
    if negb (present d) then on_objs (free_obj p) ;;; ret 0
    else
      let* current_obj := open_root d in
      let* r := open_loop (drive_fs d) (length path) fl md path new_path 3 3 current_obj in
      match r with
      | None => ret 0
      | Some (current_obj, off, i) =>
          free_path p off i ;;;
          new_file p off drive md current_obj
      end.

Definition create_device (path : list Z) (ops : DeviceOps) : Mem Z :=
  let* current_task := on_sched (get_current_task core) in
  let* path := extend_path current_task path in
  let* drive := lift (rd path 0) in
  if bad_drive drive then ret 4
  else
    let* (p, new_path) := copy_path true path in
    let* d := drive_at (drive - 65) in
    if negb (fs_id (drive_fs d) =? FS_TEMPFS) then ret 5
    else if negb (present d) then on_objs (free_obj p) ;;; ret 3
    else
      let* current_obj := open_root d in
      let* r := device_loop (drive_fs d) (length path) ops path new_path 3 3 current_obj in
      match r with
      | inl status => ret status
      | inr (off, i) => free_path p off i ;;; ret 0
      end.

(** [mkdir] does not test whether the drive is present. *)
Definition mkdir (path : list Z) : Mem Z :=
  let* current_task := on_sched (get_current_task core) in
  let* path := extend_path current_task path in
  let* drive := lift (rd path 0) in
  let drive := upper_drive drive in
  if bad_drive drive then ret 1
  else
    let* rel := lift (not_absolute path) in
    if rel : bool then ret 2
    else
      let* (p, new_path) := copy_path false path in
      let* d := drive_at (drive - 65) in
      let* current_obj := open_root d in
      let* (off, i) := mkdir_loop (drive_fs d) (length path) path new_path 3 3 current_obj in
      free_path p off i ;;;
      ret 0.

Definition mount (drive filesystem : Z) (memory_based : bool) (offset disk part : Z) : Mem Z :=
  let drive := upper_drive drive in
  if bad_drive drive then ret 1
  else
    let* k := get in
    let* fs := lift (rd (filesystems k) filesystem) in
    set_drive (drive - 65)
      {| present := true; drive_fs := fs; in_memory := memory_based; mem_offset := 0; partition := 0 |} ;;;
    set_drive (drive - 65)
      {| present := true; drive_fs := fs; in_memory := memory_based;
         mem_offset := if memory_based then offset else disk;
         partition := if memory_based then 0 else part |} ;;;
    ret 0.

Definition unmount (drive : Z) : Mem Z :=
  let drive := upper_drive drive in
  if bad_drive drive then ret 1
  else set_drive (drive - 65) no_drive ;;; ret 0.

(** The file and its drive. *)
Definition file_drive (f : Z) : Mem (File * Drive Obj) :=
  let* r := on_objs (get_obj File f) in
  let* d := drive_at (drive_char r - 65) in ret (r, d).

Definition close (f : Z) : Mem unit :=
  let* (r, d) := file_drive f in on_objs (close_function (drive_fs d) (f_private r)).

Definition mkfile (path : list Z) : Mem Z :=
  let* f := open path O_CREATALL MODE_WRITEONLY in
  close f ;;;
  ret 0.

Definition file_length (f : Z) : Mem Z :=
  let* (r, d) := file_drive f in on_objs (length_function (drive_fs d) (f_private r)).

Definition write (f : Z) (buffer : list Z) (size : Z) : Mem Z :=
  let* r := on_objs (get_obj File f) in
  if mode r =? MODE_READONLY then ret 1
  else
    (if f_ftype r =? FTYPE_STDOUT then printf buffer else ret tt) ;;;
    let* (r, d) := file_drive f in
    on_objs (write_function (drive_fs d) (f_private r) buffer size).

(** The status, and the buffer after the call. *)
Definition read (f : Z) (buffer : list Z) (max_len : Z) : Mem (Z * list Z) :=
  let* r := on_objs (get_obj File f) in
  if mode r =? MODE_WRITEONLY then ret (1, buffer)
  else
    let* d := drive_at (drive_char r - 65) in
    on_objs (read_function (drive_fs d) (f_private r) buffer max_len).

(** The path [change_cd] makes: a slash is put behind a relative path only. *)
Definition extend_cd (current_task : Z) (path : list Z) : Mem (list Z) :=
  let* path_len := lift (ku_strlen path) in
  let* rel := lift (not_absolute path) in
  if negb rel then ret path
  else
    let* c0 := lift (rd path 0) in
    if c0 =? 47 then
      let* (_, b) := malloc_buffer (path_len + 4) in
      let* b := lift (memcpy_at b 2 path (path_len + 1)) in
      let* cd := task_cd current_task in
      let* c := lift (rd cd 0) in
      let* b := lift (wr b 0 c) in
      let* b := lift (wr b 1 58) in
      let* b := lift (wr b (path_len + 2) 47) in
      lift (wr b (path_len + 3) 0)
    else
      let* cd := task_cd current_task in
      let* cd_len := lift (ku_strlen cd) in
      let* (_, b) := malloc_buffer (cd_len + path_len + 1) in
      let* b := lift (memcpy_at b 0 cd cd_len) in
      let* b := lift (memcpy_at b cd_len path (path_len + 1)) in
      let* b := lift (wr b (path_len + cd_len) 47) in
      lift (wr b (path_len + cd_len + 1) 0).

Definition change_cd (path : list Z) : Mem unit :=
  let* current_task := on_sched (get_current_task core) in
  let* path := extend_cd current_task path in
  on_objs (
    let* t := get_obj Task current_task in
    free_block (current_dir t) ;;;
    let* n := lift (ku_strlen path) in
    let* p := malloc_block slack junk_Block (n + 1) in
    set_field current_task (set_current_dir p) ;;;
    let* n := lift (ku_strlen path) in
    memcpy_to p path (n + 1)).

(** ** What a path means to a file system *)

Section Resolve.
Context (fs : FileSystem Obj).

(** [name] in the directory [obj], made by [make] where it is missing and
    [create] allows it. *)
Definition find_or_make (create : bool) (make : Z -> list Z -> M (Store Obj) unit) (obj : Z) (name : list Z)
    : Mem (option Z) :=
  let* f := on_objs (find_function fs obj (name ++ [0])) in
  if negb (f =? 0) then ret (Some f)
  else if create then
    on_objs (make obj (name ++ [0])) ;;;
    let* f := on_objs (find_function fs obj (name ++ [0])) in ret (Some f)
  else ret None.

(** [open] on the components of a path: every component but the last is a
    directory; an empty last component stands for the directory itself. *)
Fixpoint resolve (fl md obj : Z) (comps : list (list Z)) : Mem (option Z) :=
  match comps with
  | [] | [[]] => ret (Some obj)
  | [name] =>
      let* f := find_or_make (negb (Z.land fl O_CREAT =? 0) || negb (Z.land fl O_CREATALL =? 0))
        (mkfile_function fs) obj name in
      match f with
      | None => ret None
      | Some f => let* o := on_objs (open_file_function fs f md) in ret (Some o)
      end
  | name :: comps' =>
      let* d := find_or_make (negb (Z.land fl O_CREATALL =? 0)) (mkdir_function fs) obj name in
      match d with
      | None => ret None
      | Some d => let* obj := on_objs (open_dir_function fs d) in resolve fl md obj comps'
      end
  end.

(** [mkdir] on the components of a path: every one up to an empty one is made. *)
Fixpoint make_dirs (obj : Z) (comps : list (list Z)) : Mem unit :=
  match comps with
  | [] | [] :: _ => ret tt
  | name :: comps' =>
      let* d := find_or_make true (mkdir_function fs) obj name in
      let* obj := on_objs (open_dir_function fs (default 0 d)) in
      make_dirs obj comps'
  end.
End Resolve.

(** ** Lemmas *)

(** *** One component *)

Definition plain (w : list Z) : Prop := Forall (fun c => c <> 0) w /\ 47 ∉ w.

Lemma scan_component_spec pre w c tl fuel :
  plain w -> c = 47 \/ c = 0 -> (length w < fuel)%nat ->
  scan_component fuel (pre ++ w ++ c :: tl) (Zlen pre) = Ok (Zlen pre + Zlen w).
Proof using.
  intros [Hz Hs] Hc. revert pre fuel. induction w as [|x w IH]; intros pre fuel Hf;
    (destruct fuel as [|fuel]; cbn in Hf; [lia|]); cbn [scan_component app].
  - rewrite (rd_mid pre tl c) by done. cbn [obind].
    destruct Hc as [-> | ->]; cbn [Z.eqb Pos.eqb negb andb]; f_equal; zlen.
  - rewrite (rd_mid pre (w ++ c :: tl) x) by done. cbn [obind].
    apply Forall_cons in Hz as [Hx Hz]. apply not_elem_of_cons in Hs as [Hx' Hs].
    destruct (Z.eqb_spec x 47) as [|_]; [done|]. destruct (Z.eqb_spec x 0) as [|_]; [done|]. cbn [negb andb].
    change (x :: w ++ c :: tl) with ([x] ++ w ++ c :: tl). rewrite app_assoc.
    replace (Zlen pre + 1) with (Zlen (pre ++ [x])) by zlen.
    rewrite (IH Hz Hs (pre ++ [x])) by lia. f_equal. zlen.
Qed.

Lemma next_component_spec pre w c tl :
  plain w -> c = 47 \/ c = 0 ->
  next_component (pre ++ w ++ c :: tl) (Zlen pre) = Ok (c =? 47, Zlen w, pre ++ w ++ 0 :: tl).
Proof using.
  intros Hw Hc. unfold next_component. rewrite Zlen_to_nat, drop_app_length, take_app_length.
  rewrite (scan_component_spec [] w c tl) by (done || rewrite length_app; cbn; lia). cbn [obind app].
  rewrite Zlen_nil, Z.add_0_l, (rd_mid w tl c), (wr_mid w tl 0 c) by done. done.
Qed.

Lemma on_objs_ext {A} (m m' : M (Store Obj) A) k : (forall s, m s = m' s) -> on_objs m k = on_objs m' k.
Proof using. intros H. unfold on_objs, on_sched, on_store. by rewrite H. Qed.

Lemma bind_ext_r {A B} (m : Mem A) (f g : A -> Mem B) k : (forall a k', f a k' = g a k') -> bind m f k = bind m g k.
Proof using. intros H. by apply bind_ext. Qed.

Section Loops.
Context (fs : FileSystem Obj) {Laws : FileSystemLaws fs}.

(** A component, terminated in place, is the argument the laws are about. *)
Lemma component_string w tl : plain w -> c_string w (w ++ 0 :: tl).
Proof using. intros [Hz _]. split; [done|by exists tl]. Qed.
Lemma component_alone w : plain w -> c_string w (w ++ [0]).
Proof using. apply component_string. Qed.

(** The search of the code, with the name in the middle of the buffer. *)
Lemma find_or_make_at create make obj w tl {B} (f : option Z -> Mem B) k :
  plain w -> Zlen w < 2 ^ 31 ->
  (forall o a b s, c_string w a -> c_string w b -> make o a s = make o b s) ->
  bind (find_or_make fs create make obj w) f k =
  (let* this := on_objs (find_function fs obj (w ++ 0 :: tl)) in
   let* this :=
     (if this =? 0 then
        if create then
          on_objs (make obj (w ++ 0 :: tl)) ;;;
          let* d := on_objs (find_function fs obj (w ++ 0 :: tl)) in ret (Some d)
        else ret None
      else ret (Some this)) in
   f this) k.
Proof using Laws.
  intros Hw Hl Hm. pose proof (component_string w tl Hw) as H1. pose proof (component_alone w Hw) as H2.
  assert (forall o k', on_objs (find_function fs o (w ++ [0])) k' = on_objs (find_function fs o (w ++ 0 :: tl)) k') as Hf.
  { intros o k'. apply on_objs_ext. intros s. by apply (find_name o w). }
  unfold find_or_make. rewrite bind_assoc. apply bind_ext; [apply Hf|]. intros a k'.
  destruct (Z.eqb_spec a 0) as [->|Hne]; cbn [negb]; [|done].
  destruct create; [|done]. rewrite !bind_assoc. apply bind_ext.
  - apply on_objs_ext. intros s. by apply Hm.
  - intros _ k2. rewrite !bind_assoc. by apply bind_ext.
Qed.

(** The first test of a loop on a path with something left. *)
Lemma loop_test {B} pre rest tl (stop go : Mem B) k :
  Forall (fun c => c <> 0) rest -> rest <> [] ->
  (let* c := lift (rd (pre ++ rest ++ tl) (Zlen pre)) in if c =? 0 then stop else go) k = go k.
Proof using.
  intros Hz Hn. destruct rest as [|x rest]; [done|]. apply Forall_cons in Hz as [Hx _].
  change ((x :: rest) ++ tl) with (x :: rest ++ tl). rewrite (bind_lift _ x) by (by apply rd_mid).
  by destruct (Z.eqb_spec x 0).
Qed.

(** The component of a pass: its end, and the argument of the file system. *)
Lemma loop_component {B} pre w c tl (f : bool * Z * list Z -> Mem B) k :
  plain w -> c = 47 \/ c = 0 ->
  bind (lift (next_component (pre ++ w ++ c :: tl) (Zlen pre))) f k = f (c =? 47, Zlen w, pre ++ w ++ 0 :: tl) k.
Proof using. intros Hw Hc. by rewrite (bind_lift _ _ _ _ (next_component_spec pre w c tl Hw Hc)). Qed.

Lemma drop_prefix (pre l : list Z) : drop (Z.to_nat (Zlen pre)) (pre ++ l) = l.
Proof using. by rewrite Zlen_to_nat, drop_app_length. Qed.

Lemma resolve_last fl md obj w : w <> [] ->
  resolve fs fl md obj [w] =
    (let* f := find_or_make fs (negb (Z.land fl O_CREAT =? 0) || negb (Z.land fl O_CREATALL =? 0))
       (mkfile_function fs) obj w in
     match f with
     | None => ret None
     | Some f => let* o := on_objs (open_file_function fs f md) in ret (Some o)
     end).
Proof using. by destruct w. Qed.

Lemma resolve_dir fl md obj w s :
  resolve fs fl md obj (w :: components s) =
    (let* d := find_or_make fs (negb (Z.land fl O_CREATALL =? 0)) (mkdir_function fs) obj w in
     match d with
     | None => ret None
     | Some d => let* obj := on_objs (open_dir_function fs d) in resolve fs fl md obj (components s)
     end).
Proof using. destruct (components_cons s) as (v & ws & ->). by destruct w. Qed.

(** The loop of [open] on the rest [rest] of a path. *)
Lemma open_loop_resolve fl md rest :
  Forall (fun c => c <> 0) rest -> Zlen rest < 2 ^ 31 ->
  forall pre pre' tl tl' fuel, Zlen pre' = Zlen pre -> (length rest <= fuel)%nat ->
  exists o, forall obj k,
    open_loop fs fuel fl md (pre ++ rest ++ 0 :: tl) (pre' ++ rest ++ 0 :: tl') (Zlen pre') (Zlen pre) obj k =
    (let* r := resolve fs fl md obj (components rest) in
     ret (match r with None => None | Some x => Some (x, o, o) end)) k.
Proof using Laws.
  induction rest as [w Hw|w rest Hw IH] using path_ind; intros Hz Hl pre pre' tl tl' fuel Hp Hf.
  - rewrite (components_last w Hw). exists (Zlen pre). intros obj k.
    destruct (decide (w = [])) as [->|Hne].
    { cbn [app resolve]. destruct fuel; cbn [open_loop]; rewrite bind_lift with (a := 0) by (by apply rd_mid);
        cbn; by rewrite Hp. }
    destruct fuel as [|fuel]; [destruct w; cbn in *; [done|lia]|]. cbn [open_loop].
    rewrite loop_test by done.
    rewrite loop_component by (first [by split|by right|by left]). cbn [Z.eqb]. cbv zeta.
    rewrite drop_prefix, resolve_last, bind_assoc by done.
    rewrite (find_or_make_at _ _ _ w tl') by (done || (intros; by eapply mkfile_name)).
    apply bind_ext_r. intros f k1. apply bind_ext_r. intros g k2. destruct g as [g|]; [|done].
    rewrite bind_assoc. apply bind_ext_r. intros o k3. by rewrite bind_ret, Hp.
  - apply Forall_app in Hz as [Hzw Hz]. pose proof Hz as Hz'. apply Forall_cons in Hz' as [_ Hzr].
    autorewrite with zlen in Hl. pose proof (Zlen_nonneg rest). pose proof (Zlen_nonneg w).
    rewrite length_app in Hf. cbn [length] in Hf. destruct fuel as [|fuel]; [lia|].
    destruct (IH Hzr ltac:(lia) (pre ++ w ++ [47]) (pre' ++ w ++ [0]) tl tl' fuel) as [o Ho];
      [autorewrite with zlen; lia|lia|].
    exists o. intros obj k. cbn [open_loop].
    rewrite (loop_test pre (w ++ 47 :: rest) (0 :: tl)) by (first [by apply Forall_app|by destruct w]).
    rewrite <- !app_assoc, <- !app_comm_cons.
    rewrite loop_component by (first [by split|by right|by left]). cbn [Z.eqb Pos.eqb]. cbv zeta.
    rewrite drop_prefix, components_slash, resolve_dir, bind_assoc by done.
    rewrite (find_or_make_at _ _ _ w (rest ++ 0 :: tl')) by (done || lia || (intros; by eapply mkdir_name)).
    apply bind_ext_r. intros f k1. apply bind_ext_r. intros g k2. destruct g as [g|]; [|done].
    rewrite bind_assoc. apply bind_ext_r. intros d k3.
    specialize (Ho d k3). rewrite <- Ho. repeat rewrite <- app_assoc. cbn [app].
    f_equal; autorewrite with zlen; lia.
Qed.

Lemma make_dirs_cons obj w comps : w <> [] ->
  make_dirs fs obj (w :: comps) =
    (let* d := find_or_make fs true (mkdir_function fs) obj w in
     let* obj := on_objs (open_dir_function fs (default 0 d)) in
     make_dirs fs obj comps).
Proof using. by destruct w. Qed.

(** The path ends with a slash, or is the root. *)
Definition names_directory (rest : list Z) : Prop := last (components rest) = Some [].

(** The loop of [mkdir] on the rest of a path that ends with a slash. *)
Lemma mkdir_loop_resolve rest :
  Forall (fun c => c <> 0) rest -> Zlen rest < 2 ^ 31 -> names_directory rest ->
  forall pre pre' tl tl' fuel, Zlen pre' = Zlen pre -> (length rest <= fuel)%nat ->
  exists o, forall obj k,
    mkdir_loop fs fuel (pre ++ rest ++ 0 :: tl) (pre' ++ rest ++ tl') (Zlen pre') (Zlen pre) obj k =
    (make_dirs fs obj (components rest) ;;; ret (o, o)) k.
Proof using Laws.
  induction rest as [w Hw|w rest Hw IH] using path_ind; intros Hz Hl Hd pre pre' tl tl' fuel Hp Hf.
  - unfold names_directory in Hd. rewrite (components_last w Hw) in *. injection Hd as ->.
    exists (Zlen pre). intros obj k.
    destruct fuel; cbn [mkdir_loop app]; rewrite bind_lift with (a := 0) by (by apply rd_mid); cbn; by rewrite Hp.
  - apply Forall_app in Hz as [Hzw Hz]. pose proof Hz as Hz'. apply Forall_cons in Hz' as [_ Hzr].
    autorewrite with zlen in Hl. pose proof (Zlen_nonneg rest). pose proof (Zlen_nonneg w).
    rewrite length_app in Hf. cbn [length] in Hf. destruct fuel as [|fuel]; [lia|].
    unfold names_directory in Hd. rewrite components_slash in * by done.
    destruct (components_cons rest) as (v & vs & E). rewrite E in Hd. cbn [last] in Hd. rewrite <- E in Hd.
    destruct (decide (w = [])) as [->|Hne].
    { exists (Zlen pre). intros obj k. cbn [mkdir_loop make_dirs]. rewrite (loop_test pre ([] ++ 47 :: rest) (0 :: tl)) by done.
      rewrite <- !app_assoc, <- !app_comm_cons. rewrite loop_component by (first [by split|by right|by left]). cbv zeta.
      rewrite drop_prefix. rewrite bind_lift with (a := 0) by done. cbn. by rewrite Hp. }
    destruct (IH Hzr ltac:(lia)) with (pre := pre ++ w ++ [47]) (pre' := pre' ++ w ++ [0]) (tl := tl) (tl' := tl') (fuel := fuel)
      as [o Ho]; [exact Hd|autorewrite with zlen; lia|lia|].
    exists o. intros obj k. cbn [mkdir_loop].
    rewrite (loop_test pre (w ++ 47 :: rest) (0 :: tl)) by (first [by apply Forall_app|by destruct w]).
    rewrite <- !app_assoc, <- !app_comm_cons.
    rewrite loop_component by (first [by split|by right|by left]). cbv zeta.
    rewrite drop_prefix, make_dirs_cons, bind_assoc by done.
    rewrite (find_or_make_at _ _ _ w (rest ++ tl')) by (done || lia || (intros; by eapply mkdir_name)).
    rewrite bind_lift with (a := default 0 (head w)) by (by destruct w).
    replace (default 0 (head w) =? 0) with false by (destruct w; [done|]; apply Forall_cons in Hzw as [? _]; cbn; lia).
    apply bind_ext_r. intros f k1.
    assert (forall d k', (let* c := on_objs (open_dir_function fs d) in
        mkdir_loop fs fuel (pre ++ w ++ 47 :: rest ++ 0 :: tl) (pre' ++ w ++ 0 :: rest ++ tl')
          (Zlen pre' + Zlen w + 1) (Zlen pre + Zlen w + 1) c) k' =
      ((let* c := on_objs (open_dir_function fs d) in make_dirs fs c (components rest)) ;;; ret (o, o)) k') as Hrest.
    { intros d k'. rewrite bind_assoc. apply bind_ext_r. intros c k2. rewrite <- Ho. repeat rewrite <- app_assoc.
      cbn [app]. f_equal; autorewrite with zlen; lia. }
    destruct (f =? 0); rewrite ?bind_assoc; [|exact (Hrest f k1)].
    apply bind_ext_r. intros _ k2. rewrite bind_assoc. apply bind_ext_r. intros d k3. exact (Hrest d k3).
Qed.

(** Where a scan ends there is a slash or a terminator. *)
Lemma scan_component_end fuel l j n :
  scan_component fuel l j = Ok n -> j <= n /\ exists c, rd l n = Ok c /\ (c = 47 \/ c = 0).
Proof using.
  revert j. induction fuel as [|fuel IH]; intros j H; [done|]. cbn [scan_component] in H.
  apply obind_ok in H as (c & Hc & H).
  destruct (negb (c =? 47) && negb (c =? 0)) eqn:E; [apply IH in H as [? ?]; split; [lia|done]|].
  injection H as ->. split; [lia|]. exists c. split; [done|lia].
Qed.

(** A component that nothing ends: the pass goes at least to its end. *)
Lemma next_component_open pre w tl b n np :
  plain w -> w <> [] -> next_component (pre ++ w ++ tl) (Zlen pre) = Ok (b, n, np) ->
  Zlen w <= n /\ exists c, rd (drop (Z.to_nat (Zlen pre)) np) 0 = Ok c /\ c <> 0.
Proof using.
  intros [Hz Hs] Hne H. unfold next_component in H. rewrite drop_prefix, Zlen_to_nat, take_app_length in H.
  apply obind_ok in H as (m & Hm & H). apply obind_ok in H as (c & Hc & H).
  apply obind_ok in H as (l & Hl & [= <- <- <-]). rewrite drop_prefix.
  apply scan_component_end in Hm as (H0 & c' & Hc' & Hend).
  assert (Zlen w <= m) as Hm.
  { destruct (Z_lt_le_dec m (Zlen w)) as [Hlt|]; [|done]. exfalso. unfold rd in Hc'.
    destruct (m <? 0) eqn:E; [lia|]. rewrite lookup_app_l in Hc' by (unfold Zlen in Hlt; lia).
    destruct (w !! Z.to_nat m) as [x|] eqn:Ex; [|done]. injection Hc' as ->.
    apply list_elem_of_lookup_2 in Ex. rewrite Forall_forall in Hz. destruct Hend as [-> | ->]; [done|by apply (Hz 0)]. }
  split; [done|]. destruct w as [|x w]; [done|]. apply Forall_cons in Hz as [Hx _].
  autorewrite with zlen in Hm. pose proof (Zlen_nonneg w). unfold wr in Hl. destruct (_ || _); [done|]. injection Hl as <-.
  exists x. split; [|done]. unfold rd. cbn [Z.ltb Z.compare]. change (Z.to_nat 0) with 0%nat.
  by rewrite list_lookup_insert_ne by lia.
Qed.

(** Without a slash at its end the loop runs past the terminator of the path. *)
Lemma mkdir_loop_overreads rest :
  Forall (fun c => c <> 0) rest -> Forall (fun w => w <> []) (components rest) ->
  forall pre pre' tl' fuel obj k r, Zlen pre' = Zlen pre ->
  mkdir_loop fs fuel (pre ++ rest ++ [0]) (pre' ++ rest ++ tl') (Zlen pre') (Zlen pre) obj k <> Ok r.
Proof using.
  induction rest as [w Hw|w rest Hw IH] using path_ind; intros Hz Hc pre pre' tl' fuel obj k r Hp Hr.
  - rewrite (components_last w Hw) in Hc. rewrite Forall_singleton in Hc.
    destruct fuel as [|fuel]; cbn [mkdir_loop] in Hr; rewrite loop_test in Hr by done; [discriminate Hr|].
    apply bind_ok in Hr as ([[b n] np] & k1 & Hn & Hr). unfold lift in Hn. apply obind_ok in Hn as (x & Hn & [= -> ->]).
    apply next_component_open in Hn as (Hlen & c & Hc0 & Hcz); [|done|done].
    cbv zeta in Hr. rewrite (bind_lift _ _ _ _ Hc0) in Hr. destruct (Z.eqb_spec c 0) as [|_]; [done|].
    apply bind_ok in Hr as (d & k2 & _ & Hr). apply bind_ok in Hr as (d' & k3 & _ & Hr).
    apply bind_ok in Hr as (o & k4 & _ & Hr).
    destruct fuel; cbn [mkdir_loop] in Hr; unfold bind at 1, lift in Hr;
      rewrite rd_end in Hr by (autorewrite with zlen; lia); done.
  - apply Forall_app in Hz as [Hzw Hz]. pose proof Hz as Hz'. apply Forall_cons in Hz' as [_ Hzr].
    rewrite components_slash in Hc by done. apply Forall_cons in Hc as [Hne Hc].
    destruct fuel as [|fuel]; cbn [mkdir_loop] in Hr;
      rewrite (loop_test pre (w ++ 47 :: rest) [0]) in Hr by (first [by apply Forall_app|by destruct w]); [discriminate Hr|].
    rewrite <- !app_assoc, <- !app_comm_cons in Hr.
    rewrite loop_component in Hr by (first [by split|by right|by left]). cbv zeta in Hr. rewrite drop_prefix in Hr.
    rewrite bind_lift with (a := default 0 (head w)) in Hr by (by destruct w).
    replace (default 0 (head w) =? 0) with false in Hr
      by (destruct w; [done|]; apply Forall_cons in Hzw as [? _]; cbn; lia).
    apply bind_ok in Hr as (d & k2 & _ & Hr). apply bind_ok in Hr as (d' & k3 & _ & Hr).
    apply bind_ok in Hr as (o & k4 & _ & Hr).
    refine (IH Hzr Hc (pre ++ w ++ [47]) (pre' ++ w ++ [0]) tl' fuel o k4 r _ _); [autorewrite with zlen; lia|].
    rewrite <- Hr. repeat rewrite <- app_assoc. cbn [app]. f_equal; autorewrite with zlen; lia.
Qed.
End Loops.

(** *** Memory for paths *)

Abbreviation objects k := (store (scheduler k)).
Definition set_objs (st : Store Obj) (k : Vfs) : Vfs := MkVfs (set_store st (scheduler k)) (drives k) (filesystems k).

Lemma on_objs_run {A} (m : M (Store Obj) A) k a st :
  m (objects k) = Ok (a, st) -> on_objs m k = Ok (a, set_objs st k).
Proof using. intros H. unfold on_objs, on_sched. by rewrite (on_store_run _ _ _ _ H). Qed.

Lemma on_objs_read {A} (m : M (Store Obj) A) k a :
  m (objects k) = Ok (a, objects k) -> on_objs m k = Ok (a, k).
Proof using. intros H. rewrite (on_objs_run _ _ _ _ H). by destruct k as [[] ? ?]. Qed.

Lemma on_objs_halted {A} (m : M (Store Obj) A) k : m (objects k) = Halted -> on_objs m k = Halted.
Proof using. intros H. unfold on_objs, on_sched, on_store. by rewrite H. Qed.

(** [k'] is [k] with more objects. *)
Definition grown (k k' : Vfs) : Prop :=
  exists st, k' = set_objs st k /\ store_ok st /\ same_except ∅ (objects k) st /\ dom (objs (objects k)) ⊆ dom (objs st).

Lemma grown_refl k : store_ok (objects k) -> grown k k.
Proof using. intros Hok. exists (objects k). split_and!; [by destruct k as [[] ? ?]|done|done|done]. Qed.

Lemma grown_trans k1 k2 k3 : grown k1 k2 -> grown k2 k3 -> grown k1 k3.
Proof using.
  intros (st & -> & H1 & S1 & D1) (st' & -> & H2 & S2 & D2). exists st'. cbn in *.
  split_and!; [done|done| |by etransitivity]. intros p Hp Hin. rewrite S2; [by apply S1|done|by apply D1].
Qed.

Lemma grown_ok k k' : grown k k' -> store_ok (objects k').
Proof using. by intros (st & -> & Hok & _). Qed.

Lemma grown_string k k' p str : grown k k' -> string_at (objects k) p str -> string_at (objects k') p str.
Proof using. intros (st & -> & _ & Hs & _) H. eapply string_at_frame; [exact Hs| |done]. by apply not_elem_of_empty. Qed.

Lemma grown_typed {A} `{!Object A Obj} k k' p (x : A) :
  grown k k' -> typed_at (objects k) p x -> typed_at (objects k') p x.
Proof using. intros (st & -> & _ & Hs & _) H. eapply same_except_typed; [exact Hs| |done]. by apply not_elem_of_empty. Qed.

Lemma grown_drives k k' : grown k k' -> drives k' = drives k.
Proof using. by intros (st & -> & _). Qed.

(** A buffer from [malloc]. *)
Lemma malloc_buffer_spec k n :
  store_ok (objects k) -> 0 <= n < 2 ^ 63 -> 0 <= slack ->
  malloc_buffer n k = Halted \/
  exists p b k', malloc_buffer n k = Ok ((p, b), k') /\ grown k k' /\ Zlen b = n + slack /\
    (p ∉ dom (objs (objects k))) /\ typed_at (objects k') p b.
Proof using.
  clear junk_File stale printf. intros Hok Hn Hs. unfold malloc_buffer.
  destruct (malloc_block_spec slack junk_Block _ n Hok Hn Hs) as [(p & d & st & E & Hp & Hok' & Hd & Hl & Ho)|E].
  - right. exists p, d, (set_objs st k). split; [|split_and!; [|done..]].
    + apply on_objs_run. rewrite (bind_run _ _ _ _ _ E). cbn [block].
      by rewrite (bind_run _ _ _ _ _ (get_obj_run _ _ _ Hd)).
    + exists st. split_and!; [done|done| |rewrite Ho, dom_insert; set_solver].
      intros q _ Hq. rewrite Ho. apply lookup_insert_ne. by intros ->.
  - left. apply on_objs_halted. unfold bind. by rewrite E.
Qed.

(** *** Completing a path *)

Lemma not_absolute_spec s a : c_string s a -> s <> [] -> not_absolute a = Ok (negb (is_absolute s)).
Proof using.
  intros [Hz [tl ->]] Hne. destruct s as [|c0 s]; [done|]. unfold not_absolute.
  destruct s as [|c1 s]; [done|]. change (rd ((c0 :: c1 :: s) ++ 0 :: tl) 1) with (Ok c1). cbn [obind is_absolute].
  destruct s as [|c2 s].
  - destruct (c1 =? 58); done.
  - change (rd ((c0 :: c1 :: c2 :: s) ++ 0 :: tl) 2) with (Ok c2). cbn [obind is_absolute]. by destruct (c1 =? 58).
Qed.

(** The task that runs on this processor is in the directory [cd]. *)
Definition in_directory (k : Vfs) (cd : list Z) : Prop :=
  exists ts tks cs cur t, Tasks.sched (scheduler k) ts tks cs /\ unlocked (scheduler k) /\ 0 <= core /\
    cs !! Z.to_nat core = Some (Z.of_nat cur) /\ tks !! cur = Some t /\ string_at (objects k) (current_dir t) cd.

Lemma current_directory k cd :
  in_directory k cd ->
  exists task t, on_sched (get_current_task core) k = Ok (task, k) /\ typed_at (objects k) task t /\
    string_at (objects k) (current_dir t) cd /\ store_ok (objects k).
Proof using.
  intros (ts & tks & cs & cur & t & Hs & [_ Hu] & Hc & Hcur & Ht & Hstr).
  pose proof (sched_tasks_length _ _ _ _ Hs) as Hl. pose proof (lookup_lt_Some _ _ _ Ht) as Hlt.
  rewrite <- Hl in Hlt. destruct (lookup_lt_is_Some_2 ts cur Hlt) as [p Hp].
  exists p, t. split_and!; [|by eapply sched_task|done|by destruct Hs].
  unfold on_sched. rewrite (get_current_task_run _ _ _ _ _ _ Hs Hu Hc Hcur) by lia.
  rewrite Nat2Z.id, Hp. by destruct k.
Qed.

Lemma task_cd_run k task t cd :
  typed_at (objects k) task t -> string_at (objects k) (current_dir t) cd ->
  exists a, task_cd task k = Ok (a, k) /\ c_string cd a.
Proof using.
  intros Ht Hc. apply string_bytes in Hc as (a & E & Hc). exists a. split; [|done].
  apply on_objs_read. by rewrite (bind_run _ _ _ _ _ (get_obj_run _ _ _ Ht)).
Qed.

Lemma list_two (l : list Z) : Zlen l = 2 -> exists x y, l = [x; y].
Proof using. unfold Zlen. destruct l as [|x [|y [|z l]]]; cbn; intros H; try lia. by exists x, y. Qed.

(** The path with the drive of the current directory in front. *)
Lemma drive_prefix (b a s : list Z) c n :
  c_string s a -> n = Zlen s -> n + 3 <= Zlen b ->
  exists tl, obind (memcpy_at b 2 a (n + 1)) (fun b => obind (wr b 0 c) (fun b => wr b 1 58)) =
    Ok (c :: 58 :: s ++ 0 :: tl) /\ Zlen tl = Zlen b - n - 3.
Proof using.
  intros Hc -> Hb. destruct (c_string_prefix _ _ Hc) as (Hl & _ & Ht). pose proof (Zlen_nonneg s).
  destruct (memcpy_at_run b a 2 (Zlen s + 1)) as (pre & post & E & _ & Hpre & Hpost); [lia..|].
  rewrite E, Ht. cbn [obind]. destruct (list_two pre Hpre) as (x & y & ->). cbn [app].
  rewrite wr_hd. cbn [obind]. rewrite wr_snd. exists post. rewrite <- app_assoc. split; [done|lia].
Qed.

Lemma extend_path_spec k task t cd s a :
  store_ok (objects k) -> typed_at (objects k) task t -> string_at (objects k) (current_dir t) cd ->
  c_string s a -> s <> [] -> cd <> [] -> Forall (fun c => c <> 0) cd ->
  0 <= slack -> Zlen s < 2 ^ 31 -> Zlen cd < 2 ^ 31 ->
  extend_path task a k = Halted \/
  exists a' k', extend_path task a k = Ok (a', k') /\ grown k k' /\ c_string (full_path cd s) a' /\
    (is_absolute s = true -> a' = a /\ k' = k).
Proof using.
  clear junk_File stale printf. intros Hok Ht Hcd Hs Hne Hcne Hcz Hsl Hl1 Hl2. unfold extend_path.
  rewrite (bind_lift _ _ _ _ (not_absolute_spec _ _ Hs Hne)). unfold full_path.
  destruct (is_absolute s) eqn:Habs; cbn [negb].
  { right. exists a, k. split_and!; [done|by apply grown_refl|done|done]. }
  pose proof (Zlen_nonneg s). pose proof (Zlen_nonneg cd). pose proof Hs as [Hz [tl Ea]].
  destruct s as [|c0 s']; [done|]. rewrite bind_lift with (a := c0) by (by rewrite Ea).
  destruct (Z.eqb_spec c0 47) as [->|Hc0]; cbn [head].
  - rewrite bool_decide_eq_true_2 by done. rewrite (bind_lift _ _ _ _ (c_string_strlen _ _ Hs)).
    destruct (malloc_buffer_spec k (Zlen (47 :: s') + 3) Hok ltac:(lia) Hsl) as [E|(p & b & k1 & E & Hg & Hb & _)];
      [left; unfold bind at 1; by rewrite E|right]. rewrite (bind_run _ _ _ _ _ E).
    destruct (task_cd_run k1 task t cd) as (ca & Ecd & Hca); [by eapply grown_typed|by eapply grown_string|].
    destruct cd as [|x cd]; [done|].
    destruct (drive_prefix b a (47 :: s') x (Zlen (47 :: s')) Hs eq_refl ltac:(lia)) as (tl' & Ew & _).
    apply obind_ok in Ew as (b1 & E1 & Ew). apply obind_ok in Ew as (b2 & E2 & E3).
    rewrite (bind_lift _ _ _ _ E1), (bind_run _ _ _ _ _ Ecd).
    rewrite bind_lift with (a := x) by (destruct Hca as [_ [? ->]]; done).
    rewrite (bind_lift _ _ _ _ E2). unfold lift. rewrite E3. cbn [obind]. eexists _, k1.
    split_and!; [reflexivity|done| |done]. apply Forall_cons in Hcz as [Hx _].
    split; [|by exists tl']. apply Forall_cons; split; [done|]. by apply Forall_cons.
  - rewrite bool_decide_eq_false_2 by congruence.
    destruct (task_cd_run k task t cd Ht Hcd) as (ca & Ecd & Hca). rewrite (bind_run _ _ _ _ _ Ecd).
    rewrite (bind_lift _ _ _ _ (c_string_strlen _ _ Hca)), (bind_lift _ _ _ _ (c_string_strlen _ _ Hs)).
    destruct (malloc_buffer_spec k (Zlen cd + Zlen (c0 :: s') + 1) Hok ltac:(lia) Hsl) as [E|(p & b & k1 & E & Hg & Hb & _)];
      [left; unfold bind at 1; by rewrite E|right]. rewrite (bind_run _ _ _ _ _ E).
    destruct (c_string_prefix _ _ Hca) as (Hla & Hta & _). destruct (c_string_prefix _ _ Hs) as (Hls & _ & Hts).
    destruct (memcpy_at_run b ca 0 (Zlen cd)) as (pre & post & E1 & _ & Hpre & Hpost); [lia..|].
    assert (pre = []) as -> by (destruct pre; [done|zlen]). rewrite Hta in E1. cbn [app] in E1.
    rewrite (bind_lift _ _ _ _ E1).
    destruct (memcpy_at_run (cd ++ post) a (Zlen cd) (Zlen (c0 :: s') + 1)) as (pre2 & post2 & E2 & Ep & Hp2 & _);
      [lia|lia|rewrite Zlen_app; lia|lia|].
    rewrite Zlen_to_nat, take_app_length in Ep. subst pre2. rewrite Hts in E2.
    unfold lift. rewrite E2. cbn [obind]. eexists _, k1. split_and!; [reflexivity|done| |done].
    split; [by apply Forall_app|]. exists post2. by rewrite <- !app_assoc.
Qed.

(** The copy of the path; its terminator needs a byte behind the block. *)
Lemma copy_path_raw_spec k s a :
  store_ok (objects k) -> c_string s a -> Zlen s < 2 ^ 31 -> 0 <= slack ->
  copy_path false a k = Halted \/
  exists p tl k', copy_path false a k = Ok ((p, s ++ tl), k') /\ grown k k' /\ Zlen tl = slack /\
    (p ∉ dom (objs (objects k))) /\ (p ∈ dom (objs (objects k'))).
Proof using.
  clear junk_File stale printf. intros Hok Hs Hl Hsl. unfold copy_path. pose proof (Zlen_nonneg s).
  rewrite (bind_lift _ _ _ _ (c_string_strlen _ _ Hs)).
  destruct (malloc_buffer_spec k (Zlen s) Hok ltac:(lia) Hsl) as [E|(p & b & k1 & E & Hg & Hb & Hp & Hd)];
    [left; unfold bind at 1; by rewrite E|right]. rewrite (bind_run _ _ _ _ _ E).
  destruct (c_string_prefix _ _ Hs) as (Hla & Hta & _).
  destruct (memcpy_at_run b a 0 (Zlen s)) as (pre & post & E1 & _ & Hpre & Hpost); [lia..|].
  assert (pre = []) as -> by (destruct pre; [done|zlen]). rewrite Hta in E1. cbn [app] in E1.
  rewrite (bind_lift _ _ _ _ E1). exists p, post, k1. split_and!; [done|done|lia|done|]. by apply elem_of_dom_2 in Hd.
Qed.

Lemma copy_path_spec k s a :
  store_ok (objects k) -> c_string s a -> Zlen s < 2 ^ 31 -> 0 <= slack ->
  copy_path true a k = Halted \/
  if 1 <=? slack then
    exists p tl k', copy_path true a k = Ok ((p, s ++ 0 :: tl), k') /\ grown k k' /\
      (p ∉ dom (objs (objects k))) /\ (p ∈ dom (objs (objects k')))
  else copy_path true a k = Fault.
Proof using.
  clear junk_File stale printf. intros Hok Hs Hl Hsl.
  assert (copy_path true a k = (let* r := copy_path false a in
    let* b := lift (wr (snd r) (Zlen s) 0) in ret (fst r, b)) k) as ->.
  { unfold copy_path. rewrite bind_assoc, !(bind_lift _ _ _ _ (c_string_strlen _ _ Hs)), bind_assoc.
    apply bind_ext_r. intros [p b] k'. rewrite bind_assoc. by apply bind_ext_r. }
  destruct (copy_path_raw_spec k s a Hok Hs Hl Hsl) as [E|(p & tl & k' & E & Hg & Htl & Hp & Hp')];
    [left; unfold bind at 1; by rewrite E|right]. rewrite (bind_run _ _ _ _ _ E). cbn [fst snd].
  destruct (Z.leb_spec 1 slack).
  - destruct tl as [|x tl]; [zlen|]. rewrite (bind_lift _ _ _ _ (wr_mid s tl 0 x _ eq_refl)).
    exists p, tl, k'. by split_and!.
  - unfold bind at 1, lift. rewrite wr_end; [done|]. rewrite Zlen_app. lia.
Qed.

(** The paths the file system calls get to see: a drive and a rest. *)
Definition on_drive (s : list Z) (c : Z) (rest : list Z) : Prop := s = c :: 58 :: 47 :: rest /\ 65 <= c <= 90.

(** What [open] and [mkdir] have in common up to the file system. *)
Lemma path_start {B} k cd s a (f : list Z -> Mem B) :
  in_directory k cd -> cd <> [] -> c_string s a -> s <> [] -> 0 <= slack ->
  Zlen s < 2 ^ 31 -> Zlen cd < 2 ^ 31 ->
  (let* task := on_sched (get_current_task core) in let* path := extend_path task a in f path) k = Halted \/
  exists a' k', grown k k' /\ c_string (full_path cd s) a' /\ (is_absolute s = true -> a' = a) /\
    (let* task := on_sched (get_current_task core) in let* path := extend_path task a in f path) k = f a' k'.
Proof using.
  clear junk_File stale printf. intros Hd Hne Hs Hsne Hsl Hl1 Hl2.
  destruct (current_directory k cd Hd) as (task & t & E & Ht & Hcd & Hok). rewrite (bind_run _ _ _ _ _ E).
  assert (Forall (fun c => c <> 0) cd) as Hz by (by destruct Hcd as (? & _ & _ & [? _])).
  destruct (extend_path_spec k task t cd s a Hok Ht Hcd Hs Hsne Hne Hz Hsl Hl1 Hl2)
    as [E1|(a' & k1 & E1 & Hg & Hc & Hab)]; [left; unfold bind; by rewrite E1|right].
  exists a', k1. rewrite (bind_run _ _ _ _ _ E1). split_and!; [done|done|by apply Hab|done].
Qed.

Lemma on_drive_string s c rest a :
  on_drive s c rest -> c_string s a ->
  exists tl, a = [c; 58; 47] ++ rest ++ 0 :: tl /\ Forall (fun c => c <> 0) rest /\ bad_drive c = false /\
    upper_drive c = c /\ Zlen s = Zlen rest + 3 /\ (length rest <= length a)%nat /\ not_absolute a = Ok false.
Proof using.
  clear junk_File stale printf. intros [-> Hc] [Hz [tl ->]]. exists tl. split; [done|].
  do 3 apply Forall_cons in Hz as [_ Hz]. split_and!; [done|unfold bad_drive; lia| | | |done].
  - unfold upper_drive. by replace (97 <=? c) with false by lia.
  - autorewrite with zlen. lia.
  - cbn [app length]. rewrite length_app. lia.
Qed.

Lemma drive_at_run k n d : drives k !! Z.to_nat n = Some d -> 0 <= n -> drive_at n k = Ok (d, k).
Proof using.
  intros Hd Hn. unfold drive_at. rewrite bind_get. unfold lift, rd. destruct (Z.ltb_spec n 0); [lia|]. by rewrite Hd.
Qed.

(** ** Theorems *)

(** [open] up to the file system. *)
Lemma open_run k cd s a fl md c rest d :
  in_directory k cd -> cd <> [] -> c_string s a -> s <> [] -> 0 <= slack ->
  Zlen s < 2 ^ 31 -> Zlen cd < 2 ^ 31 -> Zlen (full_path cd s) < 2 ^ 31 ->
  on_drive (full_path cd s) c rest -> drives k !! Z.to_nat (c - 65) = Some d -> FileSystemLaws (drive_fs d) ->
  open a fl md k = Halted \/
  if 1 <=? slack then
    exists p o k', grown k k' /\ (p ∉ dom (objs (objects k))) /\ (p ∈ dom (objs (objects k'))) /\
      open a fl md k =
      (if present d then
         let* root := open_root d in
         let* r := resolve (drive_fs d) fl md root (components rest) in
         match r with
         | None => ret 0
         | Some obj => on_objs (free_obj p) ;;; new_file p o c md obj
         end
       else on_objs (free_obj p) ;;; ret 0) k'
  else open a fl md k = Fault.
Proof using.
  intros Hdir Hcd Hs Hne Hsl Hl1 Hl2 Hl3 Hon Hd Laws. unfold open.
  match goal with |- context [bind (on_sched (get_current_task core)) (fun t => bind (extend_path t a) ?f)] =>
    destruct (path_start k cd s a f Hdir Hcd Hs Hne Hsl Hl1 Hl2) as [E|(a' & k1 & Hg & Hc & _ & E)] end;
    rewrite E; [by left|]. clear E.
  destruct (on_drive_string _ _ _ _ Hon Hc) as (tl & Ha & Hz & Hbad & _ & Hlen & Hfuel & _).
  rewrite bind_lift with (a := c) by (by rewrite Ha). rewrite Hbad.
  destruct (copy_path_spec k1 _ _ (grown_ok _ _ Hg) Hc Hl3 Hsl) as [E|E]; [left; unfold bind; by rewrite E|right].
  destruct (1 <=? slack); [|by unfold bind; rewrite E].
  destruct E as (p & tl' & k2 & E & Hg2 & Hp & Hp'). rewrite (bind_run _ _ _ _ _ E).
  rewrite (bind_run _ _ _ _ _ (drive_at_run k2 (c - 65) d ltac:(by rewrite (grown_drives _ _ Hg2), (grown_drives _ _ Hg))
    ltac:(destruct Hon; lia))).
  destruct (open_loop_resolve (drive_fs d) fl md rest Hz ltac:(lia) [c; 58; 47] [c; 58; 47] tl tl' (length a') eq_refl Hfuel)
    as [o Ho].
  exists p, o, k2. split; [by eapply grown_trans|].
  assert (p ∉ dom (objs (objects k))) as Hp0.
  { destruct Hg as (st & -> & _ & _ & Hdom). intros Hin. by apply Hp, Hdom. }
  split_and!; [done|done|]. destruct (present d); cbn [negb]; [|done].
  apply bind_ext_r. intros root k3. specialize (Ho root k3). destruct Hon as [Hfull _].
  rewrite Hfull, Ha. rewrite Ha in Ho. etransitivity; [apply bind_ext; [exact Ho|reflexivity]|].
  rewrite bind_assoc. apply bind_ext_r. intros [obj|] k4; rewrite bind_ret; [|done].
  unfold free_path. by rewrite Z.eqb_refl.
Qed.

(** [mkdir] up to the file system. *)
Lemma mkdir_run k cd s a c rest d :
  in_directory k cd -> cd <> [] -> c_string s a -> s <> [] -> 0 <= slack ->
  Zlen s < 2 ^ 31 -> Zlen cd < 2 ^ 31 -> Zlen (full_path cd s) < 2 ^ 31 ->
  on_drive (full_path cd s) c rest -> drives k !! Z.to_nat (c - 65) = Some d -> FileSystemLaws (drive_fs d) ->
  (names_directory rest ->
   mkdir a k = Halted \/
   exists p k', grown k k' /\ (p ∉ dom (objs (objects k))) /\ (p ∈ dom (objs (objects k'))) /\
     mkdir a k =
     (let* root := open_root d in
      make_dirs (drive_fs d) root (components rest) ;;;
      on_objs (free_obj p) ;;;
      ret 0) k') /\
  (is_absolute s = true -> a = s ++ [0] -> Forall (fun w => w <> []) (components rest) ->
   forall r, mkdir a k <> Ok r).
Proof using.
  intros Hdir Hcd Hs Hne Hsl Hl1 Hl2 Hl3 Hon Hd Laws. unfold mkdir.
  match goal with |- context [bind (on_sched (get_current_task core)) (fun t => bind (extend_path t a) ?f)] =>
    destruct (path_start k cd s a f Hdir Hcd Hs Hne Hsl Hl1 Hl2) as [E|(a' & k1 & Hg & Hc & Habs & E)] end;
    rewrite !E; [by split; [left|]|]. clear E.
  destruct (on_drive_string _ _ _ _ Hon Hc) as (tl & Ha & Hz & Hbad & Hup & Hlen & Hfuel & Hrel).
  rewrite !(bind_lift (rd a' 0) c) by (by rewrite Ha). rewrite Hup, Hbad, !(bind_lift _ _ _ _ Hrel).
  destruct (copy_path_raw_spec k1 _ _ (grown_ok _ _ Hg) Hc Hl3 Hsl) as [E|(p & tl' & k2 & E & Hg2 & _ & Hp & Hp')];
    [split; [left|]; unfold bind; by rewrite E|]. rewrite !(bind_run _ _ _ _ _ E).
  rewrite !(bind_run _ _ _ _ _ (drive_at_run k2 (c - 65) d ltac:(by rewrite (grown_drives _ _ Hg2), (grown_drives _ _ Hg))
    ltac:(destruct Hon; lia))).
  destruct Hon as [Hfull _]. split.
  - intros Hnd. right.
    destruct (mkdir_loop_resolve (drive_fs d) rest Hz ltac:(lia) Hnd [c; 58; 47] [c; 58; 47] tl tl' (length a') eq_refl Hfuel)
      as [o Ho]. exists p, k2. split; [by eapply grown_trans|]. split.
    { destruct Hg as (st & -> & _ & _ & Hdom). intros Hin. by apply Hp, Hdom. }
    split; [done|]. apply bind_ext_r. intros root k3. specialize (Ho root k3).
    rewrite Hfull, Ha. rewrite Ha in Ho. etransitivity; [apply bind_ext; [exact Ho|reflexivity]|].
    rewrite bind_assoc. apply bind_ext_r. intros [] k4. rewrite bind_ret. unfold free_path. by rewrite Z.eqb_refl.
  - intros Hab Hae Hcomps r Hr. rewrite (Habs Hab), Hfull in *. apply bind_ok in Hr as (root & k3 & _ & Hr).
    apply bind_ok in Hr as (st & k4 & Hr & _).
    assert (tl = []) as ->.
    { unfold full_path in Hfull. rewrite Hab in Hfull. subst s. rewrite Hae in Ha.
      change ([c; 58; 47] ++ rest ++ 0 :: tl) with ((c :: 58 :: 47 :: rest) ++ 0 :: tl) in Ha.
      apply app_inv_head in Ha. by injection Ha as <-. }
    rewrite Ha in Hr. by eapply (mkdir_loop_overreads (drive_fs d) rest Hz Hcomps [c; 58; 47] [c; 58; 47]) in Hr.
Qed.

(** C15: [open] means what its path says.  For a path [s] seen from the current
    directory [cd], on a drive [c] with a file system that keeps its laws: up to
    the allocation of path buffers, [open] is exactly [resolve] on the
    components of the completed path, with the file made at the end; it returns
    NULL where [resolve] fails or the drive is not present, and its buffer
    ([p]) is freed.  The terminator of the buffer is written behind the block:
    without an accessible byte there every call is a bad access. *)
Theorem open_resolves k cd s a fl md c rest d :
  in_directory k cd -> cd <> [] -> c_string s a -> s <> [] -> 0 <= slack ->
  Zlen s < 2 ^ 31 -> Zlen cd < 2 ^ 31 -> Zlen (full_path cd s) < 2 ^ 31 ->
  on_drive (full_path cd s) c rest -> drives k !! Z.to_nat (c - 65) = Some d -> FileSystemLaws (drive_fs d) ->
  open a fl md k = Halted \/
  if 1 <=? slack then
    exists p o k', grown k k' /\ (p ∉ dom (objs (objects k))) /\ (p ∈ dom (objs (objects k'))) /\
      open a fl md k =
      (if present d then
         let* root := open_root d in
         let* r := resolve (drive_fs d) fl md root (components rest) in
         match r with
         | None => ret 0
         | Some obj => on_objs (free_obj p) ;;; new_file p o c md obj
         end
       else on_objs (free_obj p) ;;; ret 0) k'
  else open a fl md k = Fault.
Proof using. apply open_run. Qed.

End VFS.
