(* ===== verification/Mount.v ===== *)
(** * fs/devices.c, fs/ustar.c: the drives of the kernel

    TempFS.v's functions as a [FileSystem] of the VFS, with the laws the VFS
    relies on; the drive of the devices, and the initial ramdisk: a USTAR archive
    unpacked onto the drive [R].  The archive is the array of its bytes. *)
From S2P Require Import Prelude Allocator Chain Memory PMM KHeap Strings Vector Events Blocks Tasks TempFS VFS.

(** ** ustar.c: the code *)

Definition ustar_magic : list Z := [117; 115; 116; 97; 114].

(** The name of a file of the archive on the drive, in a buffer [new_name] of
    [n + 4] bytes. *)
Definition name_bytes (drive_char : Z) (name new_name : list Z) (n : Z) : outcome (list Z) :=
  let+ new_name := ku_memset new_name 0 (n + 4) in
  let+ new_name := wr new_name 0 drive_char in
  let+ new_name := wr new_name 1 58 in
  let+ new_name := wr new_name 2 47 in
  let+ new_name := memcpy_at new_name 3 name n in
  wr new_name (n + 4) 0.
(** [archive_addr += (((filesize + 511) / 512) + 1) * 512] *)
Definition next_header (pos filesize : Z) : Z :=
  u64 (pos + u64 (u64 (u64 (filesize + 511) / 512 + 1) * 512)).

Section Ustar.
Context `{AL : Allocator} {Obj : Type}.
Context `{OV : !Object Vector Obj, ON : !Object VectorNode Obj, OE : !Object Event Obj}.
Context `{OT : !Object Task Obj, OB : !Object Block Obj, OL : !Object File Obj}.
Context (core slack : Z) (junk_Block : Z -> Block) (junk_File : Z -> File) (stale : Z -> Z -> list Z).
Context (printf : list Z -> M (Vfs (Obj := Obj)) unit).
Abbreviation Mem := (M (Vfs (Obj := Obj))).


Definition drive_name (drive_char : Z) (name : list Z) : Mem (Z * list Z) :=
  let* n := lift (ku_strlen name) in
  let* (p, new_name) := malloc_buffer slack junk_Block (n + 4) in
  let* new_name := lift (name_bytes drive_char name new_name n) in
  ret (p, new_name).

(** A file made and written; [cli; hlt] on an error. *)
Definition unpack_file (p : Z) (new_name data : list Z) (filesize : Z) : Mem unit :=
  let* f := open core slack junk_Block junk_File stale new_name O_CREATALL MODE_WRITEONLY in
  if f =? 0 then halt
  else
    let* write_status := write printf f data filesize in
    if negb (write_status =? 0) then halt
    else
      close f ;;;
      on_objs (free_obj p).

Fixpoint unpack_loop (fuel : nat) (drive_char : Z) (archive : list Z) (pos : Z) : Mem unit :=
  match fuel with
  | O => fun _ => Spin
  | S fuel' =>
      let archive_addr := drop (Z.to_nat pos) archive in
      let* header := lift (ku_memcmp (drop 257 archive_addr) ustar_magic 5) in
      if negb header then ret tt
      else
        let* size := lift (oct2bin (drop 124 archive_addr) 11) in
        let filesize := u64 size in
        let* type := lift (rd archive_addr 156) in
        (if negb (type =? 53) then
           let* (p, new_name) := drive_name drive_char archive_addr in
           unpack_file p new_name (drop 512 archive_addr) filesize
         else ret tt) ;;;
        unpack_loop fuel' drive_char archive (next_header pos filesize)
  end.
Definition unpack_ustar (drive_char : Z) (archive : list Z) : Mem unit :=
  unpack_loop (S (Z.to_nat (Zlen archive / 512))) drive_char archive 0.

End Ustar.

(** ** Names *)

Lemma memcmp_loop_ext n f a b c :
  (forall i, c <= i < c + Z.of_nat n -> rd a i = rd b i) -> memcmp_loop n f a c = memcmp_loop n f b c.
Proof.
  revert c. induction n as [|n IH]; intros c H; [done|]. cbn [memcmp_loop].
  rewrite (H c) by lia. destruct (rd f c), (rd b c); cbn [obind]; try done.
  destruct (negb _); [done|]. apply IH. intros i Hi. apply H. lia.
Qed.

Lemma rd_string s a i : c_string s a -> 0 <= i < Zlen s -> rd a i = rd s i.
Proof.
  intros [_ [tl ->]] Hi. unfold rd. destruct (i <? 0); [done|]. rewrite lookup_app_l; [done|]. unfold Zlen in Hi. lia.
Qed.

Lemma ku_strcmp_ext f nm a b : c_string nm a -> c_string nm b -> Zlen nm < 2 ^ 31 -> ku_strcmp f a = ku_strcmp f b.
Proof.
  intros Ha Hb Hl. unfold ku_strcmp. rewrite (c_string_strlen _ _ Ha), (c_string_strlen _ _ Hb).
  destruct (ku_strlen f) as [l| | |]; cbn [obind]; [|done..]. destruct (negb _); [done|].
  apply memcmp_loop_ext. intros i Hi. pose proof (Zlen_nonneg nm). rewrite (s32_small (Zlen nm)) in Hi by lia.
  rewrite (rd_string nm a), (rd_string nm b) by (done || lia). done.
Qed.

Lemma ku_memcpy_ext d nm a b : c_string nm a -> c_string nm b -> ku_memcpy d a (Zlen nm) = ku_memcpy d b (Zlen nm).
Proof.
  intros Ha Hb. destruct (c_string_prefix _ _ Ha) as (Hla & Hta & _), (c_string_prefix _ _ Hb) as (Hlb & Htb & _).
  unfold ku_memcpy. rewrite Hta, Htb. by replace (Zlen nm <=? Zlen a) with (Zlen nm <=? Zlen b) by lia.
Qed.

(** ** Archives *)

(** The entries of an archive: name, type and size of each, in headers of 512
    bytes, each followed by its contents in whole blocks; where there is no
    header the archive ends. *)
Inductive archive_of : list (list Z * Z * Z) -> list Z -> Prop :=
  | archive_end a : ku_memcmp (drop 257 a) ustar_magic 5 = Ok false -> archive_of [] a
  | archive_file nm ty size ds header data es a :
      Zlen header = 512 -> c_string nm header ->
      take 5 (drop 257 header) = ustar_magic ->
      take 11 (drop 124 header) = map dec_char ds -> Forall (fun d => 0 <= d < 8) ds ->
      number_value 8 ds = size -> 0 <= size < 2 ^ 31 ->
      rd header 156 = Ok ty ->
      Zlen data = (size + 511) / 512 * 512 ->
      archive_of es a ->
      archive_of ((nm, ty, size) :: es) (header ++ data ++ a).

(** What the loop reads of a header. *)
Lemma header_fields nm ty size ds header rest :
  Zlen header = 512 -> c_string nm header -> take 5 (drop 257 header) = ustar_magic ->
  take 11 (drop 124 header) = map dec_char ds -> Forall (fun d => 0 <= d < 8) ds ->
  number_value 8 ds = size -> 0 <= size < 2 ^ 31 -> rd header 156 = Ok ty ->
  ku_memcmp (drop 257 (header ++ rest)) ustar_magic 5 = Ok true /\
  oct2bin (drop 124 (header ++ rest)) 11 = Ok size /\
  rd (header ++ rest) 156 = Ok ty /\ c_string nm (header ++ rest) /\ drop 512 (header ++ rest) = rest.
Proof.
  intros Hl Hnm Hmagic Hds Hd Hv Hs Hty. unfold Zlen in Hl. split; [|split; [|split; [|split]]].
  - unfold ku_memcmp. rewrite drop_app_le by lia. rewrite memcmp_loop_spec;
      [|rewrite length_app, length_drop; cbn; lia|cbn; lia].
    change (Z.to_nat 5) with 5%nat. rewrite take_app_le by (rewrite length_drop; lia). by rewrite Hmagic.
  - assert (length ds = 11%nat) as Hlen.
    { apply (f_equal length) in Hds. rewrite length_map, length_take, length_drop in Hds. lia. }
    unfold oct2bin. change (Z.to_nat 11) with 11%nat. rewrite drop_app_le by lia.
    rewrite <- (take_drop 11 (drop 124 header)), Hds, <- app_assoc, <- Hlen, oct2bin_loop_spec by (done || lia).
    change (fold_left _ ds 0) with (number_value 8 ds). cbv zeta. rewrite Hv. by replace (size <? 2 ^ 31) with true by lia.
  - rewrite <- Hty. unfold rd. cbn [Z.ltb Z.compare]. by rewrite lookup_app_l by lia.
  - destruct Hnm as [Hz [tl ->]]. split; [done|]. exists (tl ++ rest). by rewrite <- app_assoc.
  - replace 512%nat with (length header) by lia. apply drop_app_length.
Qed.

Lemma next_header_spec pos size :
  0 <= pos < 2 ^ 62 -> 0 <= size < 2 ^ 31 -> next_header pos size = pos + (512 + (size + 511) / 512 * 512).
Proof.
  intros Hp Hs. unfold next_header. rewrite (u64_small (size + 511)) by lia.
  assert (0 <= (size + 511) / 512 < 2 ^ 31) by divlia. set (q := (size + 511) / 512) in *.
  rewrite (u64_small (q + 1)) by lia. rewrite (u64_small ((q + 1) * 512)) by lia. rewrite u64_small by lia. lia.
Qed.

Lemma archive_length es a : archive_of es a -> Zlen es * 512 <= Zlen a.
Proof.
  induction 1 as [a _|nm ty size ds header data es a Hl _ _ _ _ _ _ _ _ _ IH]; [apply Zlen_nonneg|].
  pose proof (Zlen_nonneg data). rewrite Zlen_cons, !Zlen_app. lia.
Qed.

Section Unpack.
Context `{AL : Allocator} {Obj : Type}.
Context `{OV : !Object Vector Obj, ON : !Object VectorNode Obj, OE : !Object Event Obj}.
Context `{OT : !Object Task Obj, OB : !Object Block Obj, OL : !Object File Obj}.
Context (core slack : Z) (junk_Block : Z -> Block) (junk_File : Z -> File) (stale : Z -> Z -> list Z).
Context (printf : list Z -> M (Vfs (Obj := Obj)) unit).

Context (drive_char : Z).

(** What unpacking means: the files of the archive, in order, are made on the
    drive and written with what follows their headers. *)
Definition install_file (nm : list Z) (size : Z) (data : list Z) : M (Vfs (Obj := Obj)) unit :=
  let* (p, b) := malloc_buffer slack junk_Block (Zlen nm + 4) in
  unpack_file core slack junk_Block junk_File stale printf p
    (drive_char :: 58 :: 47 :: nm ++ 0 :: 0 :: tail (drop (length nm + 4) b)) data size.
Fixpoint install (es : list (list Z * Z * Z)) (a : list Z) : M (Vfs (Obj := Obj)) unit :=
  match es with
  | [] => ret tt
  | (nm, ty, size) :: es' =>
      (if ty =? 53 then ret tt else install_file nm size (drop 512 a)) ;;;
      install es' (drop (Z.to_nat (512 + (size + 511) / 512 * 512)) a)
  end.

(** The buffer [malloc] gives has the length asked for and the slack. *)
Lemma malloc_buffer_length n (k k' : Vfs (Obj := Obj)) p b :
  0 <= n -> 0 <= slack -> malloc_buffer slack junk_Block n k = Ok ((p, b), k') -> Zlen b = n + slack.
Proof using.
  intros Hn Hs H. unfold malloc_buffer, on_objs, on_sched, on_store in H.
  apply obind_ok in H as ([r sch] & H & [= -> _]). apply obind_ok in H as ([r' st] & H & [= -> _]).
  apply bind_ok in H as (q & st1 & Hm & H). apply bind_ok in H as (d & st2 & Hg & [= _ <- _]).
  unfold malloc_block in Hm. apply bind_ok in Hm as (q' & st3 & Hr & [= <- <-]).
  unfold raw_obj in Hr. apply obind_ok in Hr as ([a h] & _ & [= <- <-]).
  cbn [block] in Hg. rewrite (get_obj_run _ _ (resize (Z.to_nat (n + slack)) 0 (junk_Block a))) in Hg by look.
  injection Hg as <- <-. unfold Zlen. rewrite length_resize. lia.
Qed.

Lemma name_bytes_run nm here b :
  c_string nm here -> 1 <= slack -> Zlen b = Zlen nm + 4 + slack ->
  name_bytes drive_char here b (Zlen nm) =
    Ok (drive_char :: 58 :: 47 :: nm ++ 0 :: 0 :: tail (drop (length nm + 4) b)).
Proof using.
  intros Hc Hs Hb. pose proof (Zlen_nonneg nm). destruct (c_string_prefix _ _ Hc) as (Hl & Ht & _). unfold name_bytes.
  assert (ku_memset b 0 (Zlen nm + 4) = Ok ([0; 0; 0] ++ replicate (length nm) 0 ++ 0 :: drop (length nm + 4) b)) as ->.
  { unfold ku_memset. destruct (_ <=? _) eqn:E'; [|lia]. f_equal.
    replace (Z.to_nat (Zlen nm + 4)) with (length nm + 4)%nat by (unfold Zlen; lia).
    replace (length nm + 4)%nat with (3 + (length nm + 1))%nat at 1 by lia.
    rewrite !replicate_add, <- !app_assoc. done. }
  destruct (drop (length nm + 4) b) as [|x tl] eqn:Ed.
  { apply (f_equal length) in Ed. rewrite length_drop in Ed. unfold Zlen in *. cbn in Ed. lia. }
  cbn [app tail obind]. rewrite wr_hd. cbn [obind]. rewrite wr_snd. cbn [obind].
  set (z := replicate (length nm) 0). assert (Zlen z = Zlen nm) as Hz by apply Zlen_replicate.
  rewrite (wr_mid [drive_char; 58] (z ++ 0 :: x :: tl) 47 0 2 eq_refl : wr (drive_char :: 58 :: 0 :: z ++ 0 :: x :: tl) 2 47 = _).
  cbn [obind app].
  rewrite (memcpy_at_mid [drive_char; 58; 47] z (0 :: x :: tl) here 3 (Zlen nm) eq_refl (eq_sym Hz) ltac:(lia)
    : memcpy_at (drive_char :: 58 :: 47 :: z ++ 0 :: x :: tl) 3 here (Zlen nm) = _).
  replace (length z) with (Z.to_nat (Zlen nm)) by (unfold Zlen in *; lia). rewrite Ht. cbn [obind].
  replace (([drive_char; 58; 47] ++ nm ++ 0 :: x :: tl)) with (([drive_char; 58; 47] ++ nm ++ [0]) ++ x :: tl)
    by (by rewrite <- !app_assoc).
  rewrite (wr_mid _ tl 0 x) by (autorewrite with zlen; lia). by rewrite <- !app_assoc.
Qed.

Lemma drive_name_run {B} nm here (f : Z * list Z -> M (Vfs (Obj := Obj)) B) k :
  c_string nm here -> 1 <= slack ->
  bind (drive_name slack junk_Block drive_char here) f k =
  (let* (p, b) := malloc_buffer slack junk_Block (Zlen nm + 4) in
   f (p, drive_char :: 58 :: 47 :: nm ++ 0 :: 0 :: tail (drop (length nm + 4) b))) k.
Proof using.
  intros Hc Hs. unfold drive_name. rewrite bind_assoc, (bind_lift _ _ _ _ (c_string_strlen _ _ Hc)), bind_assoc.
  apply bind_ext_ok. intros [p b] k' E.
  apply malloc_buffer_length in E; [|pose proof (Zlen_nonneg nm); lia|lia].
  by rewrite bind_assoc, (bind_lift _ _ _ _ (name_bytes_run nm here b Hc Hs E)).
Qed.

Lemma unpack_loop_install es a :
  archive_of es a -> 1 <= slack ->
  forall archive pos fuel k, drop (Z.to_nat pos) archive = a -> 0 <= pos < 2 ^ 62 -> Zlen archive < 2 ^ 62 ->
  pos <= Zlen archive -> (length es < fuel)%nat ->
  unpack_loop core slack junk_Block junk_File stale printf fuel drive_char archive pos k = install es a k.
Proof using.
  intros Ha Hslack. induction Ha as [a Hend|nm ty size ds header data es a Hl Hnm Hmagic Hds Hd Hv Hs Hty Hdata Ha IH];
    intros archive pos fuel k Hdrop Hpos Hlen Hle Hf; (destruct fuel as [|fuel]; [cbn in Hf; lia|]);
    cbn [unpack_loop install]; rewrite Hdrop.
  - by rewrite (bind_lift _ _ _ _ Hend).
  - destruct (header_fields nm ty size ds header (data ++ a) Hl Hnm Hmagic Hds Hd Hv Hs Hty) as (E1 & E2 & E3 & Hc & E4).
    rewrite (bind_lift _ _ _ _ E1). cbn [negb]. rewrite (bind_lift _ _ _ _ E2), (bind_lift _ _ _ _ E3). cbv zeta.
    rewrite u64_small by lia. rewrite next_header_spec by lia.
    set (step := 512 + (size + 511) / 512 * 512).
    assert (0 <= step) by (unfold step; divlia).
    assert (Zlen (header ++ data) = step) as Hstep by (rewrite Zlen_app; lia).
    assert (drop (Z.to_nat step) (header ++ data ++ a) = a) as Hnext.
    { rewrite app_assoc, <- Hstep, Zlen_to_nat. apply drop_app_length. }
    assert (pos + step <= Zlen archive) as Hle'.
    { apply (f_equal Zlen) in Hdrop. rewrite app_assoc, Zlen_app, Hstep in Hdrop. pose proof (Zlen_nonneg a).
      unfold Zlen in *. rewrite length_drop in Hdrop. lia. }
    rewrite Hnext. apply bind_ext.
    + destruct (ty =? 53); cbn [negb]; [done|]. rewrite (drive_name_run nm) by done. unfold install_file. by rewrite E4.
    + intros [] k'. apply IH; [|lia|done|done|cbn in Hf; lia].
      rewrite Z2Nat.inj_add, <- drop_drop, Hdrop by lia. exact Hnext.
Qed.

(** [unpack_ustar] understands archives: on an archive with the entries [es]
    it ends, and does exactly what [install] says, which is to make and write
    the files of the archive in their order, each under its name on the drive
    and with the bytes behind its header, and to pass over directories.  Paths
    of 2 GiB files apart, it reads nothing outside the archive; the terminator
    of a name is written one byte behind its buffer. *)
Lemma unpack_ustar_run es archive k :
  archive_of es archive -> Zlen archive < 2 ^ 62 -> 1 <= slack ->
  unpack_ustar core slack junk_Block junk_File stale printf drive_char archive k = install es archive k.
Proof using.
  intros Ha Hl Hs. unfold unpack_ustar. pose proof (archive_length es archive Ha). pose proof (Zlen_nonneg archive).
  apply (unpack_loop_install es archive Ha Hs); try lia; [done|]. unfold Zlen in *. divlia.
Qed.
End Unpack.

Section Mount.
Context `{AL : Allocator} {Obj : Type}.
Context `{OV : !Object Vector Obj, ON : !Object VectorNode Obj, OE : !Object Event Obj}.
Context `{OT : !Object Task Obj, OB : !Object Block Obj, OL : !Object File Obj}.
Context `{OI : !Object Inode Obj, OD : !Object DirEntryNode Obj, OF : !Object FileNode Obj}.
Context (junk_Inode : Z -> Inode) (junk_DirEntryNode : Z -> DirEntryNode) (junk_FileNode : Z -> FileNode).
Context (call_read : Z -> Z -> list Z -> Z -> M (Store Obj) (Z * list Z)).
Context (call_write : Z -> Z -> list Z -> Z -> M (Store Obj) Z).
Context (call_open : Z -> Z -> Z -> M (Store Obj) unit) (call_close : Z -> Z -> M (Store Obj) unit).

(** ** tempfs.c: the functions as a file system *)

Definition TempFS : FileSystem Obj :=
  {| fs_id := FS_TEMPFS;
     find_function := tempfs_find;
     find_root_function := fun fs => ret (tempfs_find_root fs);
     open_dir_function := tempfs_open_dir;
     open_file_function := tempfs_open_file call_open;
     mkdir_function := tempfs_mkdir junk_Inode junk_DirEntryNode;
     mkfile_function := tempfs_mkfile junk_Inode junk_DirEntryNode;
     close_function := tempfs_close call_close;
     write_function := tempfs_write junk_FileNode call_write;
     read_function := tempfs_read call_read;
     length_function := tempfs_length;
     create_device_function := tempfs_create_device junk_Inode junk_DirEntryNode |}.

(** ** The laws of TempFS *)

Lemma tempfs_find_name d nm a b s :
  c_string nm a -> c_string nm b -> Zlen nm < 2 ^ 31 -> tempfs_find d a s = tempfs_find d b s.
Proof using.
  intros Ha Hb Hl. unfold tempfs_find. apply bind_ext; [done|]. intros dir s1. apply bind_ext; [done|]. intros e s2.
  rewrite !bind_get. generalize (base.size (objs s2)) as n.
  generalize (first_node dir), (inode e), s2. intros p i st n. revert p i st.
  induction n as [|n IH]; intros p i st; cbn [find_loop]; (destruct (p =? 0); [done|]); [done|].
  apply bind_ext; [done|]. intros ino s3. rewrite (ku_strcmp_ext _ nm a b) by done.
  apply bind_ext; [done|]. intros eq s4. apply bind_ext; [done|]. intros e' s5. destruct eq; [done|].
  destruct (negb _); [|apply IH]. apply bind_ext; [done|]. intros e2 s6. apply IH.
Qed.

Lemma tempfs_addentry_name d nm a b isdir s :
  c_string nm a -> c_string nm b ->
  tempfs_addentry junk_Inode junk_DirEntryNode d a isdir s = tempfs_addentry junk_Inode junk_DirEntryNode d b isdir s.
Proof using.
  intros Ha Hb. unfold tempfs_addentry. rewrite (c_string_strlen _ _ Ha), (c_string_strlen _ _ Hb).
  do 7 (apply bind_ext; [done|]; intros ? ?). rewrite !(bind_lift _ (Zlen nm)) by done.
  by rewrite (ku_memcpy_ext _ nm a b).
Qed.

#[export] Instance TempFS_laws : FileSystemLaws TempFS.
Proof using.
  split; intros d nm a b; [intros Ha Hb Hl s; by apply (tempfs_find_name d nm)|..]; intros.
  - apply bind_ext; [by apply (tempfs_addentry_name d nm)|done].
  - apply bind_ext; [by apply (tempfs_addentry_name d nm)|done].
  - apply bind_ext; [by apply (tempfs_addentry_name d nm)|done].
Qed.

(** ** devices.c *)

(** The function ends without a [return]: the status is what the register holds. *)
Definition devzero_read (status : Z) (buffer : list Z) (maxlen : Z) : outcome (Z * list Z) :=
  let+ buffer := ku_memset buffer 0 maxlen in Ok (status, buffer).

(** [devzero_open] prints a message at most; [devzero_close] does nothing. *)
Definition devzero_open (md : Z) : bool := negb (md =? MODE_READONLY).

Context (core slack : Z) (junk_Block : Z -> Block) (junk_File : Z -> File) (stale : Z -> Z -> list Z).
Context (printf : list Z -> M (Vfs (Obj := Obj)) unit).
Abbreviation Mem := (M (Vfs (Obj := Obj))).

(** ["D:/devzero"], and the operations of the device: no [write]. *)
Definition devzero_path : list Z := [68; 58; 47; 100; 101; 118; 122; 101; 114; 111; 0].
Definition init_devices (read_address open_address close_address : Z) : Mem unit :=
  let* devfs := on_objs (tempfs_new junk_Inode junk_DirEntryNode) in
  mount 68 FS_TEMPFS true devfs 0 0 ;;;
  create_device core slack junk_Block devzero_path
    {| dev_read := read_address; dev_write := 0; dev_open := open_address; dev_close := close_address |} ;;;
  ret tt.

Definition setup_initrd (initial_ramdisk : list Z) : Mem unit :=
  let* new_tempfs := on_objs (tempfs_new junk_Inode junk_DirEntryNode) in
  mount 82 FS_TEMPFS true new_tempfs 0 0 ;;;
  unpack_ustar core slack junk_Block junk_File stale printf 82 initial_ramdisk.
End Mount.

(** ** Examples *)

Abbreviation VfsObj :=
  (Vector + VectorNode + Event + Task + Block + File + Inode + DirEntryNode + FileNode)%type.
Definition zero_File : File :=
  {| f_present := false; f_ftype := 0; f_length := 0; drive_char := 0; mode := 0; f_private := 0 |}.

Abbreviation vfs := (Vfs (Obj := VfsObj)).
Definition demo_fs : FileSystem VfsObj :=
  TempFS (fun _ => zero_Inode) (fun _ => zero_DirEntryNode) (fun _ => zero_FileNode)
    (fun _ _ b _ => ret (0, b)) (fun _ _ _ _ => ret 0) (fun _ _ _ => ret tt) (fun _ _ => ret tt).
Definition demo_open (path : list Z) (fl md : Z) : M vfs Z :=
  open 0 2 (fun _ => []) (fun _ => zero_File) (fun _ _ => [97; 0]) path fl md.
Definition demo_boot : M vfs unit :=
  on_sched (init_tasklist 2 (fun _ => zero_Task) (fun _ => []) 0 1 0) ;;; init_vfs demo_fs.

(** Run on a fresh heap. *)
Definition run_vfs {A} (m : M vfs A) : option A :=
  value_of (on_boot (Obj := VfsObj)
    (fun s => let+ (a, k) := (demo_boot ;;; m) (MkVfs (MkSched s 0 0 false false) [] []) in Ok (a, store (scheduler k)))).

(** A header for the file [a] of three bytes, its block, and the end of the
    archive. *)
Definition demo_header : list Z :=
  [97] ++ replicate 123 0 ++ map dec_char [0; 0; 0; 0; 0; 0; 0; 0; 0; 0; 3] ++ replicate 21 0 ++ [48] ++
  replicate 100 0 ++ ustar_magic ++ replicate 250 0.
Definition demo_archive : list Z := demo_header ++ ([1; 2; 3] ++ replicate 509 0) ++ replicate 1024 0.

(** The ramdisk is unpacked; its file is read back through the VFS, by a
    relative and by an absolute path, and directories are made on the way. *)
Example vfs_demo :
  run_vfs (
    setup_initrd (fun _ => zero_Inode) (fun _ => zero_DirEntryNode) 0 2 (fun _ => []) (fun _ => zero_File)
      (fun _ _ => [97; 0]) (fun _ => ret tt) demo_archive ;;;
    let* f := demo_open [97; 0] 0 MODE_READONLY in
    let* r := read f [9; 9; 9; 9] 3 in
    mkdir 0 2 (fun _ => []) [47; 100; 47; 101; 47; 0] ;;;
    change_cd 0 2 (fun _ => []) [100; 0] ;;;
    let* g := demo_open [101; 47; 98; 0] O_CREAT MODE_READONLY in
    let* none := demo_open [98; 0] 0 MODE_READONLY in
    let* n := file_length f in
    ret (r, n, negb (g =? 0), none)) = Some ((0, [1; 2; 3; 9]), 3, true, 0).
Proof. vm_compute. reflexivity. Qed.

(** The VFS of a machine with one task in [R:/] and a drive [R]. *)
Lemma vfs_start : exists k : vfs, in_directory 0 k root_path /\ drives k !! 17%nat =
  Some {| present := true; drive_fs := demo_fs; in_memory := true; mem_offset := 4096; partition := 0 |} /\
  length (drives k) = 26%nat /\ filesystems k = [demo_fs].
Proof.
  destruct (on_boot_start (Obj := VfsObj) (ret tt) tt) as (s0 & s & _ & Hok & _); [vm_compute; reflexivity|].
  set (boot := fun s : Store VfsObj => let+ (_, k) := init_tasklist 2 (fun _ => zero_Task) (fun _ => []) 0 1 0
    (MkSched s 0 0 false false) in Ok (tt, store k)).
  clear s0 s Hok. destruct (on_boot_start boot tt) as (s0 & s & E & Hok & _); [vm_compute; reflexivity|].
  destruct (init_tasklist_spec 2 (fun _ => zero_Task) (fun _ => []) 0 1 0 (MkSched s0 0 0 false false) Hok
    ltac:(done) ltac:(done) ltac:(done)) as [(k & p & q & b & E' & Hs & Hu & Hstr & _)|E'];
    [|unfold boot in E; by rewrite E' in E].
  exists (MkVfs k (<[17%nat := {| present := true; drive_fs := demo_fs; in_memory := true; mem_offset := 4096;
    partition := 0 |}]> (replicate 26 no_drive)) [demo_fs]). split; [|done].
  exists [p], [first_Task p q 0 0 (MkPtr b 0)], [0], 0%nat, (first_Task p q 0 0 (MkPtr b 0)). by split_and!.
Qed.

Lemma open_resolves_witness :
  exists (k : vfs) d, drives k !! 17%nat = Some d /\
    (demo_open [97; 0] O_CREAT MODE_READWRITE k = Halted \/
     exists p o k', grown k k' /\ (p ∉ dom (objs (store (scheduler k)))) /\ (p ∈ dom (objs (store (scheduler k')))) /\
       demo_open [97; 0] O_CREAT MODE_READWRITE k =
       (let* root := open_root d in
        let* r := resolve (drive_fs d) O_CREAT MODE_READWRITE root [[97]] in
        match r with
        | None => ret 0
        | Some obj => on_objs (free_obj p) ;;; new_file (fun _ => zero_File) (fun _ _ => [97; 0]) p o 82 MODE_READWRITE obj
        end) k').
Proof.
  destruct vfs_start as (k & Hk & Hd & _). eexists k, _. split; [exact Hd|].
  exact (open_resolves 0 2 (fun _ => []) (fun _ => zero_File) (fun _ _ => [97; 0]) k root_path [97] [97; 0] O_CREAT MODE_READWRITE
    82 [97] _ Hk ltac:(done) (proj1 fs_names) ltac:(done) ltac:(done) ltac:(done) ltac:(done) ltac:(done)
    ltac:(by split) Hd (TempFS_laws _ _ _ _ _ _ _)).
Defined.


Lemma demo_archive_entries : archive_of [([97], 48, 3)] demo_archive.
Proof.
  apply (archive_file [97] 48 3 [0; 0; 0; 0; 0; 0; 0; 0; 0; 0; 3] demo_header); try reflexivity; try lia.
  - split; [repeat constructor; lia|by eexists].
  - repeat constructor; lia.
  - by apply archive_end.
Qed.
