(* ===== verification/FileTree.v ===== *)
(** * The files of a drive as a tree of paths

    The specification of fs/tempfs.c: a drive holds a finite map from paths to
    directories, the bytes of regular files, and devices.  This file says where in
    the heap such a tree lies ([layout_ok]), and shows that finding, making,
    writing and reading through TempFS are operations on the tree; what else lies
    in the heap stays ([grows]). *)
From S2P Require Import Prelude Allocator Chain Memory PMM KHeap Strings Vector Events Blocks Tasks TempFS VFS Mount.

(** ** Trees *)

(** The components of a path from the root of the drive. *)
Abbreviation path := (list (list Z)).

Inductive content := Directory | Regular (bytes : list Z) | Device (ops : DeviceOps).
Abbreviation tree := (gmap path content).

(** The names a component can have: [.] and [..] are entries of every directory. *)
Definition name_ok (nm : list Z) : Prop :=
  VFS.plain nm /\ nm <> [] /\ Zlen nm < FILENAME_SIZE /\ nm <> name_dot /\ nm <> name_dotdot.

(** ** What is taken from [malloc]

    [malloc] clears no block, and fs/tempfs.c reads two fields of a new block that
    it has not written: the [num_entries] of a root directory ([tempfs_new]) and
    the [next_node] of the first node of a file ([tempfs_write]).  The claims on
    drives are for memory in which these happen to be zero, and say so. *)
Definition no_entries (junk_Inode : Z -> Inode) : Prop := forall a, num_entries (junk_Inode a) = 0.
Definition null_links (junk_FileNode : Z -> FileNode) : Prop := forall a, fnext (junk_FileNode a) = 0.

(** ** Where a tree lies *)

(** A directory: its inode, its nodes, the inodes of [.] and [..], and its other
    entries; a file: its inode and its nodes. *)
Inductive place :=
  | DirPlace (d : Z) (ns : list Z) (fi up : Z) (ents : list (list Z * Z))
  | FilePlace (f : Z) (ns : list Z).
Abbreviation layout := (gmap path place).

Definition address (pl : place) : Z := match pl with DirPlace d _ _ _ _ => d | FilePlace f _ => f end.
Definition footprint (pl : place) : gset Z :=
  list_to_set (match pl with DirPlace d ns fi up _ => d :: ns ++ [fi; up] | FilePlace f ns => f :: ns end).
(** All the objects of a layout. *)
Definition owned (L : layout) : gset Z := ⋃ (footprint <$> (map_to_list L).*2).

Definition dots (fi up : Z) : list (list Z * Z) := [(name_dot, fi); (name_dotdot, up)].

Lemma elem_of_owned L q : q ∈ owned L <-> exists p pl, L !! p = Some pl /\ q ∈ footprint pl.
Proof.
  unfold owned. rewrite elem_of_union_list. split.
  - intros (X & HX & Hq). apply list_elem_of_fmap in HX as (pl & -> & Hpl).
    apply list_elem_of_fmap in Hpl as ([p pl'] & -> & Hin). apply elem_of_map_to_list in Hin. by exists p, pl'.
  - intros (p & pl & Hp & Hq). exists (footprint pl). split; [|done]. apply list_elem_of_fmap_2.
    apply (list_elem_of_fmap_2' snd _ (p, pl)); [by apply elem_of_map_to_list|done].
Qed.

Lemma address_in pl : address pl ∈ footprint pl.
Proof. destruct pl; cbn; set_solver. Qed.

Lemma find_entry_in nm a ents : NoDup (map fst ents) -> (nm, a) ∈ ents -> find_entry nm ents = a.
Proof.
  induction ents as [|[nm' a'] ents IH]; cbn [map fst find_entry]; [by intros _ ?%elem_of_nil|].
  intros [Hn Hnd]%NoDup_cons [[= -> ->]|Hin]%elem_of_cons; [by rewrite bool_decide_eq_true_2|].
  rewrite bool_decide_eq_false_2; [by apply IH|]. intros ->. apply Hn. by apply (list_elem_of_fmap_2' fst _ (nm, a)).
Qed.

Lemma find_entry_none nm ents : (forall a, (nm, a) ∉ ents) -> find_entry nm ents = 0.
Proof.
  induction ents as [|[nm' a'] ents IH]; intros H; [done|]. cbn [find_entry].
  rewrite bool_decide_eq_false_2; [apply IH; intros a Ha; by apply (H a); right|].
  intros ->. apply (H a'). by left.
Qed.

Lemma find_entry_dots nm fi up ents : name_ok nm -> find_entry nm (dots fi up ++ ents) = find_entry nm ents.
Proof.
  intros (_ & _ & _ & H1 & H2). cbn [dots app find_entry]. by rewrite !bool_decide_eq_false_2 by congruence.
Qed.

Section Layout.
Context `{AL : Allocator} {Obj : Type}.
Context `{OI : !Object Inode Obj, OD : !Object DirEntryNode Obj, OF : !Object FileNode Obj}.
Abbreviation entries := (linked dnext inode).
Abbreviation chunks := (linked fnext data).

Record holds_dir (s : Store Obj) (d : Z) (ns : list Z) (fi up : Z) (ents : list (list Z * Z)) : Prop := {
  hd_inode : exists r, typed_at s d r /\ is_dir r = true /\ num_entries r = Zlen ents + 1 /\
    entries s (first_node r) ns (map snd (dots fi up ++ ents)) 0;
  hd_dots : named s (dots fi up);
  hd_nodup : NoDup (d :: ns ++ [fi; up])
}.
Record holds_file (s : Store Obj) (f : Z) (ns : list Z) (bytes : list Z) : Prop := {
  hf_nodup : NoDup (f :: ns);
  hf_inode : exists x cs tl, typed_at s f x /\ ftype x <> FILETYPE_DEVICE /\ is_dir x = false /\
    file_len x = Zlen bytes /\ chunks s (first_node x) ns cs 0 /\ full_chunks cs /\ concat cs = bytes ++ tl
}.
Definition holds (s : Store Obj) (pl : place) (c : content) : Prop :=
  match c, pl with
  | Directory, DirPlace d ns fi up ents => holds_dir s d ns fi up ents
  | Regular bytes, FilePlace f ns => holds_file s f ns bytes
  | Device ops, FilePlace f ns => ns = [] /\ exists x, typed_at s f x /\ ftype x = FILETYPE_DEVICE /\ operations x = ops
  | _, _ => False
  end.
(** The inode at [a] has the name [nm]. *)
Definition has_name (s : Store Obj) (nm : list Z) (a : Z) : Prop :=
  exists x, typed_at s a x /\ c_string nm (filename x) /\ Zlen nm < FILENAME_SIZE.

(** The tree [t] lies in the places [L], its root directory at [root]: every
    directory has the entries of its children, no two places meet. *)
Record layout_ok (s : Store Obj) (root : Z) (L : layout) (t : tree) : Prop := {
  lo_root : exists pl, L !! [] = Some pl /\ address pl = root /\ t !! [] = Some Directory;
  lo_holds p : match L !! p, t !! p with Some pl, Some c => holds s pl c | None, None => True | _, _ => False end;
  lo_named p nm pl : L !! (p ++ [nm]) = Some pl -> has_name s nm (address pl) /\ name_ok nm;
  lo_apart p q pl pl' : L !! p = Some pl -> L !! q = Some pl' -> p <> q -> footprint pl ## footprint pl';
  lo_entries p d ns fi up ents : L !! p = Some (DirPlace d ns fi up ents) ->
    NoDup (map fst ents) /\ Zlen ents < Z.of_nat (base.size L) /\
    forall nm a, (nm, a) ∈ ents <-> exists pl, L !! (p ++ [nm]) = Some pl /\ address pl = a;
  lo_closed p nm pl : L !! (p ++ [nm]) = Some pl -> exists d ns fi up ents, L !! p = Some (DirPlace d ns fi up ents)
}.

(** *** What a place depends on *)

Lemma holds_footprint s pl c : holds s pl c -> footprint pl ⊆ dom (objs s).
Proof using.
  destruct pl as [d ns fi up ents|f ns], c as [|bytes|ops]; cbn [holds]; try done.
  - intros [(r & Hr & _ & _ & Hch) Hd _] q. unfold footprint. rewrite elem_of_list_to_set, elem_of_cons, elem_of_app.
    apply Forall_cons in Hd as [(x & Hx & _) Hd]. apply Forall_cons in Hd as [(y & Hy & _) _]. cbn [snd] in *.
    intros [->|[Hq|Hq]]; [by eapply elem_of_dom_2| |].
    + apply (linked_in_store _ _ _ _ _ Hch). by apply elem_of_list_to_set.
    + rewrite !elem_of_cons in Hq. destruct Hq as [->|[->|[]%elem_of_nil]]; by eapply elem_of_dom_2.
  - intros [_ (x & cs & tl & Hx & _ & _ & _ & Hch & _)] q. unfold footprint. rewrite elem_of_list_to_set, elem_of_cons.
    intros [->|Hq]; [by eapply elem_of_dom_2|]. apply (linked_in_store _ _ _ _ _ Hch). by apply elem_of_list_to_set.
  - intros (-> & x & Hx & _) q. unfold footprint. rewrite elem_of_list_to_set, list_elem_of_singleton. intros ->. by eapply elem_of_dom_2.
Qed.

Lemma holds_frame s s' pl c :
  (forall q, q ∈ footprint pl -> objs s' !! q = objs s !! q) -> holds s pl c -> holds s' pl c.
Proof using.
  intros Hs H. destruct pl as [d ns fi up ents|f ns], c as [|bytes|ops]; unfold holds, footprint in *; try done.
  - destruct H as [(r & Hr & Hd & Hn & Hch) Hdots Hnd].
    apply Forall_cons in Hdots as [(x & Hx & Hxn) Hdots]. apply Forall_cons in Hdots as [(y & Hy & Hyn) _]. cbn [snd] in *.
    constructor; [|constructor; [exists x|constructor; [exists y|constructor]]|done].
    + exists r. unfold typed_at in *. rewrite Hs by set_solver. split_and!; try done.
      eapply linked_frame; [|exact Hch]. intros q Hq. apply Hs. set_solver.
    + unfold typed_at in *. cbn [snd]. by rewrite Hs by set_solver.
    + unfold typed_at in *. cbn [snd]. by rewrite Hs by set_solver.
  - destruct H as [Hnd (x & cs & tl & Hx & Ht & Hd & Hl & Hch & H)]. constructor; [done|].
    exists x, cs, tl. unfold typed_at in *. rewrite Hs by set_solver. split_and!; try done; [|apply H..].
    eapply linked_frame; [|exact Hch]. intros q Hq. apply Hs. set_solver.
  - destruct H as (-> & x & Hx & H). split; [done|]. exists x. unfold typed_at in *. by rewrite Hs by set_solver.
Qed.

Lemma has_name_frame s s' nm a : objs s' !! a = objs s !! a -> has_name s nm a -> has_name s' nm a.
Proof using. intros Hs (x & Hx & H). exists x. unfold typed_at in *. by rewrite Hs. Qed.

Lemma owned_place L p pl q : L !! p = Some pl -> q ∈ footprint pl -> q ∈ owned L.
Proof using. intros Hp Hq. apply elem_of_owned. by exists p, pl. Qed.

Lemma layout_frame s s' root L t :
  (forall q, q ∈ owned L -> objs s' !! q = objs s !! q) -> layout_ok s root L t -> layout_ok s' root L t.
Proof using.
  intros Hs [Hroot Hh Hn Ha He Hc]. constructor; try done.
  - intros p. specialize (Hh p). destruct (L !! p) as [pl|] eqn:Hp, (t !! p) as [c|]; try done.
    eapply holds_frame; [|exact Hh]. intros q Hq. apply Hs. by eapply owned_place.
  - intros p nm pl Hp. destruct (Hn p nm pl Hp) as [H Hok]. split; [|done]. eapply has_name_frame; [|exact H].
    apply Hs. eapply owned_place; [exact Hp|apply address_in].
Qed.

Section Facts.
Context (s : Store Obj) (root : Z) (L : layout) (t : tree) (HL : layout_ok s root L t).

Lemma layout_in_store q : q ∈ owned L -> q ∈ dom (objs s).
Proof using HL.
  rewrite elem_of_owned. intros (p & pl & Hp & Hq). pose proof (lo_holds _ _ _ _ HL p) as H. rewrite Hp in H.
  destruct (t !! p); [|done]. by eapply holds_footprint.
Qed.

Lemma layout_content p pl : L !! p = Some pl -> exists c, t !! p = Some c /\ holds s pl c.
Proof using HL.
  intros Hp. pose proof (lo_holds _ _ _ _ HL p) as H. rewrite Hp in H. destruct (t !! p) as [c|]; [by exists c|done].
Qed.

Lemma layout_place p c : t !! p = Some c -> exists pl, L !! p = Some pl /\ holds s pl c.
Proof using HL.
  intros Hp. pose proof (lo_holds _ _ _ _ HL p) as H. rewrite Hp in H. destruct (L !! p) as [pl|]; [by exists pl|done].
Qed.

Lemma layout_none p : t !! p = None <-> L !! p = None.
Proof using HL. pose proof (lo_holds _ _ _ _ HL p) as H. by destruct (L !! p), (t !! p). Qed.

Lemma layout_size : base.size L = base.size t.
Proof using HL.
  rewrite <- (size_dom L), <- (size_dom t). f_equal. apply set_eq. intros p. rewrite !elem_of_dom.
  pose proof (lo_holds _ _ _ _ HL p) as H. by destruct (L !! p), (t !! p).
Qed.

Lemma layout_directory p : t !! p = Some Directory -> exists d ns fi up ents, L !! p = Some (DirPlace d ns fi up ents).
Proof using HL.
  intros (pl & Hp & H)%layout_place. destruct pl as [d ns fi up ents|f ns]; [by eexists _, _, _, _, _|done].
Qed.

Lemma layout_regular p bytes : t !! p = Some (Regular bytes) ->
  exists f ns, L !! p = Some (FilePlace f ns) /\ holds_file s f ns bytes.
Proof using HL.
  intros (pl & Hp & H)%layout_place. destruct pl as [d ns fi up ents|f ns]; [done|by eexists _, _].
Qed.

Lemma layout_address p q pl pl' : L !! p = Some pl -> L !! q = Some pl' -> address pl = address pl' -> p = q.
Proof using HL.
  intros Hp Hq Ha. destruct (decide (p = q)) as [|Hne]; [done|exfalso].
  pose proof (lo_apart _ _ _ _ HL p q pl pl' Hp Hq Hne) as Hd. pose proof (address_in pl). pose proof (address_in pl').
  rewrite Ha in *. set_solver.
Qed.

(** What TempFS.v says of a directory. *)
Lemma layout_tree p d ns fi up ents :
  L !! p = Some (DirPlace d ns fi up ents) -> tree_directory s d ns (dots fi up ++ ents).
Proof using HL.
  intros Hp. destruct (layout_content _ _ Hp) as ([| |] & Ht & H); try done.
  destruct H as [(r & Hr & Hd & Hn & Hch) Hdots Hnd].
  destruct (lo_entries _ _ _ _ HL _ _ _ _ _ _ Hp) as (Hnames & _ & Hents). split; [constructor; [|done| |]|].
  - exists r. split_and!; try done. rewrite Hn. unfold dots. zlen.
  - apply Forall_app. split; [done|]. apply Forall_forall. intros [nm a] Hin. apply Hents in Hin as (pl & Hpl & <-).
    by apply (lo_named _ _ _ _ HL) in Hpl as [Hpl _].
  - change (d :: ns ++ [fi; up]) with ((d :: ns) ++ [fi; up]) in Hnd. by apply NoDup_app in Hnd as (Hnd & _).
  - rewrite map_app, app_assoc. change (d :: (ns ++ map snd (dots fi up)) ++ map snd ents) with ((d :: ns ++ [fi; up]) ++ map snd ents).
    apply NoDup_app. split_and!; [done| |].
    + intros q Hq Hin. apply list_elem_of_fmap in Hin as ([nm a] & -> & Hin). apply Hents in Hin as (pl & Hpl & Ha). cbn [snd] in Hq.
      pose proof (lo_apart _ _ _ _ HL _ _ _ _ Hp Hpl ltac:(intros E; apply (f_equal length) in E; rewrite length_app in E; cbn in E; lia)) as Hdis.
      pose proof (address_in pl). unfold footprint in Hdis. rewrite Ha in *. set_solver.
    + apply NoDup_fmap_1 in Hnames as Hents'. apply (NoDup_fmap_2_strong snd); [|done].
      intros [n1 a1] [n2 a2] (pl1 & H1 & <-)%Hents (pl2 & H2 & <-)%Hents E. cbn [snd] in E.
      pose proof (layout_address _ _ _ _ H1 H2 E) as Heq. apply app_inj_tail in Heq as [_ <-].
      rewrite H1 in H2. by injection H2 as ->.
Qed.

Lemma layout_find p d ns fi up ents nm dirname :
  store_ok s -> L !! p = Some (DirPlace d ns fi up ents) -> name_ok nm -> c_string nm dirname ->
  tempfs_find d dirname s = Ok (match L !! (p ++ [nm]) with Some pl => address pl | None => 0 end, s).
Proof using HL.
  intros Hok Hp Hnm Hc. pose proof Hnm as (_ & _ & Hl & _). unfold FILENAME_SIZE in Hl.
  destruct (layout_tree _ _ _ _ _ _ Hp) as [Hdir _]. rewrite (tempfs_find_spec _ _ _ _ _ _ Hok Hdir Hc ltac:(lia)).
  rewrite find_entry_dots by done. destruct (lo_entries _ _ _ _ HL _ _ _ _ _ _ Hp) as (Hnames & _ & Hents).
  do 2 f_equal. destruct (L !! (p ++ [nm])) as [pl|] eqn:Hpl.
  - apply find_entry_in; [done|]. apply Hents. by exists pl.
  - apply find_entry_none. intros a (pl & Hpl' & _)%Hents. congruence.
Qed.

Lemma layout_not_null p pl : store_ok s -> L !! p = Some pl -> address pl <> 0.
Proof using HL.
  intros (A & _ & _ & H0) Hp E. apply H0. rewrite <- E. apply layout_in_store. eapply owned_place; [exact Hp|apply address_in].
Qed.
End Facts.

(** *** Changing the tree *)

(** What an operation on a tree leaves alone: the objects of others stay, and
    its own places keep their inodes. *)
Record grows (s s' : Store Obj) (L L' : layout) : Prop := {
  gr_same : same_except (owned L) s s';
  gr_dom : dom (objs s) ⊆ dom (objs s');
  gr_owned q : q ∈ owned L' -> q ∈ owned L \/ q ∉ dom (objs s);
  gr_address p pl : L !! p = Some pl -> exists pl', L' !! p = Some pl' /\ address pl' = address pl
}.

Lemma grows_refl s L : grows s s L L.
Proof using. constructor; [done|done|by left|]. intros p pl H. by exists pl. Qed.

Lemma grows_trans s1 s2 s3 L1 L2 L3 : grows s1 s2 L1 L2 -> grows s2 s3 L2 L3 -> grows s1 s3 L1 L3.
Proof using.
  intros [A1 A2 A3 A4] [B1 B2 B3 B4]. constructor.
  - intros q Hq Hd. rewrite B1; [by apply A1| |by apply A2]. intros [?|?]%A3; done.
  - by etransitivity.
  - intros q [Hq|Hq]%B3; [by apply A3|]. right. intros Hd. by apply Hq, A2.
  - intros p pl (pl' & H' & <-)%A4. by apply B4.
Qed.

(** Objects that are not of the drive come and go. *)
Lemma grows_free (s s1 s2 : Store Obj) p L L' : grows s s1 L L' -> (p ∉ dom (objs s)) -> objs s2 = delete p (objs s1) -> grows s s2 L L'.
Proof using.
  intros [A1 A2 A3 A4] Hp E. constructor; [| |done|done].
  - intros q Hq Hd. rewrite E, lookup_delete_ne by congruence. by apply A1.
  - rewrite E, dom_delete. set_solver.
Qed.

Lemma layout_free (s s' : Store Obj) p root L t : layout_ok s root L t -> (p ∉ owned L) -> objs s' = delete p (objs s) -> layout_ok s' root L t.
Proof using.
  intros HL Hp E. eapply layout_frame; [|exact HL]. intros q Hq. rewrite E. apply lookup_delete_ne. by intros ->.
Qed.

Lemma grows_new (s s1 s2 : Store Obj) p o L L' : grows s s1 L L' -> (p ∉ dom (objs s1)) -> objs s2 = <[p := o]> (objs s1) -> grows s s2 L L'.
Proof using.
  intros [A1 A2 A3 A4] Hp E. constructor; [| |done|done].
  - intros q Hq Hd. rewrite E, lookup_insert_ne by (intros ->; by apply Hp, A2). by apply A1.
  - rewrite E, dom_insert. set_solver.
Qed.

Lemma layout_new (s s' : Store Obj) p o root L t : layout_ok s root L t -> (p ∉ dom (objs s)) -> objs s' = <[p := o]> (objs s) -> layout_ok s' root L t.
Proof using.
  intros HL Hp E. eapply layout_frame; [|exact HL]. intros q Hq. rewrite E. apply lookup_insert_ne. intros ->.
  apply Hp. by eapply layout_in_store.
Qed.

(** *** One more child of a directory *)
Section Child.
Context (s s' : Store Obj) (root : Z) (L : layout) (t : tree) (HL : layout_ok s root L t).
Context (p : path) (d : Z) (ns : list Z) (fi up : Z) (ents : list (list Z * Z)) (nm : list Z) (n : Z) (pl : place) (c : content).
Context (Hp : L !! p = Some (DirPlace d ns fi up ents)) (Hq : L !! (p ++ [nm]) = None) (Hnm : name_ok nm).
(** The directory with the entry, and the new place. *)
Let pl' := DirPlace d (ns ++ [n]) fi up (ents ++ [(nm, address pl)]).
Context (Hpl' : holds s' pl' Directory) (Hkeep : forall nm', has_name s nm' d -> has_name s' nm' d).
Context (Hpl : holds s' pl c) (Hname : has_name s' nm (address pl)).
Context (Hes : match pl with DirPlace _ _ _ _ es => es = [] | FilePlace _ _ => True end).
Context (Hn : n ∉ dom (objs s)) (Hfresh : forall q, q ∈ footprint pl -> q ∉ dom (objs s)) (Hnpl : n ∉ footprint pl).
Context (Hs : same_except (footprint (DirPlace d ns fi up ents)) s s') (Hdom : dom (objs s) ⊆ dom (objs s')).
Let L' := <[p ++ [nm] := pl]> (<[p := pl']> L).

Lemma longer (r : path) nm' : r ++ [nm'] <> r.
Proof using. clear. intros E. apply (f_equal length) in E. rewrite length_app in E. cbn in E. lia. Qed.

Lemma child_new : L' !! (p ++ [nm]) = Some pl.
Proof using. unfold L'. by rewrite lookup_insert_eq. Qed.
Lemma child_dir : L' !! p = Some pl'.
Proof using. unfold L'. rewrite lookup_insert_ne by apply longer. by rewrite lookup_insert_eq. Qed.
Lemma child_other r : r <> p -> r <> p ++ [nm] -> L' !! r = L !! r.
Proof using. intros H1 H2. unfold L'. by rewrite !lookup_insert_ne. Qed.

Lemma child_cases r plr : L' !! r = Some plr ->
  (r = p ++ [nm] /\ plr = pl) \/ (r = p /\ plr = pl') \/ (r <> p ++ [nm] /\ r <> p /\ L !! r = Some plr).
Proof using.
  intros H. destruct (decide (r = p ++ [nm])) as [->|H1]; [rewrite child_new in H; left; by injection H|].
  destruct (decide (r = p)) as [->|H2]; [rewrite child_dir in H; right; left; by injection H|].
  rewrite child_other in H by done. by right; right.
Qed.

Lemma child_footprint q : q ∈ footprint pl' <-> q = n \/ q ∈ footprint (DirPlace d ns fi up ents).
Proof using. clear -pl'. unfold footprint, pl'. set_solver. Qed.

Lemma child_frame r plr : L !! r = Some plr -> r <> p -> forall q, q ∈ footprint plr -> objs s' !! q = objs s !! q.
Proof using HL Hp Hs.
  intros Hr Hrp q Hin. apply Hs; [|by eapply layout_in_store, owned_place].
  pose proof (lo_apart _ _ _ _ HL _ _ _ _ Hr Hp Hrp) as Hd. intros Hq'. by apply (Hd q).
Qed.

Lemma child_address r plr : L !! r = Some plr -> exists plr', L' !! r = Some plr' /\ address plr' = address plr.
Proof using Hp Hq.
  intros Hr. destruct (decide (r = p)) as [->|Hrp].
  - exists pl'. split; [apply child_dir|]. rewrite Hp in Hr. by injection Hr as <-.
  - exists plr. split; [|done]. rewrite child_other; [done|done|]. intros ->. congruence.
Qed.

Lemma child_apart p1 p2 pl1 pl2 : L' !! p1 = Some pl1 -> L' !! p2 = Some pl2 -> p1 <> p2 -> footprint pl1 ## footprint pl2.
Proof using HL Hp Hn Hfresh Hnpl.
  assert (forall r plr, L !! r = Some plr -> footprint plr ## footprint pl) as Hnew.
  { intros r plr Hr q Hq1 Hq2. apply (Hfresh q Hq2). by eapply layout_in_store, owned_place. }
  assert (footprint pl' ## footprint pl) as Hpp.
  { intros q [->|Hq1]%child_footprint Hq2; [done|]. by apply (Hnew _ _ Hp q). }
  assert (forall r plr, L !! r = Some plr -> r <> p -> footprint plr ## footprint pl') as Hdirs.
  { intros r plr Hr Hrp q Hq1 [->|Hq2]%child_footprint.
    - apply Hn. by eapply layout_in_store, owned_place.
    - by apply (lo_apart _ _ _ _ HL _ _ _ _ Hr Hp Hrp q). }
  intros [[-> ->]|[[-> ->]|(? & ? & H1)]]%child_cases [[-> ->]|[[-> ->]|(? & ? & H2)]]%child_cases H12; try done;
    [by symmetry; eapply Hnew|by symmetry; eapply Hdirs|by eapply Hnew|by eapply Hdirs|by eapply (lo_apart _ _ _ _ HL)].
Qed.

Lemma child_entries r d' ns' fi' up' ents' : L' !! r = Some (DirPlace d' ns' fi' up' ents') ->
  NoDup (map fst ents') /\ Zlen ents' < Z.of_nat (base.size L') /\
  forall nm' a, (nm', a) ∈ ents' <-> exists plr, L' !! (r ++ [nm']) = Some plr /\ address plr = a.
Proof using HL Hp Hq Hes.
  assert (base.size L' = S (base.size L)) as Hsize.
  { unfold L'. rewrite map_size_insert_None; [f_equal; by rewrite map_size_insert_Some|].
    by rewrite lookup_insert_ne by (apply not_eq_sym, longer). }
  rewrite Hsize. intros [[-> Epl]|[[-> [= -> -> -> -> ->]]|(Hrq & Hrp & Hr)]]%child_cases.
  - rewrite <- Epl in Hes. subst ents'. split; [constructor|]. split; [unfold Zlen; cbn; lia|]. intros nm' a. split; [by intros ?%elem_of_nil|].
    intros (plr & [[E _]|[[E _]|(_ & _ & Hr)]]%child_cases & _).
    + by apply longer in E.
    + rewrite <- app_assoc in E. apply (f_equal length) in E. rewrite length_app in E. cbn in E. lia.
    + apply (lo_closed _ _ _ _ HL) in Hr as (? & ? & ? & ? & ? & Hr). congruence.
  - destruct (lo_entries _ _ _ _ HL _ _ _ _ _ _ Hp) as (Hnd & Hsz & He). split; [|split; [zlen|]].
    + rewrite map_app. apply NoDup_app. split_and!; [done| |apply NoDup_singleton].
      intros x Hx ->%list_elem_of_singleton. apply list_elem_of_fmap in Hx as ([y a] & E & Hin). cbn [fst] in E. subst y.
      apply He in Hin as (plr & Hr & _). cbn [fst] in Hr. congruence.
    + intros nm' a. rewrite elem_of_app, list_elem_of_singleton, He. split.
      * intros [(plr & (plr' & H1 & <-)%child_address & <-)|[= -> ->]]; [by exists plr'|]. exists pl. split; [apply child_new|done].
      * intros (plr & [[E ->]|[[E _]|(_ & _ & Hr)]]%child_cases & <-); [|by apply longer in E|left; by exists plr].
        apply app_inj_tail in E as [_ ->]. by right.
  - destruct (lo_entries _ _ _ _ HL _ _ _ _ _ _ Hr) as (Hnd & Hsz & He). split; [done|]. split; [lia|].
    intros nm' a. rewrite He. split.
    + intros (plr & (plr' & H1 & <-)%child_address & <-). by exists plr'.
    + intros (plr & [[E _]|[[E ->]|(_ & _ & H1)]]%child_cases & <-); [by apply app_inj_tail in E as [-> _]| |by exists plr].
      rewrite E. eexists. split; [exact Hp|done].
Qed.

Lemma layout_child : layout_ok s' root L' (<[p ++ [nm] := c]> t) /\ grows s s' L L'.
Proof using All.
  pose proof child_new as Lq. pose proof child_dir as Lp. split; [constructor|constructor].
  - destruct (lo_root _ _ _ _ HL) as (pl0 & H0 & Ha & Ht). destruct (child_address _ _ H0) as (pl1 & H1 & E).
    exists pl1. split_and!; [done|congruence|]. by rewrite lookup_insert_ne by (by destruct p).
  - intros r. destruct (decide (r = p ++ [nm])) as [->|Hr]; [by rewrite Lq, lookup_insert_eq|].
    rewrite (lookup_insert_ne t) by done. pose proof (lo_holds _ _ _ _ HL r) as H.
    destruct (decide (r = p)) as [->|Hrp]; [rewrite Lp; rewrite Hp in H; by destruct (t !! p) as [[]|]|].
    rewrite child_other by done. destruct (L !! r) as [plr|] eqn:Elr, (t !! r) as [cr|]; try done.
    eapply holds_frame; [|exact H]. by apply (child_frame r).
  - intros r nm' plr [[E ->]|[[E ->]|(_ & Hrp & Hr)]]%child_cases.
    + apply app_inj_tail in E as [_ ->]. done.
    + rewrite <- E in Hp. destruct (lo_named _ _ _ _ HL _ _ _ Hp) as [H1 H2]. split; [by apply Hkeep|done].
    + destruct (lo_named _ _ _ _ HL _ _ _ Hr) as [H1 H2]. split; [|done].
      eapply has_name_frame; [|exact H1]. apply (child_frame _ _ Hr Hrp), address_in.
  - exact child_apart.
  - exact child_entries.
  - intros r nm' plr [[E ->]|[[E ->]|(_ & _ & Hr)]]%child_cases.
    + apply app_inj_tail in E as [-> _]. by eexists _, _, _, _, _.
    + rewrite <- E in Hp. destruct (lo_closed _ _ _ _ HL _ _ _ Hp) as (? & ? & ? & ? & ? & Hr).
      rewrite child_other; [by eexists _, _, _, _, _|intros ->; by apply (longer p nm') in E|intros ->; congruence].
    + destruct (lo_closed _ _ _ _ HL _ _ _ Hr) as (? & ? & ? & ? & ? & Hr').
      destruct (decide (r = p)) as [->|Hrp]; [by eexists _, _, _, _, _|].
      rewrite child_other; [by eexists _, _, _, _, _|done|intros ->; congruence].
  - intros q Hqo Hqd. apply Hs; [|done]. intros Hin. apply Hqo. by eapply owned_place.
  - done.
  - intros q (r & plr & [[-> ->]|[[-> ->]|(_ & _ & Hr)]]%child_cases & Hin)%elem_of_owned.
    + right. by apply Hfresh.
    + apply child_footprint in Hin as [->|Hin]; [by right|left; by eapply owned_place].
    + left. by eapply owned_place.
  - exact child_address.
Qed.
End Child.

(** *** A file changes *)
Section Change.
Context (s s' : Store Obj) (root : Z) (L : layout) (t : tree) (HL : layout_ok s root L t).
Context (p : path) (f : Z) (ns ns' : list Z) (c : content) (Hp : L !! p = Some (FilePlace f ns)).
Context (Hf : holds s' (FilePlace f ns') c) (Hkeep : forall nm, has_name s nm f -> has_name s' nm f).
Context (Hns : forall q, q ∈ ns' -> q ∈ ns \/ q ∉ dom (objs s)).
Context (Hs : same_except (footprint (FilePlace f ns)) s s') (Hdom : dom (objs s) ⊆ dom (objs s')).
Let L' := <[p := FilePlace f ns']> L.

Lemma change_cases r plr : L' !! r = Some plr -> (r = p /\ plr = FilePlace f ns') \/ (r <> p /\ L !! r = Some plr).
Proof using.
  unfold L'. destruct (decide (r = p)) as [->|Hr]; [rewrite lookup_insert_eq|rewrite lookup_insert_ne by done].
  - intros [= <-]. by left.
  - by right.
Qed.

Lemma change_address r plr : L !! r = Some plr -> exists plr', L' !! r = Some plr' /\ address plr' = address plr.
Proof using Hp.
  intros Hr. unfold L'. destruct (decide (r = p)) as [->|Hrp].
  - rewrite lookup_insert_eq. eexists. split; [done|]. rewrite Hp in Hr. by injection Hr as <-.
  - rewrite lookup_insert_ne by done. by exists plr.
Qed.

Lemma change_directory r d ns0 fi up ents : L' !! r = Some (DirPlace d ns0 fi up ents) <-> L !! r = Some (DirPlace d ns0 fi up ents).
Proof using Hp.
  unfold L'. destruct (decide (r = p)) as [->|Hr]; [rewrite lookup_insert_eq, Hp|by rewrite lookup_insert_ne].
  split; discriminate.
Qed.

Lemma change_footprint q : q ∈ footprint (FilePlace f ns') -> q ∈ footprint (FilePlace f ns) \/ q ∉ dom (objs s).
Proof using Hns.
  unfold footprint. rewrite !elem_of_list_to_set, !elem_of_cons. intros [->|[Hq|Hq]%Hns]; [by left; left|by left; right|by right].
Qed.

Lemma change_frame r plr : L !! r = Some plr -> r <> p -> forall q, q ∈ footprint plr -> objs s' !! q = objs s !! q.
Proof using HL Hp Hs.
  intros Hr Hrp q Hin. apply Hs; [|by eapply layout_in_store, owned_place].
  pose proof (lo_apart _ _ _ _ HL _ _ _ _ Hr Hp Hrp) as Hd. intros Hq'. by apply (Hd q).
Qed.

Lemma layout_change : layout_ok s' root L' (<[p := c]> t) /\ grows s s' L L'.
Proof using All.
  assert (forall r plr, L !! r = Some plr -> r <> p -> footprint plr ## footprint (FilePlace f ns')) as Hdis.
  { intros r plr Hr Hrp q Hq1 [Hq2|Hq2]%change_footprint.
    - by apply (lo_apart _ _ _ _ HL _ _ _ _ Hr Hp Hrp q).
    - apply Hq2. by eapply layout_in_store, owned_place. }
  split; [constructor|constructor].
  - destruct (lo_root _ _ _ _ HL) as (pl0 & H0 & Ha & Ht). destruct (change_address _ _ H0) as (pl1 & H1 & E).
    exists pl1. split_and!; [done|congruence|]. rewrite lookup_insert_ne; [done|]. intros ->.
    destruct (layout_content _ _ _ _ HL _ _ Hp) as (c' & Hc' & Hh). rewrite Ht in Hc'. by injection Hc' as <-.
  - intros r. unfold L'. destruct (decide (r = p)) as [->|Hr]; [by rewrite !lookup_insert_eq|]. rewrite !lookup_insert_ne by done.
    pose proof (lo_holds _ _ _ _ HL r) as H. destruct (L !! r) as [plr|] eqn:Elr, (t !! r) as [cr|]; try done.
    eapply holds_frame; [|exact H]. by apply (change_frame r).
  - intros r nm plr [[E ->]|[Hrp Hr]]%change_cases.
    + rewrite <- E in Hp. destruct (lo_named _ _ _ _ HL _ _ _ Hp) as [H1 H2]. split; [by apply Hkeep|done].
    + destruct (lo_named _ _ _ _ HL _ _ _ Hr) as [H1 H2]. split; [|done].
      eapply has_name_frame; [|exact H1]. apply (change_frame _ _ Hr Hrp), address_in.
  - intros p1 p2 pl1 pl2 [[-> ->]|[? H1]]%change_cases [[-> ->]|[? H2]]%change_cases H12; try done;
      [symmetry; by eapply Hdis|by eapply Hdis|by eapply (lo_apart _ _ _ _ HL)].
  - intros r d ns0 fi up ents Hr%change_directory. destruct (lo_entries _ _ _ _ HL _ _ _ _ _ _ Hr) as (Hnd & Hsz & He).
    split; [done|]. split; [unfold L'; by rewrite map_size_insert_Some|]. intros nm a. rewrite He. split.
    + intros (plr & (plr' & H1 & <-)%change_address & <-). by exists plr'.
    + intros (plr & [[-> ->]|[_ H1]]%change_cases & <-); [by eexists|by exists plr].
  - intros r nm plr Hr. assert (exists plr', L !! (r ++ [nm]) = Some plr') as [plr' Hr'].
    { apply change_cases in Hr as [[-> _]|[_ Hr]]; by eexists. }
    destruct (lo_closed _ _ _ _ HL _ _ _ Hr') as (d & ns0 & fi & up & ents & H). exists d, ns0, fi, up, ents. by apply change_directory.
  - intros q Hqo Hqd. apply Hs; [|done]. intros Hin. apply Hqo. by eapply owned_place.
  - done.
  - intros q (r & plr & [[-> ->]|[_ Hr]]%change_cases & Hin)%elem_of_owned.
    + apply change_footprint in Hin as [Hin|Hin]; [left; by eapply owned_place|by right].
    + left. by eapply owned_place.
  - exact change_address.
Qed.
End Change.

(** ** The operations of TempFS *)

Lemma holds_dir_of s' d ns fi up ents :
  directory s' d ns (dots fi up ++ ents) -> NoDup (d :: ns ++ [fi; up]) -> holds_dir s' d ns fi up ents.
Proof using.
  intros [(r & Hr & Hd & Hn & Hch) _ Hnamed _] Hnd. constructor; [exists r|by apply Forall_app in Hnamed as [? _]|done].
  split_and!; try done. rewrite Hn. unfold dots. zlen.
Qed.

Lemma keeps_name s s' d : (forall r, typed_at s d r -> typed_at s' d (set_entries (num_entries r + 1) r)) ->
  forall nm, has_name s nm d -> has_name s' nm d.
Proof using. intros H nm (x & Hx & Hn). exists (set_entries (num_entries x + 1) x). split; [by apply H|exact Hn]. Qed.

(** A new file system is the empty tree. *)
Lemma layout_empty s root ns fi up :
  directory s root ns (dots fi up) -> NoDup (root :: ns ++ [fi; up]) ->
  layout_ok s root {[ [] := DirPlace root ns fi up [] ]} {[ [] := Directory ]}.
Proof using.
  intros Hd Hnd. pose proof (holds_dir_of s root ns fi up [] Hd Hnd) as Hh.
  assert (forall r pl, ({[ [] := DirPlace root ns fi up [] ]} : layout) !! r = Some pl -> r = [] /\ pl = DirPlace root ns fi up []) as Hr
    by (by intros r pl [<- <-]%lookup_singleton_Some).
  constructor.
  - eexists. split_and!; [by rewrite lookup_singleton_eq|done|by rewrite lookup_singleton_eq].
  - intros p. destruct (decide (p = [])) as [->|Hp]; [by rewrite !lookup_singleton_eq|by rewrite !lookup_singleton_ne].
  - intros p nm pl [E _]%Hr. by destruct p.
  - intros p q pl pl' [-> _]%Hr [-> _]%Hr. done.
  - intros p d ns' fi' up' ents [-> [= -> -> -> -> ->]]%Hr. split; [constructor|]. split; [by rewrite map_size_singleton|].
    intros nm a. split; [by intros ?%elem_of_nil|]. by intros (pl & [E _]%Hr & _).
  - intros p nm pl [E _]%Hr. by destruct p.
Qed.

Section Operations.
Context (junk_Inode : Z -> Inode) (junk_DirEntryNode : Z -> DirEntryNode).
Context (s : Store Obj) (root : Z) (L : layout) (t : tree) (Hok : store_ok s) (HL : layout_ok s root L t).
Context (Hsize : Z.of_nat (base.size t) < 2 ^ 62).

(** What [tempfs_addentry] needs of the directory at [p]. *)
Lemma directory_facts p d ns fi up ents :
  L !! p = Some (DirPlace d ns fi up ents) ->
  tree_directory s d ns (dots fi up ++ ents) /\ Zlen (dots fi up ++ ents) < 2 ^ 64 /\ NoDup (d :: ns ++ [fi; up]) /\
  (forall n, n ∉ dom (objs s) -> NoDup (d :: (ns ++ [n]) ++ [fi; up])).
Proof using HL Hsize.
  intros Hp. destruct (lo_entries _ _ _ _ HL _ _ _ _ _ _ Hp) as (_ & Hsz & _). rewrite (layout_size _ _ _ _ HL) in Hsz.
  destruct (layout_content _ _ _ _ HL _ _ Hp) as ([| |] & _ & Hh); try done. destruct Hh as [_ _ Hnd].
  split; [by eapply layout_tree|]. split; [unfold dots; zlen|]. split; [done|]. intros n Hn.
  assert (d :: (ns ++ [n]) ++ [fi; up] ≡ₚ n :: d :: ns ++ [fi; up]) as -> by solve_Permutation.
  apply NoDup_cons. split; [|done]. intros Hin. apply Hn, (layout_in_store _ _ _ _ HL). eapply owned_place; [exact Hp|].
  unfold footprint. by apply elem_of_list_to_set.
Qed.

(** [make] makes the entry [c] at [p ++ [nm]]. *)
Definition makes (p : path) (nm : list Z) (c : content) (make : Z -> list Z -> M (Store Obj) unit) : Prop :=
  forall d dirname, c_string nm dirname -> (exists ns fi up ents, L !! p = Some (DirPlace d ns fi up ents)) ->
  make d dirname s = Halted \/
  exists s' L', make d dirname s = Ok (tt, s') /\ store_ok s' /\ layout_ok s' root L' (<[p ++ [nm] := c]> t) /\ grows s s' L L'.

Lemma tree_mkfile p nm : L !! (p ++ [nm]) = None -> name_ok nm ->
  makes p nm (Regular []) (tempfs_mkfile junk_Inode junk_DirEntryNode).
Proof using Hok HL Hsize.
  intros Hq Hnm d dirname Hc (ns & fi & up & ents & Hp). pose proof Hnm as (_ & _ & Hl & _).
  destruct (directory_facts _ _ _ _ _ _ Hp) as (Ht & Hlen & _ & Hnd). pose proof Ht as [Hdir _].
  destruct (tree_directory_disjoint _ _ _ _ Ht) as [H1 H2]. unfold tempfs_mkfile.
  destruct (addentry_spec junk_Inode junk_DirEntryNode s d ns _ nm dirname false Hok Hdir Hc Hl Hlen H1 H2)
    as [(a & n & s' & E & Hok' & Ha & Hn & Han & Hdir' & Ha' & Hs & Hdom & Hn' & Hd)|E]; [right|left; unfold bind; by rewrite E].
  rewrite (bind_run _ _ _ _ _ E). rewrite <- app_assoc in Hdir'.
  destruct (layout_child s s' root L t HL p d ns fi up ents nm n (FilePlace a []) (Regular [])) as [HL' Hg]; try done.
  - cbn [holds address]. apply holds_dir_of; [exact Hdir'|by apply Hnd].
  - by apply keeps_name.
  - constructor; [distinct|]. exists (entry_Inode nm false), [], []. split_and!; try done. constructor.
  - exists (entry_Inode nm false). split; [done|]. split; [apply entry_name; [done|apply Hc]|done].
  - intros q. unfold footprint. rewrite elem_of_list_to_set, list_elem_of_singleton. by intros ->.
  - unfold footprint. rewrite elem_of_list_to_set, list_elem_of_singleton. congruence.
  - intros q Hq1 Hq2. apply Hs; [|done]. intros Hin. apply Hq1. unfold footprint. set_solver.
  - eexists s', _. split_and!; [reflexivity|done|exact HL'|exact Hg].
Qed.

Lemma tree_mkdir p nm : L !! (p ++ [nm]) = None -> name_ok nm ->
  makes p nm Directory (tempfs_mkdir junk_Inode junk_DirEntryNode).
Proof using Hok HL Hsize.
  intros Hq Hnm d dirname Hc (ns & fi & up & ents & Hp). pose proof Hnm as (_ & _ & Hl & _).
  destruct (directory_facts _ _ _ _ _ _ Hp) as (Ht & Hlen & _ & Hnd).
  destruct (mkdir_spec junk_Inode junk_DirEntryNode s d ns _ nm dirname Hok Ht Hc Hl Hlen)
    as [(new & n & s' & first & n' & fi' & up' & x' & E & Hok' & [Hdir' _] & Hsub & Hx' & Hxn & Hd & Hs & Hdom & Hnd' & Hfresh)|E];
    [right|by left].
  rewrite <- app_assoc in Hdir'. apply NoDup_cons in Hnd' as [Hn' Hnd'].
  destruct (layout_child s s' root L t HL p d ns fi up ents nm n (DirPlace new [first; n'] fi' up' []) Directory) as [HL' Hg]; try done.
  - cbn [holds address]. apply holds_dir_of; [exact Hdir'|]. apply Hnd, Hfresh. by left.
  - apply keeps_name. intros r Hr. by apply Hd.
  - by apply holds_dir_of.
  - by exists x'.
  - apply Hfresh. by left.
  - intros q Hq'. apply Hfresh. right. by apply elem_of_list_to_set in Hq'.
  - unfold footprint. by rewrite elem_of_list_to_set.
  - intros q Hq1 Hq2. apply Hs; [|done]. intros Hin. apply Hq1. unfold footprint. set_solver.
  - eexists s', _. split_and!; [exact E|done|exact HL'|exact Hg].
Qed.

Lemma tree_create_device p nm ops : L !! (p ++ [nm]) = None -> name_ok nm ->
  makes p nm (Device ops) (fun d name => tempfs_create_device junk_Inode junk_DirEntryNode d name ops).
Proof using Hok HL Hsize.
  intros Hq Hnm d dirname Hc (ns & fi & up & ents & Hp). pose proof Hnm as (_ & _ & Hl & _).
  destruct (directory_facts _ _ _ _ _ _ Hp) as (Ht & Hlen & _ & Hnd). pose proof Ht as [Hdir _].
  destruct (tree_directory_disjoint _ _ _ _ Ht) as [H1 H2]. unfold tempfs_create_device.
  destruct (addentry_spec junk_Inode junk_DirEntryNode s d ns _ nm dirname false Hok Hdir Hc Hl Hlen H1 H2)
    as [(a & n & s1 & E & Hok1 & Ha & Hn & Han & Hdir' & Ha' & Hs & Hdom & Hn' & Hd)|E]; [right|left; unfold bind; by rewrite E].
  rewrite (bind_run _ _ _ _ _ E), (set_field_run _ _ _ _ Ha'). set (s2 := MkStore _ _). rewrite <- app_assoc in Hdir'.
  assert (forall q, q <> a -> objs s2 !! q = objs s1 !! q) as H12 by (intros q Hq'; by apply lookup_insert_ne).
  assert (forall q, q ∈ dom (objs s) -> q <> a) as Hold by congruence.
  pose proof (layout_in_store _ _ _ _ HL) as Hin.
  destruct (layout_child s s2 root L t HL p d ns fi up ents nm n (FilePlace a []) (Device ops)) as [HL' Hg]; try done.
  - apply (holds_frame s1); [|apply holds_dir_of; [exact Hdir'|by apply Hnd]].
    intros q Hq'. apply H12. assert (q = n \/ q ∈ footprint (DirPlace d ns fi up ents)) as [->|Hf]
      by (unfold footprint in *; set_solver); [done|]. apply Hold, Hin. by eapply owned_place.
  - intros nm' Hh. eapply has_name_frame; [|by eapply (keeps_name s s1)]. apply H12, Hold, Hin.
    eapply owned_place; [exact Hp|]. apply (address_in (DirPlace d ns fi up ents)).
  - split; [done|]. eexists. split; [unfold typed_at, s2; cbn [objs]; by rewrite lookup_insert_eq|done].
  - eexists. split; [unfold typed_at, s2; cbn [objs address]; by rewrite lookup_insert_eq|]. split; [apply entry_name; [done|apply Hc]|done].
  - intros q. unfold footprint. rewrite elem_of_list_to_set, list_elem_of_singleton. by intros ->.
  - unfold footprint. rewrite elem_of_list_to_set, list_elem_of_singleton. congruence.
  - intros q Hq1 Hq2. rewrite H12 by auto. apply Hs; [|done]. intros Hq'. apply Hq1. unfold footprint. set_solver.
  - unfold s2. cbn [objs]. rewrite dom_insert. set_solver.
  - eexists s2, _. split_and!; [reflexivity|by eapply put_obj_ok|exact HL'|exact Hg].
Qed.

Context (junk_FileNode : Z -> FileNode) (junk_len : forall a, Zlen (data (junk_FileNode a)) = FILENODE_DATA_SIZE).
(** The first node of a file has the [next_node] its block came with. *)
Context (junk_next : null_links junk_FileNode).

Lemma tree_write call_write p f ns bytes from len :
  L !! p = Some (FilePlace f ns) -> holds_file s f ns bytes ->
  0 <= len -> len + FILENODE_DATA_SIZE < 2 ^ 64 -> len <= Zlen from ->
  tempfs_write junk_FileNode call_write f from len s = Halted \/
  exists s' L', tempfs_write junk_FileNode call_write f from len s = Ok (0, s') /\ store_ok s' /\
    layout_ok s' root L' (<[p := Regular (take (Z.to_nat len) from)]> t) /\ grows s s' L L'.
Proof using Hok HL junk_len junk_next.
  intros Hp [Hnd (x & cs & tl & Hx & Ht & Hd & _ & Hch & Hfull & _)] Hl Hlim Hfrom.
  destruct (tempfs_write_spec junk_FileNode junk_len call_write s f x ns cs from len)
    as [(s' & v & ns' & cs' & tl' & E & Hok' & Hx' & Hch' & Hfull' & Hnd' & Hcs & Hns & Hs & Hdom)|E]; try done; [intros _ a _; apply junk_next|right|by left].
  destruct (layout_change s s' root L t HL p f ns ns' (Regular (take (Z.to_nat len) from)) Hp) as [HL' Hg]; try done.
  - constructor; [done|]. exists (set_first v (set_len len x)), cs', tl'. split_and!; try done.
    cbn. unfold Zlen in *. rewrite length_take. lia.
  - intros nm (y & Hy & Hn). rewrite (typed_at_unique _ _ _ _ Hy Hx) in Hn. by eexists.
  - eexists s', _. split_and!; [exact E|done|exact HL'|exact Hg].
Qed.
End Operations.

Lemma tree_read call_read s f ns bytes buffer n :
  store_ok s -> holds_file s f ns bytes -> 0 <= n <= Zlen bytes -> n <= Zlen buffer -> n + FILENODE_DATA_SIZE < 2 ^ 64 ->
  tempfs_read call_read f buffer n s = Ok ((0, take (Z.to_nat n) bytes ++ drop (Z.to_nat n) buffer), s).
Proof using.
  intros Hok [Hnd (x & cs & tl & Hx & Ht & _ & _ & Hch & Hfull & Hcs)] Hn Hb Hlim.
  eapply tempfs_read_prefix; try done. by exists x.
Qed.

Lemma tree_length s f ns bytes : holds_file s f ns bytes -> tempfs_length f s = Ok (Zlen bytes, s).
Proof using.
  intros [_ (x & cs & tl & Hx & _ & _ & <- & _)]. unfold tempfs_length. by rewrite (bind_run _ _ _ _ _ (get_obj_run _ _ _ Hx)).
Qed.

Lemma tree_open_dir s d ns fi up ents : holds_dir s d ns fi up ents -> tempfs_open_dir d s = Ok (d, s).
Proof using.
  intros [(r & Hr & Hd & _) _ _]. unfold tempfs_open_dir. by rewrite (bind_run _ _ _ _ _ (get_obj_run _ _ _ Hr)), Hd.
Qed.

Lemma tree_open_file call_open s f ns bytes md : holds_file s f ns bytes -> tempfs_open_file call_open f md s = Ok (f, s).
Proof using.
  intros [_ (x & cs & tl & Hx & Ht & Hd & _)]. unfold tempfs_open_file. rewrite (bind_run _ _ _ _ _ (get_obj_run _ _ _ Hx)).
  destruct (Z.eqb_spec (ftype x) FILETYPE_DEVICE); [done|]. by rewrite Hd.
Qed.

Lemma tree_close call_close s f ns bytes : holds_file s f ns bytes -> tempfs_close call_close f s = Ok (tt, s).
Proof using.
  intros [_ (x & cs & tl & Hx & Ht & _)]. unfold tempfs_close. rewrite (bind_run _ _ _ _ _ (get_obj_run _ _ _ Hx)).
  by destruct (Z.eqb_spec (ftype x) FILETYPE_DEVICE).
Qed.
End Layout.
