(* ===== verification/FileDrive.v ===== *)
(** * The VFS on a drive of TempFS

    [open], [write], [read] and [close] of fs/vfs.c on a path of a mounted drive
    are the operations on the tree of the drive (FileTree.v), and a ramdisk that
    is unpacked (fs/ustar.c) leaves the tree of its entries. *)
From S2P Require Import Prelude Allocator Chain Memory PMM KHeap Strings Vector Events Blocks Tasks TempFS VFS Mount FileTree.

(** ** open on a tree *)

#[export] Instance name_ok_dec nm : Decision (name_ok nm).
Proof. unfold name_ok, VFS.plain. apply _. Defined.

(** What is at [q], or [c] added there where [create] allows it; and whether
    anything is there in the end. *)
Definition find_or_add (create : bool) (c : content) (q : path) (t : tree) : tree * bool :=
  match t !! q with
  | Some _ => (t, true)
  | None => if create then (<[q := c]> t, true) else (t, false)
  end.

(** The components [comps] from the directory [p]: directories and, at the end,
    a file, each added where [dirs] and [file] allow it. *)
Fixpoint open_tree (dirs file : bool) (p : path) (comps : list (list Z)) (t : tree) : tree * bool :=
  match comps with
  | [] => (t, true)
  | [nm] => find_or_add file (Regular []) (p ++ [nm]) t
  | nm :: comps' =>
      let (t', found) := find_or_add dirs Directory (p ++ [nm]) t in
      if found : bool then open_tree dirs file (p ++ [nm]) comps' t' else (t', false)
  end.

(** On the way nothing but directories, at the end nothing but a regular file. *)
Fixpoint openable (p : path) (comps : list (list Z)) (t : tree) : bool :=
  match comps with
  | [] => false
  | [nm] => match t !! (p ++ [nm]) with None | Some (Regular _) => true | _ => false end
  | nm :: comps' =>
      match t !! (p ++ [nm]) with None | Some Directory => openable (p ++ [nm]) comps' t | _ => false end
  end.

Lemma find_or_add_size create c q t : (base.size (find_or_add create c q t).1 <= S (base.size t))%nat.
Proof.
  unfold find_or_add. destruct (t !! q) eqn:E; cbn [fst]; [lia|]. destruct create; cbn [fst]; [|lia].
  by rewrite map_size_insert_None.
Qed.

Lemma find_or_add_there create c q t t' : find_or_add create c q t = (t', true) ->
  t' !! q = Some (default c (t !! q)) /\ forall r, r <> q -> t' !! r = t !! r.
Proof.
  unfold find_or_add. destruct (t !! q) eqn:E; [by intros [= <-]|]. destruct create; [|done]. intros [= <-].
  split; [by rewrite lookup_insert_eq|]. intros r Hr. by rewrite lookup_insert_ne.
Qed.

Lemma open_tree_cons dirs file p nm comps t : comps <> [] ->
  open_tree dirs file p (nm :: comps) t =
    let (t', found) := find_or_add dirs Directory (p ++ [nm]) t in
    if found : bool then open_tree dirs file (p ++ [nm]) comps t' else (t', false).
Proof. by destruct comps. Qed.

Lemma openable_cons p nm comps t : comps <> [] ->
  openable p (nm :: comps) t =
    match t !! (p ++ [nm]) with None | Some Directory => openable (p ++ [nm]) comps t | _ => false end.
Proof. by destruct comps. Qed.

(** Only what is below [p] matters. *)
Lemma openable_ext p comps t t' : (forall r, r <> [] -> t' !! (p ++ r) = t !! (p ++ r)) -> openable p comps t' = openable p comps t.
Proof.
  revert p. induction comps as [|nm comps IH]; intros p H; [done|]. destruct (decide (comps = [])) as [->|Hne].
  - cbn [openable]. by rewrite H.
  - rewrite !openable_cons, H by done. destruct (t !! (p ++ [nm])) as [[]|]; try done;
      apply IH; intros r Hr; rewrite <- app_assoc; by apply H.
Qed.

Lemma openable_step dirs p nm comps t t' :
  comps <> [] -> openable p (nm :: comps) t = true -> find_or_add dirs Directory (p ++ [nm]) t = (t', true) ->
  t' !! (p ++ [nm]) = Some Directory /\ openable (p ++ [nm]) comps t' = true.
Proof.
  intros Hne Ho [E1 E2]%find_or_add_there. rewrite openable_cons in Ho by done. rewrite E1.
  rewrite (openable_ext _ _ t).
  - by destruct (t !! (p ++ [nm])) as [[]|].
  - intros r Hr. apply E2. intros E. by apply Hr, (app_inv_head (p ++ [nm])); rewrite app_nil_r.
Qed.

(** What is found is a file. *)
Lemma open_tree_found dirs file p comps t t' : openable p comps t = true -> open_tree dirs file p comps t = (t', true) ->
  exists bytes, t' !! (p ++ comps) = Some (Regular bytes).
Proof.
  revert p t. induction comps as [|nm comps IH]; intros p t Ho E; [done|]. destruct (decide (comps = [])) as [->|Hne].
  - cbn [openable open_tree] in *. apply find_or_add_there in E as [E _]. rewrite E.
    destruct (t !! (p ++ [nm])) as [[]|]; try done; by eexists.
  - rewrite open_tree_cons in E by done. destruct (find_or_add dirs Directory (p ++ [nm]) t) as [t1 b] eqn:E1. destruct b; [|done].
    destruct (openable_step _ _ _ _ _ _ Hne Ho E1) as [_ Ho']. destruct (IH _ _ Ho' E) as [bytes Hb].
    exists bytes. by rewrite <- app_assoc in Hb.
Qed.

(** With both permissions the file is there in the end. *)
Lemma open_tree_file p comps t : openable p comps t = true ->
  exists t' bytes, open_tree true true p comps t = (t', true) /\ t' !! (p ++ comps) = Some (Regular bytes) /\
    (base.size t' <= base.size t + length comps)%nat.
Proof.
  revert p t. induction comps as [|nm comps IH]; intros p t Ho; [done|]. destruct (decide (comps = [])) as [->|Hne].
  - cbn [openable open_tree length] in *. pose proof (find_or_add_size true (Regular []) (p ++ [nm]) t) as Hsz.
    destruct (find_or_add true (Regular []) (p ++ [nm]) t) as [t' b] eqn:E.
    assert (b = true) as -> by (unfold find_or_add in E; by destruct (t !! (p ++ [nm])); injection E).
    apply find_or_add_there in E as [E _]. cbn [fst] in Hsz. exists t'.
    destruct (t !! (p ++ [nm])) as [[]|]; try done; eexists; (split; [done|split; [exact E|lia]]).
  - rewrite open_tree_cons by done. pose proof (find_or_add_size true Directory (p ++ [nm]) t) as Hsz.
    destruct (find_or_add true Directory (p ++ [nm]) t) as [t1 b] eqn:E.
    assert (b = true) as -> by (unfold find_or_add in E; by destruct (t !! (p ++ [nm])); injection E).
    destruct (openable_step _ _ _ _ _ _ Hne Ho E) as [_ Ho']. destruct (IH _ _ Ho') as (t' & bytes & E1 & E2 & E3).
    exists t', bytes. cbn [fst length] in *. rewrite <- app_assoc in E2. split; [done|]. split; [done|lia].
Qed.

Lemma open_tree_mono dirs file p comps t q c : t !! q = Some c -> (open_tree dirs file p comps t).1 !! q = Some c.
Proof.
  assert (forall create c' r t', t' !! q = Some c -> (find_or_add create c' r t').1 !! q = Some c) as Hadd.
  { intros create c' r t' H. unfold find_or_add. destruct (t' !! r) eqn:E; [done|]. destruct create; [|done]. cbn [fst].
    rewrite lookup_insert_ne; [done|]. intros ->. congruence. }
  revert p t. induction comps as [|nm comps IH]; intros p t H; [done|]. destruct (decide (comps = [])) as [->|Hne]; [by apply Hadd|].
  rewrite open_tree_cons by done. specialize (Hadd dirs Directory (p ++ [nm]) t H).
  destruct (find_or_add _ _ _ t) as [t' [|]]; [by apply IH|done].
Qed.

(** Once made, a file is found without making anything. *)
Lemma open_tree_again p comps t t1 bytes : openable p comps t = true -> (open_tree true true p comps t).1 = t1 ->
  let t2 := <[p ++ comps := Regular bytes]> t1 in
  openable p comps t2 = true /\ open_tree false false p comps t2 = (t2, true).
Proof.
  intros Ho <-. revert p t Ho. induction comps as [|nm comps IH]; intros p t Ho t2; [done|].
  destruct (decide (comps = [])) as [->|Hne].
  - cbn [openable open_tree]. unfold find_or_add. subst t2. by rewrite !lookup_insert_eq.
  - subst t2. rewrite open_tree_cons, openable_cons, open_tree_cons by done.
    destruct (find_or_add true Directory (p ++ [nm]) t) as [t' b] eqn:E.
    assert (b = true) as -> by (unfold find_or_add in E; by destruct (t !! (p ++ [nm])); injection E).
    destruct (openable_step _ _ _ _ _ _ Hne Ho E) as [Hd Ho']. destruct (IH _ _ Ho') as [H1 H2].
    rewrite <- app_assoc in H1, H2. change ([nm] ++ comps) with (nm :: comps) in *.
    assert (p ++ nm :: comps <> p ++ [nm]) as Hpq by (intros E'%app_inv_head; by injection E').
    unfold find_or_add. rewrite !lookup_insert_ne by done. rewrite (open_tree_mono _ _ _ _ _ _ _ Hd). done.
Qed.

(** The tree with the file [nm], its directories made where they are missing. *)
Definition add_file (nm : list Z) (bytes : list Z) (t : tree) : tree :=
  <[components nm := Regular bytes]> (open_tree true true [] (components nm) t).1.

(** The tree a ramdisk leaves where [t] was: the files in their order, each with
    the bytes behind its header.  [None] where a name has an empty component,
    [.] or [..], or where a file or a directory is in the way. *)
Fixpoint archive_tree (es : list (list Z * Z * Z)) (a : list Z) (t : tree) : option tree :=
  match es with
  | [] => Some t
  | (nm, ty, size) :: es' =>
      let rest := drop (Z.to_nat (512 + (size + 511) / 512 * 512)) a in
      if ty =? 53 then archive_tree es' rest t
      else if bool_decide (Forall name_ok (components nm)) && openable [] (components nm) t then
        archive_tree es' rest (add_file nm (take (Z.to_nat size) (drop 512 a)) t)
      else None
  end.

Lemma components_length s : (length (components s) <= S (length s))%nat.
Proof.
  induction s as [|c s IH]; cbn [components length]; [lia|]. destruct (c =? 47); cbn [length]; [lia|].
  destruct (components s); cbn [length] in *; lia.
Qed.

Lemma add_file_size nm bytes t : openable [] (components nm) t = true ->
  (base.size (add_file nm bytes t) <= base.size t + S (length nm))%nat.
Proof.
  intros Ho. destruct (open_tree_file [] _ t Ho) as (t' & b & E & Hb & Hsz). pose proof (components_length nm).
  unfold add_file. rewrite E. cbn [fst app] in *. rewrite map_size_insert_Some by by eexists. lia.
Qed.

(** ** The freed path

    [open] looks the type of a file up in the path it has just freed: [stale] is
    what is there.  It is taken to be some string, and not the one name that makes
    [write] print. *)
Definition stale_name (stale : Z -> Z -> list Z) : Prop :=
  forall p o, exists ty, check_file_type (stale p o) = Ok ty /\ ty <> FTYPE_STDOUT.

(** ** A drive that is mounted *)

Section FileDrive.
Context `{AL : Allocator} {Obj : Type}.
Context `{OV : !Object Vector Obj, ON : !Object VectorNode Obj, OE : !Object Event Obj}.
Context `{OT : !Object Task Obj, OB : !Object Block Obj, OL : !Object File Obj}.
Context `{OI : !Object Inode Obj, OD : !Object DirEntryNode Obj, OF : !Object FileNode Obj}.
Context (junk_Inode : Z -> Inode) (junk_DirEntryNode : Z -> DirEntryNode) (junk_FileNode : Z -> FileNode).
Context (call_read : Z -> Z -> list Z -> Z -> M (Store Obj) (Z * list Z)).
Context (call_write : Z -> Z -> list Z -> Z -> M (Store Obj) Z).
Context (call_open : Z -> Z -> Z -> M (Store Obj) unit) (call_close : Z -> Z -> M (Store Obj) unit).
Context (core slack : Z) (junk_Block : Z -> Block) (junk_File : Z -> File) (stale : Z -> Z -> list Z).
Context (printf : list Z -> M (Vfs (Obj := Obj)) unit).
Abbreviation vfs := (Vfs (Obj := Obj)).
Abbreviation objects k := (store (Obj := Obj) (scheduler k)).
Abbreviation fs := (TempFS junk_Inode junk_DirEntryNode junk_FileNode call_read call_write call_open call_close).

(** The task of this processor is in the directory [cd], and [D] holds nothing
    of the task list or of the name of the directory. *)
Definition working (k : vfs) (cd : list Z) (D : gset Z) : Prop :=
  exists ts tks cs cur t, Tasks.sched (scheduler k) ts tks cs /\ unlocked (scheduler k) /\ 0 <= core /\
    cs !! Z.to_nat core = Some (Z.of_nat cur) /\ tks !! cur = Some t /\ string_at (objects k) (current_dir t) cd /\
    apart (scheduler k) ts cs D /\ (block (current_dir t) ∉ D).

(** The tree [t] lies in the places [L] on the drive [c] of the VFS. *)
Record mounted (k : vfs) (c : Z) (cd : list Z) (L : layout) (t : tree) : Prop := {
  mt_drive : exists d, drives k !! Z.to_nat (c - 65) = Some d /\ present d = true /\ drive_fs d = fs /\
    layout_ok (objects k) (mem_offset d) L t;
  mt_working : working k cd (owned L)
}.

Lemma working_in_directory k cd D : working k cd D -> in_directory core k cd.
Proof using. intros (ts & tks & cs & cur & t & ? & ? & ? & ? & ? & ? & _). by exists ts, tks, cs, cur, t. Qed.

Lemma working_ok k cd D : working k cd D -> store_ok (objects k).
Proof using. by intros (ts & tks & cs & cur & t & [Hok _ _ _] & _). Qed.

(** The objects that are new are apart from the task list. *)
Lemma working_grow k cd D D' s :
  working k cd D -> store_ok s -> same_except D (objects k) s ->
  (forall q, q ∈ D' -> q ∈ D \/ q ∉ dom (objs (objects k))) -> working (set_objs s k) cd D'.
Proof using.
  intros (ts & tks & cs & cur & t & Hs & Hu & Hc & Hcur & Ht & Hstr & Ha & Hb) Hok Hse Hnew.
  exists ts, tks, cs, cur, t. pose proof (sched_frame _ _ _ _ _ _ Hs Ha Hok Hse) as Hs'. cbn [set_objs scheduler set_store store].
  pose proof Hs as [_ (ns & ms & Hv & Hvc & _) Htasks _]. pose proof Ha as (A1 & A2 & A3).
  assert (forall E, D ## E -> (forall q, q ∈ E -> q ∈ dom (objs (objects k))) -> D' ## E) as Hapart.
  { intros E HD Hin q [Hq|Hq]%Hnew Hq'; [by apply (HD q)|]. by apply Hq, Hin. }
  split_and!; try done; [by eapply string_at_frame|split; [|split]|].
  - apply Hapart; [done|]. intros q Hq%elem_of_list_to_set. apply list_elem_of_lookup in Hq as [i Hi].
    destruct (Forall2_lookup_l _ _ _ _ _ Htasks Hi) as (y & _ & Hy). by eapply elem_of_dom_2.
  - intros m Hm. pose proof (vec_in_store _ _ _ _ Hv) as Hd.
    assert (m = ns) as -> by (eapply vec_nodes_unique; [exact Hm|]; eapply vec_frame; [exact Hse|by apply A2|exact Hv]).
    apply Hapart; [by apply A2|exact Hd].
  - intros m Hm. pose proof (vec_in_store _ _ _ _ Hvc) as Hd.
    assert (m = ms) as -> by (eapply vec_nodes_unique; [exact Hm|]; eapply vec_frame; [exact Hse|by apply A3|exact Hvc]).
    apply Hapart; [by apply A3|exact Hd].
  - intros [Hq|Hq]%Hnew; [done|]. destruct Hstr as (x & Hx & _). apply Hq. by eapply elem_of_dom_2.
Qed.

Lemma mounted_ok k c cd L t : mounted k c cd L t -> store_ok (objects k).
Proof using. intros [_ H]. by eapply working_ok. Qed.

(** After an operation on the objects of the drive. *)
Lemma mounted_step k c cd L t s L' t' :
  mounted k c cd L t -> store_ok s -> (forall root, layout_ok (objects k) root L t -> layout_ok s root L' t') ->
  grows (objects k) s L L' -> mounted (set_objs s k) c cd L' t'.
Proof using.
  intros [(d & Hd & Hp & Hf & HL) Hw] Hok HL' Hg. split.
  - exists d. split_and!; try done. by apply HL'.
  - eapply working_grow; [exact Hw|done|by apply Hg|by apply Hg].
Qed.

Lemma grown_grows k k' L : grown k k' -> grows (objects k) (objects k') L L.
Proof using.
  intros (st & -> & _ & Hs & Hd). constructor; [|done|by left|by intros p pl H; exists pl].
  intros q _ Hq. apply Hs; [by apply not_elem_of_empty|done].
Qed.

Lemma mounted_grown k k' c cd L t : mounted k c cd L t -> grown k k' -> mounted k' c cd L t.
Proof using.
  intros Hm Hg. pose proof (grown_grows _ _ L Hg) as Hgr. destruct Hg as (st & -> & Hok & Hs & Hd).
  eapply mounted_step; [exact Hm|done| |exact Hgr]. intros root HL. eapply layout_frame; [|exact HL].
  intros q Hq. apply Hs; [by apply not_elem_of_empty|]. by eapply layout_in_store.
Qed.

(** ** Paths *)

Lemma name_alone nm : name_ok nm -> c_string nm (nm ++ [0]).
Proof using. intros (Hw & _). by apply component_alone. Qed.

(** A name in the directory at [p]. *)
Lemma find_in_layout s root L t p pl nm :
  store_ok s -> layout_ok s root L t -> t !! p = Some Directory -> L !! p = Some pl -> name_ok nm ->
  tempfs_find (address pl) (nm ++ [0]) s = Ok (match L !! (p ++ [nm]) with Some pl => address pl | None => 0 end, s).
Proof using.
  intros Hok HL Ht Hp Hnm. destruct (layout_directory _ _ _ _ HL _ Ht) as (d & ns & fi & up & ents & Hd).
  rewrite Hp in Hd. injection Hd as ->. cbn [address]. eapply layout_find; [done|done|exact Hp|done|by apply name_alone].
Qed.

Lemma set_objs_same (k : vfs) : set_objs (objects k) k = k.
Proof using. by destruct k as [[] ? ?]. Qed.

(** The search [m] for [q] runs out of memory, or turns the tree into that of
    [r] and gives the address of [q] if [r] has found it. *)
Definition opens (m : M vfs (option Z)) (k : vfs) (root : Z) (L : layout) (q : path) (r : tree * bool) : Prop :=
  m k = Halted \/
  exists s L' o, m k = Ok (o, set_objs s k) /\ store_ok s /\ layout_ok s root L' r.1 /\ grows (objects k) s L L' /\
    if r.2 then exists pl, L' !! q = Some pl /\ o = Some (address pl) else o = None.

(** [find_or_make] of the VFS is [find_or_add] of the tree. *)
Lemma find_or_make_tree create make nm c k root L t p pl :
  store_ok (objects k) -> layout_ok (objects k) root L t ->
  t !! p = Some Directory -> L !! p = Some pl -> name_ok nm ->
  (L !! (p ++ [nm]) = None -> makes (objects k) root L t p nm c make) ->
  opens (find_or_make fs create make (address pl) nm) k root L (p ++ [nm]) (find_or_add create c (p ++ [nm]) t).
Proof using.
  intros Hok HL Ht Hp Hnm Hmake. unfold opens, find_or_make, find_or_add. cbn [find_function].
  pose proof (find_in_layout _ _ _ _ _ _ _ Hok HL Ht Hp Hnm) as E. rewrite (bind_run _ _ _ _ _ (on_objs_read _ _ _ E)).
  destruct (L !! (p ++ [nm])) as [plq|] eqn:Hq.
  - destruct (layout_content _ _ _ _ HL _ _ Hq) as (cq & -> & _). right.
    pose proof (layout_not_null _ _ _ _ HL _ _ Hok Hq) as Hnz. destruct (Z.eqb_spec (address plq) 0) as [|_]; [done|]. cbn [negb].
    exists (objects k), L, (Some (address plq)). rewrite set_objs_same. split_and!; try done; [apply grows_refl|by exists plq].
  - rewrite (proj2 (layout_none _ _ _ _ HL _) Hq). cbn [Z.eqb negb]. destruct create; cbn [negb];
      [|right; exists (objects k), L, None; rewrite set_objs_same; split_and!; try done; apply grows_refl].
    destruct (layout_directory _ _ _ _ HL _ Ht) as (d & ns & fi & up & ents & Hd). rewrite Hp in Hd. injection Hd as ->. cbn [address].
    destruct (Hmake eq_refl d (nm ++ [0]) (name_alone _ Hnm) ltac:(by eexists _, _, _, _))
      as [E1|(s' & L' & E1 & Hok' & HL' & Hg)]; [left; unfold bind; by rewrite (on_objs_halted _ _ E1)|right].
    rewrite (bind_run _ _ _ _ _ (on_objs_run _ _ _ _ E1)).
    destruct (gr_address _ _ _ _ Hg _ _ Hp) as (pl1 & Hp1 & Ha). cbn [address] in Ha. rewrite <- Ha.
    assert (<[p ++ [nm] := c]> t !! p = Some Directory) as Ht' by (rewrite lookup_insert_ne; [done|apply longer]).
    pose proof (find_in_layout _ _ _ _ _ _ _ Hok' HL' Ht' Hp1 Hnm) as E2.
    rewrite (bind_run _ _ _ _ _ (on_objs_read _ (set_objs s' k) _ E2)).
    destruct (layout_place _ _ _ _ HL' (p ++ [nm]) c ltac:(apply lookup_insert_eq)) as (plq & Hq' & _). rewrite Hq'.
    exists s', L', (Some (address plq)). split_and!; try done. by exists plq.
Qed.

(** The permissions of [open]. *)
Definition makes_dirs (fl : Z) : bool := negb (Z.land fl O_CREATALL =? 0).
Definition makes_file (fl : Z) : bool := negb (Z.land fl O_CREAT =? 0) || negb (Z.land fl O_CREATALL =? 0).

Lemma resolve_cons fl md obj nm comps : nm <> [] -> comps <> [] ->
  resolve fs fl md obj (nm :: comps) =
    (let* d := find_or_make fs (makes_dirs fl) (mkdir_function fs) obj nm in
     match d with
     | None => ret None
     | Some d => let* obj := on_objs (open_dir_function fs d) in resolve fs fl md obj comps
     end).
Proof using. by destruct nm, comps. Qed.

(** [resolve] is [open_tree]. *)
Lemma resolve_tree fl md comps : forall p pl k root L t,
  store_ok (objects k) -> layout_ok (objects k) root L t -> Z.of_nat (base.size t + length comps) < 2 ^ 62 ->
  t !! p = Some Directory -> L !! p = Some pl -> Forall name_ok comps -> openable p comps t = true ->
  opens (resolve fs fl md (address pl) comps) k root L (p ++ comps) (open_tree (makes_dirs fl) (makes_file fl) p comps t).
Proof using.
  induction comps as [|nm comps IH]; intros p pl k root L t Hok HL Hsz Ht Hp Hnames Ho; [done|].
  apply Forall_cons in Hnames as [Hnm Hnames]. assert (nm <> []) as Hne by apply Hnm. cbn [length] in Hsz.
  destruct (decide (comps = [])) as [->|Hc].
  - rewrite resolve_last by done. fold (makes_file fl). cbn [open_tree openable] in *.
    destruct (find_or_make_tree (makes_file fl) (mkfile_function fs) nm (Regular []) k root L t p pl) as [E|(s & L' & o & E & Hok' & HL' & Hg & Hf)];
      try done; [intros Hq; apply tree_mkfile; (done || lia)|left; unfold bind; by rewrite E|right].
    exists s, L', o. split; [|done]. rewrite (bind_run _ _ _ _ _ E).
    destruct (find_or_add _ _ _ t) as [t' [|]] eqn:Et; cbn [fst snd] in *; [|by subst o].
    destruct Hf as (plq & Hq & ->). apply find_or_add_there in Et as [Et _].
    assert (exists bytes, t' !! (p ++ [nm]) = Some (Regular bytes)) as [bytes Hb]
      by (rewrite Et; destruct (t !! (p ++ [nm])) as [[]|]; try done; by eexists).
    destruct (layout_regular _ _ _ _ HL' _ _ Hb) as (f & ns & Hf & Hholds). rewrite Hq in Hf. injection Hf as ->.
    cbn [address]. by rewrite (bind_run _ _ _ _ _ (on_objs_read _ (set_objs s k) _ (tree_open_file call_open _ _ _ _ md Hholds))).
  - rewrite resolve_cons, open_tree_cons by done.
    destruct (find_or_make_tree (makes_dirs fl) (mkdir_function fs) nm Directory k root L t p pl) as [E|(s & L' & o & E & Hok' & HL' & Hg & Hf)];
      try done; [intros Hq; apply tree_mkdir; (done || lia)|left; unfold bind; by rewrite E|].
    unfold opens. rewrite (bind_run _ _ _ _ _ E). pose proof (find_or_add_size (makes_dirs fl) Directory (p ++ [nm]) t) as Hsz'.
    destruct (find_or_add _ _ _ t) as [t' [|]] eqn:Et; cbn [fst snd] in *; [|right; by exists s, L', None; subst o].
    destruct Hf as (plq & Hq & ->). destruct (openable_step _ _ _ _ _ _ Hc Ho Et) as [Hd Ho'].
    destruct (layout_directory _ _ _ _ HL' _ Hd) as (d & ns & fi & up & ents & Hdp).
    destruct (layout_content _ _ _ _ HL' _ _ Hdp) as ([| |] & _ & Hholds); try done.
    assert (on_objs (open_dir_function fs (address plq)) (set_objs s k) = Ok (address plq, set_objs s k)) as E2.
    { rewrite Hq in Hdp. injection Hdp as ->. apply on_objs_read. by eapply tree_open_dir. }
    rewrite (bind_run _ _ _ _ _ E2).
    destruct (IH (p ++ [nm]) plq (set_objs s k) root L' t') as [E3|(s3 & L3 & o & E3 & Hok3 & HL3 & Hg3 & Hf3)]; try done; [lia|by left|right].
    exists s3, L3, o. rewrite <- app_assoc in Hf3. split_and!; try done. by eapply grows_trans.
Qed.

(** ** Open files *)

(** The open file [f] in the mode [md] is the file at [q] of the drive [c]. *)
Definition opened (k : vfs) (f c md : Z) (L : layout) (q : path) : Prop :=
  exists x pl, typed_at (objects k) f x /\ drive_char x = c /\ mode x = md /\ f_ftype x <> FTYPE_STDOUT /\ L !! q = Some pl /\
    f_private x = address pl /\ (f ∉ owned L) /\ f <> 0.

Section Opening.
Context (Hstale : stale_name stale).

Lemma new_file_run p o c md obj k :
  store_ok (objects k) ->
  new_file junk_File stale p o c md obj k = Halted \/
  exists f x s, new_file junk_File stale p o c md obj k = Ok (f, set_objs s k) /\ store_ok s /\
    (f ∉ dom (objs (objects k))) /\ f <> 0 /\ objs s = <[f := to_obj x]> (objs (objects k)) /\
    drive_char x = c /\ mode x = md /\ f_private x = obj /\ f_ftype x <> FTYPE_STDOUT.
Proof using Hstale.
  intros Hok. unfold new_file. destruct (Hstale p o) as (ty & Hty & Hout).
  destruct (raw_obj_spec (objects k) sizeof_File junk_File Hok ltac:(done)) as [(f & s & E & Hf & Hz & Hok' & Ho)|E];
    [right|left; apply on_objs_halted; unfold bind; by rewrite E].
  assert (typed_at s f (junk_File f)) as Hx by (unfold typed_at; by rewrite Ho, lookup_insert_eq).
  set (x := {| f_present := true; f_ftype := ty; f_length := f_length (junk_File f); drive_char := c; mode := md; f_private := obj |}).
  exists f, x, (MkStore (store_heap s) (<[f := to_obj x]> (objs s))). split_and!; try done.
  - apply on_objs_run. rewrite (bind_run _ _ _ _ _ E), (bind_lift _ _ _ _ Hty), (bind_run _ _ _ _ _ (get_obj_run _ _ _ Hx)).
    by rewrite (bind_run _ _ _ _ _ (put_obj_run _ _ _ _ Hx)).
  - by eapply put_obj_ok.
  - cbn [objs]. by rewrite Ho, insert_insert_eq.
Qed.

(** The root directory of the drive. *)
Lemma open_root_run k d L t :
  drive_fs d = fs -> layout_ok (objects k) (mem_offset d) L t -> open_root d k = Ok (mem_offset d, k).
Proof using.
  intros Hfs HL. unfold open_root. rewrite Hfs. cbn [find_root_function open_dir_function TempFS].
  destruct (lo_root _ _ _ _ HL) as (pl & Hpl & Ha & Ht). destruct (layout_content _ _ _ _ HL _ _ Hpl) as (ct & Hct & Hh).
  rewrite Ht in Hct. injection Hct as <-. destruct pl as [d0 ns fi up ents|]; [|done]. cbn [address] in Ha. subst d0.
  rewrite (bind_run _ _ _ _ _ (on_objs_read (ret (tempfs_find_root (mem_offset d))) k _ eq_refl)).
  apply on_objs_read. by eapply tree_open_dir.
Qed.

(** What [open] does when it has copied the path to [p]. *)
Lemma open_rest k k1 p o fl md c cd d L t comps :
  mounted k c cd L t -> grown k k1 -> (p ∉ dom (objs (objects k))) -> (p ∈ dom (objs (objects k1))) ->
  drives k !! Z.to_nat (c - 65) = Some d -> Forall name_ok comps -> openable [] comps t = true ->
  Z.of_nat (base.size t + length comps) < 2 ^ 62 ->
  let r := open_tree (makes_dirs fl) (makes_file fl) [] comps t in
  let m := (let* root := open_root d in
            let* r := resolve (drive_fs d) fl md root comps in
            match r with
            | None => ret 0
            | Some obj => on_objs (free_obj p) ;;; new_file junk_File stale p o c md obj
            end) in
  m k1 = Halted \/
  exists f s L', m k1 = Ok (f, set_objs s k) /\ mounted (set_objs s k) c cd L' r.1 /\ grows (objects k) s L L' /\
    if r.2 then opened (set_objs s k) f c md L' comps /\ (f ∉ dom (objs (objects k))) else f = 0.
Proof using Hstale.
  intros Hm Hg Hp Hp1 Hd Hnames Ho Hsz r m. pose proof (mounted_grown _ _ _ _ _ _ Hm Hg) as [(d' & Hd' & _ & Hfs & HL1) _].
  rewrite (grown_drives _ _ Hg), Hd in Hd'. injection Hd' as <-. pose proof (grown_ok _ _ Hg) as Hok1.
  pose proof (grown_grows _ _ L Hg) as Hg1. assert (exists s1, k1 = set_objs s1 k) as [s1 Hk1] by (destruct Hg as (s1 & -> & _); by exists s1).
  destruct Hm as [(d' & Hd' & Hpres & _ & HL) Hw]. rewrite Hd in Hd'. injection Hd' as <-.
  unfold m. rewrite (bind_run _ _ _ _ _ (open_root_run _ _ _ _ Hfs HL1)), Hfs.
  destruct (lo_root _ _ _ _ HL1) as (pl & Hpl & Ha & Ht). rewrite <- Ha.
  destruct (resolve_tree fl md comps [] pl k1 (mem_offset d) L t) as [E|(s2 & L2 & x & E & Hok2 & HL2 & Hg2 & Hx)]; try done;
    [left; unfold bind; by rewrite E|].
  rewrite (bind_run _ _ _ _ _ E). fold r in HL2, Hx. pose proof (grows_trans _ _ _ _ _ _ Hg1 Hg2) as Hg02.
  assert (forall s', store_ok s' -> layout_ok s' (mem_offset d) L2 r.1 -> grows (objects k) s' L L2 ->
    mounted (set_objs s' k) c cd L2 r.1) as Hmount.
  { intros s' Hok' HL' Hg'. split; [by exists d|]. eapply working_grow; [exact Hw|done|by apply Hg'|by apply Hg']. }
  destruct (r.2) eqn:Er; [|right; subst x; exists 0, s2, L2; split_and!; try done; [by subst k1|by apply Hmount]].
  destruct Hx as (plq & Hq & ->).
  assert (p ∉ owned L2) as Hp2.
  { intros [Hin|Hin]%(gr_owned _ _ _ _ Hg2); [|done]. by apply Hp, (layout_in_store _ _ _ _ HL). }
  destruct (free_obj_spec s2 p Hok2) as (s3 & E3 & Hok3 & Ho3); [by apply (gr_dom _ _ _ _ Hg2)|].
  rewrite (bind_run _ _ _ _ _ (on_objs_run _ (set_objs s2 k1) _ _ E3)).
  destruct (new_file_run p o c md (address plq) (set_objs s3 (set_objs s2 k1)) Hok3)
    as [E4|(f & y & s4 & E4 & Hok4 & Hf & Hfz & Ho4 & H1 & H2 & H3 & H4)]; [by left|right]. cbn in Hf, Ho4.
  assert (f ∉ dom (objs (objects k))) as Hfk.
  { intros Hin. apply Hf. rewrite Ho3, dom_delete. apply (gr_dom _ _ _ _ Hg02) in Hin as Hin'.
    apply elem_of_difference. split; [done|]. intros ->%elem_of_singleton. done. }
  pose proof (layout_free _ _ _ _ _ _ HL2 Hp2 Ho3) as HL3.
  assert (grows (objects k) s4 L L2) as Hg4 by (eapply (grows_new _ s3); [eapply (grows_free _ s2 _ p); done|exact Hf|exact Ho4]).
  exists f, s4, L2. split; [by subst k1|]. split; [apply Hmount; [done|by eapply layout_new|done]|].
  - split; [done|]. split; [|done].
    exists y, plq. split_and!; try done; [unfold typed_at; cbn; by rewrite Ho4, lookup_insert_eq|].
    intros Hin. apply Hf. by eapply layout_in_store.
Qed.

Context (Hslack : 1 <= slack).

(** [open] is an operation on the tree of its drive.  On a drive [c] of
    TempFS whose tree is [t], a path with proper names that nothing is in the
    way of: [open] leaves exactly the tree that [open_tree] gives, which adds a
    missing file with [O_CREAT] and missing directories too with [O_CREATALL],
    and returns NULL where the file is neither there nor made, or a new open
    file on that file's inode; nothing else of the heap changes. *)
Lemma open_mounted k c cd L t s a fl md rest :
  mounted k c cd L t -> cd <> [] -> c_string s a -> s <> [] ->
  Zlen s < 2 ^ 31 -> Zlen cd < 2 ^ 31 -> Zlen (full_path cd s) < 2 ^ 31 -> on_drive (full_path cd s) c rest ->
  Forall name_ok (components rest) -> openable [] (components rest) t = true ->
  Z.of_nat (base.size t + length (components rest)) < 2 ^ 62 ->
  let r := open_tree (makes_dirs fl) (makes_file fl) [] (components rest) t in
  let m := open core slack junk_Block junk_File stale a fl md in
  m k = Halted \/
  exists f s L', m k = Ok (f, set_objs s k) /\ mounted (set_objs s k) c cd L' r.1 /\ grows (objects k) s L L' /\
    if r.2 then opened (set_objs s k) f c md L' (components rest) /\ (f ∉ dom (objs (objects k))) else f = 0.
Proof using Hstale Hslack.
  intros Hm Hcd Hs Hne Hl1 Hl2 Hl3 Hon Hnames Ho Hsz r m. pose proof Hm as [(d & Hd & Hpres & Hfs & _) Hw].
  assert (FileSystemLaws (drive_fs d)) as Laws by (rewrite Hfs; apply TempFS_laws).
  destruct (open_run core slack junk_Block junk_File stale k cd s a fl md c rest d (working_in_directory _ _ _ Hw) Hcd Hs Hne
    ltac:(lia) Hl1 Hl2 Hl3 Hon Hd Laws) as [E|E]; [by left|].
  replace (1 <=? slack) with true in E by lia. destruct E as (p & o & k1 & Hg & Hp & Hp1 & E). unfold m. rewrite E, Hpres.
  by eapply open_rest.
Qed.
End Opening.

Lemma opened_grows k f c md L q s L' :
  opened k f c md L q -> grows (objects k) s L L' -> opened (set_objs s k) f c md L' q.
Proof using.
  intros (x & pl & Hx & Hc & Hm & Hty & Hq & Hp & Hf & Hz) Hg. destruct (gr_address _ _ _ _ Hg _ _ Hq) as (pl' & Hq' & Ha).
  pose proof (elem_of_dom_2 _ _ _ Hx) as Hd. exists x, pl'. split_and!; try done.
  - eapply same_except_typed; [apply Hg|done|done].
  - congruence.
  - by intros [Hin|Hin]%(gr_owned _ _ _ _ Hg).
Qed.

Section Opened.
Context (k : vfs) (c : Z) (cd : list Z) (L : layout) (t : tree) (f md : Z) (q : path) (bytes : list Z).
Context (Hm : mounted k c cd L t) (Hc : 65 <= c) (Hop : opened k f c md L q) (Hq : t !! q = Some (Regular bytes)).

(** The record of the open file, its drive and its inode. *)
Lemma opened_file : exists x d i ns, on_objs (get_obj File f) k = Ok (x, k) /\ drive_at (drive_char x - 65) k = Ok (d, k) /\
  drive_fs d = fs /\ mode x = md /\ f_ftype x <> FTYPE_STDOUT /\ f_private x = i /\ L !! q = Some (FilePlace i ns) /\ holds_file (objects k) i ns bytes /\
  drives k !! Z.to_nat (c - 65) = Some d /\ present d = true /\ layout_ok (objects k) (mem_offset d) L t.
Proof using Hm Hc Hop Hq.
  destruct Hm as [(d & Hd & Hp & Hfs & HL) _], Hop as (x & pl & Hx & Hcx & Hmx & Hty & Hpl & Hpx & _).
  destruct (layout_regular _ _ _ _ HL _ _ Hq) as (i & ns & Hi & Hh). rewrite Hpl in Hi. injection Hi as ->.
  exists x, d, i, ns. split_and!; try done.
  - apply on_objs_read. by apply get_obj_run.
  - rewrite Hcx. apply drive_at_run; [done|lia].
Qed.

Lemma close_opened : close f k = Ok (tt, k).
Proof using Hm Hc Hop Hq.
  destruct opened_file as (x & d & i & ns & E1 & E2 & Hfs & _ & _ & Hi & _ & Hh & _). unfold close, file_drive.
  rewrite bind_assoc, (bind_run _ _ _ _ _ E1), bind_assoc, (bind_run _ _ _ _ _ E2), bind_ret, Hfs, Hi.
  apply on_objs_read. by eapply tree_close.
Qed.

Lemma read_opened buffer n :
  md <> MODE_WRITEONLY -> 0 <= n <= Zlen bytes -> n <= Zlen buffer -> n + FILENODE_DATA_SIZE < 2 ^ 64 ->
  read f buffer n k = Ok ((0, take (Z.to_nat n) bytes ++ drop (Z.to_nat n) buffer), k).
Proof using Hm Hc Hop Hq.
  intros Hmd Hn Hb Hl. destruct opened_file as (x & d & i & ns & E1 & E2 & Hfs & Hmx & _ & Hi & _ & Hh & _). unfold read.
  rewrite (bind_run _ _ _ _ _ E1). destruct (Z.eqb_spec (mode x) MODE_WRITEONLY); [congruence|].
  rewrite (bind_run _ _ _ _ _ E2), Hfs, Hi. apply on_objs_read. apply tree_read with ns; try done. by eapply mounted_ok.
Qed.

Lemma length_opened : file_length f k = Ok (Zlen bytes, k).
Proof using Hm Hc Hop Hq.
  destruct opened_file as (x & d & i & ns & E1 & E2 & Hfs & _ & _ & Hi & _ & Hh & _). unfold file_length, file_drive.
  rewrite bind_assoc, (bind_run _ _ _ _ _ E1), bind_assoc, (bind_run _ _ _ _ _ E2), bind_ret, Hfs, Hi.
  apply on_objs_read. by eapply tree_length.
Qed.

Context (junk_len : forall a, Zlen (data (junk_FileNode a)) = FILENODE_DATA_SIZE) (junk_next : null_links junk_FileNode).

Lemma write_opened from n :
  md <> MODE_READONLY -> 0 <= n <= Zlen from -> n + FILENODE_DATA_SIZE < 2 ^ 64 ->
  write printf f from n k = Halted \/
  exists s L', write printf f from n k = Ok (0, set_objs s k) /\
    mounted (set_objs s k) c cd L' (<[q := Regular (take (Z.to_nat n) from)]> t) /\ grows (objects k) s L L' /\
    opened (set_objs s k) f c md L' q.
Proof using Hm Hc Hop Hq junk_len junk_next.
  intros Hmd Hn Hl. destruct opened_file as (x & d & i & ns & E1 & E2 & Hfs & Hmx & Hty & Hi & Hp & Hh & Hd & Hpres & HL).
  assert (write printf f from n k = on_objs (tempfs_write junk_FileNode call_write i from n) k) as ->.
  { unfold write. rewrite (bind_run _ _ _ _ _ E1). destruct (Z.eqb_spec (mode x) MODE_READONLY); [congruence|].
    destruct (Z.eqb_spec (f_ftype x) FTYPE_STDOUT) as [|_]; [done|]. rewrite bind_ret. unfold file_drive. rewrite bind_assoc, (bind_run _ _ _ _ _ E1), bind_assoc, (bind_run _ _ _ _ _ E2).
    by rewrite bind_ret, Hfs, Hi. }
  destruct (tree_write (objects k) (mem_offset d) L t (mounted_ok _ _ _ _ _ Hm) HL junk_FileNode junk_len junk_next call_write q i ns bytes from n Hp Hh
    ltac:(lia) Hl ltac:(lia)) as [E|(s & L' & E & Hok' & HL' & Hg)]; [left; by apply on_objs_halted|right].
  exists s, L'. split; [by apply on_objs_run|]. split; [|split; [done|by eapply opened_grows]].
  destruct Hm as [_ Hw]. split; [by exists d|]. eapply working_grow; [exact Hw|done|by apply Hg|by apply Hg].
Qed.
End Opened.

(** ** Unpacking a ramdisk *)

(** A block nobody else has is freed. *)
Lemma mounted_free k c cd L t s L' t' p :
  mounted k c cd L t -> mounted (set_objs s k) c cd L' t' -> grows (objects k) s L L' ->
  (p ∉ dom (objs (objects k))) -> (p ∈ dom (objs s)) -> (p ∉ owned L') ->
  exists s', on_objs (free_obj p) (set_objs s k) = Ok (tt, set_objs s' k) /\ mounted (set_objs s' k) c cd L' t' /\
    grows (objects k) s' L L'.
Proof using.
  intros [_ Hw] [(d & Hd & Hp & Hfs & HL) Hw'] Hg Hpk Hps Hpo.
  destruct (free_obj_spec s p (working_ok _ _ _ Hw') Hps) as (s' & E & Hok' & Ho).
  pose proof (grows_free _ _ _ _ _ _ Hg Hpk Ho) as Hg'. exists s'. split; [by apply (on_objs_run _ (set_objs s k))|]. split; [|done].
  split; [exists d; split_and!; try done; by eapply layout_free|]. eapply working_grow; [exact Hw|done|by apply Hg'|by apply Hg'].
Qed.

Section Unpacking.
Context (Hstale : stale_name stale) (Hslack : 1 <= slack).
Context (junk_len : forall a, Zlen (data (junk_FileNode a)) = FILENODE_DATA_SIZE) (junk_next : null_links junk_FileNode).

Lemma install_file_tree k c cd L t nm size data :
  mounted k c cd L t -> cd <> [] -> Zlen cd < 2 ^ 31 -> 65 <= c <= 90 -> Forall (fun c => c <> 0) nm -> Zlen nm < 512 ->
  Forall name_ok (components nm) -> openable [] (components nm) t = true -> 0 <= size < 2 ^ 31 -> size <= Zlen data ->
  Z.of_nat (base.size t + length (components nm)) < 2 ^ 62 ->
  let m := install_file core slack junk_Block junk_File stale printf c nm size data in
  m k = Halted \/
  exists s L', m k = Ok (tt, set_objs s k) /\ mounted (set_objs s k) c cd L' (add_file nm (take (Z.to_nat size) data) t) /\
    grows (objects k) s L L'.
Proof using Hstale Hslack junk_len junk_next.
  intros Hm Hcd Hlcd Hc Hz Hl Hnames Ho Hs Hdata Hsz m. unfold m, install_file. pose proof (Zlen_nonneg nm).
  destruct (malloc_buffer_spec slack junk_Block k (Zlen nm + 4) (mounted_ok _ _ _ _ _ Hm) ltac:(lia) ltac:(lia))
    as [E|(p & b & k1 & E & Hg & _ & Hp & Hp1)]; [left; unfold bind; by rewrite E|]. rewrite (bind_run _ _ _ _ _ E). clear E.
  pose proof (mounted_grown _ _ _ _ _ _ Hm Hg) as Hm1. pose proof (grown_grows _ _ L Hg) as Hg1. apply elem_of_dom_2 in Hp1.
  assert (exists s1, k1 = set_objs s1 k) as [s1 Hk1] by (destruct Hg as (s1 & -> & _); by exists s1).
  unfold unpack_file. set (buf := c :: 58 :: 47 :: _).
  assert (c_string (c :: 58 :: 47 :: nm) buf) as Hbuf by (split; [repeat (constructor; [lia|]); done|by eexists]).
  destruct (open_tree_file [] (components nm) t Ho) as (t1 & bytes & Et & Hreg & _).
  destruct (open_mounted Hstale Hslack k1 c cd L t (c :: 58 :: 47 :: nm) buf O_CREATALL MODE_WRITEONLY nm) as [E|(f & s2 & L2 & E & Hm2 & Hg2 & Hr)];
    try done; [rewrite !Zlen_cons; lia|unfold full_path; cbn; rewrite !Zlen_cons; lia|left; unfold bind; by rewrite E|].
  rewrite (bind_run _ _ _ _ _ E). change (open_tree _ _ _ _ _) with (open_tree true true [] (components nm) t) in Hm2, Hr.
  rewrite Et in Hm2, Hr. cbn [fst snd app] in *. destruct Hr as [Hop Hf].
  assert (f <> 0) as Hfz by (by destruct Hop as (? & ? & _ & _ & _ & _ & _ & _ & _ & ?)).
  destruct (Z.eqb_spec f 0) as [|_]; [done|].
  destruct (write_opened _ c cd L2 t1 f MODE_WRITEONLY (components nm) bytes Hm2 ltac:(lia) Hop Hreg junk_len junk_next data size)
    as [E2|(s3 & L3 & E2 & Hm3 & Hg3 & Hop3)]; [done|lia|unfold FILENODE_DATA_SIZE; lia|left; unfold bind; by rewrite E2|right].
  rewrite (bind_run _ _ _ _ _ E2). cbn [Z.eqb negb].
  rewrite (bind_run _ _ _ _ _ (close_opened _ _ _ _ _ _ _ _ _ Hm3 ltac:(lia) Hop3 ltac:(apply lookup_insert_eq))).
  pose proof (grows_trans _ _ _ _ _ _ Hg2 Hg3) as Hg13. pose proof (grows_trans _ _ _ _ _ _ Hg1 Hg13) as Hg03. subst k1.
  assert (p ∉ owned L3) as Hp3.
  { intros [Hin|Hin]%(gr_owned _ _ _ _ Hg13); [|done]. destruct Hm as [(d & _ & _ & _ & HL) _].
    by apply Hp, (layout_in_store _ _ _ _ HL). }
  destruct (mounted_free k c cd L t s3 L3 (add_file nm (take (Z.to_nat size) data) t) p) as (s4 & E4 & Hm4 & Hg4); try done.
  - unfold add_file. rewrite Et. exact Hm3.
  - by apply (gr_dom _ _ _ _ Hg13).
  - exists s4, L3. split_and!; [exact E4|done|done].
Qed.

(** [install] leaves [archive_tree]. *)
Lemma install_tree c cd : cd <> [] -> Zlen cd < 2 ^ 31 -> 65 <= c <= 90 -> forall es a, archive_of es a -> forall k L t t',
  mounted k c cd L t -> archive_tree es a t = Some t' -> Z.of_nat (base.size t) + Zlen a < 2 ^ 62 ->
  let m := install core slack junk_Block junk_File stale printf c es a in
  m k = Halted \/
  exists s L', m k = Ok (tt, set_objs s k) /\ mounted (set_objs s k) c cd L' t' /\ grows (objects k) s L L'.
Proof using Hstale Hslack junk_len junk_next.
  intros Hcd Hlcd Hc es a Ha. induction Ha as [a Hend|nm ty size ds header data es a Hl Hnm Hmagic Hds Hd Hv Hs Hty Hdata Ha IH];
    intros k L t t' Hm Ht Hsz m.
  - injection Ht as <-. right. exists (objects k), L. rewrite set_objs_same. split_and!; [done|done|apply grows_refl].
  - unfold m. clear m. cbn [archive_tree install] in *. pose proof Hnm as [Hz [tl Eh]].
    assert (drop 512 (header ++ data ++ a) = data ++ a) as E1 by (unfold Zlen in Hl; replace 512%nat with (length header) by lia; apply drop_app_length).
    assert (drop (Z.to_nat (512 + (size + 511) / 512 * 512)) (header ++ data ++ a) = a) as E2.
    { rewrite app_assoc. replace (512 + _) with (Zlen (header ++ data)) by (rewrite Zlen_app; lia). rewrite Zlen_to_nat. apply drop_app_length. }
    rewrite E1, E2 in *. rewrite !Zlen_app in Hsz. pose proof (Zlen_nonneg data). pose proof (Zlen_nonneg a). pose proof (Zlen_nonneg tl).
    assert (Zlen nm < 512) by (rewrite Eh, Zlen_app, Zlen_cons in Hl; lia).
    destruct (ty =? 53); [apply (IH k L t); [done|done|lia]|].
    destruct (bool_decide (Forall name_ok (components nm)) && _) eqn:Eok; [|done]. apply andb_true_iff in Eok as [Hnames%bool_decide_eq_true_1 Ho].
    pose proof (components_length nm). pose proof (add_file_size nm (take (Z.to_nat size) (data ++ a)) t Ho). unfold Zlen in *.
    destruct (install_file_tree k c cd L t nm size (data ++ a)) as [E|(s & L1 & E & Hm1 & Hg1)]; try done; unfold Zlen in *;
      [rewrite length_app; divlia|lia|left; unfold bind; by rewrite E|]. rewrite (bind_run _ _ _ _ _ E).
    destruct (IH (set_objs s k) L1 _ t' Hm1 Ht ltac:(lia)) as [E3|(s' & L' & E3 & Hm' & Hg')]; [by left|right].
    exists s', L'. split_and!; [done|done|]. by eapply grows_trans.
Qed.

Lemma mount_tempfs c root (k : vfs) :
  65 <= c <= 90 -> (Z.to_nat (c - 65) < length (drives k))%nat -> filesystems k !! 0%nat = Some fs ->
  mount c FS_TEMPFS true root 0 0 k = Ok (0, set_drives (<[Z.to_nat (c - 65) :=
    {| present := true; drive_fs := fs; in_memory := true; mem_offset := root; partition := 0 |}]> (drives k)) k).
Proof using.
  intros Hc Hlen Hfs. unfold mount, upper_drive, bad_drive. replace (97 <=? c) with false by lia. cbn [andb].
  replace (c <? 65) with false by lia. replace (90 <? c) with false by lia. cbn [orb]. rewrite bind_get.
  rewrite (bind_lift _ fs) by (unfold rd, FS_TEMPFS; change (Z.to_nat 0) with 0%nat; by rewrite Hfs).
  assert (forall (k' : vfs) d, (Z.to_nat (c - 65) < length (drives k'))%nat ->
    set_drive (c - 65) d k' = Ok (tt, set_drives (<[Z.to_nat (c - 65) := d]> (drives k')) k')) as Hset.
  { intros k' d Hk'. unfold set_drive. rewrite bind_get. unfold wr. destruct (_ || _) eqn:E; [unfold Zlen in E; lia|done]. }
  rewrite (bind_run _ _ _ _ _ (Hset k _ Hlen)).
  erewrite bind_run by (apply Hset; cbn [set_drives drives]; by rewrite length_insert).
  cbn [set_drives drives]. by rewrite list_insert_insert_eq.
Qed.

Context (Hj1 : no_entries junk_Inode) (Hj2 : forall a, Zlen (filename (junk_Inode a)) = FILENAME_SIZE).

(** A new file system on the drive [c]. *)
Lemma new_drive_run k c cd :
  in_directory core k cd -> 65 <= c <= 90 -> (Z.to_nat (c - 65) < length (drives k))%nat -> filesystems k !! 0%nat = Some fs ->
  let m := (let* root := on_objs (tempfs_new junk_Inode junk_DirEntryNode) in mount c FS_TEMPFS true root 0 0) in
  m k = Halted \/
  exists d s L, let k' := set_objs s (set_drives (<[Z.to_nat (c - 65) := d]> (drives k)) k) in
    m k = Ok (0, k') /\ mounted k' c cd L {[ [] := Directory ]} /\ same_except ∅ (objects k) s /\
    dom (objs (objects k)) ⊆ dom (objs s) /\ forall q, q ∈ owned L -> q ∉ dom (objs (objects k)).
Proof using Hj1 Hj2.
  intros Hdir Hc Hlen Hfs m. unfold m. destruct (current_directory core k cd Hdir) as (_ & _ & _ & _ & _ & Hok).
  destruct (tempfs_new_spec junk_Inode junk_DirEntryNode (objects k) Hok Hj1 Hj2)
    as [(root & first & n & fi & up & s & E & Hok' & Hd & Hnd & _ & Hfresh & Hs & Hdom)|E];
    [right|left; unfold bind; by rewrite (on_objs_halted _ _ E)].
  rewrite (bind_run _ _ _ _ _ (on_objs_run _ _ _ _ E)), (mount_tempfs c root (set_objs s k) Hc Hlen Hfs).
  set (d := {| present := true |}). exists d, s, {[ [] := DirPlace root [first; n] fi up [] ]}.
  assert (forall q, q ∈ owned {[ [] := DirPlace root [first; n] fi up [] ]} -> q ∉ dom (objs (objects k))) as Hown.
  { intros q (p & pl & [<- <-]%lookup_singleton_Some & Hq)%elem_of_owned. apply Hfresh. by apply elem_of_list_to_set in Hq. }
  split; [done|]. split_and!; try done. split.
  - exists d. split_and!; [cbn; by apply list_lookup_insert_eq|done|done|]. by apply layout_empty.
  - destruct Hdir as (ts & tks & cs & cur & t & ? & ? & ? & ? & ? & ?).
    change (working (set_objs s k) cd (owned {[ [] := DirPlace root [first; n] fi up [] ]})).
    apply (working_grow k cd ∅); [|done|done|by right; apply Hown]. exists ts, tks, cs, cur, t. by split_and!.
Qed.

(** What [setup_initrd] does. *)
Lemma setup_initrd_run k cd es archive t :
  in_directory core k cd -> cd <> [] -> Zlen cd < 2 ^ 31 -> length (drives k) = 26%nat -> filesystems k !! 0%nat = Some fs ->
  archive_of es archive -> Zlen archive < 2 ^ 61 -> archive_tree es archive {[ [] := Directory ]} = Some t ->
  let m := setup_initrd junk_Inode junk_DirEntryNode core slack junk_Block junk_File stale printf archive in
  m k = Halted \/
  exists s L d, let k' := set_objs s (set_drives (<[17%nat := d]> (drives k)) k) in
    m k = Ok (tt, k') /\ mounted k' 82 cd L t /\ same_except ∅ (objects k) s /\
    dom (objs (objects k)) ⊆ dom (objs s) /\ forall q, q ∈ owned L -> q ∉ dom (objs (objects k)).
Proof using Hstale Hslack junk_len junk_next Hj1 Hj2.
  intros Hdir Hcd Hlcd Hlen Hfs Ha Hl Ht m. pose proof (Zlen_nonneg archive).
  assert (m k = ((let* root := on_objs (tempfs_new junk_Inode junk_DirEntryNode) in mount 82 FS_TEMPFS true root 0 0) ;;;
    unpack_ustar core slack junk_Block junk_File stale printf 82 archive) k) as -> by (by rewrite bind_assoc).
  destruct (new_drive_run k 82 cd Hdir ltac:(lia) ltac:(rewrite Hlen; lia) Hfs) as [E|(d & s & L & E & Hm & Hs & Hdom & Hown)];
    [left; unfold bind at 1; by rewrite E|]. rewrite (bind_run _ _ _ _ _ E), (unpack_ustar_run _ _ _ _ _ _ _ es) by (done || lia).
  set (k1 := set_objs _ _) in *.
  destruct (install_tree 82 cd Hcd Hlcd ltac:(lia) es archive Ha k1 L {[ [] := Directory ]} t Hm Ht) as [E2|(s2 & L2 & E2 & Hm2 & Hg2)];
    [rewrite map_size_singleton; lia|by left|right].
  exists s2, L2, d. split; [exact E2|]. split; [exact Hm2|]. split; [|split].
  - intros q Hq Hin. rewrite (gr_same _ _ _ _ Hg2); [by apply Hs| |by apply Hdom]. intros Hq'. by apply (Hown q).
  - etransitivity; [exact Hdom|apply Hg2].
  - intros q [Hq|Hq]%(gr_owned _ _ _ _ Hg2) Hin; [by apply (Hown q)|]. by apply Hq, Hdom.
Qed.

End Unpacking.

(** ** Theorems

    The arrays of the records have their lengths; all else that is taken from
    [malloc] and from the freed path of [open] is a premise. *)
Context (Hslack : 1 <= slack).
Context (junk_len : forall a, Zlen (data (junk_FileNode a)) = FILENODE_DATA_SIZE) (junk_name : forall a, Zlen (filename (junk_Inode a)) = FILENAME_SIZE).

(** C16: the kernel's drive [R] is the ramdisk.  [setup_initrd] makes a new file
    system on the drive and unpacks the archive onto it: it ends (or runs out
    of memory) with the drive mounted, its tree exactly the files of the
    archive under their names, each with its bytes ([archive_tree]), and with
    every object that was there before as it was.  This is for memory in which
    the fields that fs/tempfs.c does not initialise happen to be zero
    ([no_entries], [null_links]: [malloc] promises neither), for a freed path that
    [open] still reads as a string other than "stdout" ([stale_name]), and for
    an accessible byte behind a block, where [unpack_ustar] writes. *)
Theorem setup_initrd_builds_tree k cd es archive t :
  no_entries junk_Inode -> null_links junk_FileNode -> stale_name stale ->
  in_directory core k cd -> cd <> [] -> Zlen cd < 2 ^ 31 -> length (drives k) = 26%nat -> filesystems k !! 0%nat = Some fs ->
  archive_of es archive -> Zlen archive < 2 ^ 61 -> archive_tree es archive {[ [] := Directory ]} = Some t ->
  let m := setup_initrd junk_Inode junk_DirEntryNode core slack junk_Block junk_File stale printf archive in
  m k = Halted \/
  exists s L d, let k' := set_objs s (set_drives (<[17%nat := d]> (drives k)) k) in
    m k = Ok (tt, k') /\ mounted k' 82 cd L t /\ same_except ∅ (objects k) s.
Proof using Hslack junk_len junk_name.
  intros Hj1 junk_next Hstale Hdir Hcd Hlcd Hlen Hfs Ha Hl Ht.
  destruct (setup_initrd_run Hstale Hslack junk_len junk_next Hj1 junk_name k cd es archive t Hdir Hcd Hlcd Hlen Hfs Ha Hl Ht) as [E|(s & L & d & E & Hm & Hs & _)]; [by left|right].
  by exists s, L, d.
Qed.

(** C11: what is written under a name is read under that name.  A file made and
    written through one path and then opened through any path with the same
    meaning has the length and the bytes that were written, whatever was there
    before; the rest of the tree stays, but for the directories made.  Nothing is
    assumed of [printf], which [write] calls for a file of the type stdout: the
    freed path that [open] looks the type up in reads as some other string
    ([stale_name]).  The first node of a file gets a null [next_node] from
    [malloc], which does not promise it ([null_links]), and a byte behind a
    block can be accessed, where [open] ends a path. *)
Theorem written_file_reads_back k cd c L t s a s' a' rest from n buffer :
  null_links junk_FileNode -> stale_name stale ->
  mounted k c cd L t -> cd <> [] -> Zlen cd < 2 ^ 31 -> 65 <= c <= 90 ->
  c_string s a -> s <> [] -> Zlen s < 2 ^ 31 -> c_string s' a' -> s' <> [] -> Zlen s' < 2 ^ 31 ->
  full_path cd s = c :: 58 :: 47 :: rest -> full_path cd s' = c :: 58 :: 47 :: rest -> Zlen rest < 2 ^ 30 ->
  Forall name_ok (components rest) -> openable [] (components rest) t = true -> Z.of_nat (base.size t) < 2 ^ 61 ->
  0 <= n <= Zlen from -> n <= Zlen buffer -> n < 2 ^ 63 ->
  let open := open core slack junk_Block junk_File stale in
  let m :=
    (let* f := open a O_CREATALL MODE_WRITEONLY in
     let* status := write printf f from n in
     close f ;;;
     let* g := open a' 0 MODE_READONLY in
     let* len := file_length g in
     let* r := read g buffer n in
     ret (status, len, r)) in
  m k = Halted \/
  exists s L', m k = Ok ((0, n, (0, take (Z.to_nat n) from ++ drop (Z.to_nat n) buffer)), set_objs s k) /\
    mounted (set_objs s k) c cd L' (add_file rest (take (Z.to_nat n) from) t) /\ grows (objects k) s L L'.
Proof using Hslack junk_len.
  intros junk_next Hstale Hm Hcd Hlcd Hc Hs Hne Hls Hs' Hne' Hls' Hf1 Hf2 Hlr Hnames Ho Hsz Hn Hb Hl open m. subst open m. cbv beta.
  pose proof (Zlen_nonneg rest). pose proof (components_length rest). assert (on_drive (full_path cd s) c rest) as Hon1 by done.
  assert (Zlen (full_path cd s) < 2 ^ 31) as Hl1 by (rewrite Hf1, !Zlen_cons; lia).
  assert (Zlen (full_path cd s') < 2 ^ 31) as Hl2 by (rewrite Hf2, !Zlen_cons; lia).
  destruct (open_tree_file [] (components rest) t Ho) as (t1 & bytes & Et & Hreg & Hsz1).
  destruct (open_mounted Hstale Hslack k c cd L t s a O_CREATALL MODE_WRITEONLY rest) as [E|(f & s1 & L1 & E & Hm1 & Hg1 & Hr)];
    try done; [unfold Zlen in *; lia|left; unfold bind; by rewrite E|]. rewrite (bind_run _ _ _ _ _ E).
  change (open_tree _ _ _ _ _) with (open_tree true true [] (components rest) t) in Hm1, Hr. rewrite Et in Hm1, Hr. cbn [fst snd app] in *.
  destruct Hr as [Hop _].
  destruct (write_opened _ c cd L1 t1 f MODE_WRITEONLY _ bytes Hm1 ltac:(lia) Hop Hreg junk_len junk_next from n)
    as [E2|(s2 & L2 & E2 & Hm2 & Hg2 & Hop2)]; [done|lia|unfold FILENODE_DATA_SIZE; lia|left; unfold bind; by rewrite E2|].
  rewrite (bind_run _ _ _ _ _ E2). rewrite (bind_run _ _ _ _ _ (close_opened _ _ _ _ _ _ _ _ _ Hm2 ltac:(lia) Hop2 ltac:(apply lookup_insert_eq))).
  destruct (open_tree_again [] (components rest) t t1 (take (Z.to_nat n) from) Ho) as [Ho2 Et2]; [by rewrite Et|].
  destruct (open_mounted Hstale Hslack _ c cd L2 _ s' a' 0 MODE_READONLY rest Hm2) as [E3|(g & s3 & L3 & E3 & Hm3 & Hg3 & Hr3)]; try done;
    [rewrite map_size_insert_Some by (by eexists); unfold Zlen in *; lia|left; unfold bind; by rewrite E3|right].
  rewrite (bind_run _ _ _ _ _ E3). change (open_tree _ _ _ _ ?x) with (open_tree false false [] (components rest) x) in Hm3, Hr3.
  cbn [app] in Et2. rewrite Et2 in Hm3, Hr3. cbn [fst snd] in *. destruct Hr3 as [Hop3 _].
  assert (Zlen (take (Z.to_nat n) from) = n) as Hlen by (unfold Zlen in *; rewrite length_take; lia).
  rewrite (bind_run _ _ _ _ _ (length_opened _ _ _ _ _ _ _ _ _ Hm3 ltac:(lia) Hop3 ltac:(apply lookup_insert_eq))), Hlen.
  rewrite (bind_run _ _ _ _ _ (read_opened _ _ _ _ _ _ _ _ _ Hm3 ltac:(lia) Hop3 ltac:(apply lookup_insert_eq) buffer n
    ltac:(done) ltac:(lia) ltac:(lia) ltac:(unfold FILENODE_DATA_SIZE; lia))), take_take, Nat.min_id.
  exists s3, L3. split; [done|]. unfold add_file. rewrite Et. split; [exact Hm3|].
  eapply grows_trans; [exact Hg1|]. eapply grows_trans; [exact Hg2|exact Hg3].
Qed.
End FileDrive.

(** ** Examples *)

Abbreviation demo_junk f := (f (fun _ : Z => zero_Inode) (fun _ : Z => zero_DirEntryNode) (fun _ : Z => zero_FileNode)
  (fun _ _ b _ => ret (0, b)) (fun _ _ _ _ => ret 0) (fun _ _ _ => ret tt) (fun _ _ => ret tt)) (only parsing).
Definition demo_stale (_ _ : Z) : list Z := [97; 0].
Definition empty_tree : tree := {[ [] := Directory ]}.

Example archive_tree_demo :
  archive_tree [([97], 48, 3)] demo_archive empty_tree = Some (<[ [[97]] := Regular [1; 2; 3] ]> empty_tree).
Proof. vm_compute. reflexivity. Qed.

(** [O_CREATALL] makes what is missing on the way; without it nothing is made. *)
Example open_tree_demo :
  open_tree true true [] [[97]; [98]] empty_tree = (<[ [[97]; [98]] := Regular [] ]> (<[ [[97]] := Directory ]> empty_tree), true) /\
  open_tree false true [] [[97]; [98]] empty_tree = (empty_tree, false).
Proof. split; vm_compute; reflexivity. Qed.

(** The machine of Mount.v with a new file system on the drive [R]. *)
Definition demo_drive : M Mount.vfs Z :=
  let* root := on_objs (tempfs_new (Obj := VfsObj) (fun _ => zero_Inode) (fun _ => zero_DirEntryNode)) in
  mount 82 FS_TEMPFS true root 0 0.
Definition demo_run {A} (m : M Mount.vfs A) (s : Store VfsObj) : outcome (A * Store VfsObj) :=
  let+ (a, k) := (demo_boot ;;; demo_drive ;;; m) (MkVfs (MkSched s 0 0 false false) [] []) in Ok (a, store (scheduler k)).

(** What runs on it runs from an empty drive. *)
Lemma drive_run {A} (m : M Mount.vfs A) x : value_of (on_boot (demo_run m)) = Some x ->
  exists (k : Mount.vfs) L k', demo_junk (mounted (Obj := VfsObj)) 0 k 82 root_path L empty_tree /\ m k = Ok (x, k').
Proof.
  intros (s0 & s & E & Hok & _)%on_boot_start. unfold demo_run in E.
  destruct (init_tasklist_spec 2 (fun _ => zero_Task) (fun _ => []) 0 1 0 (MkSched s0 0 0 false false) Hok
    ltac:(done) ltac:(done) ltac:(done)) as [(k & p & q & b & E' & Hs & Hu & Hstr & _)|E'].
  - assert (demo_boot (MkVfs (MkSched s0 0 0 false false) [] []) = Ok (tt, MkVfs k (replicate 26 no_drive) [demo_fs])) as Eb
      by (unfold demo_boot, bind, on_sched; cbn [scheduler]; by rewrite E').
    assert (in_directory 0 (MkVfs k (replicate 26 no_drive) [demo_fs]) root_path) as Hd
      by (exists [p], [first_Task p q 0 0 (MkPtr b 0)], [0], 0%nat, (first_Task p q 0 0 (MkPtr b 0)); by split_and!).
    rewrite (bind_run _ _ _ _ _ Eb) in E.
    destruct (demo_junk (new_drive_run (Obj := VfsObj)) 0 ltac:(done) ltac:(done) _ 82 root_path Hd ltac:(done) ltac:(cbn; lia) eq_refl)
      as [Eh|(d & s' & L & Er & Hm & _)].
    + exfalso. fold demo_drive in Eh. unfold bind in E. by rewrite Eh in E.
    + fold demo_drive in Er. rewrite (bind_run _ _ _ _ _ Er) in E. apply obind_ok in E as ([a k2] & E & [= -> _]).
      eexists _, L, k2. split; [exact Hm|exact E].
  - exfalso. unfold demo_boot, bind, on_sched in E. cbn [scheduler] in E. by rewrite E' in E.
Qed.

Lemma drive_start : exists (k : Mount.vfs) L, demo_junk (mounted (Obj := VfsObj)) 0 k 82 root_path L empty_tree.
Proof. destruct (drive_run (ret tt) tt) as (k & L & _ & Hm & _); [vm_compute; reflexivity|]. by exists k, L. Qed.

Lemma demo_stale_type : stale_name demo_stale.
Proof. intros p o. by eexists. Qed.
Abbreviation demo_mounted := (demo_junk (mounted (Obj := VfsObj)) 0).

Lemma setup_initrd_builds_tree_witness : exists k : Mount.vfs,
  let m := setup_initrd (fun _ => zero_Inode) (fun _ => zero_DirEntryNode) 0 2 (fun _ => []) (fun _ => zero_File)
    demo_stale (fun _ => ret tt) demo_archive in
  m k = Halted \/
  exists s L d, let k' := set_objs s (set_drives (<[17%nat := d]> (drives k)) k) in
    m k = Ok (tt, k') /\ demo_mounted k' 82 root_path L (<[ [[97]] := Regular [1; 2; 3] ]> empty_tree) /\
    same_except ∅ (store (scheduler k)) s.
Proof.
  destruct vfs_start as (k & Hk & _ & Hlen & Hfs). exists k.
  exact (demo_junk (setup_initrd_builds_tree (Obj := VfsObj)) 0 2 (fun _ => []) (fun _ => zero_File) demo_stale (fun _ => ret tt)
    ltac:(done) (fun _ => eq_refl) (fun _ => eq_refl) k root_path [([97], 48, 3)] demo_archive _
    ltac:(done) ltac:(done) demo_stale_type Hk ltac:(done) ltac:(done) Hlen ltac:(by rewrite Hfs) demo_archive_entries ltac:(by vm_compute) archive_tree_demo).
Defined.

(** Written as ["a/b"] in the root directory, read as ["R:/a/b"]. *)
Lemma written_file_reads_back_witness : exists (k : Mount.vfs) L, demo_mounted k 82 root_path L empty_tree /\
  let m :=
    (let* f := demo_open [97; 47; 98; 0] O_CREATALL MODE_WRITEONLY in
     let* status := write (fun _ => ret tt) f [5; 6; 7] 2 in
     close f ;;;
     let* g := demo_open [82; 58; 47; 97; 47; 98; 0] 0 MODE_READONLY in
     let* len := file_length g in
     let* r := read g [0; 0; 0] 2 in
     ret (status, len, r)) in
  (m k = Halted \/
   exists s L', m k = Ok ((0, 2, (0, [5; 6; 0])), set_objs s k) /\
     demo_mounted (set_objs s k) 82 root_path L' (add_file [97; 47; 98] [5; 6] empty_tree) /\
     grows (store (scheduler k)) s L L').
Proof.
  destruct drive_start as (k & L & Hm). exists k, L. split; [exact Hm|].
  exact (demo_junk (written_file_reads_back (Obj := VfsObj)) 0 2 (fun _ => []) (fun _ => zero_File) demo_stale (fun _ => ret tt)
    ltac:(done) (fun _ => eq_refl) k root_path 82 L empty_tree [97; 47; 98] [97; 47; 98; 0]
    [82; 58; 47; 97; 47; 98] [82; 58; 47; 97; 47; 98; 0] [97; 47; 98] [5; 6; 7] 2 [0; 0; 0] ltac:(done) demo_stale_type Hm ltac:(done) ltac:(done) ltac:(done)
    ltac:(split; [by repeat constructor|by exists []]) ltac:(done) ltac:(done) ltac:(split; [by repeat constructor|by exists []]) ltac:(done)
    ltac:(done) ltac:(done) ltac:(done) ltac:(done) ltac:(apply (bool_decide_eq_true_1 _); by vm_compute) ltac:(by vm_compute) ltac:(by vm_compute)
    ltac:(done) ltac:(done) ltac:(done)).
Defined.
