(* ===== verification/StartFiles.v ===== *)
(** * The files of the kernel at its start

    [create_device] of fs/vfs.c on a drive of TempFS is an operation on the tree of
    the drive (FileTree.v, FileDrive.v); the part of kernel/entry.c's [_start]
    that sets the files up, from the task list to the ramdisk, leaves the drive
    [D] with the device and the drive [R] with the ramdisk. *)
From S2P Require Import Prelude Allocator Chain Memory PMM KHeap Strings Vector Events Blocks Tasks TempFS VFS Mount FileTree FileDrive.

(** ** Devices on a tree *)

(** The status of [create_device] and the tree it leaves: 2 without a directory
    on the way, 1 where something is there already. *)
Fixpoint device_tree (ops : DeviceOps) (p : path) (comps : list (list Z)) (t : tree) : tree * Z :=
  match comps with
  | [] => (t, 0)
  | [nm] => match t !! (p ++ [nm]) with Some _ => (t, 1) | None => (<[p ++ [nm] := Device ops]> t, 0) end
  | nm :: comps' => match t !! (p ++ [nm]) with Some _ => device_tree ops (p ++ [nm]) comps' t | None => (t, 2) end
  end.

(** Nothing but directories on the way. *)
Fixpoint walkable (p : path) (comps : list (list Z)) (t : tree) : bool :=
  match comps with
  | [] | [_] => true
  | nm :: comps' =>
      match t !! (p ++ [nm]) with None | Some Directory => walkable (p ++ [nm]) comps' t | _ => false end
  end.

Section Devices.
Context `{AL : Allocator} {Obj : Type}.
Context `{OV : !Object Vector Obj, ON : !Object VectorNode Obj, OE : !Object Event Obj}.
Context `{OT : !Object Task Obj, OB : !Object Block Obj, OL : !Object File Obj}.
Abbreviation Mem := (M (Vfs (Obj := Obj))).
Abbreviation objects k := (store (Obj := Obj) (scheduler k)).

(** ** What the path of a device means to a file system *)
Section Resolve.
Context (fs : FileSystem Obj) (ops : DeviceOps).

(** The status to return, or [None] where the path is done. *)
Fixpoint resolve_device (obj : Z) (comps : list (list Z)) : Mem (option Z) :=
  match comps with
  | [] | [[]] => ret None
  | [name] =>
      let* f := on_objs (find_function fs obj (name ++ [0])) in
      if f =? 0 then
        on_objs (create_device_function fs obj (name ++ [0]) ops) ;;;
        on_objs (find_function fs obj (name ++ [0])) ;;;
        ret None
      else ret (Some 1)
  | name :: comps' =>
      let* f := on_objs (find_function fs obj (name ++ [0])) in
      if f =? 0 then ret (Some 2)
      else
        let* obj := on_objs (open_dir_function fs f) in
        resolve_device obj comps'
  end.

Lemma resolve_device_last obj w : w <> [] ->
  resolve_device obj [w] =
    (let* f := on_objs (find_function fs obj (w ++ [0])) in
     if f =? 0 then
       on_objs (create_device_function fs obj (w ++ [0]) ops) ;;;
       on_objs (find_function fs obj (w ++ [0])) ;;;
       ret None
     else ret (Some 1)).
Proof using. by destruct w. Qed.

Lemma resolve_device_cons obj w comps : comps <> [] ->
  resolve_device obj (w :: comps) =
    (let* f := on_objs (find_function fs obj (w ++ [0])) in
     if f =? 0 then ret (Some 2) else let* obj := on_objs (open_dir_function fs f) in resolve_device obj comps).
Proof using. by destruct w, comps. Qed.

(** The loop of [create_device] on the rest [rest] of a path. *)
Lemma device_loop_resolve rest {Laws : FileSystemLaws fs} :
  Forall (fun c => c <> 0) rest -> Zlen rest < 2 ^ 31 ->
  forall pre pre' tl tl' fuel, Zlen pre' = Zlen pre -> (length rest <= fuel)%nat ->
  exists o, forall obj k,
    device_loop fs fuel ops (pre ++ rest ++ 0 :: tl) (pre' ++ rest ++ 0 :: tl') (Zlen pre') (Zlen pre) obj k =
    (let* r := resolve_device obj (components rest) in
     ret (match r with Some status => inl status | None => inr (o, o) end)) k.
Proof using.
  assert (forall w tl' o k, VFS.plain w -> Zlen w < 2 ^ 31 ->
    on_objs (find_function fs o (w ++ 0 :: tl')) k = on_objs (find_function fs o (w ++ [0])) k) as Hfind.
  { intros w tl' o k Hw Hl. apply on_objs_ext. intros s.
    apply (find_name o w); [by apply component_string|by apply component_alone|done]. }
  induction rest as [w Hw|w rest Hw IH] using path_ind; intros Hz Hl pre pre' tl tl' fuel Hp Hf.
  - rewrite (components_last w Hw). exists (Zlen pre). intros obj k.
    destruct (decide (w = [])) as [->|Hne].
    { cbn [app resolve_device]. destruct fuel; cbn [device_loop]; rewrite bind_lift with (a := 0) by (by apply rd_mid);
        cbn; by rewrite Hp. }
    destruct fuel as [|fuel]; [destruct w; cbn in *; [done|lia]|]. cbn [device_loop]. rewrite loop_test by done.
    rewrite loop_component by (first [by split|by right|by left]). cbn [Z.eqb]. cbv zeta.
    rewrite drop_prefix, resolve_device_last, bind_assoc by done. apply bind_ext; [by apply Hfind|]. intros f k1.
    destruct (f =? 0); [|done]. rewrite !bind_assoc. apply bind_ext.
    + apply on_objs_ext. intros s. apply (device_name obj w); [by apply component_string|by apply component_alone].
    + intros _ k2. rewrite !bind_assoc. apply bind_ext; [by apply Hfind|]. intros g k3. by rewrite bind_ret, Hp.
  - apply Forall_app in Hz as [Hzw Hz]. pose proof Hz as Hz'. apply Forall_cons in Hz' as [_ Hzr].
    autorewrite with zlen in Hl. pose proof (Zlen_nonneg rest). pose proof (Zlen_nonneg w).
    rewrite length_app in Hf. cbn [length] in Hf. destruct fuel as [|fuel]; [lia|].
    destruct (IH Hzr ltac:(lia) (pre ++ w ++ [47]) (pre' ++ w ++ [0]) tl tl' fuel) as [o Ho];
      [autorewrite with zlen; lia|lia|].
    exists o. intros obj k. cbn [device_loop].
    rewrite (loop_test pre (w ++ 47 :: rest) (0 :: tl)) by (first [by apply Forall_app|by destruct w]).
    rewrite <- !app_assoc, <- !app_comm_cons.
    rewrite loop_component by (first [by split|by right|by left]). cbn [Z.eqb Pos.eqb]. cbv zeta.
    rewrite drop_prefix, components_slash, resolve_device_cons, bind_assoc
      by (done || (destruct (components_cons rest) as (? & ? & ->); done)).
    apply bind_ext; [apply Hfind; [by split|lia]|]. intros f k1. destruct (f =? 0); [done|]. rewrite bind_assoc.
    apply bind_ext_r. intros d k2. specialize (Ho d k2). rewrite <- Ho. repeat rewrite <- app_assoc. cbn [app].
    f_equal; autorewrite with zlen; lia.
Qed.
End Resolve.

(** [create_device] up to the file system. *)
Context (core slack : Z) (junk_Block : Z -> Block).

Lemma create_device_run k cd s a ops c rest d :
  in_directory core k cd -> cd <> [] -> c_string s a -> s <> [] -> 1 <= slack ->
  Zlen s < 2 ^ 31 -> Zlen cd < 2 ^ 31 -> Zlen (full_path cd s) < 2 ^ 31 ->
  on_drive (full_path cd s) c rest -> drives k !! Z.to_nat (c - 65) = Some d -> FileSystemLaws (drive_fs d) ->
  present d = true -> fs_id (drive_fs d) = FS_TEMPFS ->
  create_device core slack junk_Block a ops k = Halted \/
  exists p k', grown k k' /\ (p ∉ dom (objs (objects k))) /\ (p ∈ dom (objs (objects k'))) /\
    create_device core slack junk_Block a ops k =
    (let* root := open_root d in
     let* r := resolve_device (drive_fs d) ops root (components rest) in
     match r with
     | Some status => ret status
     | None => on_objs (free_obj p) ;;; ret 0
     end) k'.
Proof using.
  intros Hdir Hcd Hs Hne Hsl Hl1 Hl2 Hl3 Hon Hd Laws Hpres Hid. unfold create_device. assert (0 <= slack) as Hsl0 by lia.
  match goal with |- context [bind (on_sched (get_current_task core)) (fun t => bind (extend_path _ _ t a) ?f)] =>
    destruct (path_start core slack junk_Block k cd s a f Hdir Hcd Hs Hne Hsl0 Hl1 Hl2) as [E|(a' & k1 & Hg & Hc & _ & E)] end;
    rewrite E; [by left|]. clear E.
  destruct (on_drive_string _ _ _ _ Hon Hc) as (tl & Ha & Hz & Hbad & _ & Hlen & Hfuel & _).
  rewrite bind_lift with (a := c) by (by rewrite Ha). rewrite Hbad.
  destruct (copy_path_spec slack junk_Block k1 _ _ (grown_ok _ _ Hg) Hc Hl3 Hsl0) as [E|E]; [left; unfold bind; by rewrite E|right].
  replace (1 <=? slack) with true in E by lia. destruct E as (p & tl' & k2 & E & Hg2 & Hp & Hp'). rewrite (bind_run _ _ _ _ _ E).
  rewrite (bind_run _ _ _ _ _ (drive_at_run k2 (c - 65) d ltac:(by rewrite (grown_drives _ _ Hg2), (grown_drives _ _ Hg))
    ltac:(destruct Hon; lia))), Hid, Hpres. cbn [Z.eqb FS_TEMPFS negb].
  destruct (device_loop_resolve (drive_fs d) ops rest Hz ltac:(lia) [c; 58; 47] [c; 58; 47] tl tl' (length a') eq_refl Hfuel)
    as [o Ho].
  exists p, k2. split; [by eapply grown_trans|]. split.
  { destruct Hg as (st & -> & _ & _ & Hdom). intros Hin. by apply Hp, Hdom. }
  split; [done|]. apply bind_ext_r. intros root k3. specialize (Ho root k3). destruct Hon as [Hfull _].
  rewrite Hfull, Ha. rewrite Ha in Ho. etransitivity; [apply bind_ext; [exact Ho|reflexivity]|].
  rewrite bind_assoc. apply bind_ext_r. intros [st|] k4; rewrite bind_ret; [done|].
  unfold free_path. by rewrite Z.eqb_refl.
Qed.
End Devices.

Section DeviceTree.
Context `{AL : Allocator} {Obj : Type}.
Context `{OV : !Object Vector Obj, ON : !Object VectorNode Obj, OE : !Object Event Obj}.
Context `{OT : !Object Task Obj, OB : !Object Block Obj, OL : !Object File Obj}.
Context `{OI : !Object Inode Obj, OD : !Object DirEntryNode Obj, OF : !Object FileNode Obj}.
Context (junk_Inode : Z -> Inode) (junk_DirEntryNode : Z -> DirEntryNode) (junk_FileNode : Z -> FileNode).
Context (call_read : Z -> Z -> list Z -> Z -> M (Store Obj) (Z * list Z)).
Context (call_write : Z -> Z -> list Z -> Z -> M (Store Obj) Z).
Context (call_open : Z -> Z -> Z -> M (Store Obj) unit) (call_close : Z -> Z -> M (Store Obj) unit).
Context (core slack : Z) (junk_Block : Z -> Block) (Hslack : 1 <= slack).
Abbreviation vfs := (Vfs (Obj := Obj)).
Abbreviation objects k := (store (Obj := Obj) (scheduler k)).
Abbreviation fs := (TempFS junk_Inode junk_DirEntryNode junk_FileNode call_read call_write call_open call_close).
Abbreviation mounted := (mounted junk_Inode junk_DirEntryNode junk_FileNode call_read call_write call_open call_close core).

Lemma device_tree_cons ops p nm comps t : comps <> [] ->
  device_tree ops p (nm :: comps) t =
    match t !! (p ++ [nm]) with Some _ => device_tree ops (p ++ [nm]) comps t | None => (t, 2) end.
Proof using. by destruct comps. Qed.

(** [resolve_device] is [device_tree]. *)
Lemma resolve_device_tree ops comps : forall p pl k root L t,
  comps <> [] -> store_ok (objects k) -> layout_ok (objects k) root L t -> Z.of_nat (base.size t) < 2 ^ 62 ->
  t !! p = Some Directory -> L !! p = Some pl -> Forall name_ok comps -> walkable p comps t = true ->
  let m := resolve_device fs ops (address pl) comps in
  m k = Halted \/
  exists s L' o, m k = Ok (o, set_objs s k) /\ store_ok s /\ layout_ok s root L' (device_tree ops p comps t).1 /\
    grows (objects k) s L L' /\ default 0 o = (device_tree ops p comps t).2.
Proof using.
  induction comps as [|nm comps IH]; intros p pl k root L t Hne Hok HL Hsz Ht Hp Hnames Ho m; [done|]. unfold m.
  apply Forall_cons in Hnames as [Hnm Hnames]. assert (nm <> []) as Hnz by apply Hnm.
  pose proof (on_objs_read _ _ _ (find_in_layout _ _ _ _ _ _ _ Hok HL Ht Hp Hnm)) as E.
  assert (forall o : option Z, exists s L' o', Ok (o, k) = Ok (o', set_objs s k) /\ store_ok s /\ layout_ok s root L' t /\
    grows (objects k) s L L' /\ o' = o) as Hsame.
  { intros o. exists (objects k), L, o. rewrite set_objs_same. split_and!; try done. apply grows_refl. }
  destruct (decide (comps = [])) as [->|Hc].
  - rewrite resolve_device_last by done. cbn [device_tree find_function TempFS create_device_function]. rewrite (bind_run _ _ _ _ _ E).
    destruct (L !! (p ++ [nm])) as [plq|] eqn:Hq.
    + destruct (layout_content _ _ _ _ HL _ _ Hq) as (cq & -> & _). right.
      pose proof (layout_not_null _ _ _ _ HL _ _ Hok Hq) as Hnn. destruct (Z.eqb_spec (address plq) 0) as [|_]; [done|].
      destruct (Hsame (Some 1)) as (s & L' & o & E' & ? & ? & ? & ->). by exists s, L', (Some 1).
    + rewrite (proj2 (layout_none _ _ _ _ HL _) Hq). cbn [Z.eqb fst snd].
      destruct (layout_directory _ _ _ _ HL _ Ht) as (d & ns & fi & up & ents & Hd). rewrite Hp in Hd. injection Hd as ->. cbn [address].
      destruct (tree_create_device junk_Inode junk_DirEntryNode (objects k) root L t Hok HL ltac:(lia) p nm ops Hq Hnm d (nm ++ [0])
        (name_alone _ Hnm) ltac:(by eexists _, _, _, _)) as [E1|(s' & L' & E1 & Hok' & HL' & Hg)];
        [left; unfold bind; by rewrite (on_objs_halted _ _ E1)|right].
      rewrite (bind_run _ _ _ _ _ (on_objs_run _ _ _ _ E1)).
      destruct (gr_address _ _ _ _ Hg _ _ Hp) as (pl1 & Hp1 & Ha). cbn [address] in Ha. rewrite <- Ha.
      assert (<[p ++ [nm] := Device ops]> t !! p = Some Directory) as Ht' by (rewrite lookup_insert_ne; [done|apply longer]).
      pose proof (find_in_layout _ _ _ _ _ _ _ Hok' HL' Ht' Hp1 Hnm) as E2.
      rewrite (bind_run _ _ _ _ _ (on_objs_read _ (set_objs s' k) _ E2)). by exists s', L', None.
  - rewrite resolve_device_cons, device_tree_cons by done. cbn [find_function TempFS]. rewrite (bind_run _ _ _ _ _ E).
    destruct (L !! (p ++ [nm])) as [plq|] eqn:Hq.
    + destruct (layout_content _ _ _ _ HL _ _ Hq) as (cq & Hcq & Hholds). rewrite Hcq.
      pose proof (layout_not_null _ _ _ _ HL _ _ Hok Hq) as Hnn. destruct (Z.eqb_spec (address plq) 0) as [|_]; [done|].
      assert (cq = Directory /\ walkable (p ++ [nm]) comps t = true) as [-> Ho'].
      { destruct comps; [done|]. cbn [walkable] in Ho. rewrite Hcq in Ho. by destruct cq. }
      destruct plq as [d ns fi up ents|]; [|done]. cbn [holds address] in *.
      rewrite (bind_run _ _ _ _ _ (on_objs_read _ k _ (tree_open_dir _ _ _ _ _ _ Hholds))).
      by apply (IH (p ++ [nm]) (DirPlace d ns fi up ents)).
    + rewrite (proj2 (layout_none _ _ _ _ HL _) Hq). right.
      destruct (Hsame (Some 2)) as (s & L' & o & E' & ? & ? & ? & ->). by exists s, L', (Some 2).
Qed.

(** [create_device] is an operation on the tree of its drive: it adds the
    device under a name nothing has and returns 0, and leaves the tree as it is
    with status 1 where something has the name and 2 where a directory on the
    way is missing; nothing else of the heap changes. *)
Lemma create_device_mounted k cd c L t s a ops rest :
  mounted k c cd L t -> cd <> [] -> c_string s a -> s <> [] ->
  Zlen s < 2 ^ 31 -> Zlen cd < 2 ^ 31 -> Zlen (full_path cd s) < 2 ^ 31 -> on_drive (full_path cd s) c rest ->
  Forall name_ok (components rest) -> walkable [] (components rest) t = true -> Z.of_nat (base.size t) < 2 ^ 62 ->
  let r := device_tree ops [] (components rest) t in
  let m := create_device core slack junk_Block a ops in
  m k = Halted \/
  exists s L', m k = Ok (r.2, set_objs s k) /\ mounted (set_objs s k) c cd L' r.1 /\ grows (objects k) s L L'.
Proof using Hslack.
  intros Hm Hcd Hs Hne Hl1 Hl2 Hl3 Hon Hnames Ho Hsz r m. pose proof Hm as [(d & Hd & Hpres & Hfs & HL) Hw].
  assert (FileSystemLaws (drive_fs d)) as Laws by (rewrite Hfs; apply TempFS_laws).
  destruct (create_device_run core slack junk_Block k cd s a ops c rest d (working_in_directory _ _ _ _ Hw) Hcd Hs Hne
    Hslack Hl1 Hl2 Hl3 Hon Hd Laws Hpres ltac:(by rewrite Hfs)) as [E|(p & k1 & Hg & Hp & Hp1 & E)]; [by left|].
  unfold m. rewrite E. clear E. pose proof (mounted_grown _ _ _ _ _ _ _ _ _ _ _ _ _ _ Hm Hg) as [(d' & Hd' & _ & _ & HL1) _].
  rewrite (grown_drives _ _ Hg), Hd in Hd'. injection Hd' as <-. pose proof (grown_grows _ _ L Hg) as Hg1.
  pose proof (grown_ok _ _ Hg) as Hok1. assert (exists s1, k1 = set_objs s1 k) as [s1 Hk1] by (destruct Hg as (s1 & -> & _); by exists s1).
  rewrite (bind_run _ _ _ _ _ (open_root_run _ _ _ _ _ _ _ _ _ _ _ Hfs HL1)), Hfs.
  destruct (lo_root _ _ _ _ HL1) as (pl & Hpl & Ha & Ht). rewrite <- Ha.
  assert (components rest <> []) as Hc by (destruct (components_cons rest) as (? & ? & ->); done).
  destruct (resolve_device_tree ops _ [] pl k1 (mem_offset d) L t Hc Hok1 HL1 Hsz Ht Hpl Hnames Ho)
    as [E|(s2 & L2 & o & E & Hok2 & HL2 & Hg2 & Hx)]; [left; unfold bind; by rewrite E|right].
  rewrite (bind_run _ _ _ _ _ E). fold r in HL2, Hx. pose proof (grows_trans _ _ _ _ _ _ Hg1 Hg2) as Hg02.
  assert (mounted (set_objs s2 k) c cd L2 r.1) as Hm2.
  { split; [by exists d|]. eapply working_grow; [exact Hw|done|by apply Hg02|by apply Hg02]. }
  destruct o as [st|]; [exists s2, L2; cbn [default] in Hx; rewrite <- Hx; subst k1; by split_and!|].
  destruct (mounted_free _ _ _ _ _ _ _ _ k c cd L t s2 L2 r.1 p Hm Hm2 Hg02 Hp) as (s3 & E3 & Hm3 & Hg3).
  - by apply (gr_dom _ _ _ _ Hg2).
  - intros [Hin|Hin]%(gr_owned _ _ _ _ Hg2); [|done]. by apply Hp, (layout_in_store _ _ _ _ HL).
  - exists s3, L2. split_and!; [|done|done]. subst k1. change (set_objs s2 (set_objs s1 k)) with (set_objs s2 k).
    rewrite (bind_run _ _ _ _ _ E3). cbn [default] in Hx. by rewrite <- Hx.
Qed.
End DeviceTree.

(** ** The drives of the kernel *)

Section Start.
Context `{AL : Allocator} {Obj : Type}.
Context `{OV : !Object Vector Obj, ON : !Object VectorNode Obj, OE : !Object Event Obj}.
Context `{OT : !Object Task Obj, OB : !Object Block Obj, OL : !Object File Obj}.
Context `{OI : !Object Inode Obj, OD : !Object DirEntryNode Obj, OF : !Object FileNode Obj}.
Context (junk_Inode : Z -> Inode) (junk_DirEntryNode : Z -> DirEntryNode) (junk_FileNode : Z -> FileNode).
Context (call_read : Z -> Z -> list Z -> Z -> M (Store Obj) (Z * list Z)).
Context (call_write : Z -> Z -> list Z -> Z -> M (Store Obj) Z).
Context (call_open : Z -> Z -> Z -> M (Store Obj) unit) (call_close : Z -> Z -> M (Store Obj) unit).
Context (core slack : Z) (junk_Task : Z -> Task) (junk_Block : Z -> Block) (junk_File : Z -> File) (stale : Z -> Z -> list Z).
Context (printf : list Z -> M (Vfs (Obj := Obj)) unit).
Abbreviation vfs := (Vfs (Obj := Obj)).
Abbreviation objects k := (store (Obj := Obj) (scheduler k)).
Abbreviation fs := (TempFS junk_Inode junk_DirEntryNode junk_FileNode call_read call_write call_open call_close).
Abbreviation mounted := (mounted junk_Inode junk_DirEntryNode junk_FileNode call_read call_write call_open call_close core).
(** What the earlier part of [_start] leaves, and addresses of code. *)
Context (cr3 cpu_count all_tasks_ended devzero_read devzero_open devzero_close : Z).

(** [_start] from [init_tasklist] to [setup_initrd]. *)
Definition start_files (initial_ramdisk : list Z) : M vfs unit :=
  on_sched (init_tasklist slack junk_Task junk_Block cr3 cpu_count all_tasks_ended) ;;;
  init_vfs fs ;;;
  init_devices junk_Inode junk_DirEntryNode core slack junk_Block devzero_read devzero_open devzero_close ;;;
  setup_initrd junk_Inode junk_DirEntryNode core slack junk_Block junk_File stale printf initial_ramdisk.

Definition devzero_name : list Z := [100; 101; 118; 122; 101; 114; 111].
Definition devzero_ops : DeviceOps :=
  {| dev_read := devzero_read; dev_write := 0; dev_open := devzero_open; dev_close := devzero_close |}.

Section Drives.
Context (Hslack : 1 <= slack) (Hj1 : no_entries junk_Inode) (Hj2 : forall a, Zlen (filename (junk_Inode a)) = FILENAME_SIZE).

Lemma init_devices_run k cd :
  in_directory core k cd -> cd <> [] -> Zlen cd < 2 ^ 31 -> length (drives k) = 26%nat -> filesystems k !! 0%nat = Some fs ->
  let m := init_devices junk_Inode junk_DirEntryNode core slack junk_Block devzero_read devzero_open devzero_close in
  m k = Halted \/
  exists s L d, let k' := set_objs s (set_drives (<[3%nat := d]> (drives k)) k) in
    m k = Ok (tt, k') /\ mounted k' 68 cd L (<[ [devzero_name] := Device devzero_ops ]> {[ [] := Directory ]}).
Proof using Hslack Hj1 Hj2.
  intros Hdir Hcd Hlcd Hlen Hfs m.
  assert (m k = ((let* root := on_objs (tempfs_new junk_Inode junk_DirEntryNode) in mount 68 FS_TEMPFS true root 0 0) ;;;
    create_device core slack junk_Block devzero_path devzero_ops ;;; ret tt) k) as -> by (by rewrite bind_assoc).
  destruct (new_drive_run junk_Inode junk_DirEntryNode junk_FileNode call_read call_write call_open call_close core Hj1 Hj2 k 68 cd
    Hdir ltac:(lia) ltac:(rewrite Hlen; lia) Hfs) as [E|(d & s & L & E & Hm & _)]; [left; unfold bind at 1; by rewrite E|].
  rewrite (bind_run _ _ _ _ _ E). set (k1 := set_objs _ _) in *.
  destruct (create_device_mounted junk_Inode junk_DirEntryNode junk_FileNode call_read call_write call_open call_close core slack junk_Block
    Hslack k1 cd 68 L {[ [] := Directory ]} (68 :: 58 :: 47 :: devzero_name) devzero_path devzero_ops devzero_name Hm Hcd)
    as [E2|(s2 & L2 & E2 & Hm2 & _)]; try done.
  - split; [repeat constructor; done|by exists []].
  - apply (bool_decide_eq_true_1 _). by vm_compute.
  - left. unfold bind. by rewrite E2.
  - right. rewrite (bind_run _ _ _ _ _ E2). exists s2, L2, d. split; [done|]. exact Hm2.
Qed.

(** A drive stays while another one is set up. *)
Lemma mounted_other k c cd L t s d i :
  mounted k c cd L t -> store_ok s -> same_except ∅ (objects k) s -> i <> Z.to_nat (c - 65) ->
  mounted (set_objs s (set_drives (<[i := d]> (drives k)) k)) c cd L t.
Proof using.
  intros [(d0 & Hd & Hp & Hfs & HL) Hw] Hok Hs Hi. split.
  - exists d0. split_and!; try done; [cbn; by rewrite list_lookup_insert_ne|]. eapply layout_frame; [|exact HL].
    intros q Hq. apply Hs; [by apply not_elem_of_empty|]. by eapply layout_in_store.
  - change (working core (set_objs s k) cd (owned L)). eapply working_grow; [exact Hw|done| |by left].
    intros q _ Hq. apply Hs; [by apply not_elem_of_empty|done].
Qed.

End Drives.
Context (Hslack : 1 <= slack).
Context (junk_len : forall a, Zlen (data (junk_FileNode a)) = FILENODE_DATA_SIZE) (junk_name : forall a, Zlen (filename (junk_Inode a)) = FILENAME_SIZE).

(** C19: The kernel starts with its files in place.  From a heap and a ramdisk,
    the part of [_start] from [init_tasklist] to [setup_initrd] ends (or the
    kernel runs out of memory): the initial task is in [R:/], the drive [D] is
    the tree with nothing but the device [devzero], the drive [R] is the tree of
    the ramdisk's entries, the two share no object, and no other drive is
    mounted.  As for [setup_initrd], the fields that fs/tempfs.c does not
    initialise are taken to be zero ([no_entries], [null_links]: [malloc] promises
    neither), the freed path that [open] reads to be a string other than
    "stdout" ([stale_name]), and a byte behind a block to be accessible. *)
Theorem start_files_mounts k es archive t :
  no_entries junk_Inode -> null_links junk_FileNode -> stale_name stale ->
  store_ok (objects k) -> unlocked (scheduler k) -> 0 <= core < cpu_count -> cpu_count < 2 ^ 63 ->
  archive_of es archive -> Zlen archive < 2 ^ 61 -> archive_tree es archive {[ [] := Directory ]} = Some t ->
  start_files archive k = Halted \/
  exists k' LD LR, start_files archive k = Ok (tt, k') /\
    mounted k' 68 root_path LD (<[ [devzero_name] := Device devzero_ops ]> {[ [] := Directory ]}) /\
    mounted k' 82 root_path LR t /\ owned LD ## owned LR /\
    forall i d, drives k' !! i = Some d -> i <> 3%nat -> i <> 17%nat -> present d = false.
Proof using OE Hslack junk_len junk_name.
  intros Hj1 junk_next Hstale Hok Hu Hcore Hcpu Ha Hl Ht. unfold start_files.
  destruct (init_tasklist_spec slack junk_Task junk_Block cr3 cpu_count all_tasks_ended (scheduler k) Hok Hu ltac:(lia) ltac:(lia))
    as [(k0 & p & q & b & E0 & Hs & Hu0 & Hstr & _)|E0]; [|left; unfold bind at 1, on_sched at 1; by rewrite E0].
  set (k1 := MkVfs k0 (replicate 26 no_drive) [fs]).
  assert (forall f : M vfs unit, (on_sched (init_tasklist slack junk_Task junk_Block cr3 cpu_count all_tasks_ended) ;;; init_vfs fs ;;; f) k = f k1) as ->
    by (intros f; unfold bind, on_sched; by rewrite E0).
  assert (in_directory core k1 root_path) as Hdir.
  { exists [p], [first_Task p q cr3 all_tasks_ended (MkPtr b 0)], (replicate (Z.to_nat cpu_count) 0), 0%nat, (first_Task p q cr3 all_tasks_ended (MkPtr b 0)).
    split_and!; try done; [lia|]. apply lookup_replicate. split; [done|lia]. }
  destruct (init_devices_run Hslack Hj1 junk_name k1 root_path Hdir ltac:(done) ltac:(done) eq_refl eq_refl) as [E1|(s1 & LD & d1 & E1 & HD)];
    [left; unfold bind; by rewrite E1|]. rewrite (bind_run _ _ _ _ _ E1). set (k2 := set_objs _ _) in *.
  assert (in_directory core k2 root_path) as Hdir2 by (eapply working_in_directory, HD).
  destruct (setup_initrd_run junk_Inode junk_DirEntryNode junk_FileNode call_read call_write call_open call_close core slack junk_Block
    junk_File stale printf Hstale Hslack junk_len junk_next Hj1 junk_name k2 root_path es archive t Hdir2 ltac:(done) ltac:(done)
    (length_insert (replicate 26 no_drive) 3 d1) eq_refl Ha Hl Ht) as [E2|(s2 & LR & d2 & E2 & HR & Hsame & _ & Hfresh)]; [by left|right].
  eexists _, LD, LR. split; [exact E2|]. split; [|split; [exact HR|split]].
  - apply (mounted_other k2 68 root_path LD); [exact HD|exact (mounted_ok _ _ _ _ _ _ _ _ _ _ _ _ _ HR)|exact Hsame|done].
  - intros x Hx Hx'. apply (Hfresh x Hx'). destruct HD as [(d & _ & _ & _ & HL) _]. by apply (layout_in_store _ _ _ _ HL).
  - intros i d Hi H3 H17. cbn in Hi. change (<[17%nat := d2]> (<[3%nat := d1]> (replicate 26 (@no_drive AL Obj))) !! i = Some d) in Hi.
    rewrite !list_lookup_insert_ne in Hi by done. by apply lookup_replicate in Hi as [-> _].
Qed.
End Start.

(** ** Examples *)

Definition demo_start (initial_ramdisk : list Z) : M Mount.vfs unit :=
  demo_junk (start_files (Obj := VfsObj)) 0 2 (fun _ => zero_Task) (fun _ => []) (fun _ => zero_File) demo_stale (fun _ => ret tt)
    0 1 0 70 71 72 initial_ramdisk.

(** The device is made on the empty drive [D]. *)
Example device_tree_demo :
  device_tree (devzero_ops 70 71 72) [] [devzero_name] empty_tree =
    (<[ [devzero_name] := Device (devzero_ops 70 71 72) ]> empty_tree, 0) /\
  device_tree (devzero_ops 70 71 72) [] [[97]; devzero_name] empty_tree = (empty_tree, 2).
Proof. split; vm_compute; reflexivity. Qed.

Lemma start_files_mounts_witness : exists k : Mount.vfs, store_ok (store (scheduler k)) /\
  (demo_start demo_archive k = Halted \/
   exists k' LD LR, demo_start demo_archive k = Ok (tt, k') /\
     demo_mounted k' 68 root_path LD (<[ [devzero_name] := Device (devzero_ops 70 71 72) ]> empty_tree) /\
     demo_mounted k' 82 root_path LR (<[ [[97]] := Regular [1; 2; 3] ]> empty_tree) /\ owned LD ## owned LR /\
     forall i d, drives k' !! i = Some d -> i <> 3%nat -> i <> 17%nat -> present d = false).
Proof.
  destruct (on_boot_start (Obj := VfsObj) (ret tt) tt) as (s0 & _ & _ & Hok & _); [vm_compute; reflexivity|].
  exists (MkVfs (MkSched s0 0 0 false false) [] []). split; [exact Hok|].
  exact (demo_junk (start_files_mounts (Obj := VfsObj)) 0 2 (fun _ => zero_Task) (fun _ => []) (fun _ => zero_File) demo_stale (fun _ => ret tt)
    0 1 0 70 71 72 ltac:(done) (fun _ => eq_refl) (fun _ => eq_refl) (MkVfs (MkSched s0 0 0 false false) [] [])
    [([97], 48, 3)] demo_archive _ ltac:(done) ltac:(done) demo_stale_type Hok ltac:(done) ltac:(done) ltac:(done) demo_archive_entries ltac:(by vm_compute) archive_tree_demo).
Defined.

(** It does end: afterwards the file of the ramdisk is read, and the device is found on [D]. *)
Example start_demo :
  value_of (on_boot (Obj := VfsObj) (fun s =>
    let+ (a, k) :=
      (demo_start demo_archive ;;;
       let* f := demo_open [97; 0] 0 MODE_READONLY in
       let* r := read f [9; 9; 9; 9] 3 in
       let* g := demo_open devzero_path 0 MODE_READONLY in
       let* none := demo_open [98; 0] 0 MODE_READONLY in
       ret (r, g =? 0, none)) (MkVfs (MkSched s 0 0 false false) [] []) in
    Ok (a, store (scheduler k)))) = Some ((0, [1; 2; 3; 9]), false, 0).
Proof. vm_compute. reflexivity. Qed.
