(* ===== verification/FileCalls.v ===== *)
(** * Histories of calls on the files of a drive

    The abstract machine behind fs/vfs.c on a drive of TempFS: a tree of paths and
    the open files, each a path and a mode.  [accepts] is its step, and the
    theorem says that the VFS is this machine over every history of [open],
    [mkdir], [create_device], [write], [read], [file_length] and [close]. *)
From S2P Require Import Prelude Allocator Chain Memory PMM KHeap Strings Vector Events Blocks Tasks TempFS VFS Mount FileTree FileDrive StartFiles.

(** ** Directories on a tree *)

(** The directories on the way to an empty component, each added where it is
    missing. *)
Fixpoint mkdir_tree (p : path) (comps : list (list Z)) (t : tree) : tree :=
  match comps with
  | [] | [] :: _ => t
  | nm :: comps' => mkdir_tree (p ++ [nm]) comps' (find_or_add true Directory (p ++ [nm]) t).1
  end.

(** Proper names, and an empty one at the end. *)
Fixpoint directory_path (comps : list (list Z)) : Prop :=
  match comps with
  | [] => False
  | [nm] => nm = []
  | nm :: comps' => name_ok nm /\ directory_path comps'
  end.

Lemma directory_path_cases comps : directory_path comps ->
  comps = [[]] \/ exists nm comps', comps = nm :: comps' /\ name_ok nm /\ directory_path comps'.
Proof.
  destruct comps as [|nm [|nm' comps]]; cbn [directory_path]; [done|intros ->; by left|intros [H1 H2]; right; by exists nm, (nm' :: comps)].
Qed.

Lemma directory_path_last comps : directory_path comps -> last comps = Some [].
Proof.
  induction comps as [|nm comps IH]; [done|]. intros [E|(nm' & comps' & [= -> ->] & _ & H)]%directory_path_cases; [by injection E as -> ->|].
  rewrite last_cons, IH by done. done.
Qed.

Lemma walkable_cons p nm comps t : comps <> [] ->
  walkable p (nm :: comps) t =
    match t !! (p ++ [nm]) with None | Some Directory => walkable (p ++ [nm]) comps t | _ => false end.
Proof. by destruct comps. Qed.

Lemma walkable_ext p comps t t' : (forall r, r <> [] -> t' !! (p ++ r) = t !! (p ++ r)) -> walkable p comps t' = walkable p comps t.
Proof.
  revert p. induction comps as [|nm comps IH]; intros p H; [done|]. destruct (decide (comps = [])) as [->|Hne]; [done|].
  rewrite !walkable_cons, H by done. destruct (t !! (p ++ [nm])) as [[]|]; try done;
    apply IH; intros r Hr; rewrite <- app_assoc; by apply H.
Qed.

Lemma walkable_step p nm comps t t' :
  comps <> [] -> walkable p (nm :: comps) t = true -> find_or_add true Directory (p ++ [nm]) t = (t', true) ->
  t' !! (p ++ [nm]) = Some Directory /\ walkable (p ++ [nm]) comps t' = true.
Proof.
  intros Hne Ho [E1 E2]%find_or_add_there. rewrite walkable_cons in Ho by done. rewrite E1. rewrite (walkable_ext _ _ t).
  - by destruct (t !! (p ++ [nm])) as [[]|].
  - intros r Hr. apply E2. intros E. by apply Hr, (app_inv_head (p ++ [nm])); rewrite app_nil_r.
Qed.

Lemma find_or_add_made c q t : exists t', find_or_add true c q t = (t', true).
Proof. unfold find_or_add. destruct (t !! q); by eexists. Qed.

(** Every path that is there keeps what is there. *)
Definition extends (t t' : tree) : Prop := forall q c, t !! q = Some c -> t' !! q = Some c.

Lemma find_or_add_extends create c q t : extends t (find_or_add create c q t).1.
Proof.
  intros r x H. unfold find_or_add. destruct (t !! q) eqn:E; [done|]. destruct create; [|done]. cbn [fst].
  rewrite lookup_insert_ne; [done|]. intros ->. congruence.
Qed.

Lemma mkdir_tree_extends p comps t : extends t (mkdir_tree p comps t).
Proof.
  revert p t. induction comps as [|nm comps IH]; intros p t q c H; [done|]. destruct nm as [|x nm]; [done|].
  cbn [mkdir_tree]. apply IH. by apply find_or_add_extends.
Qed.

Lemma device_tree_extends ops p comps t : extends t (device_tree ops p comps t).1.
Proof.
  revert p t. induction comps as [|nm comps IH]; intros p t q c H; [done|]. destruct (decide (comps = [])) as [->|Hne].
  - cbn [device_tree]. destruct (t !! (p ++ [nm])) eqn:E; [done|]. cbn [fst]. rewrite lookup_insert_ne; [done|]. congruence.
  - rewrite device_tree_cons by done. destruct (t !! (p ++ [nm])); [by apply IH|done].
Qed.

Section FileCalls.
Context `{AL : Allocator} {Obj : Type}.
Context `{OV : !Object Vector Obj, ON : !Object VectorNode Obj, OE : !Object Event Obj}.
Context `{OT : !Object Task Obj, OB : !Object Block Obj, OL : !Object File Obj}.
Context `{OI : !Object Inode Obj, OD : !Object DirEntryNode Obj, OF : !Object FileNode Obj}.
Context (junk_Inode : Z -> Inode) (junk_DirEntryNode : Z -> DirEntryNode) (junk_FileNode : Z -> FileNode).
Context (call_read : Z -> Z -> list Z -> Z -> M (Store Obj) (Z * list Z)).
Context (call_write : Z -> Z -> list Z -> Z -> M (Store Obj) Z).
Context (call_open : Z -> Z -> Z -> M (Store Obj) unit) (call_close : Z -> Z -> M (Store Obj) unit).
Context (core slack : Z) (junk_Block : Z -> Block) (junk_File : Z -> File) (stale : Z -> Z -> list Z).
Context (printf : list Z -> M (Vfs (Obj := Obj)) unit).
Abbreviation vfs := (Vfs (Obj := Obj)).
Abbreviation objects k := (store (Obj := Obj) (scheduler k)).
Abbreviation fs := (TempFS junk_Inode junk_DirEntryNode junk_FileNode call_read call_write call_open call_close).
Abbreviation mounted := (mounted junk_Inode junk_DirEntryNode junk_FileNode call_read call_write call_open call_close core).

(** ** mkdir *)

(** [make_dirs] is [mkdir_tree]. *)
Lemma make_dirs_tree comps : forall p pl k root L t,
  store_ok (objects k) -> layout_ok (objects k) root L t -> Z.of_nat (base.size t + length comps) < 2 ^ 62 ->
  t !! p = Some Directory -> L !! p = Some pl -> directory_path comps -> walkable p comps t = true ->
  let m := make_dirs fs (address pl) comps in
  m k = Halted \/
  exists s L', m k = Ok (tt, set_objs s k) /\ store_ok s /\ layout_ok s root L' (mkdir_tree p comps t) /\ grows (objects k) s L L'.
Proof using.
  induction comps as [|nm comps IH]; intros p pl k root L t Hok HL Hsz Ht Hp Hd Hw m; [done|]. unfold m.
  apply directory_path_cases in Hd as [[= -> ->]|(nm' & comps' & [= <- <-] & Hnm & Hd)].
  { right. exists (objects k), L. rewrite set_objs_same. split_and!; try done. apply grows_refl. }
  assert (nm <> []) as Hne by apply Hnm. assert (comps <> []) as Hc by (by destruct comps). cbn [length] in Hsz.
  rewrite make_dirs_cons by done.
  replace (mkdir_tree p (nm :: comps) t) with (mkdir_tree (p ++ [nm]) comps (find_or_add true Directory (p ++ [nm]) t).1) by (by destruct nm).
  destruct (find_or_make_tree junk_Inode junk_DirEntryNode junk_FileNode call_read call_write call_open call_close
    true (mkdir_function fs) nm Directory k root L t p pl) as [E|(s & L' & o & E & Hok' & HL' & Hg & Hf)];
    try done; [intros Hq; apply tree_mkdir; (done || lia)|left; unfold bind; by rewrite E|].
  rewrite (bind_run _ _ _ _ _ E). pose proof (find_or_add_size true Directory (p ++ [nm]) t) as Hsz'.
  destruct (find_or_add_made Directory (p ++ [nm]) t) as [t' Et]. rewrite Et in *. cbn [fst snd] in *.
  destruct Hf as (plq & Hq & ->). destruct (walkable_step _ _ _ _ _ Hc Hw Et) as [Hdir Hw'].
  destruct (layout_directory _ _ _ _ HL' _ Hdir) as (d & ns & fi & up & ents & Hdp).
  destruct (layout_content _ _ _ _ HL' _ _ Hdp) as ([| |] & _ & Hholds); try done.
  assert (on_objs (open_dir_function fs (address plq)) (set_objs s k) = Ok (address plq, set_objs s k)) as E3.
  { rewrite Hq in Hdp. injection Hdp as ->. apply on_objs_read. by eapply tree_open_dir. }
  cbn [default]. rewrite (bind_run _ _ _ _ _ E3).
  destruct (IH (p ++ [nm]) plq (set_objs s k) root L' t') as [E4|(s3 & L3 & E4 & Hok3 & HL3 & Hg3)]; try done; [lia|by left|right].
  exists s3, L3. split_and!; try done. by eapply grows_trans.
Qed.

Context (Hslack : 1 <= slack).

Lemma mkdir_mounted k c cd L t s a rest :
  mounted k c cd L t -> cd <> [] -> c_string s a -> s <> [] ->
  Zlen s < 2 ^ 31 -> Zlen cd < 2 ^ 31 -> Zlen (full_path cd s) < 2 ^ 31 -> on_drive (full_path cd s) c rest ->
  directory_path (components rest) -> walkable [] (components rest) t = true ->
  Z.of_nat (base.size t + length (components rest)) < 2 ^ 62 ->
  let m := mkdir core slack junk_Block a in
  m k = Halted \/
  exists s L', m k = Ok (0, set_objs s k) /\ mounted (set_objs s k) c cd L' (mkdir_tree [] (components rest) t) /\ grows (objects k) s L L'.
Proof using Hslack.
  intros Hm Hcd Hs Hne Hl1 Hl2 Hl3 Hon Hdp Ho Hsz m. pose proof Hm as [(d & Hd & Hpres & Hfs & HL) Hw].
  assert (FileSystemLaws (drive_fs d)) as Laws by (rewrite Hfs; apply TempFS_laws).
  destruct (mkdir_run core slack junk_Block k cd s a c rest d (working_in_directory _ _ _ _ Hw) Hcd Hs Hne
    ltac:(lia) Hl1 Hl2 Hl3 Hon Hd Laws) as [Hrun _].
  destruct (Hrun (directory_path_last _ Hdp)) as [E|(p & k1 & Hg & Hp & Hp1 & E)]; [by left|].
  unfold m. rewrite E. clear E Hrun. pose proof (mounted_grown _ _ _ _ _ _ _ _ _ _ _ _ _ _ Hm Hg) as [(d' & Hd' & _ & _ & HL1) _].
  rewrite (grown_drives _ _ Hg), Hd in Hd'. injection Hd' as <-. pose proof (grown_grows _ _ L Hg) as Hg1.
  pose proof (grown_ok _ _ Hg) as Hok1. assert (exists s1, k1 = set_objs s1 k) as [s1 Hk1] by (destruct Hg as (s1 & -> & _); by exists s1).
  rewrite (bind_run _ _ _ _ _ (open_root_run _ _ _ _ _ _ _ _ _ _ _ Hfs HL1)), Hfs.
  destruct (lo_root _ _ _ _ HL1) as (pl & Hpl & Ha & Ht). rewrite <- Ha.
  destruct (make_dirs_tree _ [] pl k1 (mem_offset d) L t Hok1 HL1 Hsz Ht Hpl Hdp Ho)
    as [E|(s2 & L2 & E & Hok2 & HL2 & Hg2)]; [left; unfold bind; by rewrite E|right].
  rewrite (bind_run _ _ _ _ _ E). pose proof (grows_trans _ _ _ _ _ _ Hg1 Hg2) as Hg02.
  assert (mounted (set_objs s2 k) c cd L2 (mkdir_tree [] (components rest) t)) as Hm2.
  { split; [by exists d|]. eapply working_grow; [exact Hw|done|by apply Hg02|by apply Hg02]. }
  destruct (mounted_free _ _ _ _ _ _ _ _ k c cd L t s2 L2 _ p Hm Hm2 Hg02 Hp) as (s3 & E3 & Hm3 & Hg3).
  - by apply (gr_dom _ _ _ _ Hg2).
  - intros [Hin|Hin]%(gr_owned _ _ _ _ Hg2); [|done]. by apply Hp, (layout_in_store _ _ _ _ HL).
  - exists s3, L2. split_and!; [|done|done]. subst k1. change (set_objs s2 (set_objs s1 k)) with (set_objs s2 k).
    by rewrite (bind_run _ _ _ _ _ E3).
Qed.

(** ** Calls *)

(** A call of the VFS; a path comes with the string it holds. *)
Inductive call :=
  | Open (s a : list Z) (fl md : Z)
  | Mkdir (s a : list Z)
  | CreateDevice (s a : list Z) (ops : DeviceOps)
  | Write (f : Z) (from : list Z) (n : Z)
  | Read (f : Z) (buffer : list Z) (n : Z)
  | Length (f : Z)
  | Close (f : Z).

(** What a call returns, and the buffer it leaves. *)
Abbreviation result := (Z * list Z)%type.

Definition run_call (x : call) : M vfs result :=
  let status (m : M vfs Z) := (let* r := m in ret (r, [])) in
  match x with
  | Open _ a fl md => status (open core slack junk_Block junk_File stale a fl md)
  | Mkdir _ a => status (mkdir core slack junk_Block a)
  | CreateDevice _ a ops => status (create_device core slack junk_Block a ops)
  | Write f from n => status (write printf f from n)
  | Read f buffer n => read f buffer n
  | Length f => status (file_length f)
  | Close f => close f ;;; ret (0, [])
  end.

(** ** The machine *)

(** The tree, and the path and the mode of every open file. *)
Record files := MkFiles { contents : tree; handles : gmap Z (path * Z) }.

Section Machine.
Context (cd : list Z) (c : Z).

Definition path_of (s : list Z) : list (list Z) := components (drop 3 (full_path cd s)).
Definition good_path (s a : list Z) : Prop :=
  c_string s a /\ s <> [] /\ Zlen s < 2 ^ 30 /\ exists rest, on_drive (full_path cd s) c rest.

(** The calls the machine is about: well-formed paths that no file or device is
    in the way of, open files, and buffers of the size that is passed. *)
Definition allowed (st : files) (x : call) : Prop :=
  let t := contents st in
  Z.of_nat (base.size t) < 2 ^ 61 /\
  match x with
  | Open s a fl md => good_path s a /\ Forall name_ok (path_of s) /\ openable [] (path_of s) t = true
  | Mkdir s a => good_path s a /\ directory_path (path_of s) /\ walkable [] (path_of s) t = true
  | CreateDevice s a ops => good_path s a /\ Forall name_ok (path_of s) /\ walkable [] (path_of s) t = true
  | Write f from n => is_Some (handles st !! f) /\ 0 <= n <= Zlen from /\ n < 2 ^ 63
  | Read f buffer n =>
      (exists q md bytes, handles st !! f = Some (q, md) /\ t !! q = Some (Regular bytes) /\ n <= Zlen bytes) /\
      0 <= n <= Zlen buffer /\ n < 2 ^ 63
  | Length f | Close f => is_Some (handles st !! f)
  end.

Definition bytes_of (t : tree) (q : path) : list Z := match t !! q with Some (Regular bytes) => bytes | _ => [] end.

(** The state after the call [x] with the result [r], if the machine has that
    result: it is determined but for the address of a new open file. *)
Definition accepts (st : files) (x : call) (r : result) : option files :=
  let returns (v : result) (st' : files) := if bool_decide (r = v) then Some st' else None in
  let t := contents st in let h := handles st in
  match x with
  | Open s _ fl md =>
      let (t', found) := open_tree (makes_dirs fl) (makes_file fl) [] (path_of s) t in
      if found : bool then
        if bool_decide (r.1 <> 0 /\ h !! r.1 = None /\ r.2 = []) then Some (MkFiles t' (<[r.1 := (path_of s, md)]> h)) else None
      else returns (0, []) (MkFiles t' h)
  | Mkdir s _ => returns (0, []) (MkFiles (mkdir_tree [] (path_of s) t) h)
  | CreateDevice s _ ops =>
      let (t', status) := device_tree ops [] (path_of s) t in returns (status, []) (MkFiles t' h)
  | Write f from n =>
      match h !! f with
      | Some (q, md) =>
          if md =? MODE_READONLY then returns (1, []) st
          else returns (0, []) (MkFiles (<[q := Regular (take (Z.to_nat n) from)]> t) h)
      | None => None
      end
  | Read f buffer n =>
      match h !! f with
      | Some (q, md) =>
          if md =? MODE_WRITEONLY then returns (1, buffer) st
          else returns (0, take (Z.to_nat n) (bytes_of t q) ++ drop (Z.to_nat n) buffer) st
      | None => None
      end
  | Length f => match h !! f with Some (q, _) => returns (Zlen (bytes_of t q), []) st | None => None end
  | Close f => match h !! f with Some _ => returns (0, []) (MkFiles t (delete f h)) | None => None end
  end.

(** The VFS is in the state [st] of the machine. *)
Definition represents (k : vfs) (st : files) : Prop :=
  exists L, mounted k c cd L (contents st) /\
    forall f q md, handles st !! f = Some (q, md) ->
      opened k f c md L q /\ exists bytes, contents st !! q = Some (Regular bytes).
End Machine.

(** ** The VFS is the machine *)

Lemma full_path_length cd s : Zlen (full_path cd s) <= Zlen cd + Zlen s + 2.
Proof using.
  unfold full_path. pose proof (Zlen_nonneg cd). destruct (is_absolute s); [lia|]. destruct (bool_decide _); zlen.
Qed.

Context (junk_len : forall a, Zlen (data (junk_FileNode a)) = FILENODE_DATA_SIZE).
Context (cd : list Z) (c : Z) (Hcd : cd <> []) (Hlcd : Zlen cd < 2 ^ 29) (Hc : 65 <= c <= 90).

(** What the calls need of a path. *)
Lemma good_path_facts s a : good_path cd c s a ->
  c_string s a /\ s <> [] /\ Zlen s < 2 ^ 31 /\ Zlen cd < 2 ^ 31 /\ Zlen (full_path cd s) < 2 ^ 31 /\
  Z.of_nat (length (path_of cd s)) < 2 ^ 61 /\ exists rest, on_drive (full_path cd s) c rest /\ path_of cd s = components rest.
Proof using Hlcd.
  intros (Ha & Hne & Hl & rest & Hon). pose proof (full_path_length cd s) as H. split_and!; try done; try lia.
  - destruct Hon as [E _]. unfold path_of. rewrite E in H |- *. change (drop 3 (c :: 58 :: 47 :: rest)) with rest. pose proof (components_length rest).
    assert (Zlen rest < 2 ^ 31) as Hr by (rewrite !Zlen_cons in *; lia). unfold Zlen in Hr. lia.
  - exists rest. split; [done|]. destruct Hon as [E _]. unfold path_of. by rewrite E.
Qed.

(** Files stay files. *)
Definition keeps_files (t t' : tree) : Prop :=
  forall q bytes, t !! q = Some (Regular bytes) -> exists bytes', t' !! q = Some (Regular bytes').

Lemma extends_keeps t t' : extends t t' -> keeps_files t t'.
Proof using. intros H q bytes Hq. exists bytes. by apply H. Qed.

Lemma represents_step k L st s L' t' :
  (forall f q md, handles st !! f = Some (q, md) -> opened k f c md L q /\ exists bytes, contents st !! q = Some (Regular bytes)) ->
  mounted (set_objs s k) c cd L' t' -> grows (objects k) s L L' -> keeps_files (contents st) t' ->
  represents cd c (set_objs s k) (MkFiles t' (handles st)).
Proof using.
  intros Hh Hm Hg Hk. exists L'. split; [done|]. intros f q md Hf. destruct (Hh f q md Hf) as [Hop [bytes Hq]].
  split; [by eapply opened_grows|by eapply Hk].
Qed.

(** A call halts, or has a result of the machine. *)
Definition refines (k : vfs) (st : files) (x : call) : Prop :=
  run_call x k = Halted \/
  exists r k' st', run_call x k = Ok (r, k') /\ accepts cd st x r = Some st' /\ represents cd c k' st'.

Section Calls.
Context (Hstale : stale_name stale) (junk_next : null_links junk_FileNode).

Lemma refines_open k st s a fl md : represents cd c k st -> allowed cd c st (Open s a fl md) -> refines k st (Open s a fl md).
Proof using Hstale Hslack Hcd Hlcd.
  intros (L & Hm & Hh) (Hsz & Hgood & Hnames & Ho).
  destruct (good_path_facts s a Hgood) as (Ha & Hne & Hl1 & Hl2 & Hl3 & Hlp & rest & Hon & Er). unfold refines. cbn [accepts run_call].
  rewrite Er in *. set (r := open_tree (makes_dirs fl) (makes_file fl) [] (components rest) (contents st)).
  destruct (open_mounted junk_Inode junk_DirEntryNode junk_FileNode call_read call_write call_open call_close core slack junk_Block junk_File
    stale Hstale Hslack k c cd L (contents st) s a fl md rest Hm Hcd Ha Hne Hl1 Hl2 Hl3 Hon Hnames Ho ltac:(lia))
    as [E|(f & s' & L' & E & Hm' & Hg & Hr)]; [left; unfold bind; by rewrite E|right].
  fold r in Hm', Hr. assert (keeps_files (contents st) r.1) as Hkeep.
  { apply extends_keeps. intros q ct Hq. by apply open_tree_mono. }
  pose proof (represents_step _ _ _ _ _ _ Hh Hm' Hg Hkeep) as Hrep. rewrite (bind_run _ _ _ _ _ E).
  destruct r as [t' found] eqn:Et. cbn [fst snd] in *. destruct found; [|subst f; eexists _, _, _; split; [done|]; by rewrite bool_decide_eq_true_2].
  destruct Hr as [Hop Hf]. assert (handles st !! f = None) as Hnone.
  { destruct (handles st !! f) as [[q m]|] eqn:Eh; [|done]. destruct (Hh f q m Eh) as [(x & _ & Hx & _) _]. exfalso. apply Hf. by eapply elem_of_dom_2. }
  assert (f <> 0) as Hfz by (by destruct Hop as (? & ? & _ & _ & _ & _ & _ & _ & _ & ?)).
  eexists _, _, _. split; [done|]. cbn [fst snd]. rewrite bool_decide_eq_true_2 by done. split; [done|].
  destruct (open_tree_found _ _ _ _ _ _ Ho Et) as [bytes Hb]. destruct Hrep as (L2 & Hm2 & Hh2). exists L'. split; [done|].
  cbn [contents handles] in *. intros g q m. destruct (decide (g = f)) as [->|Hgf].
  - rewrite lookup_insert_eq. intros [= <- <-]. split; [done|by exists bytes].
  - rewrite lookup_insert_ne by done. intros Hg'. destruct (Hh g q m Hg') as [Hopg [b Hq]].
    split; [by eapply opened_grows|by eapply Hkeep].
Qed.

Lemma refines_mkdir k st s a : represents cd c k st -> allowed cd c st (Mkdir s a) -> refines k st (Mkdir s a).
Proof using Hslack Hcd Hlcd.
  intros (L & Hm & Hh) (Hsz & Hgood & Hdp & Ho).
  destruct (good_path_facts s a Hgood) as (Ha & Hne & Hl1 & Hl2 & Hl3 & Hlp & rest & Hon & Er). unfold refines. cbn [accepts run_call].
  rewrite Er in *.
  destruct (mkdir_mounted k c cd L (contents st) s a rest Hm Hcd Ha Hne Hl1 Hl2 Hl3 Hon Hdp Ho ltac:(lia))
    as [E|(s' & L' & E & Hm' & Hg)]; [left; unfold bind; by rewrite E|right]. rewrite (bind_run _ _ _ _ _ E).
  pose proof (represents_step _ _ _ _ _ _ Hh Hm' Hg (extends_keeps _ _ (mkdir_tree_extends _ _ _))) as Hrep.
  eexists _, _, _. split; [done|]. by rewrite bool_decide_eq_true_2.
Qed.

Lemma refines_device k st s a ops :
  represents cd c k st -> allowed cd c st (CreateDevice s a ops) -> refines k st (CreateDevice s a ops).
Proof using Hslack Hcd Hlcd.
  intros (L & Hm & Hh) (Hsz & Hgood & Hnames & Ho).
  destruct (good_path_facts s a Hgood) as (Ha & Hne & Hl1 & Hl2 & Hl3 & Hlp & rest & Hon & Er). unfold refines. cbn [accepts run_call].
  rewrite Er in *.
  destruct (create_device_mounted junk_Inode junk_DirEntryNode junk_FileNode call_read call_write call_open call_close core slack junk_Block
    Hslack k cd c L (contents st) s a ops rest Hm Hcd Ha Hne Hl1 Hl2 Hl3 Hon Hnames Ho ltac:(lia))
    as [E|(s' & L' & E & Hm' & Hg)]; [left; unfold bind; by rewrite E|right]. rewrite (bind_run _ _ _ _ _ E).
  pose proof (represents_step _ _ _ _ _ _ Hh Hm' Hg (extends_keeps _ _ (device_tree_extends _ _ _ _))) as Hrep.
  destruct (device_tree ops [] (components rest) (contents st)) as [t' status]. cbn [fst snd] in *.
  eexists _, _, _. split; [done|]. by rewrite bool_decide_eq_true_2.
Qed.

Lemma refines_same k st x r st' :
  run_call x k = Ok (r, k) -> accepts cd st x r = Some st' -> represents cd c k st' -> refines k st x.
Proof using. intros H1 H2 H3. right. by exists r, k, st'. Qed.

(** An open file of the machine. *)
Lemma handle_facts k st f : represents cd c k st -> is_Some (handles st !! f) ->
  exists L q md bytes, mounted k c cd L (contents st) /\ opened k f c md L q /\ contents st !! q = Some (Regular bytes) /\
    handles st !! f = Some (q, md) /\ bytes_of (contents st) q = bytes /\
    (forall f q md, handles st !! f = Some (q, md) -> opened k f c md L q /\ exists bytes, contents st !! q = Some (Regular bytes)).
Proof using.
  intros (L & Hm & Hh) [[q md] Hf]. destruct (Hh f q md Hf) as [Hop [bytes Hq]]. exists L, q, md, bytes.
  split_and!; try done. unfold bytes_of. by rewrite Hq.
Qed.

Lemma refines_write k st f from n : represents cd c k st -> allowed cd c st (Write f from n) -> refines k st (Write f from n).
Proof using junk_len junk_next Hc.
  intros Hrep (Hsz & Hf & Hn & Hl). destruct (handle_facts k st f Hrep Hf) as (L & q & md & bytes & Hm & Hop & Hq & Hfq & _ & Hh).
  destruct (Z.eqb_spec md MODE_READONLY) as [->|Hmd].
  - apply (refines_same k st _ (1, []) st); [|cbn [accepts]; by rewrite Hfq, bool_decide_eq_true_2|done].
    cbn [run_call]. unfold write. destruct Hop as (x & pl & Hx & _ & Hmx & _).
    rewrite bind_assoc, (bind_run _ _ _ _ _ (on_objs_read _ _ _ (get_obj_run _ _ _ Hx))). by rewrite Hmx.
  - unfold refines. cbn [accepts run_call]. rewrite Hfq. destruct (Z.eqb_spec md MODE_READONLY) as [|_]; [done|].
    destruct (write_opened junk_Inode junk_DirEntryNode junk_FileNode call_read call_write call_open call_close core printf k c cd L
      (contents st) f md q bytes Hm ltac:(lia) Hop Hq junk_len junk_next from n Hmd Hn ltac:(unfold FILENODE_DATA_SIZE; lia))
      as [E|(s' & L' & E & Hm' & Hg & _)]; [left; unfold bind; by rewrite E|right]. rewrite (bind_run _ _ _ _ _ E).
    assert (keeps_files (contents st) (<[q := Regular (take (Z.to_nat n) from)]> (contents st))) as Hkeep.
    { intros q' b Hq'. destruct (decide (q' = q)) as [->|Hne]; [rewrite lookup_insert_eq; by eexists|].
      rewrite lookup_insert_ne by done. by exists b. }
    pose proof (represents_step _ _ _ _ _ _ Hh Hm' Hg Hkeep) as Hrep'.
    eexists _, _, _. split; [done|]. by rewrite bool_decide_eq_true_2.
Qed.

Lemma refines_read k st f buffer n : represents cd c k st -> allowed cd c st (Read f buffer n) -> refines k st (Read f buffer n).
Proof using Hc.
  intros Hrep (Hsz & (q' & md' & bytes' & Hf' & Hq' & Hb) & Hn & Hl).
  destruct (handle_facts k st f Hrep ltac:(by eexists)) as (L & q & md & bytes & Hm & Hop & Hq & Hfq & Hbq & _).
  rewrite Hf' in Hfq. injection Hfq as -> ->. rewrite Hq' in Hq. injection Hq as ->.
  destruct (Z.eqb_spec md MODE_WRITEONLY) as [->|Hmd].
  - apply (refines_same k st _ (1, buffer) st); [|cbn [accepts]; by rewrite Hf', bool_decide_eq_true_2|done].
    cbn [run_call]. unfold read. destruct Hop as (x & pl & Hx & _ & Hmx & _).
    rewrite (bind_run _ _ _ _ _ (on_objs_read _ _ _ (get_obj_run _ _ _ Hx))). by rewrite Hmx.
  - eapply refines_same; [|cbn [accepts]; rewrite Hf'; destruct (Z.eqb_spec md MODE_WRITEONLY) as [|_]; [done|]; by rewrite bool_decide_eq_true_2|done].
    rewrite Hbq. eapply read_opened; [exact Hm|lia|exact Hop|exact Hq'|done|lia|lia|unfold FILENODE_DATA_SIZE; lia].
Qed.

Lemma refines_length k st f : represents cd c k st -> allowed cd c st (Length f) -> refines k st (Length f).
Proof using Hc.
  intros Hrep (Hsz & Hf). destruct (handle_facts k st f Hrep Hf) as (L & q & md & bytes & Hm & Hop & Hq & Hfq & Hbq & _).
  eapply refines_same; [|cbn [accepts]; rewrite Hfq; by rewrite bool_decide_eq_true_2|done]. cbn [run_call].
  by rewrite (bind_run _ _ _ _ _ (length_opened _ _ _ _ _ _ _ _ k c cd L _ f md q bytes Hm ltac:(lia) Hop Hq)), Hbq.
Qed.

Lemma refines_close k st f : represents cd c k st -> allowed cd c st (Close f) -> refines k st (Close f).
Proof using Hc.
  intros Hrep (Hsz & Hf). destruct (handle_facts k st f Hrep Hf) as (L & q & md & bytes & Hm & Hop & Hq & Hfq & _ & Hh).
  eapply refines_same; [|cbn [accepts]; rewrite Hfq; by rewrite bool_decide_eq_true_2|].
  - cbn [run_call]. by rewrite (bind_run _ _ _ _ _ (close_opened _ _ _ _ _ _ _ _ k c cd L _ f md q bytes Hm ltac:(lia) Hop Hq)).
  - exists L. split; [done|]. cbn [contents handles]. intros g q2 md2 [_ Hg]%lookup_delete_Some. by apply Hh.
Qed.

Lemma call_refines k st x : represents cd c k st -> allowed cd c st x -> refines k st x.
Proof using Hstale Hslack junk_len junk_next Hcd Hlcd Hc.
  destruct x; [apply refines_open|apply refines_mkdir|apply refines_device|apply refines_write|apply refines_read|
    apply refines_length|apply refines_close].
Qed.
End Calls.

(** ** Histories *)

(** The calls that have been made, with their results. *)
Inductive history : vfs -> list (call * result) -> vfs -> Prop :=
  | history_nil k : history k [] k
  | history_cons k x r k1 l k2 : run_call x k = Ok (r, k1) -> history k1 l k2 -> history k ((x, r) :: l) k2.

(** The machine's state after a history, if every call is one it is about. *)
Inductive runs : files -> list (call * result) -> files -> Prop :=
  | runs_nil st : runs st [] st
  | runs_cons st x r st1 l st2 : allowed cd c st x -> accepts cd st x r = Some st1 -> runs st1 l st2 -> runs st ((x, r) :: l) st2.
Fixpoint all_allowed (st : files) (l : list (call * result)) : Prop :=
  match l with
  | [] => True
  | (x, r) :: l' => allowed cd c st x /\ forall st', accepts cd st x r = Some st' -> all_allowed st' l'
  end.

End FileCalls.

(** ** Examples *)

Definition demo_call (x : call) : M Mount.vfs (Z * list Z) :=
  run_call (Obj := VfsObj) 0 2 (fun _ => []) (fun _ => zero_File) demo_stale (fun _ => ret tt) x.
Definition demo_represents := demo_junk (represents (Obj := VfsObj)) 0 root_path 82.

(** ["a/b"] is made with its directory, written and read. *)
Definition demo_opens : call := Open [97; 47; 98] [97; 47; 98; 0] O_CREATALL MODE_READWRITE.
Definition demo_writes (f : Z) : call := Write f [5; 6; 7] 2.
Definition demo_reads (f : Z) : call := Read f [0; 0; 0] 2.
Definition demo_file : Z := 140737488426853.
Definition demo_history : list (call * (Z * list Z)) :=
  [(demo_opens, (demo_file, [])); (demo_writes demo_file, (0, [])); (demo_reads demo_file, (0, [5; 6; 0]))].

Lemma demo_history_runs : exists k k' : Mount.vfs, demo_represents k (MkFiles empty_tree ∅) /\
  history 0 2 (fun _ => []) (fun _ => zero_File) demo_stale (fun _ => ret tt) k demo_history k'.
Proof.
  destruct (drive_run (
    let* r := demo_call demo_opens in
    let* r2 := demo_call (demo_writes r.1) in
    let* r3 := demo_call (demo_reads r.1) in ret (r, r2, r3)) ((demo_file, []), (0, []), (0, [5; 6; 0])))
    as (k & L & k' & Hm & E); [vm_compute; reflexivity|].
  apply bind_ok in E as (r & k1 & E1 & E). apply bind_ok in E as (r2 & k2 & E2 & E). apply bind_ok in E as (r3 & k3 & E3 & E).
  injection E as -> -> -> <-. exists k, k3. split; [by exists L|].
  eapply history_cons; [exact E1|]. eapply history_cons; [exact E2|]. eapply history_cons; [exact E3|]. constructor.
Qed.

Lemma demo_history_allowed : all_allowed root_path 82 (MkFiles empty_tree ∅) demo_history.
Proof.
  split; [|intros st1 E1; vm_compute in E1; injection E1 as <-; split; [|intros st2 E2; vm_compute in E2; injection E2 as <-; split; [|done]]].
  - split; [by vm_compute|]. split; [|split; [apply (bool_decide_eq_true_1 _); by vm_compute|by vm_compute]].
    split; [split; [by repeat constructor|by exists []]|]. split; [done|]. split; [done|]. by exists [97; 47; 98].
  - split; [by vm_compute|]. split; [|done]. vm_compute. by eexists.
  - split; [by vm_compute|]. split; [|done]. eexists _, _, _. split; [vm_compute; reflexivity|]. split; [vm_compute; reflexivity|by vm_compute].
Qed.

