(* ===== verification/Screen.v ===== *)
(** * The screen: drivers/framebuffer.c and drivers/renderfont.c

    Drawing goes to the back buffer, byte memory from [back_buffer] on, which
    [swap_framebuffers] copies to the framebuffer of the display.  On top of it
    the text of the console: glyphs of a PSF font at a cursor, new lines,
    scrolling and the colour escapes. *)
From S2P Require Import Prelude Memory PMM Paging Strings.

(** ** State *)

(** [struct limine_framebuffer], the fields the code uses. *)
Record Framebuffer := MkFramebuffer { address : Z; width : Z; height : Z; pitch : Z; bpp : Z }.

(** [kernel.framebuffers[0]], [framebuffer_size] and [back_buffer]. *)
Record Display := MkDisplay { framebuffer : Framebuffer; framebuffer_size : Z; back_buffer : Z }.

(** [kernel.font_info->char_size] and [kernel.font_data]. *)
Record Font := MkFont { char_size : Z; font_data : list Z }.

Record Screen := MkScreen {
  kernel : Kernel; display : Display; font : Font;
  fg_colour : Z; bg_colour : Z; ch_X : Z; ch_Y : Z
}.

Definition set_kernel (k : Kernel) (s : Screen) : Screen :=
  MkScreen k (display s) (font s) (fg_colour s) (bg_colour s) (ch_X s) (ch_Y s).
Definition set_display (d : Display) (s : Screen) : Screen :=
  MkScreen (kernel s) d (font s) (fg_colour s) (bg_colour s) (ch_X s) (ch_Y s).
Definition set_fg (c : Z) (s : Screen) : Screen :=
  MkScreen (kernel s) (display s) (font s) c (bg_colour s) (ch_X s) (ch_Y s).
Definition set_cursor (x y : Z) (s : Screen) : Screen :=
  MkScreen (kernel s) (display s) (font s) (fg_colour s) (bg_colour s) x y.

Definition memory_of (s : Screen) : memory := mem (kernel s).
Definition update_memory (f : memory -> memory) (s : Screen) : Screen := set_kernel (set_mem f (kernel s)) s.

(** ** Loops *)

(** [for (i = ...; ...; i++)] with [n] iterations from [i] on. *)
Fixpoint for_ {S} (n : nat) (i : Z) (body : Z -> M S unit) : M S unit :=
  match n with
  | O => ret tt
  | S n' => body i ;;; for_ n' (i + 1) body
  end.

Lemma for_spec {S} (P : Z -> S -> Prop) n i (body : Z -> M S unit) s :
  P i s ->
  (forall j s', i <= j < i + Z.of_nat n -> P j s' -> exists s'', body j s' = Ok (tt, s'') /\ P (j + 1) s'') ->
  exists s', for_ n i body s = Ok (tt, s') /\ P (i + Z.of_nat n) s'.
Proof.
  revert i s. induction n as [|n IH]; intros i s H0 Hstep; cbn [for_].
  - exists s. rewrite Z.add_0_r. done.
  - destruct (Hstep i s ltac:(lia) H0) as (s1 & E & H1). rewrite (bind_run _ _ _ _ _ E).
    destruct (IH (i + 1) s1 H1) as (s2 & E2 & H2).
    + intros j s' Hj. apply Hstep. lia.
    + exists s2. split; [done|]. by replace (i + Z.of_nat (Datatypes.S n)) with (i + 1 + Z.of_nat n) by lia.
Qed.

(** ** framebuffer.c *)

(** The address of the pixel in column [x] of row [y]. *)
Definition location (d : Display) (x y : Z) : Z :=
  u64 (u64 (back_buffer d + u64 (y * pitch (framebuffer d))) + u64 (x * 4)).

Definition draw_pixel (x y colour : Z) : M Screen unit :=
  modify (fun s => update_memory (fun m => store 4 m (location (display s) x y) colour) s).

Definition swap_framebuffers : M Screen unit :=
  modify (fun s => update_memory (fun m =>
    memcpy (Z.to_nat (framebuffer_size (display s))) m (address (framebuffer (display s))) (back_buffer (display s))) s).

Definition fill_screen (colour : Z) : M Screen unit :=
  let* s := get in
  let fb_width := width (framebuffer (display s)) in
  let fb_height := height (framebuffer (display s)) in
  for_ (Z.to_nat fb_width) 0 (fun x => for_ (Z.to_nat fb_height) 0 (fun y => draw_pixel x y colour)) ;;;
  swap_framebuffers.

(** [int] operands are converted to [uint64_t].  The loop runs to [height]
    itself. *)
Definition scroll_pixel (pixels : Z) : M Screen unit :=
  let* s := get in
  let fb := framebuffer (display s) in
  for_ (Z.to_nat (height fb + 1)) 0 (fun y =>
    for_ (Z.to_nat (width fb)) 0 (fun x =>
      let* s := get in
      if u64 (height fb - u64 pixels) <=? y then draw_pixel x y (bg_colour s)
      else
        let above_pixel_value := load 4 (memory_of s) (location (display s) x (u64 (y + u64 pixels))) in
        draw_pixel x y above_pixel_value)).

(** The devices D:/fb0 and D:/fbinfo0.  [buffer] is an address. *)
Definition write_fb_device (buffer len : Z) : M Screen Z :=
  let* s := get in
  let size := framebuffer_size (display s) in
  let copy_amount := if size <? len then size else len in
  modify (update_memory (fun m => memcpy (Z.to_nat copy_amount) m (back_buffer (display s)) buffer)) ;;;
  swap_framebuffers ;;;
  ret 0.

Definition read_fb_device (buffer max_len : Z) : M Screen Z :=
  let* s := get in
  let size := framebuffer_size (display s) in
  let copy_amount := if size <? max_len then size else max_len in
  modify (update_memory (fun m => memcpy (Z.to_nat copy_amount) m buffer (back_buffer (display s)))) ;;;
  swap_framebuffers ;;;
  ret 0.

(** The bytes of a [uint64_t]. *)
Definition bytes_of (v : Z) : list Z := map (fun i => byte_of v (Z.of_nat i)) (seq 0 8).

(** The labels are "Width: ", "Height: ", "Pitch: " and "Bytes: ". *)
Definition labels : list (list Z) :=
  [[87; 105; 100; 116; 104; 58; 32]; [72; 101; 105; 103; 104; 116; 58; 32];
   [80; 105; 116; 99; 104; 58; 32]; [66; 121; 116; 101; 115; 58; 32]].

(** The second loop of [read_fbinfo_device], over labels and values. *)
Fixpoint fbinfo_loop (entries : list (list Z * Z)) (temp_buffer : list Z) (upto : Z) : outcome (list Z * Z) :=
  match entries with
  | [] => Ok (temp_buffer, upto)
  | (label, val) :: entries' =>
      let+ this_strlen := ku_strlen (label ++ [0]) in
      let+ tl := ku_memcpy (drop (Z.to_nat upto) temp_buffer) label this_strlen in
      let temp_buffer := take (Z.to_nat upto) temp_buffer ++ tl in
      let+ tl := ku_memcpy (drop (Z.to_nat (upto + this_strlen)) temp_buffer) (bytes_of val) 8 in
      let temp_buffer := take (Z.to_nat (upto + this_strlen)) temp_buffer ++ tl in
      fbinfo_loop entries' temp_buffer (upto + (this_strlen + 8))
  end.

(** [junk] is what the block from [malloc] holds; [buffer] is the array of the
    caller. *)
Definition read_fbinfo_device (d : Display) (junk : Z -> Z) (buffer : list Z) (max_len : Z) : outcome (list Z) :=
  let fb := framebuffer d in
  let vals := [width fb; height fb; pitch fb; framebuffer_size d] in
  let whole_len := fold_left (fun n label => n + (Zlen label + 8)) labels 0 in
  let temp_buffer := map (fun i => junk (Z.of_nat i)) (seq 0 (Z.to_nat (whole_len + 1))) in
  let+ (temp_buffer, upto) := fbinfo_loop (zip labels vals) temp_buffer 0 in
  let copy_amount := if upto <? max_len then upto else max_len in
  ku_memcpy buffer temp_buffer copy_amount.

(** [init_framebuffer] up to the creation of the devices. *)
Definition init_framebuffer : M Screen unit :=
  let* s := get in
  let fb := framebuffer (display s) in
  let size := u64 (u64 (width fb * (bpp fb / 8)) * height fb) in
  fun s =>
    let+ (a, k) := kmalloc (PAGE_ALIGN_UP size / 4096) (kernel s) in
    let buffer := u64 (a + hhdm k) in
    Ok (tt, set_display (MkDisplay fb size buffer) (set_kernel (set_mem (fun m => memset m buffer 0 size) k) s)).

(** ** renderfont.c *)

(** [ch] is a [char]: signed. *)
Definition draw_char (ch x_coord y_coord : Z) : M Screen unit :=
  let* s := get in
  let first_byte_idx := u64 (schar ch * char_size (font s)) in
  for_ (Z.to_nat (char_size (font s))) 0 (fun y =>
    for_ 8 0 (fun x =>
      let* byte := lift (rd (font_data (font s)) (u64 (first_byte_idx + y))) in
      if Z.land (Z.shiftr byte (7 - x)) 1 =? 0
      then draw_pixel (u64 (x_coord + x)) (u64 (y_coord + y)) (bg_colour s)
      else draw_pixel (u64 (x_coord + x)) (u64 (y_coord + y)) (fg_colour s))).

Definition scroll_line : M Screen unit :=
  let* s := get in
  scroll_pixel (char_size (font s) + 1) ;;;
  modify (fun s => set_cursor (ch_X s) (u64 (ch_Y s - (char_size (font s) + 1))) s) ;;;
  swap_framebuffers.

Definition new_line : M Screen unit :=
  modify (fun s => set_cursor 5 (u64 (ch_Y s + (char_size (font s) + 1))) s) ;;;
  let* s := get in
  if u64 (height (framebuffer (display s)) - char_size (font s)) <=? ch_Y s then scroll_line else ret tt.

Definition write_char (ch : Z) : M Screen unit :=
  if ch =? 10 then new_line
  else
    let* s := get in
    draw_char ch (ch_X s) (ch_Y s) ;;;
    modify (fun s => set_cursor (u64 (ch_X s + 8)) (ch_Y s) s) ;;;
    let* s := get in
    if u64 (width (framebuffer (display s)) - 5) <=? ch_X s then new_line else ret tt.

Definition ansi_colours : list Z :=
  [0x808080; 0xFF0000; 0x00FF00; 0xFFBF00; 0x0000FF; 0xBF40BF; 0x00FFFF; 0xFFFFFF].

Definition ansi_switch_colour (colour_code : Z) : M Screen unit :=
  let* c := lift (rd ansi_colours colour_code) in
  modify (set_fg c).

(** [str] is the array from the pointer to its end; one unit of fuel for every
    element is enough. *)
Fixpoint write_string_loop (fuel : nat) (str : list Z) : M Screen unit :=
  match fuel with
  | O => fun _ => Spin
  | S fuel' =>
      let* c := lift (rd str 0) in
      if c =? 0 then ret tt
      else if c =? 27 then
        let* code := lift (rd str 5) in
        ansi_switch_colour (u8 (code - 48)) ;;;
        write_string_loop fuel' (drop 7 str)
      else
        write_char c ;;;
        write_string_loop fuel' (drop 1 str)
  end.
Definition write_string (str : list Z) : M Screen unit := write_string_loop (S (length str)) str.

Definition clear_screen : M Screen unit :=
  let* s := get in
  let fb := framebuffer (display s) in
  for_ (Z.to_nat (width fb)) 0 (fun x =>
    for_ (Z.to_nat (height fb)) 0 (fun y =>
      let* s := get in
      draw_pixel x y (bg_colour s) ;;;
      modify (set_cursor 5 5))) ;;;
  swap_framebuffers.

(** A screen of 24 columns and 12 rows and a font of 128 characters, all of
    them bars, 2 rows high. *)
Definition demo_screen : Screen :=
  MkScreen small_kernel (MkDisplay (MkFramebuffer 0x200000 24 12 96 32) (24 * 12 * 4) 0x100000)
    (MkFont 2 (concat (replicate 128 [170; 85]))) 0xFFFFFF 0x112233 5 5.

Example write_string_demo :
  match write_string [72; 10; 27; 91; 49; 59; 51; 50; 109; 105; 0] demo_screen with
  | Ok (_, s) => (ch_X s, ch_Y s, fg_colour s) = (13, 8, 0x00FF00) /\
      map (fun a => load 4 (memory_of s) a) [0x100000 + 5 * 96 + 20; 0x100000 + 5 * 96 + 24; 0x100000 + 8 * 96 + 20] =
        [0xFFFFFF; 0x112233; 0x00FF00]
  | _ => False
  end.
Proof. vm_compute. done. Qed.

Example fbinfo_demo :
  read_fbinfo_device (display demo_screen) (fun _ => 7) (replicate 100 9) 23 =
    Ok ([87; 105; 100; 116; 104; 58; 32; 24; 0; 0; 0; 0; 0; 0; 0; 72; 101; 105; 103; 104; 116; 58; 32] ++ replicate 77 9).
Proof. vm_compute. reflexivity. Qed.

(** ** Pictures

    What has been drawn is a partial picture: the colour of every pixel that
    was painted.  Columns go to the end of the row in memory, rows to [height]
    inclusive. *)

Definition same_but_memory (s s' : Screen) : Prop := exists f, s' = update_memory f s.

(** The display is 32 bits deep, its rows do not overlap and its back buffer,
    with one row more, is inside the address space. *)
Record geometry (s : Screen) : Prop := {
  geo_width : 0 < width (framebuffer (display s));
  geo_height : 0 < height (framebuffer (display s));
  geo_pitch : 4 * width (framebuffer (display s)) <= pitch (framebuffer (display s));
  geo_buffer : 0 <= back_buffer (display s);
  geo_space : back_buffer (display s) +
    pitch (framebuffer (display s)) * (height (framebuffer (display s)) + 1) < 2 ^ 64
}.

Definition columns (s : Screen) : Z := pitch (framebuffer (display s)) / 4.
Definition rows (s : Screen) : Z := height (framebuffer (display s)) + 1.
Definition on_buffer (s : Screen) (x y : Z) : Prop := 0 <= x < columns s /\ 0 <= y < rows s.

Definition pixel_at (s : Screen) (x y : Z) : Z :=
  back_buffer (display s) + y * pitch (framebuffer (display s)) + x * 4.
Definition pixel (s : Screen) (x y : Z) : Z := load 4 (memory_of s) (pixel_at s x y).

Definition picture : Type := Z -> Z -> option Z.
Definition blank : picture := fun _ _ => None.
Definition dot (x y c : Z) : picture := fun x' y' => if (x' =? x) && (y' =? y) then Some c else None.
Definition over (g f : picture) : picture := fun x y => match g x y with Some c => Some c | None => f x y end.

(** [s'] is [s] with the picture [f] painted on its back buffer, and nothing
    else changed. *)
Record painted (f : picture) (s s' : Screen) : Prop := {
  paint_same : same_but_memory s s';
  paint_pixel x y : on_buffer s x y -> pixel s' x y = default (pixel s x y) (f x y);
  paint_frame a : (forall x y, on_buffer s x y -> is_Some (f x y) -> ~ (pixel_at s x y <= a < pixel_at s x y + 4)) ->
    memory_of s' a = memory_of s a
}.

Lemma same_but_memory_refl s : same_but_memory s s.
Proof. exists (fun m => m). by destruct s as [[]]. Qed.

Lemma same_but_memory_trans s1 s2 s3 : same_but_memory s1 s2 -> same_but_memory s2 s3 -> same_but_memory s1 s3.
Proof. intros [f ->] [g ->]. exists (fun m => g (f m)). by destruct s1 as [[]]. Qed.

Lemma same_display s s' : same_but_memory s s' -> display s' = display s.
Proof. by intros [f ->]. Qed.

Lemma same_geometry s s' : display s' = display s -> geometry s -> geometry s'.
Proof. intros E [H1 H2 H3 H4 H5]. split; rewrite E; done. Qed.

Lemma same_on_buffer s s' x y : display s' = display s -> on_buffer s' x y <-> on_buffer s x y.
Proof. unfold on_buffer, columns, rows. by intros ->. Qed.

Lemma same_pixel_at s s' x y : display s' = display s -> pixel_at s' x y = pixel_at s x y.
Proof. unfold pixel_at. by intros ->. Qed.

Lemma painted_refl s : painted blank s s.
Proof. split; [apply same_but_memory_refl|done|done]. Qed.

Lemma painted_ext f g s s' :
  (forall x y, on_buffer s x y -> f x y = g x y) -> painted f s s' -> painted g s s'.
Proof.
  intros E [H1 H2 H3]. split; [done| |].
  - intros x y Hon. rewrite <- E by done. auto.
  - intros a Ha. apply H3. intros x y Hon. rewrite E by done. auto.
Qed.

Lemma painted_trans f g s1 s2 s3 : painted f s1 s2 -> painted g s2 s3 -> painted (over g f) s1 s3.
Proof.
  intros [A1 A2 A3] [B1 B2 B3]. pose proof (same_display _ _ A1) as Hd. split.
  - by eapply same_but_memory_trans.
  - intros x y Hon. unfold over. rewrite B2 by (by rewrite same_on_buffer).
    destruct (g x y); [done|]. by apply A2.
  - intros a Ha. rewrite B3, A3; [done| |].
    + intros x y Hon Hf. apply Ha; [done|]. unfold over. destruct (g x y); [by eexists|done].
    + intros x y Hon Hg. rewrite (same_pixel_at _ _ _ _ Hd). apply Ha; [by rewrite <- (same_on_buffer s1 s2)|].
      unfold over. by destruct Hg as [c ->]; eexists.
Qed.

(** Pixels do not overlap, and the code computes their addresses. *)
Lemma pixels_apart s x y x' y' :
  geometry s -> on_buffer s x y -> on_buffer s x' y' -> (x, y) <> (x', y') ->
  disjoint (pixel_at s x y) 4 (pixel_at s x' y') 4.
Proof.
  intros [Hw Hh Hp Hb _] [[Hx0 Hx] [Hy0 _]] [[Hx0' Hx'] [Hy0' _]] Hne. unfold disjoint, pixel_at, columns in *.
  set (p := pitch (framebuffer (display s))) in *.
  assert (x * 4 + 4 <= p /\ x' * 4 + 4 <= p) as [H1 H2] by divlia.
  destruct (Z.lt_trichotomy y y') as [?|[->|?]]; [left; nia| |right; nia].
  assert (x <> x') by congruence. lia.
Qed.

Lemma pixel_space s x y :
  geometry s -> on_buffer s x y ->
  0 <= y * pitch (framebuffer (display s)) /\ pixel_at s x y + 4 < 2 ^ 64 /\
  back_buffer (display s) <= pixel_at s x y.
Proof.
  intros [Hw Hh Hp Hb Hs] [[Hx0 Hx] [Hy0 Hy]]. unfold pixel_at, columns, rows in *.
  set (p := pitch (framebuffer (display s))) in *. assert (x * 4 + 4 <= p) as H1 by divlia. split_and!; nia.
Qed.

Lemma location_run s x y : geometry s -> on_buffer s x y -> location (display s) x y = pixel_at s x y.
Proof.
  intros Hg Hon. pose proof (pixel_space s x y Hg Hon). destruct Hon as [[? ?] _]. destruct Hg as [_ _ _ Hb _].
  unfold location, pixel_at in *. set (r := y * pitch _) in *.
  rewrite (u64_small r), (u64_small (x * 4)) by lia. rewrite (u64_small (_ + r)) by lia. by rewrite u64_small by lia.
Qed.

Lemma draw_pixel_spec s x y c :
  geometry s -> on_buffer s x y ->
  exists s', draw_pixel x y c s = Ok (tt, s') /\ painted (dot x y (u32 c)) s s'.
Proof.
  intros Hg Hon. eexists. split; [reflexivity|]. split.
  - by eexists.
  - intros x' y' Hon'. unfold pixel, pixel_at, update_memory, memory_of, dot. cbn [display kernel set_kernel mem set_mem].
    rewrite (location_run s x y Hg Hon). fold (pixel_at s x' y').
    destruct ((x' =? x) && (y' =? y)) eqn:E.
    + assert (x' = x /\ y' = y) as [-> ->] by lia. cbn [default]. by rewrite load_store_same.
    + cbn [default]. rewrite (load_store_other 4 4); [done|]. apply pixels_apart; [done..|]. intros [= -> ->]. lia.
  - intros a Ha. unfold memory_of, update_memory. cbn [kernel set_kernel mem set_mem].
    rewrite (location_run s x y Hg Hon). unfold store. rewrite (proj2 (in_range_false _ _ _)); [done|].
    apply Ha; [done|]. unfold dot. rewrite !Z.eqb_refl. by eexists.
Qed.

Lemma paint_dot f s s1 x y c :
  geometry s -> painted f s s1 -> on_buffer s x y ->
  exists s2, draw_pixel x y c s1 = Ok (tt, s2) /\ painted (over (dot x y (u32 c)) f) s s2.
Proof.
  intros Hg Hf Hon. pose proof (same_display _ _ (paint_same _ _ _ Hf)) as Hd.
  destruct (draw_pixel_spec s1 x y c) as (s2 & E & H2);
    [by eapply same_geometry|by rewrite same_on_buffer|].
  exists s2. split; [done|]. by eapply painted_trans.
Qed.

(** *** Scanning a rectangle *)

Lemma for2_spec {S} (P : Z -> Z -> S -> Prop) n m (body : Z -> Z -> M S unit) s :
  P 0 0 s ->
  (forall j s', 0 <= j < Z.of_nat n -> P j (Z.of_nat m) s' -> P (j + 1) 0 s') ->
  (forall j k s', 0 <= j < Z.of_nat n -> 0 <= k < Z.of_nat m -> P j k s' ->
    exists s'', body j k s' = Ok (tt, s'') /\ P j (k + 1) s'') ->
  exists s', for_ n 0 (fun j => for_ m 0 (fun k => body j k)) s = Ok (tt, s') /\ P (Z.of_nat n) 0 s'.
Proof.
  intros H0 Hrow Hstep. apply (for_spec (fun j s => P j 0 s)); [done|]. intros j s' Hj Hs'.
  destruct (for_spec (fun k s => P j k s) m 0 (body j) s' Hs') as (s'' & E & H'').
  - intros k s1 Hk. apply Hstep; lia.
  - exists s''. split; [done|]. apply Hrow; [lia|done].
Qed.

(** The positions of a scan of [m] pixels per line, from (X, Y) on: along the
    rows or along the columns.  [scanned j k] is the picture [T] on the lines
    before [j] and the first [k] pixels of line [j]. *)
Section Scan.
Context (by_rows : bool) (X Y m : Z) (T : Z -> Z -> Z).

Definition line_of (x y : Z) : Z := if by_rows then y - Y else x - X.
Definition place_of (x y : Z) : Z := if by_rows then x - X else y - Y.
Definition scanned (j k : Z) : picture := fun x y =>
  if (0 <=? line_of x y) && (0 <=? place_of x y) && (place_of x y <? m) &&
     ((line_of x y <? j) || (line_of x y =? j) && (place_of x y <? k))
  then Some (T x y) else None.

Lemma scanned_start x y : scanned 0 0 x y = None.
Proof using. unfold scanned. case_bool. Qed.

Lemma scanned_line j x y : scanned (j + 1) 0 x y = scanned j m x y.
Proof using. unfold scanned. case_bool. Qed.

Lemma scanned_dot x y j k x' y' :
  0 <= j -> 0 <= k < m -> line_of x y = j -> place_of x y = k ->
  over (dot x y (T x y)) (scanned j k) x' y' = scanned j (k + 1) x' y'.
Proof using.
  intros Hj Hk El Ep. unfold over, dot. destruct ((x' =? x) && (y' =? y)) eqn:E.
  - assert (x' = x /\ y' = y) as [-> ->] by lia. unfold scanned. rewrite El, Ep. case_bool.
  - unfold scanned. assert (line_of x' y' <> j \/ place_of x' y' <> k) by (unfold line_of, place_of in *; case_bool).
    case_bool.
Qed.
End Scan.

(** The step of a loop that draws the next pixel of a scan. *)
Lemma scan_step by_rows X Y m T s s1 x y c j k :
  geometry s -> painted (scanned by_rows X Y m T j k) s s1 -> on_buffer s x y ->
  0 <= j -> 0 <= k < m -> line_of by_rows X Y x y = j -> place_of by_rows X Y x y = k -> T x y = u32 c ->
  exists s2, draw_pixel x y c s1 = Ok (tt, s2) /\ painted (scanned by_rows X Y m T j (k + 1)) s s2.
Proof.
  intros Hg H1 Hon Hj Hk Hl Hp HT. destruct (paint_dot _ _ _ _ _ c Hg H1 Hon) as (s2 & E & H2).
  exists s2. split; [done|]. eapply painted_ext; [|exact H2]. intros x' y' _. rewrite <- HT. by apply scanned_dot.
Qed.

Lemma scan_line by_rows X Y m T s s1 j :
  painted (scanned by_rows X Y m T j m) s s1 -> painted (scanned by_rows X Y m T (j + 1) 0) s s1.
Proof. intros H. eapply painted_ext; [|exact H]. intros. symmetry. apply scanned_line. Qed.

Lemma scan_start by_rows X Y m T s : painted (scanned by_rows X Y m T 0 0) s s.
Proof. eapply painted_ext; [|apply painted_refl]. intros. symmetry. apply scanned_start. Qed.

(** A rectangle of [w] columns and [h] rows at (X, Y). *)
Definition rectangle (X Y w h : Z) (T : Z -> Z -> Z) : picture := fun x y =>
  if in_range X w x && in_range Y h y then Some (T x y) else None.

Lemma scanned_rows X Y w h T x y : scanned true X Y w T h 0 x y = rectangle X Y w h T x y.
Proof. unfold scanned, rectangle, line_of, place_of, in_range. case_bool. Qed.
Lemma scanned_columns X Y w h T x y : scanned false X Y h T w 0 x y = rectangle X Y w h T x y.
Proof. unfold scanned, rectangle, line_of, place_of, in_range. case_bool. Qed.

Lemma visible_on_buffer s x y :
  geometry s -> 0 <= x < width (framebuffer (display s)) -> 0 <= y <= height (framebuffer (display s)) ->
  on_buffer s x y.
Proof. intros [] Hx Hy. unfold on_buffer, columns, rows. divlia. Qed.

(** *** Filling, clearing, scrolling, glyphs *)

Definition fb_loop (c : Z) (s : Screen) : M Screen unit :=
  for_ (Z.to_nat (width (framebuffer (display s)))) 0 (fun x =>
    for_ (Z.to_nat (height (framebuffer (display s)))) 0 (fun y => draw_pixel x y c)).

Definition whole (s : Screen) (c : Z) : picture :=
  rectangle 0 0 (width (framebuffer (display s))) (height (framebuffer (display s))) (fun _ _ => u32 c).

Lemma fill_screen_run c s :
  geometry s -> exists s1, painted (whole s c) s s1 /\ fill_screen c s = swap_framebuffers s1.
Proof.
  intros Hg. pose proof Hg as [Hw Hh _ _ _]. unfold fill_screen. rewrite bind_get. cbv zeta.
  destruct (for2_spec (fun j k => painted (scanned false 0 0 (height (framebuffer (display s))) (fun _ _ => u32 c) j k) s)
    (Z.to_nat (width (framebuffer (display s)))) (Z.to_nat (height (framebuffer (display s))))
    (fun x y => draw_pixel x y c) s) as (s1 & E & H1).
  - apply scan_start.
  - intros j s1 Hj H1. rewrite Z2Nat.id in H1 by lia. by apply scan_line.
  - intros j k s1 Hj Hk H1. eapply scan_step; [done|exact H1|apply visible_on_buffer; [done|lia..]|lia|lia|..];
      unfold line_of, place_of; [lia..|done].
  - exists s1. rewrite Z2Nat.id in H1 by lia. rewrite (bind_run _ _ _ _ _ E). split; [|done].
    eapply painted_ext; [|exact H1]. intros. apply scanned_columns.
Qed.

Lemma clear_screen_run s :
  geometry s -> exists s1, painted (whole s (bg_colour s)) s s1 /\ clear_screen s = swap_framebuffers (set_cursor 5 5 s1).
Proof.
  intros Hg. pose proof Hg as [Hw Hh _ _ _]. unfold clear_screen. rewrite bind_get. cbv zeta.
  set (f := scanned false 0 0 (height (framebuffer (display s))) (fun _ _ => u32 (bg_colour s))).
  destruct (for2_spec (fun j k s1 => exists s0, painted (f j k) s s0 /\
      (s1 = set_cursor 5 5 s0 \/ j = 0 /\ k = 0 /\ s1 = s0))
    (Z.to_nat (width (framebuffer (display s)))) (Z.to_nat (height (framebuffer (display s))))
    (fun x y => let* s := get in draw_pixel x y (bg_colour s) ;;; modify (set_cursor 5 5)) s) as (s1 & E & s0 & H1 & Hs1).
  - exists s. split; [apply scan_start|by right].
  - intros j s1 Hj (s0 & H1 & Hs1). rewrite Z2Nat.id in H1, Hs1 by lia. exists s0.
    split; [by apply scan_line|]. destruct Hs1 as [?|(_ & ? & _)]; [by left|lia].
  - intros j k s1 Hj Hk (s0 & H1 & Hs1).
    destruct (scan_step false 0 0 (height (framebuffer (display s))) (fun _ _ => u32 (bg_colour s)) s s0 j k (bg_colour s) j k)
      as (s2 & E2 & H2);
      [done|done|apply visible_on_buffer; [done|lia..]|lia|lia|unfold line_of; lia|unfold place_of; lia|done|].
    injection E2 as E2. exists (set_cursor 5 5 s2). split; [|by eexists; split; [exact H2|left]].
    rewrite bind_get. destruct (paint_same _ _ _ H1) as [g ->].
    destruct Hs1 as [-> |(_ & _ & ->)]; unfold draw_pixel; rewrite bind_modify; cbn [bg_colour set_cursor update_memory set_kernel];
      unfold modify; do 2 f_equal; rewrite <- E2; done.
  - rewrite Z2Nat.id in H1, Hs1 by lia. exists s0. rewrite (bind_run _ _ _ _ _ E).
    destruct Hs1 as [-> |(? & _)]; [|lia]. split; [|done].
    eapply painted_ext; [|exact H1]. intros. apply scanned_columns.
Qed.

(** What [scroll_pixel] leaves: the picture moved up, the background below, in
    row [height], too. *)
Definition scrolled (s : Screen) (pixels : Z) : picture :=
  let h := height (framebuffer (display s)) in
  rectangle 0 0 (width (framebuffer (display s))) (h + 1)
    (fun x y => if y <? h - pixels then pixel s x (y + pixels) else u32 (bg_colour s)).

Lemma load4_u32 (m : memory) a : u32 (load 4 m a) = load 4 m a.
Proof. apply u32_small. exact (load_range 4 m a). Qed.

Lemma height_u64 s : geometry s -> 0 < height (framebuffer (display s)) < 2 ^ 64.
Proof. intros [Hw Hh Hp Hb Hs]. nia. Qed.

Lemma width_u64 s : geometry s -> 0 < width (framebuffer (display s)) < 2 ^ 62.
Proof. intros [Hw Hh Hp Hb Hs]. nia. Qed.

Lemma scroll_pixel_run pixels s :
  geometry s -> 0 <= pixels <= height (framebuffer (display s)) ->
  exists s1, scroll_pixel pixels s = Ok (tt, s1) /\ painted (scrolled s pixels) s s1.
Proof.
  intros Hg Hpx. pose proof (height_u64 s Hg) as Hh. pose proof (width_u64 s Hg) as Hw.
  unfold scroll_pixel. rewrite bind_get. cbv zeta. rewrite (u64_small pixels) by lia.
  set (h := height (framebuffer (display s))) in *. set (w := width (framebuffer (display s))) in *.
  rewrite (u64_small (h - pixels)) by lia.
  set (T := fun x y => if y <? h - pixels then pixel s x (y + pixels) else u32 (bg_colour s)).
  match goal with |- context [for_ _ 0 (fun y => for_ _ 0 (fun x => @?b y x))] => set (body := b) end.
  destruct (for2_spec (fun j k => painted (scanned true 0 0 w T j k) s) (Z.to_nat (h + 1)) (Z.to_nat w) body s)
    as (s1 & E & H1).
  - apply scan_start.
  - intros j s1 Hj H1. rewrite Z2Nat.id in H1 by lia. by apply scan_line.
  - intros y x s1 Hy Hx H1. unfold body. rewrite bind_get.
    assert (on_buffer s x y) as Hon by (apply visible_on_buffer; [done|lia..]).
    destruct (Z.leb_spec (h - pixels) y).
    + eapply scan_step; [done|exact H1|done|lia|lia|unfold line_of; lia|unfold place_of; lia|].
      unfold T. destruct (Z.ltb_spec y (h - pixels)); [lia|]. by destruct (paint_same _ _ _ H1) as [g ->].
    + cbv zeta. eapply scan_step; [done|exact H1|done|lia|lia|unfold line_of; lia|unfold place_of; lia|].
      unfold T. destruct (Z.ltb_spec y (h - pixels)); [|lia]. rewrite load4_u32, (u64_small (y + pixels)) by lia.
      assert (on_buffer s x (y + pixels)) as Hon' by (apply visible_on_buffer; [done|lia..]).
      pose proof (same_display _ _ (paint_same _ _ _ H1)) as Hd. rewrite Hd, (location_run s) by done.
      rewrite <- (same_pixel_at s s1) by done. fold (pixel s1 x (y + pixels)).
      rewrite (paint_pixel _ _ _ H1) by done. unfold scanned, line_of, place_of. case_bool.
  - exists s1. split; [done|]. eapply painted_ext; [|exact H1]. intros x y _.
    rewrite Z2Nat.id by lia. apply scanned_rows.
Qed.

(** The glyph of the character [ch] with its top left corner at (X, Y). *)
Definition glyph (s : Screen) (ch X Y : Z) : picture :=
  rectangle X Y 8 (char_size (font s)) (fun x y =>
    if Z.testbit (nth (Z.to_nat (ch * char_size (font s) + (y - Y))) (font_data (font s)) 0) (7 - (x - X))
    then u32 (fg_colour s) else u32 (bg_colour s)).

(** The font has the glyphs of the characters below 128. *)
Definition font_ok (f : Font) : Prop := 0 <= char_size f < 2 ^ 8 /\ 128 * char_size f <= Zlen (font_data f).

Lemma bit_at v i : 0 <= i -> (Z.land (Z.shiftr v i) 1 =? 0) = negb (Z.testbit v i).
Proof.
  intros Hi. change 1 with (Z.ones 1). rewrite Z.land_ones by lia. change (2 ^ 1) with 2.
  rewrite <- Z.bit0_mod, Z.shiftr_spec by lia. rewrite Z.add_0_l. by destruct (Z.testbit v i).
Qed.

Lemma rd_nth (l : list Z) i : 0 <= i < Zlen l -> rd l i = Ok (nth (Z.to_nat i) l 0).
Proof.
  intros Hi. unfold rd. case_bool. destruct (l !! Z.to_nat i) as [x|] eqn:E.
  - by rewrite (nth_lookup_Some _ _ 0 _ E).
  - apply lookup_ge_None in E. unfold Zlen in *. lia.
Qed.

Lemma draw_char_run ch X Y s :
  geometry s -> font_ok (font s) -> 0 <= ch < 128 ->
  0 <= X -> X + 8 <= columns s -> 0 <= Y -> Y + char_size (font s) <= rows s ->
  exists s1, draw_char ch X Y s = Ok (tt, s1) /\ painted (glyph s ch X Y) s s1.
Proof.
  intros Hg [Hcs Hfont] Hch HX0 HX HY0 HY. pose proof (height_u64 s Hg) as Hh.
  pose proof (pixel_space s (columns s - 1) 0 Hg ltac:(unfold on_buffer, rows; lia)) as (_ & Hcol & _).
  unfold pixel_at in Hcol. pose proof (geo_buffer s Hg).
  unfold draw_char. rewrite bind_get. cbv zeta. unfold schar. destruct (Z.ltb_spec ch 128); [|lia].
  set (cs := char_size (font s)) in *. assert (0 <= ch * cs /\ ch * cs + cs <= 128 * cs) as [Hc0 Hc1] by nia.
  rewrite (u64_small (ch * cs)) by lia.
  set (T := fun x y => if Z.testbit (nth (Z.to_nat (ch * cs + (y - Y))) (font_data (font s)) 0) (7 - (x - X))
    then u32 (fg_colour s) else u32 (bg_colour s)).
  match goal with |- context [for_ _ 0 (fun y => for_ _ 0 (fun x => @?b y x))] => set (body := b) end.
  destruct (for2_spec (fun j k => painted (scanned true X Y 8 T j k) s) (Z.to_nat cs) 8 body s) as (s1 & E & H1).
  - apply scan_start.
  - intros j s1 Hj H1. by apply scan_line.
  - intros y x s1 Hy Hx H1. unfold body. rewrite (u64_small (ch * cs + y)) by lia.
    rewrite (bind_lift _ _ _ _ (rd_nth (font_data (font s)) (ch * cs + y) ltac:(lia))).
    rewrite bit_at by lia. unfold rows in HY. rewrite (u64_small (X + x)), (u64_small (Y + y)) by lia.
    assert (T (X + x) (Y + y) = if Z.testbit (nth (Z.to_nat (ch * cs + y)) (font_data (font s)) 0) (7 - x)
      then u32 (fg_colour s) else u32 (bg_colour s)) as HT.
    { unfold T. by replace (Y + y - Y) with y by lia; replace (X + x - X) with x by lia. }
    assert (on_buffer s (X + x) (Y + y)) as Hon by (unfold on_buffer, rows; lia).
    destruct (Z.testbit _ (7 - x)); cbn [negb];
      (eapply scan_step; [exact Hg|exact H1|exact Hon|lia|lia|unfold line_of; lia|unfold place_of; lia|exact HT]).
  - exists s1. split; [done|]. eapply painted_ext; [|exact H1]. intros x y _.
    rewrite Z2Nat.id by lia. apply scanned_rows.
Qed.

(** ** The text console *)

(** The glyphs of [text] side by side. *)
Fixpoint line (s : Screen) (text : list Z) (X Y : Z) : picture :=
  match text with
  | [] => blank
  | ch :: text' => over (line s text' (X + 8) Y) (glyph s ch X Y)
  end.

Lemma line_left s text X Y x y : x < X -> line s text X Y x y = None.
Proof.
  revert X. induction text as [|ch text IH]; intros X Hx; [done|]. cbn [line]. unfold over. rewrite IH by lia.
  unfold glyph, rectangle, in_range. case_bool.
Qed.

Lemma line_outside s text X Y x y :
  ~ (X <= x < X + 8 * Zlen text /\ Y <= y < Y + char_size (font s)) -> line s text X Y x y = None.
Proof.
  revert X. induction text as [|ch text IH]; intros X Hx; [done|]. cbn [line]. unfold over. rewrite Zlen_cons in Hx.
  pose proof (Zlen_nonneg text). rewrite IH by lia. unfold glyph, rectangle, in_range. case_bool.
Qed.

Lemma line_inside s text X Y i ch dx dy :
  text !! i = Some ch -> 0 <= dx < 8 -> 0 <= dy < char_size (font s) ->
  line s text X Y (X + 8 * Z.of_nat i + dx) (Y + dy) =
    Some (if Z.testbit (nth (Z.to_nat (ch * char_size (font s) + dy)) (font_data (font s)) 0) (7 - dx)
          then u32 (fg_colour s) else u32 (bg_colour s)).
Proof.
  revert X i. induction text as [|c text IH]; intros X [|i] Hi Hdx Hdy; simplify_eq/=; unfold over.
  - rewrite line_left by lia. unfold glyph, rectangle.
    rewrite (proj2 (in_range_spec X 8 _)), (proj2 (in_range_spec Y _ _)) by lia. cbn [andb].
    replace (Y + dy - Y) with dy by lia. by replace (X + 8 * Z.of_nat 0 + dx - X) with dx by lia.
  - specialize (IH (X + 8) i Hi Hdx Hdy). by replace (X + 8 * Z.of_nat (S i) + dx) with (X + 8 + 8 * Z.of_nat i + dx) by lia; rewrite IH.
Qed.

(** The cursor is inside the margins. *)
Definition cursor_ok (s : Screen) : Prop :=
  (exists k, 0 <= k /\ ch_X s = 5 + 8 * k) /\ ch_X s + 5 < width (framebuffer (display s)) /\
  5 <= ch_Y s /\ ch_Y s + char_size (font s) < height (framebuffer (display s)).

(** A display on which the console works: there is room for a line, and no
    glyph hangs over the right edge. *)
Record console (s : Screen) : Prop := {
  con_geometry : geometry s;
  con_font : font_ok (font s);
  con_width : 10 < width (framebuffer (display s));
  con_edge : width (framebuffer (display s)) mod 8 <> 3 /\ width (framebuffer (display s)) mod 8 <> 4;
  con_height : char_size (font s) + 5 < height (framebuffer (display s))
}.

Lemma cell_visible s : console s -> cursor_ok s ->
  0 <= ch_X s /\ ch_X s + 8 <= width (framebuffer (display s)) /\ ch_X s + 8 <= columns s /\
  0 <= ch_Y s /\ ch_Y s + char_size (font s) <= rows s.
Proof.
  intros [[Hw Hh Hp Hb _] [Hcs _] Hw' [He1 He2] Hch] ((k & Hk & HX) & HX' & HY & HY').
  assert (ch_X s + 8 <= width (framebuffer (display s))) by divlia.
  unfold columns, rows. split_and!; divlia.
Qed.

(** The bytes drawing may change: the rows of the back buffer, the one behind
    them included, and the framebuffer. *)
Definition drawing_area (s : Screen) (a : Z) : Prop :=
  back_buffer (display s) <= a < back_buffer (display s) + rows s * pitch (framebuffer (display s)) \/
  address (framebuffer (display s)) <= a < address (framebuffer (display s)) + framebuffer_size (display s).

(** [s'] comes from [s] by drawing: only the picture, the cursor and the colour
    of the text have changed. *)
Record drawn (s s' : Screen) : Prop := {
  drawn_setup : display s' = display s /\ font s' = font s /\ bg_colour s' = bg_colour s;
  drawn_kernel : exists f, kernel s' = set_mem f (kernel s);
  drawn_memory a : ~ drawing_area s a -> memory_of s' a = memory_of s a
}.

Lemma drawn_trans s1 s2 s3 : drawn s1 s2 -> drawn s2 s3 -> drawn s1 s3.
Proof.
  intros [(D1 & F1 & B1) [f K1] M1] [(D2 & F2 & B2) [g K2] M2]. split.
  - by rewrite D2, F2, B2.
  - exists (fun m => g (f m)). rewrite K2, K1. by destruct (kernel s1).
  - intros a Ha. rewrite M2, M1; [done|done|]. unfold drawing_area, rows in *. by rewrite D1.
Qed.

Lemma drawn_console s s' : drawn s s' -> console s -> console s'.
Proof.
  intros [(D & F & _) _ _] [Hg Hf Hw He Hh]. split; rewrite ?D, ?F; try done. by eapply same_geometry.
Qed.

Lemma pixel_in_area s x y a :
  geometry s -> on_buffer s x y -> pixel_at s x y <= a < pixel_at s x y + 4 -> drawing_area s a.
Proof.
  intros [Hw Hh Hp Hb _] [[Hx0 Hx] [Hy0 Hy]] Ha. left. unfold pixel_at, columns, rows in *.
  set (p := pitch (framebuffer (display s))) in *. assert (x * 4 + 4 <= p) by divlia. nia.
Qed.

Lemma painted_drawn f s s' : geometry s -> painted f s s' -> drawn s s'.
Proof.
  intros Hg [[g ->] _ Hf]. split; [done|by exists g|]. intros a Ha. apply Hf. intros x y Hon _ Hin.
  by apply Ha, (pixel_in_area s x y).
Qed.

Lemma set_cursor_drawn x y s : drawn s (set_cursor x y s).
Proof. split; [done| |done]. exists (fun m => m). by destruct s as [[]]. Qed.

Lemma set_fg_drawn c s : drawn s (set_fg c s).
Proof. split; [done| |done]. exists (fun m => m). by destruct s as [[]]. Qed.

Lemma drawn_refl s : drawn s s.
Proof. split; [done| |done]. exists (fun m => m). by destruct s as [[]]. Qed.

Lemma swap_framebuffers_run s :
  exists s', swap_framebuffers s = Ok (tt, s') /\ drawn s s' /\ ch_X s' = ch_X s /\ ch_Y s' = ch_Y s.
Proof.
  eexists. split; [reflexivity|]. split; [|done]. split; [done|by eexists|].
  intros a Ha. unfold memory_of. cbn [kernel set_kernel update_memory mem set_mem].
  unfold drawing_area in Ha. apply (memcpy_agree _ _ _ _ a 1); unfold disjoint; lia.
Qed.

Lemma scroll_line_run s :
  console s -> char_size (font s) + 1 <= ch_Y s < 2 ^ 64 ->
  exists s', scroll_line s = Ok (tt, s') /\ drawn s s' /\ ch_X s' = ch_X s /\
    ch_Y s' = ch_Y s - (char_size (font s) + 1).
Proof.
  intros [Hg [Hcs _] Hw He Hh] HY. unfold scroll_line. rewrite bind_get.
  destruct (scroll_pixel_run (char_size (font s) + 1) s Hg ltac:(lia)) as (s1 & E1 & H1).
  rewrite (bind_run _ _ _ _ _ E1), bind_modify. pose proof (painted_drawn _ _ _ Hg H1) as Hd.
  assert (ch_X s1 = ch_X s /\ ch_Y s1 = ch_Y s /\ font s1 = font s) as (EX & EY & EF) by (by destruct (paint_same _ _ _ H1) as [g ->]).
  match goal with |- context [swap_framebuffers ?t] => destruct (swap_framebuffers_run t) as (s2 & E2 & Hd2 & EX2 & EY2) end.
  exists s2. split; [done|]. split; [|rewrite EX2, EY2; cbn [ch_X ch_Y set_cursor]; rewrite EX, EY, EF, u64_small by lia; done].
  eapply drawn_trans; [exact Hd|]. eapply drawn_trans; [apply set_cursor_drawn|exact Hd2].
Qed.

Lemma new_line_run s :
  console s -> 5 <= ch_Y s -> ch_Y s + char_size (font s) < height (framebuffer (display s)) ->
  exists s', new_line s = Ok (tt, s') /\ drawn s s' /\ cursor_ok s' /\ ch_X s' = 5.
Proof.
  intros Hc HY0 HY. pose proof Hc as [Hg [Hcs _] Hw He Hh]. pose proof (height_u64 s Hg) as Hh64.
  unfold new_line. rewrite bind_modify, bind_get. cbn [ch_Y set_cursor display font].
  assert (ch_Y s + (char_size (font s) + 1) <= height (framebuffer (display s))) by lia.
  rewrite !u64_small by lia.
  set (s1 := set_cursor 5 _ s).
  assert (drawn s s1) as Hd1 by apply set_cursor_drawn.
  destruct (Z.leb_spec (height (framebuffer (display s)) - char_size (font s)) (ch_Y s + (char_size (font s) + 1))).
  - destruct (scroll_line_run s1) as (s2 & E2 & Hd2 & EX & EY);
      [by eapply drawn_console|cbn [s1 set_cursor font ch_Y]; lia|].
    exists s2. split; [done|]. split; [by eapply drawn_trans|].
    pose proof (drawn_setup _ _ Hd2) as (D & F & _). cbn [s1 set_cursor ch_X ch_Y font display] in *.
    split; [|done]. unfold cursor_ok. rewrite EX, EY, D, F. split_and!; [exists 0; lia|lia..].
  - exists s1. split; [done|]. split; [done|]. cbn [s1 set_cursor ch_X]. split; [|done].
    unfold cursor_ok. cbn [s1 set_cursor ch_X ch_Y font display]. split_and!; [exists 0; lia|lia..].
Qed.

Lemma write_char_run c s :
  console s -> cursor_ok s -> 0 <= c < 128 ->
  exists s', write_char c s = Ok (tt, s') /\ drawn s s' /\ cursor_ok s'.
Proof.
  intros Hc Hcur Hch. pose proof (cell_visible s Hc Hcur) as (HX0 & HX & HXc & HY0 & HY).
  pose proof Hc as [Hg Hf Hw He Hh]. pose proof (width_u64 s Hg).
  pose proof Hcur as ((k & Hk & EX) & HX' & HY5 & HYh). unfold write_char. case_if.
  - destruct (new_line_run s) as (s1 & E1 & Hd & Hcur1 & _); [done..|]. by exists s1.
  - rewrite bind_get. destruct (draw_char_run c (ch_X s) (ch_Y s) s) as (s1 & E1 & H1); [done..|].
    rewrite (bind_run _ _ _ _ _ E1), bind_modify, bind_get. pose proof (painted_drawn _ _ _ Hg H1) as Hd1.
    destruct (paint_same _ _ _ H1) as [g Es1]. assert (ch_X s1 = ch_X s /\ ch_Y s1 = ch_Y s) as [EX1 EY1] by (by rewrite Es1).
    pose proof (drawn_setup _ _ Hd1) as (D & F & _).
    set (s2 := set_cursor (u64 (ch_X s1 + 8)) (ch_Y s1) s1).
    assert (drawn s s2) as Hd2 by (eapply drawn_trans; [exact Hd1|apply set_cursor_drawn]).
    assert (ch_X s2 = ch_X s + 8) as EX2 by (cbn [s2 set_cursor ch_X]; rewrite EX1; apply u64_small; lia).
    assert (display s2 = display s /\ font s2 = font s /\ ch_Y s2 = ch_Y s) as (D2 & F2 & EY2) by done.
    rewrite D2, EX2, (u64_small (_ - 5)) by lia.
    destruct (Z.leb_spec (width (framebuffer (display s)) - 5) (ch_X s + 8)).
    + destruct (new_line_run s2) as (s3 & E3 & Hd3 & Hcur3 & _);
        [by eapply drawn_console|rewrite EY2; lia|rewrite EY2, F2, D2; lia|].
      exists s3. split; [done|]. split; [by eapply drawn_trans|done].
    + exists s2. split; [done|]. split; [done|]. unfold cursor_ok. rewrite EX2, EY2, D2, F2.
      split_and!; [exists (k + 1); lia|lia..].
Qed.

(** A text of characters of the font and complete colour escapes. *)
Inductive ansi_text : list Z -> Prop :=
  | text_end rest : ansi_text (0 :: rest)
  | text_char c str : 0 < c < 128 -> c <> 27 -> ansi_text str -> ansi_text (c :: str)
  | text_escape b1 b2 b3 b4 code b6 str :
      48 <= code < 56 -> ansi_text str -> ansi_text (27 :: b1 :: b2 :: b3 :: b4 :: code :: b6 :: str).

Lemma ansi_switch_colour_run code s :
  48 <= code < 56 -> exists c, ansi_switch_colour (u8 (code - 48)) s = Ok (tt, set_fg c s) /\ c ∈ ansi_colours.
Proof.
  intros H. rewrite u8_small by lia.
  assert (code - 48 < Zlen ansi_colours) as Hl by (unfold Zlen; simpl; lia).
  unfold ansi_switch_colour. rewrite (bind_lift _ _ _ _ (rd_nth ansi_colours (code - 48) ltac:(lia))).
  eexists. split; [reflexivity|]. apply list_elem_of_In, nth_In. unfold Zlen in Hl. lia.
Qed.

Lemma write_string_run str s fuel :
  console s -> cursor_ok s -> ansi_text str -> (length str < fuel)%nat ->
  exists s', write_string_loop fuel str s = Ok (tt, s') /\ drawn s s' /\ cursor_ok s'.
Proof.
  intros Hc Hcur Hstr. revert fuel s Hc Hcur.
  induction Hstr as [rest|c str Hc0 Hc27 _ IH|b1 b2 b3 b4 code b6 str Hcode _ IH]; intros [|fuel] s Hc Hcur Hf;
    cbn [length] in Hf; try lia; cbn [write_string_loop].
  - exists s. by split_and!; [|apply drawn_refl|].
  - rewrite (bind_lift _ c) by done. destruct (Z.eqb_spec c 0); [lia|]. destruct (Z.eqb_spec c 27); [lia|].
    destruct (write_char_run c s Hc Hcur ltac:(lia)) as (s1 & E1 & Hd & Hcur1). rewrite (bind_run _ _ _ _ _ E1).
    destruct (IH fuel s1) as (s2 & E2 & Hd2 & Hcur2); [by eapply drawn_console|done|lia|].
    exists s2. split; [done|]. split; [by eapply drawn_trans|done].
  - rewrite (bind_lift _ 27) by done. cbn [Z.eqb Pos.eqb]. rewrite (bind_lift _ code) by done.
    destruct (ansi_switch_colour_run code s Hcode) as (c & E1 & _). rewrite (bind_run _ _ _ _ _ E1).
    destruct (IH fuel (set_fg c s)) as (s2 & E2 & Hd2 & Hcur2); [eapply drawn_console; [apply set_fg_drawn|done]|done|lia|].
    exists s2. split; [done|]. split; [eapply drawn_trans; [apply set_fg_drawn|exact Hd2]|done].
Qed.

(** C34: The console keeps to the screen.  On a display without glyphs over the
    right edge, from any cursor inside the margins, [write_string] ends on every
    text whose colour escapes are complete, with the cursor inside the margins
    again; apart from the picture, the cursor and the colour of the text nothing
    changes, and in memory only the framebuffer and the rows of the back buffer
    and the one behind them. *)
Theorem write_string_stays_on_screen str s :
  console s -> cursor_ok s -> ansi_text str ->
  exists s', write_string str s = Ok (tt, s') /\ cursor_ok s' /\ drawn s s' /\ console s'.
Proof.
  intros Hc Hcur Hstr. destruct (write_string_run str s (S (length str)) Hc Hcur Hstr ltac:(lia)) as (s' & E & Hd & Hcur').
  exists s'. split_and!; [done..|by eapply drawn_console].
Qed.

Lemma demo_console : console demo_screen /\ cursor_ok demo_screen.
Proof.
  split.
  - split; [|vm_compute; split; [split; [discriminate|reflexivity]|discriminate]|by vm_compute..].
    split; vm_compute; done.
  - unfold cursor_ok. split_and!; [exists 0; by vm_compute|by vm_compute|by vm_compute|by vm_compute].
Qed.

Lemma write_string_stays_on_screen_witness :
  exists s', write_string [72; 10; 27; 91; 49; 59; 51; 50; 109; 105; 0] demo_screen = Ok (tt, s') /\
    cursor_ok s' /\ drawn demo_screen s' /\ console s'.
Proof.
  apply write_string_stays_on_screen; [apply demo_console|apply demo_console|].
  repeat constructor; lia.
Defined.

Lemma painted_cursor f x y s s' :
  painted f (set_cursor x y s) s' -> painted f s (set_cursor (ch_X s) (ch_Y s) s').
Proof.
  intros [[g ->] H2 H3]. split; [|exact H2|exact H3]. exists g. by destruct s.
Qed.

Lemma line_same s s' text X Y x y :
  font s' = font s -> fg_colour s' = fg_colour s -> bg_colour s' = bg_colour s ->
  line s' text X Y x y = line s text X Y x y.
Proof.
  intros EF Ef Eb. revert X. induction text as [|c text IH]; intros X; [done|]. cbn [line]. unfold over. rewrite IH.
  unfold glyph. by rewrite EF, Ef, Eb.
Qed.

Lemma line_run text s fuel rest :
  console s -> cursor_ok s -> Forall (fun c => 32 <= c < 128) text ->
  ch_X s + 8 * Zlen text + 5 < width (framebuffer (display s)) -> (length text < fuel)%nat ->
  exists s', write_string_loop fuel (text ++ 0 :: rest) s = Ok (tt, set_cursor (ch_X s + 8 * Zlen text) (ch_Y s) s') /\
    painted (line s text (ch_X s) (ch_Y s)) s s'.
Proof.
  intros Hc Hcur Htext. revert fuel s Hc Hcur. induction Htext as [|c text Hch _ IH]; intros [|fuel] s Hc Hcur Hfit Hf;
    cbn [length] in Hf; try lia; cbn [write_string_loop app].
  - exists s. split; [|apply painted_refl]. replace (ch_X s + 8 * Zlen []) with (ch_X s) by (unfold Zlen; cbn [length]; lia). by destruct s.
  - rewrite Zlen_cons in *. pose proof (Zlen_nonneg text). rewrite (bind_lift _ c) by done.
    destruct (Z.eqb_spec c 0); [lia|]. destruct (Z.eqb_spec c 27); [lia|].
    unfold write_char. destruct (Z.eqb_spec c 10); [lia|]. rewrite bind_assoc, bind_get.
    pose proof (cell_visible s Hc Hcur) as (HX0 & HX & HXc & HY0 & HY). pose proof Hc as [Hg Hfont Hw He Hh].
    pose proof (width_u64 s Hg). pose proof Hcur as ((k & Hk & EX) & HX' & HY5 & HYh).
    destruct (draw_char_run c (ch_X s) (ch_Y s) s) as (s1 & E1 & H1); [done|done|lia|done..|].
    rewrite bind_assoc, (bind_run _ _ _ _ _ E1), bind_assoc, bind_modify, bind_assoc, bind_get.
    destruct (paint_same _ _ _ H1) as [g Es1].
    assert (ch_X s1 = ch_X s /\ ch_Y s1 = ch_Y s /\ display s1 = display s) as (EX1 & EY1 & D1) by (by rewrite Es1).
    cbn [ch_X set_cursor display]. rewrite EX1, EY1, D1, (u64_small (ch_X s + 8)), u64_small by lia.
    destruct (Z.leb_spec (width (framebuffer (display s)) - 5) (ch_X s + 8)); [lia|]. rewrite bind_ret.
    set (s2 := set_cursor (ch_X s + 8) (ch_Y s) s1).
    assert (drawn s s2) as Hd2 by (eapply drawn_trans; [by eapply painted_drawn|apply set_cursor_drawn]).
    pose proof (drawn_setup _ _ Hd2) as (D2 & F2 & B2).
    assert (fg_colour s2 = fg_colour s) as G2 by (by unfold s2; rewrite Es1).
    destruct (IH fuel s2) as (s3 & E3 & H3).
    + by eapply drawn_console.
    + unfold cursor_ok. rewrite D2, F2. cbn [s2 ch_X ch_Y set_cursor]. split_and!; [exists (k + 1); lia|lia..].
    + rewrite D2. cbn [s2 ch_X set_cursor]. lia.
    + lia.
    + change (drop 1 (c :: text ++ 0 :: rest)) with (text ++ 0 :: rest). rewrite E3. eexists. split; [|eapply painted_ext; [|eapply painted_trans; [exact H1|eapply painted_cursor; exact H3]]].
      * cbn [s2 ch_X ch_Y set_cursor]. unfold set_cursor. cbn. do 3 f_equal. lia.
      * intros x y _. cbn [line]. unfold over. by rewrite (line_same s s2) by done.
Qed.

(** C33: The console renders text.  A line of printable characters that fits
    between the cursor and the right margin is drawn glyph by glyph: the pixel
    in column [dx] and row [dy] of the cell of a character has the colour of
    the text or of the background as the bit of the font says; all other pixels
    and all memory outside the back buffer are unchanged, and the cursor stands
    behind the text. *)
Theorem write_string_renders text rest s :
  console s -> cursor_ok s -> Forall (fun c => 32 <= c < 128) text ->
  ch_X s + 8 * Zlen text + 5 < width (framebuffer (display s)) ->
  exists s', write_string (text ++ 0 :: rest) s = Ok (tt, s') /\
    (ch_X s', ch_Y s') = (ch_X s + 8 * Zlen text, ch_Y s) /\
    (forall i ch dx dy, text !! i = Some ch -> 0 <= dx < 8 -> 0 <= dy < char_size (font s) ->
      pixel s' (ch_X s + 8 * Z.of_nat i + dx) (ch_Y s + dy) =
        if Z.testbit (nth (Z.to_nat (ch * char_size (font s) + dy)) (font_data (font s)) 0) (7 - dx)
        then u32 (fg_colour s) else u32 (bg_colour s)) /\
    (forall x y, on_buffer s x y ->
      ~ (ch_X s <= x < ch_X s + 8 * Zlen text /\ ch_Y s <= y < ch_Y s + char_size (font s)) ->
      pixel s' x y = pixel s x y) /\
    (forall a, (forall x y, on_buffer s x y -> ~ (pixel_at s x y <= a < pixel_at s x y + 4)) ->
      memory_of s' a = memory_of s a).
Proof.
  intros Hc Hcur Htext Hfit. unfold write_string. rewrite length_app. cbn [length].
  destruct (line_run text s (S (length text + S (length rest))) rest Hc Hcur Htext Hfit ltac:(lia)) as (s' & E & H).
  eexists. split; [exact E|]. split_and!; [done| | |].
  - intros i ch dx dy Hi Hdx Hdy. transitivity (pixel s' (ch_X s + 8 * Z.of_nat i + dx) (ch_Y s + dy)); [done|].
    rewrite (paint_pixel _ _ _ H); [by erewrite line_inside|].
    apply lookup_lt_Some in Hi. pose proof Hc as [Hg _ _ _ _]. pose proof Hcur as ((k & Hk & EX) & _ & HY5 & HYh).
    apply visible_on_buffer; [done|unfold Zlen in Hfit; lia|lia].
  - intros x y Hon Hout. transitivity (pixel s' x y); [done|]. rewrite (paint_pixel _ _ _ H) by done. by rewrite line_outside.
  - intros a Ha. transitivity (memory_of s' a); [done|]. apply (paint_frame _ _ _ H). auto.
Qed.

Lemma write_string_renders_witness :
  exists s', write_string ([65] ++ 0 :: []) demo_screen = Ok (tt, s') /\ pixel s' 5 5 = 0xFFFFFF /\ pixel s' 6 5 = 0x112233.
Proof.
  destruct demo_console as [Hc Hcur].
  destruct (write_string_renders [65] [] demo_screen Hc Hcur) as (s' & E & _ & Hpix & _);
    [repeat constructor; lia|by vm_compute|].
  exists s'. split_and!; [done| |].
  - exact (Hpix O 65 0 0 eq_refl ltac:(lia) ltac:(by vm_compute)).
  - exact (Hpix O 65 1 0 eq_refl ltac:(lia) ltac:(by vm_compute)).
Defined.

(** Scrolling.  [scroll_pixel] moves the picture up by [pixels] rows and
    fills the rows below with the background; it also fills row [height], which
    is behind the last row of the buffer.  No other byte changes. *)
Theorem scroll_pixel_shifts pixels s :
  geometry s -> 0 <= pixels <= height (framebuffer (display s)) ->
  exists s', scroll_pixel pixels s = Ok (tt, s') /\ same_but_memory s s' /\
    (forall x y, 0 <= x < width (framebuffer (display s)) -> 0 <= y < height (framebuffer (display s)) ->
      pixel s' x y = if y + pixels <? height (framebuffer (display s)) then pixel s x (y + pixels)
                     else u32 (bg_colour s)) /\
    (forall x, 0 <= x < width (framebuffer (display s)) ->
      pixel s' x (height (framebuffer (display s))) = u32 (bg_colour s)) /\
    (forall a, (forall x y, 0 <= x < width (framebuffer (display s)) -> 0 <= y <= height (framebuffer (display s)) ->
        ~ (pixel_at s x y <= a < pixel_at s x y + 4)) -> memory_of s' a = memory_of s a).
Proof.
  intros Hg Hp. destruct (scroll_pixel_run pixels s Hg Hp) as (s' & E & [H1 H2 H3]). exists s'.
  split_and!; [done|done| | |].
  - intros x y Hx Hy. rewrite H2 by (apply visible_on_buffer; [done|lia..]). unfold scrolled, rectangle, in_range. case_bool.
  - intros x Hx. rewrite H2 by (apply visible_on_buffer; [done|lia..]). unfold scrolled, rectangle, in_range. case_bool.
  - intros a Ha. apply H3. intros x y Hon Hs. apply Ha; unfold scrolled, rectangle, in_range in Hs;
      destruct Hs as [c Hs]; revert Hs; case_bool.
Qed.

Lemma scroll_pixel_shifts_witness :
  exists s', scroll_pixel 3 demo_screen = Ok (tt, s') /\ pixel s' 7 12 = 0x112233.
Proof.
  destruct demo_console as [[Hg _ _ _ _] _].
  destruct (scroll_pixel_shifts 3 demo_screen Hg) as (s' & E & _ & _ & Hrow & _); [by vm_compute|].
  assert (0 <= 7 < width (framebuffer (display demo_screen))) as H7 by (cbn [width framebuffer display demo_screen]; lia).
  exists s'. split; [exact E|exact (Hrow 7 H7)].
Defined.

(** ** What the display shows *)

(** The pixel the display shows, and that the framebuffers are as large as the
    rows and apart. *)
Definition shown (s : Screen) (x y : Z) : Z :=
  load 4 (memory_of s) (address (framebuffer (display s)) + y * pitch (framebuffer (display s)) + x * 4).
Record buffers (s : Screen) : Prop := {
  buf_size : framebuffer_size (display s) = pitch (framebuffer (display s)) * height (framebuffer (display s));
  buf_apart : disjoint (address (framebuffer (display s))) (framebuffer_size (display s))
    (back_buffer (display s)) (framebuffer_size (display s))
}.

Lemma load_same_bytes n m m' a b :
  (forall i, 0 <= i < Z.of_nat n -> load8 m (a + i) = load8 m' (b + i)) -> load n m a = load n m' b.
Proof.
  revert a b. induction n as [|n IH]; intros a b H; [done|]. cbn [load].
  rewrite <- (Z.add_0_r a), <- (Z.add_0_r b) at 1. rewrite H by lia. do 2 f_equal. apply IH.
  intros i Hi. rewrite <- !Z.add_assoc. apply H. lia.
Qed.

(** [swap_framebuffers] shows the back buffer. *)
Lemma swap_shows s s' x y :
  geometry s -> buffers s -> swap_framebuffers s = Ok (tt, s') ->
  0 <= x < width (framebuffer (display s)) -> 0 <= y < height (framebuffer (display s)) ->
  shown s' x y = pixel s x y.
Proof.
  intros Hg [Hsize Hd] [= <-] Hx Hy. unfold shown, pixel, pixel_at.
  cbn [display set_kernel update_memory memory_of kernel mem set_mem]. apply load_same_bytes.
  destruct Hg as [_ _ Hp _ _]. set (p := pitch (framebuffer (display s))) in *.
  intros i Hi. rewrite <- !Z.add_assoc.
  assert (0 <= y * p + (x * 4 + i) < framebuffer_size (display s)) as Hin by (rewrite Hsize; nia).
  apply memcpy_load8; [unfold disjoint in *; lia|lia].
Qed.

(** [clear_screen] clears the display.  The cursor goes to the top left
    corner and every pixel the display shows, and every pixel of the back
    buffer, has the background colour; memory outside the buffers is
    unchanged.  [fill_screen] does the same for its colour and leaves the
    cursor. *)
Theorem clear_screen_shows colour s :
  geometry s -> buffers s ->
  (exists s', clear_screen s = Ok (tt, s') /\ (ch_X s', ch_Y s') = (5, 5) /\ drawn s s' /\
    forall x y, 0 <= x < width (framebuffer (display s)) -> 0 <= y < height (framebuffer (display s)) ->
      shown s' x y = u32 (bg_colour s)) /\
  (exists s', fill_screen colour s = Ok (tt, s') /\ (ch_X s', ch_Y s') = (ch_X s, ch_Y s) /\ drawn s s' /\
    forall x y, 0 <= x < width (framebuffer (display s)) -> 0 <= y < height (framebuffer (display s)) ->
      shown s' x y = u32 colour).
Proof.
  intros Hg Hb.
  assert (forall c s1 s2 s3, painted (whole s c) s s1 -> drawn s1 s2 -> kernel s2 = kernel s1 ->
    swap_framebuffers s2 = Ok (tt, s3) -> forall x y, 0 <= x < width (framebuffer (display s)) ->
    0 <= y < height (framebuffer (display s)) -> shown s3 x y = u32 c) as Hshow.
  { intros c s1 s2 s3 H1 Hd Hk E x y Hx Hy. pose proof (same_display _ _ (paint_same _ _ _ H1)) as D1.
    pose proof (drawn_setup _ _ Hd) as (D2 & _). rewrite D1 in D2.
    rewrite (swap_shows s2 s3 x y); rewrite ?D2; try done.
    - transitivity (pixel s1 x y).
      { unfold pixel, memory_of. rewrite Hk. by rewrite <- (same_pixel_at s1 s2) by congruence. }
      rewrite (paint_pixel _ _ _ H1) by (apply visible_on_buffer; [done|lia..]).
      unfold whole, rectangle. by rewrite !(proj2 (in_range_spec _ _ _)) by lia.
    - by eapply same_geometry.
    - destruct Hb as [Hs Ha]. split; rewrite D2; done. }
  split.
  - destruct (clear_screen_run s Hg) as (s1 & H1 & E). destruct (swap_framebuffers_run (set_cursor 5 5 s1)) as (s2 & E2 & Hd2 & EX & EY).
    exists s2. split; [by rewrite E|]. split; [by rewrite EX, EY|]. split.
    + eapply drawn_trans; [eapply painted_drawn; [done|exact H1]|]. eapply drawn_trans; [apply (set_cursor_drawn 5 5)|done].
    + apply (Hshow _ s1 (set_cursor 5 5 s1)); [done|apply set_cursor_drawn|done|done].
  - destruct (fill_screen_run colour s Hg) as (s1 & H1 & E). destruct (swap_framebuffers_run s1) as (s2 & E2 & Hd2 & EX & EY).
    exists s2. split; [by rewrite E|]. split; [rewrite EX, EY; by destruct (paint_same _ _ _ H1) as [g ->]|]. split.
    + eapply drawn_trans; [eapply painted_drawn; [done|exact H1]|done].
    + apply (Hshow _ s1 s1); [done|apply drawn_refl|done|done].
Qed.

Lemma clear_screen_shows_witness :
  exists s', clear_screen demo_screen = Ok (tt, s') /\ shown s' 3 4 = 0x112233.
Proof.
  destruct demo_console as [[Hg _ _ _ _] _].
  assert (buffers demo_screen) as Hb by (split; [reflexivity|right; vm_compute; discriminate]).
  destruct (clear_screen_shows 0 demo_screen Hg Hb) as [(s' & E & _ & _ & H) _].
  exists s'. split; [exact E|]. apply (H 3 4); cbn [width height framebuffer display demo_screen]; lia.
Defined.
