(* ===== verification/Printf.v ===== *)
(** * utils/printf.c and drivers/serial.c: formatted output

    Text goes to the serial port and, once a font is loaded, to the console of
    Screen.v.  The transmitter of the port is a device: [line_status] is what its
    line status register reads, poll by poll. *)
From stdpp Require Import strings.
From S2P Require Import Prelude Memory Strings Screen.

(** The characters of a string literal, without the terminator. *)
Definition c_text (s : string) : list Z := map (fun a => Z.of_nat (Ascii.nat_of_ascii a)) (String.list_ascii_of_string s).
Arguments c_text s%_string_scope.

(** A text with its terminator. *)
Definition cstr (s : list Z) : list Z := s ++ [0].

Record Console := MkConsole {
  screen : Screen; font_avaliable : bool; serial : list Z; polls : nat; serial_lock : bool
}.
Definition set_screen (s : Screen) (c : Console) : Console :=
  MkConsole s (font_avaliable c) (serial c) (polls c) (serial_lock c).
Definition set_polls (n : nat) (c : Console) : Console :=
  MkConsole (screen c) (font_avaliable c) (serial c) n (serial_lock c).
Definition set_serial_lock (b : bool) (c : Console) : Console :=
  MkConsole (screen c) (font_avaliable c) (serial c) (polls c) b.
Definition send (byte : Z) (c : Console) : Console :=
  MkConsole (screen c) (font_avaliable c) (serial c ++ [byte]) (polls c) (serial_lock c).

Definition on_screen {A} (m : M Screen A) : M Console A :=
  fun c => let+ (a, s) := m (screen c) in Ok (a, set_screen s c).

(** The variable arguments: numbers and strings. *)
Inductive Arg := Num (n : Z) | Str (s : list Z).

Section Code.
Context (line_status : nat -> Z) (patience : nat).

(** ** serial.c *)

Definition is_transmit_empty : M Console Z :=
  let* c := get in
  modify (set_polls (S (polls c))) ;;;
  ret (Z.land (line_status (polls c)) 0x20).

(** [while (is_transmit_empty() == 0);], at most [fuel] polls. *)
Fixpoint wait_transmit (fuel : nat) : M Console unit :=
  match fuel with
  | O => fun _ => Spin
  | S fuel' => let* e := is_transmit_empty in if e =? 0 then wait_transmit fuel' else ret tt
  end.
Definition write_serial_char (a : Z) : M Console unit := wait_transmit patience ;;; modify (send a).

(** [for (int i = 0; i < len; i++)], [n] iterations from [i] on. *)
Fixpoint write_serial_loop (n : nat) (str : list Z) (i : Z) : M Console unit :=
  match n with
  | O => ret tt
  | S n' =>
      let* a := lift (rd str i) in
      write_serial_char a ;;;
      write_serial_loop n' str (i + 1)
  end.
Definition write_serial (str : list Z) : M Console unit :=
  let* len := lift (ku_strlen str) in
  write_serial_loop (Z.to_nat (s32 len)) str 0.

(** ** printf.c *)

Definition write_text (text : list Z) : M Console unit :=
  write_serial text ;;;
  let* c := get in
  if font_avaliable c then on_screen (write_string text) else ret tt.

Definition write_character (ch : Z) : M Console unit :=
  write_serial_char ch ;;;
  let* c := get in
  if font_avaliable c then on_screen (write_char ch) else ret tt.

Definition aquire_serial_lock : M Console unit :=
  fun c => if serial_lock c then Spin else Ok (tt, set_serial_lock true c).
Definition release_serial_lock : M Console unit := modify (set_serial_lock false).

(** [va_arg] behind the last argument, or of another type, is undefined. *)
Definition va_num (args : list Arg) : outcome (Z * list Arg) :=
  match args with Num n :: args' => Ok (n, args') | _ => Fault end.
Definition va_str (args : list Arg) : outcome (list Z * list Arg) :=
  match args with Str s :: args' => Ok (s, args') | _ => Fault end.

(** The local buffers start with what is on the stack, [junk]. *)
Context (junk : nat -> list Z).

(** The body of the loop behind a [%]: the conversion [c]. *)
Definition convert (c : Z) (args : list Arg) : M Console (list Arg) :=
  if (c =? 100) || (c =? 105) then
    let* (n, args) := lift (va_num args) in
    let* buffer := lift (ku_uint64_to_string n (junk 10)) in
    let* buffer := lift (wr buffer 9 0) in
    write_text buffer ;;; ret args
  else if c =? 99 then
    let* (n, args) := lift (va_num args) in
    write_character (u8 n) ;;; ret args
  else if c =? 120 then
    let* (n, args) := lift (va_num args) in
    let* bufferx := lift (ku_uint64_to_hex_string n (junk 20)) in
    let* bufferx := lift (wr bufferx 19 0) in
    write_text bufferx ;;; ret args
  else if c =? 98 then
    let* (n, args) := lift (va_num args) in
    let* bufferb := lift (ku_uint64_to_binary_string n (junk 65)) in
    let* bufferb := lift (wr bufferb 64 0) in
    write_text bufferb ;;; ret args
  else if c =? 115 then
    let* (s, args) := lift (va_str args) in
    write_text s ;;; ret args
  else ret args.

Fixpoint printf_loop (fuel : nat) (format : list Z) (i len : Z) (args : list Arg) : M Console unit :=
  if i <? len then
    match fuel with
    | O => fun _ => Spin
    | S fuel' =>
        let* c := lift (rd format i) in
        if c =? 37 then
          let* c := lift (rd format (i + 1)) in
          let* args := convert c args in
          printf_loop fuel' format (i + 2) len args
        else
          write_character c ;;;
          printf_loop fuel' format (i + 1) len args
    end
  else ret tt.

Definition printf_template (format : list Z) (args : list Arg) : M Console unit :=
  let* len := lift (ku_strlen format) in
  printf_loop (length format) format 0 len args ;;;
  let* c := get in
  (if font_avaliable c then on_screen swap_framebuffers else ret tt) ;;;
  release_serial_lock.

Definition printf (format : list Z) (args : list Arg) : M Console unit :=
  aquire_serial_lock ;;;
  printf_template format args.

Definition kstatusf_helper (format : list Z) (args : list Arg) : M Console unit := printf_template format args.

(** The macros kstatusf, kdebugf, kfailf and ktestf: [prefix] is their tag and
    the name of the file. *)
Definition klogf (prefix format : list Z) (args : list Arg) : M Console unit :=
  aquire_serial_lock ;;;
  write_text prefix ;;;
  kstatusf_helper format args.

(** The tag of a logging macro: its colour and name, and the [__FILE__] of the
    call. *)
Definition tag (colour : Z) (name file : list Z) : list Z :=
  [27; 91; 49; 59; 51; colour; 109] ++ name ++ [32; 27; 91; 48; 59; 51; 48; 109] ++ file ++ c_text ": " ++
  [27; 91; 48; 59; 51; 55; 109].
(** The macros, in the file [file]. *)
Section Macros.
Context (file : list Z).
Definition kdebugf (format : list Z) : list Arg -> M Console unit :=
  klogf (cstr (tag 53 (c_text "[KDEBUG]") file)) (cstr format).
Definition kstatusf (format : list Z) : list Arg -> M Console unit :=
  klogf (cstr (tag 51 (c_text "[STATUS]") file)) (cstr format).
Definition kfailf (format : list Z) : list Arg -> M Console unit :=
  klogf (cstr (tag 49 (c_text "[ FAIL ]") file)) (cstr format).
End Macros.

(** " Ok!" in bright green, and back to white. *)
Definition ok_text : list Z :=
  [27; 91; 49; 59; 51; 50; 109; 32; 79; 107; 33; 10; 27; 91; 48; 59; 51; 55; 109; 0].
Definition k_ok : M Console unit :=
  aquire_serial_lock ;;;
  write_text ok_text ;;;
  release_serial_lock ;;;
  let* c := get in
  if font_avaliable c then on_screen swap_framebuffers else ret tt.
End Code.

Definition demo_console_of (s : Screen) (font : bool) : Console := MkConsole s font [] 0 false.

(** "n=%i %s%c" *)
Example printf_demo :
  match printf (fun n => if Nat.even n then 0 else 0x20) 3 (fun n => replicate n 7)
          [110; 61; 37; 105; 32; 37; 115; 37; 99; 0] [Num 2024; Str [104; 105; 0]; Num 33]
          (demo_console_of demo_screen false) with
  | Ok (_, c) => serial c = [110; 61; 50; 48; 50; 52; 32; 104; 105; 33] /\ serial_lock c = false
  | _ => False
  end.
Proof. vm_compute. done. Qed.

(** ** What is printed *)

(** The console can draw, when there is a font. *)
Definition works (c : Console) : Prop := font_avaliable c = true -> console (screen c) /\ cursor_ok (screen c).

(** [out] has been printed between [c] and [c']. *)
Record printed (out : list Z) (c c' : Console) : Prop := {
  print_serial : serial c' = serial c ++ out;
  print_lock : serial_lock c' = serial_lock c;
  print_font : font_avaliable c' = font_avaliable c;
  print_drawn : drawn (screen c) (screen c');
  print_works : works c -> works c';
  print_screen : font_avaliable c = false -> screen c' = screen c
}.

Lemma printed_refl c : printed [] c c.
Proof. split; try done; [by rewrite app_nil_r|apply drawn_refl]. Qed.

Lemma printed_trans o1 o2 c1 c2 c3 : printed o1 c1 c2 -> printed o2 c2 c3 -> printed (o1 ++ o2) c1 c3.
Proof.
  intros [A1 A2 A3 A4 A5 A6] [B1 B2 B3 B4 B5 B6]. split.
  - by rewrite B1, A1, app_assoc.
  - congruence.
  - congruence.
  - by eapply drawn_trans.
  - auto.
  - intros Hf. rewrite B6, A6; congruence.
Qed.

(** Text without escapes. *)
Definition plain (s : list Z) : Prop := Forall (fun c => 0 < c < 128 /\ c <> 27) s.

Lemma plain_ansi s rest : plain s -> ansi_text (s ++ 0 :: rest).
Proof. induction 1 as [|c s [Hc H27] _ IH]; [constructor|]. by constructor. Qed.

(** What the arguments ask of the console: characters of the font, complete
    escapes. *)
Inductive formats (font : bool) : list Z -> list Arg -> list Z -> Prop :=
  | fmt_end args : formats font [] args []
  | fmt_char c f args out : c <> 37 -> (font = true -> 0 <= c < 128) -> formats font f args out ->
      formats font (c :: f) args (c :: out)
  | fmt_percent args : formats font [37] args []
  | fmt_decimal c n f args out : c = 100 \/ c = 105 -> 0 <= n < 10 ^ 9 -> formats font f args out ->
      formats font (37 :: c :: f) (Num n :: args) (decimal n ++ out)
  | fmt_character n f args out : (font = true -> u8 n < 128) -> formats font f args out ->
      formats font (37 :: 99 :: f) (Num n :: args) (u8 n :: out)
  | fmt_hex n f args out : is_u64 n -> formats font f args out ->
      formats font (37 :: 120 :: f) (Num n :: args) (hex16 n ++ out)
  | fmt_binary n f args out : is_u64 n -> formats font f args out ->
      formats font (37 :: 98 :: f) (Num n :: args) (numeral 2 dec_char n ++ out)
  | fmt_string s a f args out : c_string s a -> Zlen s < 2 ^ 31 -> (font = true -> ansi_text a) -> formats font f args out ->
      formats font (37 :: 115 :: f) (Str a :: args) (s ++ out)
  | fmt_unknown c f args out : c ∉ [98; 99; 100; 105; 115; 120] -> formats font f args out ->
      formats font (37 :: c :: f) args out.

(** The numerals of [printf] in their buffers. *)
Lemma wr_terminator s r i :
  Zlen s <= i -> i <= Zlen s + Zlen r -> exists r', wr (s ++ 0 :: r) i 0 = Ok (s ++ 0 :: r').
Proof.
  intros H1 H2. pose proof (Zlen_nonneg s). unfold wr. fold (Zlen (s ++ 0 :: r)).
  destruct (_ || _) eqn:E; [zlen|]. rewrite insert_app_r_alt by (unfold Zlen in *; lia).
  destruct (Z.to_nat i - length s)%nat as [|m]; [by exists r|by exists (<[m := 0]> r)].
Qed.

Lemma numeral_plain b ch n :
  2 <= b -> is_u64 n -> (forall d, 0 <= d < b -> 27 < ch d < 128) -> plain (numeral b ch n).
Proof.
  intros Hb Hn Hch. eapply Forall_impl; [by apply digits_char|]. cbn. intros x (d & Hd & ->). specialize (Hch d Hd). lia.
Qed.

Lemma numeral_length b ch n : 2 <= b -> is_u64 n -> Zlen (numeral b ch n) <= 64.
Proof.
  intros Hb Hn. unfold numeral. rewrite Zlen_map, Zlen_rev. apply (digits_length b Hb 65 64); [|lia].
  split; [apply Hn|]. apply Z.lt_le_trans with (2 ^ 64); [apply Hn|]. change (Z.of_nat 64) with 64. apply Z.pow_le_mono_l. lia.
Qed.

Lemma hex16_length n : is_u64 n -> Zlen (hex16 n) = 16.
Proof.
  intros Hn. unfold hex16, numeral. rewrite Zlen_app, Zlen_replicate, Zlen_map, Zlen_rev.
  assert (Zlen (digits 65 16 n) <= 16) by (apply (digits_length 16 ltac:(lia) 65 16); [apply Hn|lia]). unfold Zlen in *. lia.
Qed.

Lemma hex16_plain n : is_u64 n -> plain (hex16 n).
Proof.
  intros Hn. apply Forall_app. split; [apply Forall_replicate; done|].
  apply numeral_plain; [lia|done|]. intros d Hd. unfold hex_char, chr_0, chr_A. case_bool.
Qed.

Lemma decimal_plain n : is_u64 n -> plain (decimal n).
Proof. intros Hn. apply numeral_plain; [lia|done|]. intros d Hd. unfold dec_char, chr_0. lia. Qed.

Lemma decimal_length n : is_u64 n -> Zlen (decimal n) <= 9 <-> n < 10 ^ 9.
Proof.
  intros Hn. unfold decimal, numeral. rewrite Zlen_map, Zlen_rev. exact (digits_length_iff 10 n 9 ltac:(lia) Hn ltac:(lia)).
Qed.

Section Theory.
Context (line_status : nat -> Z) (patience : nat) (junk : nat -> list Z).
(** The transmitter becomes empty within [patience] polls. *)
Context (ready : forall n, exists k, (k < patience)%nat /\ Z.land (line_status (n + k)%nat) 0x20 <> 0).
Context (junk_length : forall n, length (junk n) = n).

Lemma wait_transmit_run fuel c k :
  (k < fuel)%nat -> Z.land (line_status (polls c + k)%nat) 0x20 <> 0 ->
  exists n, wait_transmit line_status fuel c = Ok (tt, set_polls n c).
Proof using.
  revert c k. induction fuel as [|fuel IH]; intros c k Hk Hready; [lia|]. cbn [wait_transmit].
  unfold is_transmit_empty. rewrite bind_assoc, bind_get, bind_assoc, bind_modify, bind_ret.
  destruct (Z.eqb_spec (Z.land (line_status (polls c)) 0x20) 0) as [E|E]; [|by eexists].
  destruct k as [|k]; [by rewrite Nat.add_0_r in Hready|].
  destruct (IH (set_polls (S (polls c)) c) k) as [n ->]; [lia| |by exists n].
  cbn [polls set_polls]. by replace (S (polls c) + k)%nat with (polls c + S k)%nat by lia.
Qed.

Lemma write_serial_char_run a c :
  exists n, write_serial_char line_status patience a c = Ok (tt, send a (set_polls n c)).
Proof using ready.
  destruct (ready (polls c)) as (k & Hk & Hr). destruct (wait_transmit_run patience c k Hk Hr) as [n E].
  exists n. unfold write_serial_char. by rewrite (bind_run _ _ _ _ _ E), <- bind_ret.
Qed.

(** Serial output alone. *)
Definition sent (out : list Z) (c : Console) (n : nat) : Console :=
  MkConsole (screen c) (font_avaliable c) (serial c ++ out) n (serial_lock c).

Lemma write_serial_loop_run s : forall pre rest c,
  exists n, write_serial_loop line_status patience (length s) (pre ++ s ++ rest) (Zlen pre) c = Ok (tt, sent s c n).
Proof using ready.
  induction s as [|a s IH]; intros pre rest c; cbn [write_serial_loop length].
  - exists (polls c). unfold sent. rewrite app_nil_r. by destruct c.
  - cbn [app]. rewrite (bind_lift _ a) by (by apply rd_mid).
    destruct (write_serial_char_run a c) as [n E]. rewrite (bind_run _ _ _ _ _ E).
    replace (Zlen pre + 1) with (Zlen (pre ++ [a])) by zlen.
    destruct (IH (pre ++ [a]) rest (send a (set_polls n c))) as [n' E']. rewrite <- app_assoc in E'.
    exists n'. cbn [app] in E'. rewrite E'. unfold sent. cbn [screen font_avaliable serial serial_lock send set_polls].
    by rewrite <- app_assoc.
Qed.

Lemma sent_printed s c n : printed s c (sent s c n).
Proof using. split; try done. apply drawn_refl. Qed.

(** The step that also draws. *)
Lemma with_screen out c n (m : M Screen unit) :
  works c ->
  (font_avaliable c = true -> forall s, console s -> cursor_ok s ->
    exists s', m s = Ok (tt, s') /\ drawn s s' /\ cursor_ok s') ->
  exists c', (let* k := get in if font_avaliable k then on_screen m else ret tt) (sent out c n) = Ok (tt, c') /\ printed out c c'.
Proof using.
  intros Hw Hm. rewrite bind_get. change (font_avaliable (sent out c n)) with (font_avaliable c).
  destruct (font_avaliable c) eqn:Hf.
  - destruct (Hw Hf) as [Hc Hcur]. destruct (Hm eq_refl (screen c) Hc Hcur) as (s' & E & Hd & Hcur').
    exists (set_screen s' (sent out c n)). split.
    + unfold on_screen. change (screen (sent out c n)) with (screen c). by rewrite E.
    + split; try done; [|congruence]. intros _ _. split; [by eapply drawn_console|done].
  - exists (sent out c n). split; [done|apply sent_printed].
Qed.

Lemma write_text_run s a c :
  c_string s a -> Zlen s < 2 ^ 31 -> works c -> (font_avaliable c = true -> ansi_text a) ->
  exists c', write_text line_status patience a c = Ok (tt, c') /\ printed s c c'.
Proof using ready.
  intros Hs Hlen Hw Ha. unfold write_text, write_serial. pose proof (Zlen_nonneg s).
  rewrite bind_assoc, (bind_lift _ _ _ _ (c_string_strlen s a Hs)), s32_small, Zlen_to_nat by lia.
  destruct Hs as [_ [rest Hrest]]. destruct (write_serial_loop_run s [] (0 :: rest) c) as [n E].
  cbn [app] in E. rewrite <- Hrest in E. change (Zlen []) with 0 in E. rewrite (bind_run _ _ _ _ _ E).
  apply with_screen; [done|]. intros Hf t Ht Hcur. destruct (write_string_run a t (S (length a)) Ht Hcur (Ha Hf) ltac:(lia))
    as (s' & E' & Hd & Hcur'). by exists s'.
Qed.

Lemma write_plain_run s rest c :
  plain s -> Zlen s < 2 ^ 31 -> works c ->
  exists c', write_text line_status patience (s ++ 0 :: rest) c = Ok (tt, c') /\ printed s c c'.
Proof using ready.
  intros Hs Hlen Hw. apply write_text_run; [|done|done|intros _; by apply plain_ansi].
  split; [|by exists rest]. eapply Forall_impl; [exact Hs|]. cbn. lia.
Qed.

Lemma write_character_run ch c :
  works c -> (font_avaliable c = true -> 0 <= ch < 128) ->
  exists c', write_character line_status patience ch c = Ok (tt, c') /\ printed [ch] c c'.
Proof using ready.
  intros Hw Hch. unfold write_character. destruct (write_serial_char_run ch c) as [n E]. rewrite (bind_run _ _ _ _ _ E).
  change (send ch (set_polls n c)) with (sent [ch] c n). apply with_screen; [done|].
  intros Hf s Hs Hcur. by apply write_char_run; auto.
Qed.

(** A text in a local buffer whose last byte is cleared. *)
Lemma write_buffer_run {A} s r i (k : unit -> M Console A) c :
  plain s -> Zlen s < 2 ^ 31 -> works c -> Zlen s <= i -> i <= Zlen s + Zlen r ->
  exists c', (let* b := lift (wr (s ++ 0 :: r) i 0) in bind (write_text line_status patience b) k) c = k tt c' /\ printed s c c'.
Proof using ready.
  intros Hs Hlen Hw H1 H2. destruct (wr_terminator s r i H1 H2) as [r' E]. rewrite (bind_lift _ _ _ _ E).
  destruct (write_plain_run s r' c Hs Hlen Hw) as (c' & E' & Hp).
  exists c'. by rewrite (bind_run _ _ _ _ _ E').
Qed.

Lemma Zlen_junk n : Zlen (junk n) = Z.of_nat n.
Proof using junk_length. unfold Zlen. by rewrite junk_length. Qed.

Lemma Zlen_drop_junk n k : (k <= n)%nat -> Zlen (drop k (junk n)) = Z.of_nat n - Z.of_nat k.
Proof using junk_length. intros Hk. unfold Zlen. rewrite length_drop, junk_length. lia. Qed.

(** The conversions. *)
Lemma convert_decimal ch n args c :
  ch = 100 \/ ch = 105 -> 0 <= n < 10 ^ 9 -> works c ->
  exists c', convert line_status patience junk ch (Num n :: args) c = Ok (args, c') /\ printed (decimal n) c c'.
Proof using ready junk_length.
  intros Hch Hn Hw. assert (is_u64 n) as Hu by (unfold is_u64; lia).
  pose proof (proj2 (decimal_length n Hu) (proj2 Hn)) as Hlen. pose proof (Zlen_nonneg (decimal n)).
  unfold convert. replace ((ch =? 100) || (ch =? 105)) with true by lia.
  rewrite (bind_lift _ (n, args)) by done. rewrite ku_uint64_to_string_spec by done. rewrite Zlen_junk.
  destruct (Z.ltb_spec (Zlen (decimal n)) (Z.of_nat 10)); [|lia]. rewrite (bind_lift _ _ _ _ eq_refl).
  apply (write_buffer_run (decimal n) _ 9 (fun _ => ret args)); [by apply decimal_plain|lia|done|lia|].
  rewrite Zlen_drop_junk by (unfold Zlen in *; lia). unfold Zlen in *. lia.
Qed.

Lemma convert_hex n args c :
  is_u64 n -> works c ->
  exists c', convert line_status patience junk 120 (Num n :: args) c = Ok (args, c') /\ printed (hex16 n) c c'.
Proof using ready junk_length.
  intros Hn Hw. pose proof (hex16_length n Hn) as Hlen. unfold convert. cbn [Z.eqb Pos.eqb orb].
  rewrite (bind_lift _ (n, args)) by done. rewrite ku_uint64_to_hex_string_spec by (done || (rewrite Zlen_junk; lia)).
  rewrite (bind_lift _ _ _ _ eq_refl).
  apply (write_buffer_run (hex16 n) _ 19 (fun _ => ret args)); [by apply hex16_plain|lia|done|lia|].
  rewrite Zlen_drop_junk; lia.
Qed.

Lemma convert_binary n args c :
  is_u64 n -> works c ->
  exists c', convert line_status patience junk 98 (Num n :: args) c = Ok (args, c') /\ printed (numeral 2 dec_char n) c c'.
Proof using ready junk_length.
  intros Hn Hw. pose proof (numeral_length 2 dec_char n ltac:(lia) Hn) as Hlen. pose proof (Zlen_nonneg (numeral 2 dec_char n)).
  unfold convert. cbn [Z.eqb Pos.eqb orb]. rewrite (bind_lift _ (n, args)) by done. unfold ku_uint64_to_binary_string.
  rewrite (numeral_conversion 2 dec_char) by
    first [done | lia | apply bin_digit_char | apply shiftr_1 | unfold numeral in Hlen; rewrite Zlen_map, Zlen_rev in Hlen; lia].
  rewrite Zlen_junk. destruct (Z.ltb_spec (Zlen (numeral 2 dec_char n)) (Z.of_nat 65)); [|lia]. rewrite (bind_lift _ _ _ _ eq_refl).
  apply (write_buffer_run (numeral 2 dec_char n) _ 64 (fun _ => ret args)); [|lia|done|lia|].
  - apply numeral_plain; [lia|done|]. intros d Hd. unfold dec_char, chr_0. lia.
  - rewrite Zlen_drop_junk by (unfold Zlen in *; lia). unfold Zlen in *. lia.
Qed.

(** A conversion behind a percent sign, and the rest of the format. *)
Lemma conversion_step ch f o1 o2 fuel pre rest c args args' :
  (exists c1, convert line_status patience junk ch args c = Ok (args', c1) /\ printed o1 c c1) ->
  (forall c1, font_avaliable c1 = font_avaliable c -> (works c -> works c1) ->
    exists c', printf_loop line_status patience junk fuel ((pre ++ [37; ch]) ++ f ++ 0 :: rest) (Zlen (pre ++ [37; ch]))
      (Zlen (pre ++ [37; ch]) + Zlen f) args' c1 = Ok (tt, c') /\ printed o2 c1 c') ->
  exists c', printf_loop line_status patience junk (S fuel) (pre ++ 37 :: ch :: f ++ 0 :: rest) (Zlen pre)
    (Zlen pre + Zlen (37 :: ch :: f)) args c = Ok (tt, c') /\ printed (o1 ++ o2) c c'.
Proof using.
  intros (c1 & E1 & P1) Hk. cbn [printf_loop]. rewrite !Zlen_cons. pose proof (Zlen_nonneg f).
  destruct (Z.ltb_spec (Zlen pre) (Zlen pre + (Zlen f + 1 + 1))); [|lia].
  rewrite (bind_lift _ 37) by (by apply rd_mid). cbn [Z.eqb Pos.eqb].
  rewrite (bind_lift _ ch) by (rewrite (cons_middle 37), app_assoc; apply rd_mid; zlen).
  rewrite (bind_run _ _ _ _ _ E1).
  destruct (Hk c1) as (c2 & E2 & P2); [by rewrite (print_font _ _ _ P1)|apply (print_works _ _ _ P1)|].
  exists c2. split; [|by eapply printed_trans]. rewrite <- E2, <- app_assoc. cbn [app]. f_equal; zlen.
Qed.

(** The loop over the format. *)
Lemma printf_loop_run font f args out : formats font f args out -> forall fuel pre rest c,
  font_avaliable c = font -> works c -> (length f <= fuel)%nat ->
  exists c', printf_loop line_status patience junk fuel (pre ++ f ++ 0 :: rest) (Zlen pre) (Zlen pre + Zlen f) args c = Ok (tt, c') /\
    printed out c c'.
Proof using ready junk_length.
  assert (forall (f' : list Z) fuel ch1 ch2, (length (ch1 :: ch2 :: f') <= S fuel)%nat -> (length f' <= fuel)%nat) as Hfu by (cbn; lia).
  induction 1 as [args|c0 f args out Hne Hc0 _ IH|args|ch n f args out Hch Hn _ IH|n f args out Hn _ IH|n f args out Hn _ IH|
    n f args out Hn _ IH|s a f args out Hs Hlen Ha _ IH|ch f args out Hch _ IH]; intros fuel pre rest c Hf Hw Hfuel.
  - exists c. split; [|apply printed_refl]. destruct fuel; cbn [printf_loop]; change (Zlen []) with 0; by rewrite Z.add_0_r, Z.ltb_irrefl.
  - destruct fuel as [|fuel]; [cbn in Hfuel; lia|]. cbn [printf_loop app]. rewrite Zlen_cons. pose proof (Zlen_nonneg f).
    destruct (Z.ltb_spec (Zlen pre) (Zlen pre + (Zlen f + 1))); [|lia]. rewrite (bind_lift _ c0) by (by apply rd_mid).
    destruct (Z.eqb_spec c0 37); [done|].
    destruct (write_character_run c0 c Hw) as (c1 & E1 & P1); [by rewrite Hf|].
    rewrite (bind_run _ _ _ _ _ E1). destruct (IH fuel (pre ++ [c0]) rest c1) as (c2 & E2 & P2);
      [by rewrite (print_font _ _ _ P1)|by apply (print_works _ _ _ P1)|cbn in Hfuel; lia|].
    exists c2. split; [|change (c0 :: out) with ([c0] ++ out); by eapply printed_trans]. rewrite <- E2, <- app_assoc. cbn [app].
    f_equal; zlen.
  - destruct fuel as [|fuel]; [cbn in Hfuel; lia|]. exists c. split; [|apply printed_refl]. cbn [printf_loop app].
    change (Zlen [37]) with 1. destruct (Z.ltb_spec (Zlen pre) (Zlen pre + 1)); [|lia].
    rewrite (bind_lift _ 37) by (by apply rd_mid). cbn [Z.eqb Pos.eqb].
    rewrite (bind_lift _ 0) by (rewrite (cons_middle 37), app_assoc; apply rd_mid; zlen).
    unfold convert. cbn [Z.eqb Pos.eqb orb]. rewrite bind_ret.
    destruct fuel; cbn [printf_loop]; by (destruct (Z.ltb_spec (Zlen pre + 2) (Zlen pre + 1)); [lia|]).
  - destruct fuel as [|fuel]; [cbn in Hfuel; lia|]. apply conversion_step with args; [by apply convert_decimal|].
    intros c1 Hf1 Hw1. apply IH; [congruence|auto|by eapply Hfu].
  - destruct fuel as [|fuel]; [cbn in Hfuel; lia|]. change (u8 n :: out) with ([u8 n] ++ out). apply conversion_step with args; [|].
    + unfold convert. cbn [Z.eqb Pos.eqb orb]. rewrite (bind_lift _ (n, args)) by done.
      destruct (write_character_run (u8 n) c Hw) as (c1 & E1 & P1).
      { rewrite Hf. intros Ht. pose proof (u8_range n). specialize (Hn Ht). lia. }
      exists c1. by rewrite (bind_run _ _ _ _ _ E1).
    + intros c1 Hf1 Hw1. apply IH; [congruence|auto|by eapply Hfu].
  - destruct fuel as [|fuel]; [cbn in Hfuel; lia|]. apply conversion_step with args; [by apply convert_hex|].
    intros c1 Hf1 Hw1. apply IH; [congruence|auto|by eapply Hfu].
  - destruct fuel as [|fuel]; [cbn in Hfuel; lia|]. apply conversion_step with args; [by apply convert_binary|].
    intros c1 Hf1 Hw1. apply IH; [congruence|auto|by eapply Hfu].
  - destruct fuel as [|fuel]; [cbn in Hfuel; lia|]. apply conversion_step with args; [|].
    + unfold convert. cbn [Z.eqb Pos.eqb orb]. rewrite (bind_lift _ (a, args)) by done.
      destruct (write_text_run s a c Hs Hlen Hw) as (c1 & E1 & P1); [by rewrite Hf|].
      exists c1. by rewrite (bind_run _ _ _ _ _ E1).
    + intros c1 Hf1 Hw1. apply IH; [congruence|auto|by eapply Hfu].
  - destruct fuel as [|fuel]; [cbn in Hfuel; lia|]. change out with ([] ++ out). apply conversion_step with args; [|].
    + exists c. split; [|apply printed_refl]. unfold convert. rewrite !not_elem_of_cons in Hch.
      destruct Hch as (H1 & H2 & H3 & H4 & H5 & H6 & _). case_bool.
    + intros c1 Hf1 Hw1. apply IH; [congruence|auto|by eapply Hfu].
Qed.
End Theory.

(** The template, with the lock held. *)
Lemma printf_template_run line_status patience junk format rest args out c :
  (forall n, exists k, (k < patience)%nat /\ Z.land (line_status (n + k)%nat) 0x20 <> 0) ->
  (forall n, length (junk n) = n) ->
  Forall (fun ch => ch <> 0) format -> works c -> formats (font_avaliable c) format args out ->
  exists c', printf_template line_status patience junk (format ++ 0 :: rest) args c = Ok (tt, c') /\
    serial c' = serial c ++ out /\ serial_lock c' = false /\ works c' /\ drawn (screen c) (screen c') /\
    font_avaliable c' = font_avaliable c /\ (font_avaliable c = false -> screen c' = screen c).
Proof.
  intros Hready Hjunk Hformat Hw Hf. unfold printf_template.
  assert (c_string format (format ++ 0 :: rest)) as Hs by (split; [done|by exists rest]).
  rewrite (bind_lift _ _ _ _ (c_string_strlen _ _ Hs)).
  destruct (printf_loop_run line_status patience junk Hready Hjunk (font_avaliable c) format args out Hf
    (length (format ++ 0 :: rest)) [] rest c eq_refl Hw) as (c1 & E1 & P1); [rewrite length_app; lia|].
  cbn [app] in E1. change (Zlen []) with 0 in E1. rewrite Z.add_0_l in E1. rewrite (bind_run _ _ _ _ _ E1), bind_get.
  pose proof (print_works _ _ _ P1 Hw) as Hw1. pose proof (print_drawn _ _ _ P1) as Hd1. pose proof (print_font _ _ _ P1) as Hf0.
  destruct (font_avaliable c1) eqn:Hf1.
  - destruct (swap_framebuffers_run (screen c1)) as (s2 & E2 & Hd2 & EX & EY).
    assert (on_screen swap_framebuffers c1 = Ok (tt, set_screen s2 c1)) as E3 by (unfold on_screen; by rewrite E2).
    rewrite (bind_run _ _ _ _ _ E3). eexists. split; [reflexivity|]. split; [apply (print_serial _ _ _ P1)|].
    split; [done|]. split; [|split; [by eapply drawn_trans|split; cbn; congruence]].
    intros _. destruct (Hw1 Hf1) as [Hc Hcur]. cbn [screen set_serial_lock set_screen]. split; [by eapply drawn_console|].
    destruct Hcur as (Hx & H1 & H2 & H3). destruct (drawn_setup _ _ Hd2) as (D & F & _).
    unfold cursor_ok. rewrite EX, EY, D, F. done.
  - rewrite bind_ret. eexists. split; [reflexivity|]. split; [apply (print_serial _ _ _ P1)|]. split; [done|].
    split; [|split; [done|split; [cbn; congruence|exact (print_screen _ _ _ P1)]]]. intros Hcontra. cbn in Hcontra. congruence.
Qed.

(** A call of [printf] on a console that works. *)
Lemma printf_run line_status patience junk format rest args out c :
  (forall n, exists k, (k < patience)%nat /\ Z.land (line_status (n + k)%nat) 0x20 <> 0) ->
  (forall n, length (junk n) = n) ->
  Forall (fun ch => ch <> 0) format -> serial_lock c = false -> works c ->
  formats (font_avaliable c) format args out ->
  exists c', printf line_status patience junk (format ++ 0 :: rest) args c = Ok (tt, c') /\
    serial c' = serial c ++ out /\ serial_lock c' = false /\ works c' /\ drawn (screen c) (screen c') /\
    font_avaliable c' = font_avaliable c.
Proof.
  intros Hready Hjunk Hformat Hlock Hw Hf. unfold printf, aquire_serial_lock.
  unfold bind at 1. rewrite Hlock. cbn [obind].
  destruct (printf_template_run line_status patience junk format rest args out (set_serial_lock true c) Hready Hjunk Hformat Hw Hf)
    as (c' & E & H1 & H2 & H3 & H4 & H5 & _). by exists c'.
Qed.

(** ** What a computation prints *)

(** The console can be written to. *)
Definition usable (c : Console) : Prop := serial_lock c = false /\ works c.

(** From any console that can be written to, [m] returns, having sent [out]. *)
Definition emits (m : M Console unit) (out : list Z) : Prop :=
  forall c, usable c -> exists c', m c = Ok (tt, c') /\ serial c' = serial c ++ out /\ usable c'.

Lemma emits_ret : emits (ret tt) [].
Proof. intros c Hc. exists c. split; [done|]. by rewrite app_nil_r. Qed.

Lemma emits_seq m1 m2 o1 o2 : emits m1 o1 -> emits m2 o2 -> emits (m1 ;;; m2) (o1 ++ o2).
Proof.
  intros H1 H2 c Hc. destruct (H1 c Hc) as (c1 & E1 & S1 & U1). destruct (H2 c1 U1) as (c2 & E2 & S2 & U2).
  exists c2. rewrite (bind_run _ _ _ _ _ E1). split; [done|]. by rewrite S2, S1, app_assoc.
Qed.

Lemma emits_printf line_status patience junk
    (ready : forall n, exists k, (k < patience)%nat /\ Z.land (line_status (n + k)%nat) 0x20 <> 0)
    (junk_length : forall n, length (junk n) = n) f args out :
  Forall (fun ch => ch <> 0) f -> (forall font, formats font f args out) ->
  emits (printf line_status patience junk (cstr f) args) out.
Proof.
  intros Hz Hf c [Hl Hw]. destruct (printf_run line_status patience junk f [] args out c ready junk_length Hz Hl Hw (Hf _))
    as (c' & E & H1 & H2 & H3 & _). by exists c'.
Qed.

(** The logging macros: the tag, with its colours, and the text. *)
Lemma klogf_run line_status patience junk
    (ready : forall n, exists k, (k < patience)%nat /\ Z.land (line_status (n + k)%nat) 0x20 <> 0)
    (junk_length : forall n, length (junk n) = n) prefix f args out c :
  Forall (fun ch => ch <> 0) prefix -> ansi_text (cstr prefix) -> Zlen prefix < 2 ^ 31 ->
  Forall (fun ch => ch <> 0) f -> (forall font, formats font f args out) -> usable c ->
  exists c', klogf line_status patience junk (cstr prefix) (cstr f) args c = Ok (tt, c') /\
    serial c' = serial c ++ prefix ++ out /\ usable c' /\ font_avaliable c' = font_avaliable c /\
    (font_avaliable c = false -> screen c' = screen c).
Proof.
  intros Hp Ha Hlen Hz Hf [Hl Hw]. unfold klogf, aquire_serial_lock. unfold bind at 1. rewrite Hl. cbn [obind].
  destruct (write_text_run line_status patience ready prefix (cstr prefix) (set_serial_lock true c)) as (c1 & E1 & P1);
    [split; [done|by exists []]|done|done|done|]. rewrite (bind_run _ _ _ _ _ E1).
  destruct (printf_template_run line_status patience junk f [] args out c1 ready junk_length Hz (print_works _ _ _ P1 Hw) (Hf _))
    as (c2 & E2 & H1 & H2 & H3 & _ & H4 & H5).
  pose proof (print_font _ _ _ P1) as F1. change (font_avaliable (set_serial_lock true c)) with (font_avaliable c) in F1.
  exists c2. split; [exact E2|]. split; [|split; [done|split; [congruence|]]].
  - rewrite H1, (print_serial _ _ _ P1). by rewrite <- app_assoc.
  - intros F. rewrite H5, (print_screen _ _ _ P1 F) by congruence. done.
Qed.

Lemma ansi_app s rest : plain s -> ansi_text rest -> ansi_text (s ++ rest).
Proof. induction 1 as [|c s [Hc Hne] _ IH]; intros Hr; [done|]. cbn [app]. by apply text_char; [| |apply IH]. Qed.

(** Registers and addresses of a text, spelled out. *)
Ltac spell :=
  repeat match goal with |- context [c_text ?s] => let v := eval vm_compute in (c_text s) in change (c_text s) with v end;
  cbn [app].

Section Tagged.
Context (line_status : nat -> Z) (patience : nat) (junk : nat -> list Z) (file : list Z).
Context (ready : forall n, exists k, (k < patience)%nat /\ Z.land (line_status (n + k)%nat) 0x20 <> 0).
Context (junk_length : forall n, length (junk n) = n).
Context (file_plain : plain file) (file_short : Zlen file < 2 ^ 30).

Lemma tagged_run colour name f args out c :
  48 <= colour < 56 -> plain name -> Zlen name < 100 -> Forall (fun ch => ch <> 0) f ->
  (forall font, formats font f args out) -> usable c ->
  exists c', klogf line_status patience junk (cstr (tag colour name file)) (cstr f) args c = Ok (tt, c') /\
    serial c' = serial c ++ tag colour name file ++ out /\ usable c' /\ font_avaliable c' = font_avaliable c /\
    (font_avaliable c = false -> screen c' = screen c).
Proof using ready junk_length file_plain file_short.
  intros Hc Hn Hl Hz Hf Hu.
  assert (forall s, plain s -> Forall (fun ch => ch <> 0) s) as Hpz by (intros s H; eapply Forall_impl; [exact H|cbn; lia]).
  apply klogf_run; try done.
  - unfold tag. spell. rewrite !Forall_cons, Forall_app, !Forall_cons, Forall_app, !Forall_cons, Forall_nil.
    pose proof (Hpz _ Hn). pose proof (Hpz _ file_plain). repeat split; first [done|lia].
  - unfold cstr, tag. spell. apply text_escape; [lia|]. rewrite <- app_assoc. apply ansi_app; [done|]. cbn [app].
    apply text_char; [lia|done|]. apply text_escape; [lia|]. rewrite <- app_assoc. apply ansi_app; [done|]. cbn [app].
    do 2 (apply text_char; [lia|done|]). apply text_escape; [lia|]. apply text_end.
  - unfold tag. spell. zlen.
Qed.

Lemma emits_tagged colour name f args out :
  48 <= colour < 56 -> plain name -> Zlen name < 100 -> Forall (fun ch => ch <> 0) f ->
  (forall font, formats font f args out) ->
  emits (klogf line_status patience junk (cstr (tag colour name file)) (cstr f) args) (tag colour name file ++ out).
Proof using ready junk_length file_plain file_short.
  intros Hc Hn Hl Hz Hf c Hu. destruct (tagged_run colour name f args out c Hc Hn Hl Hz Hf Hu) as (c' & E & Hs & Hu' & _).
  by exists c'.
Qed.
End Tagged.

(** [formats] of a literal format. *)
Ltac fmt :=
  repeat first
    [ apply fmt_end
    | apply fmt_hex; [assumption|]
    | apply fmt_binary; [assumption|]
    | apply fmt_char; [done|intros _; lia|] ].

(** C35: [printf] prints its format.  When the transmitter of the serial port
    becomes empty again and again, [printf] sends exactly the formatted text:
    the characters of the format, and for a conversion the decimal numeral (of a
    number below 10^9), the sixteen hexadecimal digits, the binary numeral, the
    character or the string of its argument; the lock is free afterwards, and
    the console, when it is in use, can draw on.  A decimal conversion of a
    number from 10^9 on writes outside its local buffer. *)
Theorem printf_formats line_status patience junk format rest args out c :
  (forall n, exists k, (k < patience)%nat /\ Z.land (line_status (n + k)%nat) 0x20 <> 0) ->
  (forall n, length (junk n) = n) ->
  Forall (fun ch => ch <> 0) format -> serial_lock c = false -> works c ->
  formats (font_avaliable c) format args out ->
  (exists c', printf line_status patience junk (format ++ 0 :: rest) args c = Ok (tt, c') /\
    serial c' = serial c ++ out /\ serial_lock c' = false /\ works c' /\ drawn (screen c) (screen c')) /\
  forall n rest' args', 10 ^ 9 <= n < 2 ^ 64 ->
    printf line_status patience junk (37 :: 105 :: 0 :: rest') (Num n :: args') c = Fault.
Proof.
  intros Hready Hjunk Hformat Hlock Hw Hf. split.
  - destruct (printf_run line_status patience junk format rest args out c Hready Hjunk Hformat Hlock Hw Hf)
      as (c' & E & H1 & H2 & H3 & H4 & _). by exists c'.
  - intros n rest' args' Hn. unfold printf, aquire_serial_lock. unfold bind at 1. rewrite Hlock. cbn [obind]. unfold printf_template.
    rewrite (bind_lift _ 2) by done. cbn [length printf_loop]. change (0 <? 2) with true. cbv iota.
    assert (is_u64 n) as Hu by (unfold is_u64; lia). pose proof (decimal_length n Hu).
    unfold convert. cbn [rd]. rewrite bind_assoc. rewrite (bind_lift _ 37) by done. cbn [Z.eqb Pos.eqb].
    rewrite bind_assoc, (bind_lift _ 105) by done. cbn [Z.eqb Pos.eqb orb]. rewrite !bind_assoc, (bind_lift _ (n, args')) by done.
    rewrite bind_assoc. unfold bind at 1. unfold lift at 1. rewrite ku_uint64_to_string_spec by done.
    destruct (Z.ltb_spec (Zlen (decimal n)) (Zlen (junk 10%nat))) as [Hlt|]; [|done].
    unfold Zlen at 2 in Hlt. rewrite Hjunk in Hlt. lia.
Qed.

Lemma printf_formats_witness :
  exists c', printf (fun n => if Nat.even n then 0 else 0x20) 3 (fun n => replicate n 7)
    ([110; 61; 37; 105; 32; 37; 115] ++ [0]) [Num 2024; Str [104; 105; 0]] (demo_console_of demo_screen true) = Ok (tt, c') /\
  serial c' = [] ++ [110; 61; 50; 48; 50; 52; 32; 104; 105].
Proof.
  destruct (printf_formats (fun n => if Nat.even n then 0 else 0x20) 3 (fun n => replicate n 7)
    [110; 61; 37; 105; 32; 37; 115] [] [Num 2024; Str [104; 105; 0]] [110; 61; 50; 48; 50; 52; 32; 104; 105]
    (demo_console_of demo_screen true)) as [(c' & E & Hs & _) _].
  - intros n. destruct (Nat.even n) eqn:Hn.
    + exists 1%nat. split; [lia|]. by rewrite Nat.add_1_r, Nat.even_succ, <- Nat.negb_even, Hn.
    + exists 0%nat. split; [lia|]. by rewrite Nat.add_0_r, Hn.
  - intros n. apply length_replicate.
  - repeat constructor; done.
  - done.
  - intros _. apply demo_console.
  - apply fmt_char; [done|lia|]. apply fmt_char; [done|lia|].
    apply (fmt_decimal _ 105 2024 _ _ [32; 104; 105]); [by right|lia|]. apply fmt_char; [done|lia|].
    apply (fmt_string _ [104; 105] [104; 105; 0] _ _ []); [|by vm_compute| |apply fmt_end].
    + split; [repeat constructor; done|by exists []].
    + intros _. repeat constructor; lia.
  - exists c'. split; [exact E|exact Hs].
Defined.
