(* ===== verification/Frames.v ===== *)
(** * What the calls leave alone

    A computation over the object store keeps the objects outside a class [P] of
    objects: the file system writes inodes, directory entries and file nodes, so
    the tasks, the vectors and the open files survive its calls.  [kept] is that
    relation between two stores, [frames P m] says that [m] keeps it whenever it
    returns; TempFS.v's functions and the calls of VFS.v are shown to. *)
From S2P Require Import Prelude Allocator Chain Strings Vector Events Blocks Tasks TempFS VFS Mount.

Create HintDb frames.

Section Frames.
Context `{AL : Allocator} {Obj : Type}.

(** Between [s] and [s'] only objects in [P] have changed. *)
Definition kept (P : Obj -> Prop) (s s' : Store Obj) : Prop :=
  store_ok s' /\ exists D, same_except D s s' /\ forall p o, p ∈ D -> objs s !! p = Some o -> P o.

Definition frames (P : Obj -> Prop) {A} (m : M (Store Obj) A) : Prop :=
  forall s a s', store_ok s -> m s = Ok (a, s') -> kept P s s'.

(** The objects of type [A] are in [P], or none of them is. *)
Class Writes (P : Obj -> Prop) A `{!Object A Obj} : Prop := writes (x : A) : P (to_obj x).
Class Keeps (P : Obj -> Prop) A `{!Object A Obj} : Prop := keeps (x : A) : ~ P (to_obj x).

Section Rules.
Context (P : Obj -> Prop).

Lemma kept_refl s : store_ok s -> kept P s s.
Proof using. split; [done|]. exists ∅. split; [done|]. set_solver. Qed.

Lemma kept_trans s1 s2 s3 : kept P s1 s2 -> kept P s2 s3 -> kept P s1 s3.
Proof using.
  intros [_ (D1 & H1 & P1)] [Hok (D2 & H2 & P2)]. split; [done|]. exists (D1 ∪ D2). split.
  - intros p Hp Hd. rewrite not_elem_of_union in Hp. destruct Hp as [Hp1 Hp2].
    rewrite H2; [by apply H1|done|]. rewrite elem_of_dom, H1 by done. by apply elem_of_dom.
  - intros p o [Hp|Hp]%elem_of_union Ho; [by eapply P1|]. destruct (decide (p ∈ D1)) as [|Hp1]; [by eapply P1|].
    eapply P2; [done|]. rewrite H1; [done|done|]. by apply elem_of_dom_2 in Ho.
Qed.

Lemma kept_typed `{!Object A Obj, !Keeps P A} s s' p (x : A) : kept P s s' -> typed_at s p x -> typed_at s' p x.
Proof using.
  intros [_ (D & Hs & HP)] Hx. eapply same_except_typed; [exact Hs| |done]. intros Hp.
  exact (keeps x (HP _ _ Hp Hx)).
Qed.

Lemma kept_same D s s' : store_ok s' -> same_except D s s' -> (forall p o, p ∈ D -> objs s !! p = Some o -> P o) -> kept P s s'.
Proof using. intros Hok Hs HD. split; [done|]. by exists D. Qed.

Lemma frames_ret {A} (a : A) : frames P (ret a).
Proof using. intros s b s' Hok [= _ <-]. by apply kept_refl. Qed.
Lemma frames_get : frames P get.
Proof using. intros s b s' Hok [= _ <-]. by apply kept_refl. Qed.
Lemma frames_lift {A} (o : outcome A) : frames P (lift o).
Proof using. intros s b s' Hok H. unfold lift in H. apply obind_ok in H as (a & _ & [= _ <-]). by apply kept_refl. Qed.
Lemma frames_fault {A} : frames P (@fault _ A).
Proof using. by intros s b s' Hok H. Qed.
Lemma frames_spin {A} : frames P (fun _ => @Spin (A * _)).
Proof using. by intros s b s' Hok H. Qed.
Lemma frames_bind {A B} (m : M (Store Obj) A) (f : A -> M (Store Obj) B) :
  frames P m -> (forall a, frames P (f a)) -> frames P (bind m f).
Proof using.
  intros Hm Hf s b s' Hok H. apply bind_ok in H as (a & s1 & H1 & H2). pose proof (Hm _ _ _ Hok H1) as Hk.
  eapply kept_trans; [exact Hk|]. eapply Hf; [apply Hk|exact H2].
Qed.
Lemma frames_get_obj A `{!Object A Obj} p : frames P (get_obj A p).
Proof using. intros s a s' Hok H. unfold get_obj in H. destruct (_ ≫= _); [|done]. injection H as _ <-. by apply kept_refl. Qed.

Lemma frames_put_obj `{!Object A Obj, !Writes P A} p (x : A) : frames P (put_obj p x).
Proof using.
  intros s a s' Hok H. unfold put_obj in H. destruct (objs s !! p) as [o|] eqn:Ho; [|done]. cbn in H.
  destruct (of_obj o) as [y|] eqn:Hy; [|done]. injection H as _ <-. apply to_of_obj in Hy as ->.
  split; [by eapply put_obj_ok|]. exists {[p]}. split.
  - intros q Hq _. cbn [objs]. apply lookup_insert_ne. set_solver.
  - intros q o ->%elem_of_singleton Hq. rewrite Ho in Hq. injection Hq as <-. apply writes.
Qed.
Lemma frames_set_field `{!Object A Obj, !Writes P A} p (f : A -> A) : frames P (set_field p f).
Proof using. apply frames_bind; [apply frames_get_obj|]. intros x. apply frames_put_obj. Qed.

Lemma frames_raw_obj `{!Object A Obj} size (junk : Z -> A) : 0 <= size < 2 ^ 63 -> frames P (raw_obj size junk).
Proof using.
  intros Hsize s a s' Hok H. destruct (raw_obj_spec s size junk Hok Hsize) as [(p & s1 & E & Hp & _ & Hok1 & Ho)|E];
    rewrite H in E; [|done]. injection E as -> ->. split; [done|]. exists ∅. split; [|set_solver].
  intros q _ Hq. rewrite Ho. apply lookup_insert_ne. congruence.
Qed.
End Rules.

(** A vector lies outside what changes. *)
Lemma vec_apart (P : Obj -> Prop) `{OV : !Object Vector Obj, ON : !Object VectorNode Obj}
    `{KV : !Keeps P Vector, KN : !Keeps P VectorNode} s D v ns l :
  (forall p o, p ∈ D -> objs s !! p = Some o -> P o) -> vec s v ns l ->
  D ## list_to_set (C := gset Z) (v :: ns).
Proof using.
  intros HP (r & Hr & _ & _ & Hch & _).
  assert (forall A (OA : Object A Obj) (KA : Keeps P A) q (x : A), typed_at s q x -> q ∉ D) as Hn.
  { intros A OA KA q x Hx Hq. exact (keeps x (HP _ _ Hq Hx)). }
  intros q Hq [->|Hin]%elem_of_list_to_set%elem_of_cons; [by eapply Hn in Hr|].
  apply list_elem_of_lookup in Hin as [i Hi]. clear Hr. revert Hch Hi. generalize (Vector.first_node r) as a. revert l i.
  induction ns as [|n ns IH]; intros [|x l] i a Hch Hi; try done. cbn [linked] in Hch.
  destruct Hch as (_ & r' & Hr' & _ & Hch). destruct i as [|i]; [injection Hi as <-; by eapply Hn in Hr'|].
  by eapply IH.
Qed.

(** Larger classes. *)
Lemma frames_mono (P Q : Obj -> Prop) {A} (m : M (Store Obj) A) : (forall o, P o -> Q o) -> frames P m -> frames Q m.
Proof using.
  intros HPQ Hm s a s' Hok H. destruct (Hm _ _ _ Hok H) as [? (D & Hs & HP)]. split; [done|]. exists D. eauto.
Qed.
End Frames.

#[export] Hint Resolve frames_ret frames_get frames_lift frames_fault frames_spin frames_get_obj frames_put_obj
  frames_set_field : frames.
#[export] Hint Extern 1 (frames _ (raw_obj _ _)) => (apply frames_raw_obj; unfold sizeof_Inode, sizeof_DirEntryNode, sizeof_FileNode, sizeof_File; lia) : frames.

#[export] Hint Extern 1 (Writes _ _) => (typeclasses eauto) : frames.

(** One step into a computation. *)
Ltac frames_step :=
  match goal with
  | |- frames _ (bind _ _) => apply frames_bind; [|intros ?]
  | |- frames _ (if ?b then _ else _) => destruct b
  | |- frames _ (let '(_, _) := ?x in _) => destruct x
  | |- frames _ (match ?x with _ => _ end) => destruct x
  end.
Ltac frames := repeat (first [solve [eauto with frames] | frames_step]).

(** ** Linked lists and tempfs *)

Section TempFS.
Context `{AL : Allocator} {Obj : Type} (P : Obj -> Prop).
Context `{OI : !Object Inode Obj, OD : !Object DirEntryNode Obj, OF : !Object FileNode Obj}.

Lemma frames_linked_walk {Node} `{!Object Node Obj} (next : Node -> Z) n : forall a, frames P (linked_walk next n a).
Proof using. clear OI OD OF. induction n as [|n IH]; intros a; cbn [linked_walk]; frames. Qed.

Context `{WI : !Writes P Inode, WD : !Writes P DirEntryNode, WF : !Writes P FileNode}.
Context (junk_Inode : Z -> Inode) (junk_DirEntryNode : Z -> DirEntryNode) (junk_FileNode : Z -> FileNode).
Context (call_read : Z -> Z -> list Z -> Z -> M (Store Obj) (Z * list Z)).
Context (call_write : Z -> Z -> list Z -> Z -> M (Store Obj) Z).
Context (call_open : Z -> Z -> Z -> M (Store Obj) unit) (call_close : Z -> Z -> M (Store Obj) unit).
(** The drivers behind the devices keep the same. *)
Context (read_ok : forall a f b n, frames P (call_read a f b n)) (write_ok : forall a f b n, frames P (call_write a f b n)).
Context (open_ok : forall a f md, frames P (call_open a f md)) (close_ok : forall a f, frames P (call_close a f)).

#[local] Hint Resolve frames_linked_walk read_ok write_ok open_ok close_ok : frames.

Lemma frames_addentry d name isdir : frames P (tempfs_addentry junk_Inode junk_DirEntryNode d name isdir).
Proof using WI WD. unfold tempfs_addentry. frames. Qed.
#[local] Hint Resolve frames_addentry : frames.

Lemma frames_filename_char p i c : frames P (set_filename_char p i c).
Proof using WI. unfold set_filename_char. frames. Qed.
#[local] Hint Resolve frames_filename_char : frames.

Lemma frames_mkdir d name : frames P (tempfs_mkdir junk_Inode junk_DirEntryNode d name).
Proof using WI WD. unfold tempfs_mkdir, tempfs_mkdir_nonlinear. frames. Qed.

Lemma frames_find_loop fuel : forall e i name, frames P (find_loop fuel e i name).
Proof using. induction fuel as [|fuel IH]; intros e i name; cbn [find_loop]; frames. Qed.
#[local] Hint Resolve frames_find_loop : frames.

Lemma frames_write_loop fuel : forall a from i len left, frames P (write_loop junk_FileNode fuel a from i len left).
Proof using WF. induction fuel as [|fuel IH]; intros a from i len left; cbn [write_loop]; frames. Qed.
#[local] Hint Resolve frames_write_loop : frames.

Lemma frames_read_loop fuel : forall a b i len left, frames P (read_loop fuel a b i len left).
Proof using. induction fuel as [|fuel IH]; intros a b i len left; cbn [read_loop]; frames. Qed.
#[local] Hint Resolve frames_read_loop : frames.

End TempFS.

(** ** The interface: a file system that leaves the rest of the kernel alone *)

Class FileSystemFrame `{AL : Allocator} {Obj : Type} (P : Obj -> Prop) (fs : FileSystem Obj) : Prop := {
  frame_find d nm : frames P (find_function fs d nm);
  frame_find_root d : frames P (find_root_function fs d);
  frame_open_dir d : frames P (open_dir_function fs d);
  frame_open_file f md : frames P (open_file_function fs f md);
  frame_mkdir d nm : frames P (mkdir_function fs d nm);
  frame_mkfile d nm : frames P (mkfile_function fs d nm);
  frame_close f : frames P (close_function fs f);
  frame_write f b n : frames P (write_function fs f b n);
  frame_read f b n : frames P (read_function fs f b n);
  frame_length f : frames P (length_function fs f);
  frame_device d nm o : frames P (create_device_function fs d nm o)
}.

#[export] Hint Resolve frame_find frame_find_root frame_open_dir frame_open_file frame_mkdir frame_mkfile frame_close
  frame_write frame_read frame_length frame_device : frames.

#[export] Instance no_fs_frame `{AL : Allocator} {Obj} (P : Obj -> Prop) : FileSystemFrame P no_fs.
Proof. split; intros; apply frames_fault. Qed.

Section Implementation.
Context `{AL : Allocator} {Obj : Type} (P : Obj -> Prop).
Context `{OI : !Object Inode Obj, OD : !Object DirEntryNode Obj, OF : !Object FileNode Obj}.
Context `{WI : !Writes P Inode, WD : !Writes P DirEntryNode, WF : !Writes P FileNode}.

(** tempfs keeps the frame, when its drivers do. *)
Lemma TempFS_frame ji jd jf call_read call_write call_open call_close :
  (forall a f b n, frames P (call_read a f b n)) -> (forall a f b n, frames P (call_write a f b n)) ->
  (forall a f md, frames P (call_open a f md)) -> (forall a f, frames P (call_close a f)) ->
  FileSystemFrame P (TempFS ji jd jf call_read call_write call_open call_close).
Proof using WI WD WF.
  intros Hr Hw Ho Hc. split; intros; cbn [TempFS find_function find_root_function open_dir_function open_file_function
    mkdir_function mkfile_function close_function write_function read_function length_function create_device_function].
  - pose proof (frames_find_loop P). unfold tempfs_find. frames.
  - frames.
  - unfold tempfs_open_dir. frames.
  - unfold tempfs_open_file. frames.
  - by apply frames_mkdir.
  - pose proof (frames_addentry P). unfold tempfs_mkfile. frames.
  - unfold tempfs_close. frames.
  - pose proof (frames_write_loop P). unfold tempfs_write. frames.
  - pose proof (frames_read_loop P). unfold tempfs_read. frames.
  - unfold tempfs_length. frames.
  - pose proof (frames_addentry P). unfold tempfs_create_device. frames.
Qed.
End Implementation.

(** ** The calls of the VFS *)

Section Calls.
Context `{AL : Allocator} {Obj : Type}.
Context `{OV : !Object Vector Obj, ON : !Object VectorNode Obj, OE : !Object Event Obj}.
Context `{OT : !Object Task Obj, OB : !Object Block Obj, OL : !Object File Obj}.
Context (P : Obj -> Prop).
Abbreviation Mem := (M (Vfs (Obj := Obj))).

(** Every drive keeps the frame. *)
Definition framed (k : Vfs) : Prop :=
  store_ok (store (scheduler k)) /\ Forall (fun d => FileSystemFrame P (drive_fs d)) (drives k).

(** Only objects in [P] have changed; the drives and the task list's vectors are
    the same. *)
Definition vfs_kept (k k' : Vfs) : Prop :=
  exists st, k' = set_objs st k /\ kept P (store (scheduler k)) st.

Definition vframes {A} (m : Mem A) : Prop := forall k a k', framed k -> m k = Ok (a, k') -> vfs_kept k k'.

Lemma vfs_kept_refl k : store_ok (store (scheduler k)) -> vfs_kept k k.
Proof using. intros Hok. exists (store (scheduler k)). split; [by destruct k as [[] ? ?]|by apply kept_refl]. Qed.

Lemma vfs_kept_trans k1 k2 k3 : vfs_kept k1 k2 -> vfs_kept k2 k3 -> vfs_kept k1 k3.
Proof using.
  intros (st & -> & H1) (st' & -> & H2). exists st'. split; [by destruct k1 as [[] ? ?]|]. by eapply kept_trans.
Qed.

Lemma vfs_kept_framed k k' : vfs_kept k k' -> framed k -> framed k'.
Proof using. intros (st & -> & Hok & _) [_ Hd]. by split. Qed.

Lemma vframes_bind {A B} (m : Mem A) (f : A -> Mem B) : vframes m -> (forall a, vframes (f a)) -> vframes (bind m f).
Proof using.
  intros Hm Hf k b k' Hk H. apply bind_ok in H as (a & k1 & H1 & H2). pose proof (Hm _ _ _ Hk H1) as Hk1.
  eapply vfs_kept_trans; [exact Hk1|]. eapply Hf; [by eapply vfs_kept_framed|exact H2].
Qed.
Lemma vframes_ret {A} (a : A) : vframes (ret a).
Proof using. intros k b k' [Hok _] [= _ <-]. by apply vfs_kept_refl. Qed.
Lemma vframes_lift {A} (o : outcome A) : vframes (lift o).
Proof using. intros k b k' [Hok _] H. unfold lift in H. apply obind_ok in H as (a & _ & [= _ <-]). by apply vfs_kept_refl. Qed.
Lemma vframes_fault {A} : vframes (@fault _ A).
Proof using. by intros k b k' Hk H. Qed.
Lemma vframes_spin {A} : vframes (fun _ => @Spin (A * _)).
Proof using. by intros k b k' Hk H. Qed.

Lemma on_objs_ok {A} (m : M (Store Obj) A) k a k' :
  on_objs m k = Ok (a, k') -> exists st, m (store (scheduler k)) = Ok (a, st) /\ k' = set_objs st k.
Proof using.
  unfold on_objs, on_sched, on_store. intros H. apply obind_ok in H as ([a1 s1] & H & [= -> <-]).
  apply obind_ok in H as ([a2 st] & H & [= -> <-]). by exists st.
Qed.

Lemma vframes_on_objs {A} (m : M (Store Obj) A) : frames P m -> vframes (on_objs m).
Proof using.
  intros Hm k a k' [Hok _] H. apply on_objs_ok in H as (st & H & ->). exists st. split; [done|]. by eapply Hm.
Qed.

(** The drives are those of a framed state. *)
Lemma vframes_drive_at {B} n (f : Drive Obj -> Mem B) :
  (forall d, FileSystemFrame P (drive_fs d) -> vframes (f d)) -> vframes (bind (drive_at n) f).
Proof using.
  intros Hf k b k' Hk H. apply bind_ok in H as (d & k1 & H1 & H2). unfold drive_at in H1. rewrite bind_get in H1.
  unfold lift, rd in H1. destruct (n <? 0); [done|]. destruct (drives k !! Z.to_nat n) as [d0|] eqn:Hd; [|done].
  injection H1 as -> <-. eapply Hf; [|exact Hk|exact H2]. destruct Hk as [_ Hds].
  eapply Forall_lookup_1 in Hds; [exact Hds|exact Hd].
Qed.

(** Reading the task list. *)
Lemma get_current_task_same core k a k' : store_ok (store (scheduler k)) ->
  on_sched (get_current_task core) k = Ok (a, k') -> vfs_kept k k'.
Proof using.
  assert (forall v i, frames P (vector_at v i)) as Hat.
  { intros v i. pose proof (@frames_linked_walk _ _ P VectorNode). unfold vector_at, walk. frames. }
  intros Hok H. unfold on_sched in H. apply obind_ok in H as ([t s] & H & [= -> <-]).
  unfold get_current_task, spinlock_aquire, get_task in H. apply bind_ok in H as ([] & s1 & H1 & H).
  destruct (get_current_task_lock _) eqn:Hl; [done|]. injection H1 as <-. rewrite bind_get in H.
  apply bind_ok in H as (n & s2 & H2 & H). unfold on_store in H2. apply obind_ok in H2 as ([n' st] & H2 & [= -> <-]).
  rewrite bind_assoc, bind_get in H. apply bind_ok in H as (n2 & s3 & H3 & H). unfold on_store in H3.
  apply obind_ok in H3 as ([n3 st3] & H3 & [= -> <-]). injection H as -> <-.
  exists st3. split; [destruct k as [[] ? ?]; cbn in *; by rewrite Hl|].
  assert (kept P (store (scheduler k)) st) as Hk1 by (eapply Hat; [exact Hok|exact H2]).
  eapply kept_trans; [exact Hk1|]. eapply Hat; [apply Hk1|exact H3].
Qed.
Lemma vframes_get_current_task core : vframes (on_sched (get_current_task core)).
Proof using. intros k a k' [Hok _]. by apply get_current_task_same. Qed.

Lemma grown_kept k k' : grown k k' -> vfs_kept k k'.
Proof using. intros (st & -> & Hok & Hs & _). exists st. split; [done|]. split; [done|]. exists ∅. split; [done|set_solver]. Qed.

Create HintDb vframes.
#[local] Hint Resolve vframes_ret vframes_lift vframes_fault vframes_spin vframes_on_objs vframes_get_current_task : vframes.
Ltac vframes_step :=
  match goal with
  | |- vframes (bind (drive_at _) _) => apply vframes_drive_at; intros ? ?
  | |- vframes (bind _ _) => apply vframes_bind; [|intros ?]
  | |- vframes (if ?b then _ else _) => destruct b
  | |- vframes (let '(_, _) := ?x in _) => destruct x
  | |- vframes (match ?x with _ => _ end) => destruct x
  end.
Ltac vframes := repeat (first [solve [eauto with vframes frames] | vframes_step]).

Lemma frames_on_objs fs (Hfs : FileSystemFrame P fs) fl md path : forall fuel np off i obj,
  vframes (open_loop fs fuel fl md path np off i obj).
Proof using.
  induction fuel as [|fuel IH]; intros np off i obj; cbn [open_loop]; vframes.
Qed.

(** ** Open files *)

Context `{KV : !Keeps P Vector, KN : !Keeps P VectorNode, KT : !Keeps P Task, KB : !Keeps P Block, KF : !Keeps P File}.

(** What a call returns, on top of what it keeps. *)
Definition ends {A} (Q : A -> Vfs -> Prop) (m : Mem A) : Prop :=
  forall k a k', framed k -> m k = Ok (a, k') -> vfs_kept k k' /\ Q a k'.
(** The same for a computation that frees the path buffer [p]. *)
Definition owns (p : Z) {A} (Q : A -> Vfs -> Prop) (m : Mem A) : Prop :=
  forall k a k', framed k -> (exists b : Block, typed_at (store (scheduler k)) p b) -> m k = Ok (a, k') ->
    Q a k' /\ exists st D, k' = set_objs st k /\ store_ok st /\ same_except D (store (scheduler k)) st /\
      forall q o, q ∈ D -> q <> p -> objs (store (scheduler k)) !! q = Some o -> P o.

Lemma ends_ret {A} (Q : A -> Vfs -> Prop) a : (forall k, Q a k) -> ends Q (ret a).
Proof using. intros HQ k b k' [Hok _] [= <- <-]. split; [by apply vfs_kept_refl|apply HQ]. Qed.

Lemma owns_of_ends p {A} (Q : A -> Vfs -> Prop) m : ends Q m -> owns p Q m.
Proof using.
  intros Hm k a k' Hk _ H. destruct (Hm _ _ _ Hk H) as [(st & -> & Hok & D & Hs & HP) HQ]. split; [done|].
  exists st, D. eauto.
Qed.

Lemma owns_bind p {A B} (Q : B -> Vfs -> Prop) (m : Mem A) (f : A -> Mem B) :
  vframes m -> (forall a, owns p Q (f a)) -> owns p Q (bind m f).
Proof using KB.
  intros Hm Hf k b k' Hk [c Hb] H. apply bind_ok in H as (a & k1 & H1 & H2). pose proof (Hm _ _ _ Hk H1) as Hk1.
  destruct (Hf a k1 b k') as [HQ (st & D & -> & Hok & Hs & HP)];
    [by eapply vfs_kept_framed|destruct Hk1 as (st & -> & Hst); exists c; by eapply kept_typed|done|].
  split; [done|]. destruct Hk1 as (st1 & -> & _ & D1 & Hs1 & HP1). exists st, (D1 ∪ D). cbn in Hs, HP.
  split_and!; [by destruct k as [[] ? ?]|done| |].
  - intros q [Hq1 Hq2]%not_elem_of_union Hd. rewrite Hs; [by apply Hs1|done|].
    rewrite elem_of_dom, Hs1 by done. by apply elem_of_dom.
  - intros q o [Hq|Hq]%elem_of_union Hne Ho; [by eapply HP1|]. destruct (decide (q ∈ D1)) as [|Hn]; [by eapply HP1|].
    eapply HP; [done|done|]. rewrite Hs1; [done|done|]. by apply elem_of_dom_2 in Ho.
Qed.

Lemma owns_free p {A} (Q : A -> Vfs -> Prop) (m : Mem A) : ends Q m -> owns p Q (on_objs (free_obj p) ;;; m).
Proof using.
  intros Hm k a k' Hk [b Hb] H. apply bind_ok in H as ([] & k1 & H1 & H2).
  apply on_objs_ok in H1 as (st & H1 & ->). apply elem_of_dom_2 in Hb.
  destruct (free_obj_spec _ p (proj1 Hk) Hb) as (st' & E & Hok & Ho). rewrite H1 in E. injection E as <-.
  destruct (Hm (set_objs st k) a k') as [(st2 & -> & Hok2 & D & Hs & HP) HQ]; [by split; [|apply Hk]|done|].
  split; [done|]. exists st2, ({[p]} ∪ D). cbn in Hs, HP. split_and!; [by destruct k as [[] ? ?]|done| |].
  - intros q [Hq1 Hq2]%not_elem_of_union Hd. rewrite not_elem_of_singleton in Hq1.
    rewrite Hs; [rewrite Ho; by apply lookup_delete_ne|done|].
    rewrite elem_of_dom, Ho, lookup_delete_ne by done. by apply elem_of_dom.
  - intros q o [->%elem_of_singleton|Hq]%elem_of_union Hne Hq'; [done|]. eapply HP; [done|].
    rewrite Ho, lookup_delete_ne by done. exact Hq'.
Qed.

(** A buffer that is fresh can be freed. *)
Lemma owns_kept p {A} (Q : A -> Vfs -> Prop) (m : Mem A) k k1 a k' (b : Block) :
  framed k -> grown k k1 -> (p ∉ dom (objs (store (scheduler k)))) -> typed_at (store (scheduler k1)) p b ->
  owns p Q m -> m k1 = Ok (a, k') -> vfs_kept k k' /\ Q a k'.
Proof using.
  intros Hk Hg Hp Hb Hm H. pose proof (vfs_kept_framed _ _ (grown_kept _ _ Hg) Hk) as Hk1.
  destruct (Hm k1 a k' Hk1 (ex_intro _ b Hb) H) as [HQ (st & D & -> & Hok & Hs & HP)]. split; [|done].
  destruct Hg as (st1 & -> & Hok1 & Hs1 & Hd1). exists st. split; [by destruct k as [[] ? ?]|]. cbn in Hs, HP.
  split; [done|]. exists D. split.
  - intros q Hq Hd. rewrite Hs by (done || by apply Hd1). apply Hs1; [by apply not_elem_of_empty|done].
  - intros q o Hq Ho. pose proof (elem_of_dom_2 _ _ _ Ho) as Hd. eapply HP; [done|congruence|].
    rewrite Hs1; [done|by apply not_elem_of_empty|done].
Qed.

Context (core slack : Z) (junk_Block : Z -> Block) (junk_File : Z -> File) (stale : Z -> Z -> list Z).

(** What [open] returns: NULL or an open file. *)
Definition opened (md f : Z) (k : Vfs) : Prop :=
  f = 0 \/ exists r : File, typed_at (store (scheduler k)) f r /\ f_present r = true /\ mode r = md.

Lemma ends_new_file p off c md obj : ends (opened md) (new_file junk_File stale p off c md obj).
Proof using.
  intros k f k' Hk H. apply on_objs_ok in H as (st & H & ->). apply bind_ok in H as (q & s1 & H1 & H).
  destruct (raw_obj_spec (store (scheduler k)) sizeof_File junk_File (proj1 Hk)) as [(q' & s1' & E & Hq & _ & Hok1 & Ho)|E];
    [by unfold sizeof_File|rewrite H1 in E; injection E as <- <-|by rewrite H1 in E].
  assert (typed_at s1 q (junk_File q)) as Hr by (unfold typed_at; by rewrite Ho, lookup_insert_eq).
  apply bind_ok in H as (ty & s2 & H2 & H). unfold lift in H2. apply obind_ok in H2 as (ty' & _ & [= <- <-]).
  rewrite (bind_run _ _ _ _ _ (get_obj_run _ _ _ Hr)) in H.
  match type of H with context [put_obj q ?x] => set (f0 := x) in H; pose proof (put_obj_ok s1 q _ f0 Hok1 Hr) as Hok end.
  rewrite (bind_run _ _ _ _ _ (put_obj_run s1 q _ f0 Hr)) in H.
  injection H as <- <-. split.
  - exists (MkStore (store_heap s1) (<[q := to_obj f0]> (objs s1))). split; [done|]. split; [done|]. exists ∅.
    split; [|by intros x o Hx%not_elem_of_empty]. intros x _ Hx. cbn [objs]. rewrite Ho, !lookup_insert_ne by (by intros ->). done.
  - right. exists f0. split; [unfold typed_at; cbn; apply lookup_insert_eq|done].
Qed.

Lemma lift_ok {A} (o : outcome A) (k : Vfs (Obj := Obj)) a k' : lift o k = Ok (a, k') -> o = Ok a /\ k' = k.
Proof using. intros H. apply obind_ok in H as (a' & -> & [= -> <-]). done. Qed.

Lemma copy_path_owned terminate s a k p b k' :
  store_ok (store (scheduler k)) -> c_string s a -> Zlen s < 2 ^ 31 -> 0 <= slack ->
  copy_path slack junk_Block terminate a k = Ok ((p, b), k') ->
  grown k k' /\ (p ∉ dom (objs (store (scheduler k)))) /\ exists b0 : Block, typed_at (store (scheduler k')) p b0.
Proof using.
  intros Hok Hs Hl Hsl H. pose proof (Zlen_nonneg s). unfold copy_path in H.
  rewrite (bind_lift _ _ _ _ (c_string_strlen _ _ Hs)) in H. apply bind_ok in H as ([q b1] & k1 & H1 & H).
  destruct (malloc_buffer_spec slack junk_Block k (Zlen s) Hok ltac:(lia) Hsl) as [E|(q' & b2 & k2 & E & Hg & _ & Hq & Hb)];
    rewrite H1 in E; [done|]. injection E as <- <- <-.
  assert (p = q /\ k' = k1) as [-> ->]; [|split_and!; [done|done|by exists b1]].
  apply bind_ok in H as (b2 & k2 & [_ ->]%lift_ok & H). destruct terminate; [|by injection H as <- _ <-].
  apply bind_ok in H as (b3 & k3 & [_ ->]%lift_ok & H). by injection H as <- _ <-.
Qed.

(** The part of [open] behind its path. *)
Lemma owns_open_rest fl md path p np c (d : Drive Obj) : FileSystemFrame P (drive_fs d) ->
  owns p (opened md)
    (if negb (present d) then on_objs (free_obj p) ;;; ret 0
     else
       let* current_obj := open_root d in
       let* r := open_loop (drive_fs d) (length path) fl md path np 3 3 current_obj in
       match r with
       | None => ret 0
       | Some (current_obj, off, i) =>
           free_path p off i ;;;
           new_file junk_File stale p off c md current_obj
       end).
Proof using KB.
  clear KV KN KT KF. intros Hd. assert (forall k, opened md 0 k) as H0 by (by left). destruct (present d); cbn [negb].
  - unfold open_root. apply owns_bind; [apply vframes_bind; intros; apply vframes_on_objs; auto with frames|]. intros obj.
    apply owns_bind; [by apply frames_on_objs|]. intros [[[o off] i]|]; [|by apply owns_of_ends, ends_ret].
    unfold free_path. destruct (off =? i); [|by intros k a k' _ _ H].
    apply owns_free, ends_new_file.
  - by apply owns_free, ends_ret.
Qed.

(** [open] keeps the frame, and returns NULL or an open file. *)
Lemma open_kept k cd s a fl md f k' :
  framed k -> in_directory core k cd -> cd <> [] -> c_string s a -> s <> [] -> 0 <= slack ->
  Zlen s < 2 ^ 30 -> Zlen cd < 2 ^ 30 ->
  open core slack junk_Block junk_File stale a fl md k = Ok (f, k') -> vfs_kept k k' /\ opened md f k'.
Proof using KB.
  clear KV KN KT KF. intros Hk Hdir Hcd Hs Hne Hsl Hl1 Hl2 H. unfold open in H.
  match type of H with bind (on_sched (get_current_task core)) (fun t => bind (extend_path _ _ t a) ?f) _ = _ =>
    destruct (path_start core slack junk_Block k cd s a f Hdir Hcd Hs Hne Hsl ltac:(lia) ltac:(lia))
      as [E|(a' & k1 & Hg & Hc & _ & E)] end; rewrite E in H; [done|]. clear E.
  pose proof (vfs_kept_framed _ _ (grown_kept _ _ Hg) Hk) as Hk1.
  apply bind_ok in H as (c & k2 & [_ ->]%lift_ok & H). destruct (bad_drive c).
  { injection H as <- <-. split; [by apply grown_kept|by left]. }
  apply bind_ok in H as ([p np] & k2 & H2 & H).
  assert (Zlen (full_path cd s) < 2 ^ 31) as Hl3.
  { unfold full_path. destruct (is_absolute s); [lia|]. destruct (bool_decide _); autorewrite with zlen; lia. }
  destruct (copy_path_owned true _ _ _ _ _ _ (proj1 Hk1) Hc Hl3 Hsl H2) as (Hg2 & Hp & b & Hb).
  unfold drive_at in H. rewrite bind_assoc, bind_get in H. apply bind_ok in H as (d & k3 & [Hd ->]%lift_ok & H).
  assert (FileSystemFrame P (drive_fs d)) as Hfs.
  { unfold rd in Hd. destruct (_ <? 0); [done|]. destruct (drives k2 !! _) eqn:El; [|done]. injection Hd as ->.
    rewrite (grown_drives _ _ Hg2) in El. destruct Hk1 as [_ Hds]. eapply Forall_lookup_1 in Hds; [exact Hds|exact El]. }
  destruct (owns_kept p (opened md) _ k1 k2 f k' b Hk1 Hg2 Hp Hb (owns_open_rest fl md a' p np c d Hfs) H) as [Hkept HQ].
  split; [|done]. eapply vfs_kept_trans; [by apply grown_kept|done].
Qed.

Context (printf : list Z -> Mem unit) (printf_ok : forall b, vframes (printf b)).

(** The file and the file system of its drive. *)
Lemma vframes_file_drive {B} x (f : File * Drive Obj -> Mem B) :
  (forall r d, FileSystemFrame P (drive_fs d) -> vframes (f (r, d))) -> vframes (bind (file_drive x) f).
Proof using.
  intros Hf k b k' Hk H. unfold file_drive in H. rewrite bind_assoc in H. revert H. apply vframes_bind; [vframes| |done].
  intros r k1 b1 k1' Hk1 H. rewrite bind_assoc in H. revert H. apply vframes_drive_at; [|done].
  intros d Hd k2 b2 k2' Hk2 H. rewrite bind_ret in H. by eapply Hf.
Qed.

Lemma vframes_write f b n : vframes (write printf f b n).
Proof using printf_ok. clear KV KN KT KB KF. unfold write. repeat first [solve [eauto with vframes frames] | apply vframes_file_drive; intros | vframes_step]. Qed.
Lemma vframes_read f b n : vframes (read f b n).
Proof using. clear KV KN KT KB KF. unfold read. vframes. Qed.
Lemma vframes_close f : vframes (close f).
Proof using. clear KV KN KT KB KF. unfold close. apply vframes_file_drive. intros. vframes. Qed.
Lemma vframes_length f : vframes (file_length f).
Proof using. clear KV KN KT KB KF. unfold file_length. apply vframes_file_drive. intros. vframes. Qed.
End Calls.
