(* ===== verification/Syscalls.v ===== *)
(** * tasks/syscalls.c: system calls on files, directories and events

    What the interrupt 0x80 calls on behalf of the running task.  The pointers a
    program passes are buffers in its own memory: a call gets the bytes from the
    pointer on, and returns what it leaves there.  The calls of one processor
    run one after the other; [core] is the processor. *)
From S2P Require Import Prelude Allocator Chain Memory PMM KHeap Strings Vector Events Blocks Tasks TempFS VFS Mount.
From S2P Require Import Descriptors Frames.

(** ** The code *)

Section Syscalls.
Context `{AL : Allocator} {Obj : Type}.
Context `{OV : !Object Vector Obj, ON : !Object VectorNode Obj, OE : !Object Event Obj}.
Context `{OT : !Object Task Obj, OB : !Object Block Obj, OL : !Object File Obj}.
Abbreviation Mem := (M (Vfs (Obj := Obj))).

(** [printf] of a constant text: output only. *)
Context (printf : list Z -> Mem unit).

(** "File could not be written to, has not been opened." *)
Definition write_message : list Z :=
   [70; 105; 108; 101; 32; 99; 111; 117; 108; 100; 32; 110; 111; 116; 32; 98; 101; 32; 119; 114; 105; 116; 116;
   101; 110; 32; 116; 111; 44; 32; 104; 97; 115; 32; 110; 111; 116; 32; 98; 101; 101; 110; 32; 111; 112; 101;
   110; 101; 100; 46; 10; 0].
(** "File could not be read from, has not been opened." *)
Definition read_message : list Z :=
   [70; 105; 108; 101; 32; 99; 111; 117; 108; 100; 32; 110; 111; 116; 32; 98; 101; 32; 114; 101; 97; 100; 32;
   102; 114; 111; 109; 44; 32; 104; 97; 115; 32; 110; 111; 116; 32; 98; 101; 101; 110; 32; 111; 112; 101; 110;
   101; 100; 46; 10; 0].
(** "Hey that syscall doesn't exist! (Invalid syscall!)" *)
Definition invalid_message : list Z :=
   [72; 101; 121; 32; 116; 104; 97; 116; 32; 115; 121; 115; 99; 97; 108; 108; 32; 100; 111; 101; 115; 110; 39;
   116; 32; 101; 120; 105; 115; 116; 33; 32; 40; 73; 110; 118; 97; 108; 105; 100; 32; 115; 121; 115; 99; 97; 108;
   108; 33; 41; 10; 0].

(** [current_task->resources[fd]]: there are [NUM_RESOURCES] of them. *)
Definition resource (current_task fd : Z) : Mem Z :=
  let* t := on_objs (get_obj Task current_task) in lift (rd (resources t) fd).
Definition set_resource (fd f : Z) (t : Task) : Task := set_resources (<[Z.to_nat fd := f]> (resources t)) t.

Section Core.
Context (core : Z).

Definition syscall_write (fd : Z) (buffer : list Z) (len : Z) : Mem Z :=
  let* current_task := on_sched (get_current_task core) in
  let* f := resource current_task fd in
  let* r := on_objs (get_obj File f) in
  if negb (f_present r) then printf write_message ;;; ret 1
  else
    let* write_status := write printf f buffer len in
    if negb (write_status =? 0) then ret write_status else ret 0.

(** The status, and the buffer after the call. *)
Definition syscall_read (fd : Z) (buffer : list Z) (len : Z) : Mem (Z * list Z) :=
  let* current_task := on_sched (get_current_task core) in
  let* f := resource current_task fd in
  let* r := on_objs (get_obj File f) in
  if negb (f_present r) then printf read_message ;;; ret (1, buffer)
  else
    let* (read_status, buffer) := read f buffer len in
    if negb (read_status =? 0) then ret (read_status, buffer) else ret (0, buffer).

Definition syscall_get_cwd (buffer : list Z) (len : Z) : Mem (list Z) :=
  let* current_task := on_sched (get_current_task core) in
  let* cd := task_cd current_task in
  let* cd_len := lift (ku_strlen cd) in
  let copy_len := if len >? cd_len then cd_len else len in
  lift (ku_memcpy buffer cd copy_len).

(** The event the program's buffer holds afterwards. *)
Definition take_event (m : Z -> M (Store Obj) Z) : Mem Event :=
  let* current_task := on_sched (get_current_task core) in
  on_objs (
    let* t := get_obj Task current_task in
    let* this_event := m (event_queue t) in
    let* e := get_obj Event this_event in
    free_obj this_event ;;;
    ret e).
Definition syscall_poll : Mem Event := take_event poll.
Definition syscall_peek : Mem Event := take_event peek.

Definition syscall_get_errno : Mem Z :=
  let* current_task := on_sched (get_current_task core) in
  let* t := on_objs (get_obj Task current_task) in
  ret (errno t).

Definition syscall_invalid : Mem unit := printf invalid_message.

Definition syscall_close (fd : Z) : Mem unit :=
  let* current_task := on_sched (get_current_task core) in
  let* f := resource current_task fd in
  close f ;;;
  on_objs (set_field current_task (set_resource fd 0)).

Section Open.
Context (slack : Z) (junk_Block : Z -> Block) (junk_File : Z -> File) (stale : Z -> Z -> list Z).

(** The loop over the file descriptors, [n] of them from [fd] on. *)
Fixpoint open_slot (n : nat) (current_task fd : Z) (path : list Z) (fl md : Z) : Mem Z :=
  match n with
  | O => ret (-1)
  | S n' =>
      let* r := resource current_task fd in
      if negb (r =? 0) then open_slot n' current_task (fd + 1) path fl md
      else
        let* f := open core slack junk_Block junk_File stale path fl md in
        on_objs (set_field current_task (set_resource fd f)) ;;;
        ret fd
  end.
Definition syscall_open (path : list Z) (fl md : Z) : Mem Z :=
  let* current_task := on_sched (get_current_task core) in
  open_slot (Z.to_nat NUM_RESOURCES) current_task 0 path fl md.
End Open.
End Core.
End Syscalls.

(** The lock around the handler. *)
Definition lock_syscall_handler : M bool unit := fun held => if held then Spin else Ok (tt, true).
Definition unlock_syscall_handler : M bool unit := modify (fun _ => false).

(** Interrupt 0x80: a gate that programs may use. *)
Definition init_syscalls (syscall_isr : Z) : M Machine unit :=
  let* m := get in
  on_kernel (set_IDT_entry 0x80 syscall_isr 0xEF (idtr_offset (idtr m))).

(** ** The system *)

Section Theory.
Context `{AL : Allocator} {Obj : Type}.
Context `{OV : !Object Vector Obj, ON : !Object VectorNode Obj, OE : !Object Event Obj}.
Context `{OT : !Object Task Obj, OB : !Object Block Obj, OL : !Object File Obj}.
Abbreviation Mem := (M (Vfs (Obj := Obj))).
Abbreviation objects k := (store (scheduler k)).

(** The task list holds the tasks [tks] at the addresses [ts], and the task of
    [core] is the one at [p], with the record [t]. *)
Record running (core : Z) (k : Vfs) (ts : list Z) (tks : list Task) (cs : list Z) (cur : nat) (p : Z) (t : Task) : Prop := {
  run_sched : Tasks.sched (scheduler k) ts tks cs;
  run_unlocked : unlocked (scheduler k);
  run_core : 0 <= core;
  run_current : cs !! Z.to_nat core = Some (Z.of_nat cur);
  run_address : ts !! cur = Some p;
  run_task : tks !! cur = Some t
}.

Lemma running_task core k ts tks cs cur p t :
  running core k ts tks cs cur p t ->
  on_sched (get_current_task core) k = Ok (p, k) /\ typed_at (objects k) p t /\ store_ok (objects k).
Proof using.
  intros [Hs [_ Hu] Hc Hcur Hp Ht]. split_and!; [|by eapply sched_task|by destruct Hs].
  unfold on_sched. rewrite (get_current_task_run _ _ _ _ _ _ Hs Hu Hc Hcur) by lia.
  rewrite Nat2Z.id, Hp. by destruct k.
Qed.

Lemma running_directory core k ts tks cs cur p t cd :
  running core k ts tks cs cur p t -> string_at (objects k) (current_dir t) cd -> in_directory core k cd.
Proof using. intros [Hs Hu Hc Hcur Hp Ht] Hcd. exists ts, tks, cs, cur, t. by split_and!. Qed.

(** Changing the record of the running task. *)
Lemma running_update core k ts tks cs cur p t f :
  running core k ts tks cs cur p t ->
  exists k', on_objs (set_field p f) k = Ok (tt, k') /\ running core k' ts (<[cur := f t]> tks) cs cur p (f t) /\
    same_except {[p]} (objects k) (objects k') /\ k' = set_objs (objects k') k /\
    on_objs (set_field p f) k = on_objs (put_obj p (f t)) k.
Proof using.
  intros [Hs Hu Hc Hcur Hp Ht]. destruct (update_task _ _ _ _ _ _ _ f Hs Hp Ht) as (s' & E & Hs' & [st ->] & Hse).
  exists (set_objs st k). split_and!; [by unfold on_objs, on_sched; rewrite E| |done|done|].
  - split; try done. by rewrite list_lookup_insert_eq by (by eapply lookup_lt_Some).
  - pose proof (sched_task _ _ _ _ _ _ _ Hs Hp Ht) as Hx. unfold on_objs, on_sched, on_store.
    by rewrite (set_field_run _ _ _ f Hx), (put_obj_run _ _ _ _ Hx).
Qed.

(** ** Descriptors *)

(** The lowest free descriptor. *)
Definition lowest_free (r : list Z) : option nat := fst <$> list_find (fun f => f = 0) r.

Lemma resource_run k p (t : Task) fd :
  typed_at (objects k) p t ->
  resource p fd k = match rd (resources t) fd with Ok f => Ok (f, k) | _ => Fault end.
Proof using.
  intros Ht. unfold resource. rewrite (bind_run _ _ _ _ _ (on_objs_read _ _ _ (get_obj_run _ _ _ Ht))).
  unfold lift, rd. destruct (_ <? 0); [done|]. by destruct (resources t !! _).
Qed.

Lemma resource_at k p (t : Task) (fd : Z) f {B} (g : Z -> Mem B) :
  typed_at (objects k) p t -> 0 <= fd -> resources t !! Z.to_nat fd = Some f -> bind (resource p fd) g k = g f k.
Proof using.
  intros Ht Hfd Hf. apply bind_run. rewrite (resource_run _ _ _ _ Ht). unfold rd.
  destruct (Z.ltb_spec fd 0); [lia|]. by rewrite Hf.
Qed.

Lemma resource_null k f {B} (g : File -> Mem B) : store_ok (objects k) -> f = 0 -> bind (on_objs (get_obj File f)) g k = Fault.
Proof using. intros Hok ->. unfold bind, on_objs, on_sched, on_store. by rewrite get_obj_null. Qed.

Section Calls.
Context (printf : list Z -> Mem unit).
Context (core slack : Z) (junk_Block : Z -> Block) (junk_File : Z -> File) (stale : Z -> Z -> list Z).
Abbreviation open := (open core slack junk_Block junk_File stale).
Abbreviation syscall_open := (syscall_open core slack junk_Block junk_File stale).

Lemma open_slot_run k p (t : Task) path fl md : typed_at (objects k) p t -> forall r n pre,
  resources t = pre ++ r -> n = length r ->
  open_slot core slack junk_Block junk_File stale n p (Zlen pre) path fl md k =
  match lowest_free r with
  | None => Ok (-1, k)
  | Some i =>
      (let* f := open path fl md in
       on_objs (set_field p (set_resource (Zlen pre + Z.of_nat i) f)) ;;;
       ret (Zlen pre + Z.of_nat i)) k
  end.
Proof using.
  intros Ht r. induction r as [|f r IH]; intros n pre Hr ->; [done|]. cbn [open_slot length].
  pose proof (Zlen_nonneg pre).
  rewrite (resource_at k p t (Zlen pre) f) by (done || (rewrite Zlen_to_nat, Hr; by apply list_lookup_middle)).
  unfold lowest_free. cbn [list_find]. destruct (Z.eqb_spec f 0) as [->|Hne].
  - rewrite decide_True by done. cbn. by rewrite Z.add_0_r.
  - rewrite decide_False by done. cbn [negb]. replace (Zlen pre + 1) with (Zlen (pre ++ [f])) by zlen.
    rewrite (IH _ (pre ++ [f])) by (done || by rewrite Hr, <- app_assoc). unfold lowest_free.
    destruct (list_find _ r) as [[i x]|]; cbn; [|done].
    by replace (Zlen (pre ++ [f]) + Z.of_nat i) with (Zlen pre + Z.of_nat (S i)) by zlen.
Qed.

Lemma syscall_open_run k ts tks cs cur p t path fl md :
  running core k ts tks cs cur p t -> Zlen (resources t) = NUM_RESOURCES ->
  syscall_open path fl md k =
  match lowest_free (resources t) with
  | None => Ok (-1, k)
  | Some i =>
      (let* f := open path fl md in
       on_objs (set_field p (set_resource (Z.of_nat i) f)) ;;;
       ret (Z.of_nat i)) k
  end.
Proof using.
  intros Hr Hlen. destruct (running_task _ _ _ _ _ _ _ _ Hr) as (E & Ht & _). unfold syscall_open.
  rewrite (bind_run _ _ _ _ _ E). rewrite (open_slot_run k p t path fl md Ht (resources t) _ []);
    [done|done|]. unfold Zlen in Hlen. lia.
Qed.

Lemma syscall_write_run k ts tks cs cur p t fd f r b n :
  running core k ts tks cs cur p t -> 0 <= fd -> resources t !! Z.to_nat fd = Some f ->
  typed_at (objects k) f r -> f_present r = true ->
  syscall_write printf core fd b n k = write printf f b n k.
Proof using.
  intros Hr Hfd Hf Hx Hp. destruct (running_task _ _ _ _ _ _ _ _ Hr) as (E & Ht & _). unfold syscall_write.
  rewrite (bind_run _ _ _ _ _ E), (resource_at k p t fd f _ Ht Hfd Hf).
  rewrite (bind_run _ _ _ _ _ (on_objs_read _ _ _ (get_obj_run _ _ _ Hx))), Hp. cbn [negb]. unfold bind.
  destruct (write printf f b n k) as [[st k']| | |]; cbn [obind]; [|done..].
  destruct (Z.eqb_spec st 0) as [->|_]; done.
Qed.

Lemma syscall_read_run k ts tks cs cur p t fd f r b n :
  running core k ts tks cs cur p t -> 0 <= fd -> resources t !! Z.to_nat fd = Some f ->
  typed_at (objects k) f r -> f_present r = true ->
  syscall_read printf core fd b n k = read f b n k.
Proof using.
  intros Hr Hfd Hf Hx Hp. destruct (running_task _ _ _ _ _ _ _ _ Hr) as (E & Ht & _). unfold syscall_read.
  rewrite (bind_run _ _ _ _ _ E), (resource_at k p t fd f _ Ht Hfd Hf).
  rewrite (bind_run _ _ _ _ _ (on_objs_read _ _ _ (get_obj_run _ _ _ Hx))), Hp. cbn [negb]. unfold bind.
  destruct (read f b n k) as [[[st b'] k']| | |]; cbn [obind]; [|done..].
  destruct (Z.eqb_spec st 0) as [->|_]; done.
Qed.

Lemma syscall_close_run k ts tks cs cur p t fd f :
  running core k ts tks cs cur p t -> 0 <= fd -> resources t !! Z.to_nat fd = Some f ->
  syscall_close core fd k = (close f ;;; on_objs (set_field p (set_resource fd 0))) k.
Proof using.
  intros Hr Hfd Hf. destruct (running_task _ _ _ _ _ _ _ _ Hr) as (E & Ht & _). unfold syscall_close.
  by rewrite (bind_run _ _ _ _ _ E), (resource_at k p t fd f _ Ht Hfd Hf).
Qed.

(** A descriptor that holds NULL, and one outside the table. *)
Lemma syscall_null k ts tks cs cur p t fd :
  running core k ts tks cs cur p t -> 0 <= fd -> resources t !! Z.to_nat fd = Some 0 \/ NUM_RESOURCES <= fd ->
  Zlen (resources t) = NUM_RESOURCES ->
  (forall b n, syscall_write printf core fd b n k = Fault /\ syscall_read printf core fd b n k = Fault) /\
  syscall_close core fd k = Fault.
Proof using.
  intros Hr Hfd Hf Hlen. destruct (running_task _ _ _ _ _ _ _ _ Hr) as (E & Ht & Hok).
  assert (forall B (g : Z -> Mem B), (forall k', store_ok (objects k') -> g 0 k' = Fault) -> bind (resource p fd) g k = Fault) as Hg.
  { intros B g H0. destruct Hf as [Hf|Hf].
    - rewrite (resource_at k p t fd 0 g Ht Hfd Hf). by apply H0.
    - unfold bind. rewrite (resource_run k p t fd Ht). unfold rd. destruct (fd <? 0); [done|].
      rewrite lookup_ge_None_2; [done|]. unfold Zlen in Hlen. lia. }
  split; [intros b n; split|]; unfold syscall_write, syscall_read, syscall_close; rewrite (bind_run _ _ _ _ _ E); apply Hg;
    intros k' Hk'; [by apply resource_null..|].
  unfold close, file_drive. rewrite !bind_assoc. by apply resource_null.
Qed.
End Calls.

(** ** What the calls keep *)

Context (P : Obj -> Prop).
Context `{KV : !Keeps P Vector, KN : !Keeps P VectorNode, KT : !Keeps P Task, KB : !Keeps P Block, KF : !Keeps P File}.

Lemma sched_kept k k' ts tks cs :
  vfs_kept P k k' -> Tasks.sched (scheduler k) ts tks cs -> Tasks.sched (scheduler k') ts tks cs.
Proof using KV KN KT.
  intros (st & -> & Hok & D & Hs & HP) H. apply (sched_frame _ _ _ _ D); [done| |done|done].
  split_and!; [|intros; by eapply vec_apart..].
  destruct H as [_ _ Hts _]. intros q Hq [i Hi]%elem_of_list_to_set%list_elem_of_lookup.
  destruct (Forall2_lookup_l _ _ _ _ _ Hts Hi) as (u & _ & Hu). exact (keeps u (HP _ _ Hq Hu)).
Qed.

Lemma running_kept core k k' ts tks cs cur p t :
  vfs_kept P k k' -> running core k ts tks cs cur p t -> running core k' ts tks cs cur p t.
Proof using KV KN KT.
  intros Hk [Hs Hu Hc Hcur Hp Ht]. split; try done; [by eapply sched_kept|]. by destruct Hk as (st & -> & _).
Qed.

(** [syscall_get_cwd] copies the directory without its terminator. *)
Lemma syscall_get_cwd_copies core k ts tks cs cur p t cd b n :
  running core k ts tks cs cur p t -> string_at (objects k) (current_dir t) cd ->
  0 <= n -> Z.min n (Zlen cd) <= Zlen b ->
  syscall_get_cwd core b n k =
    Ok (take (Z.to_nat n) cd ++ drop (Z.to_nat (Z.min n (Zlen cd))) b, k).
Proof using.
  clear P KV KN KT KB KF. intros Hr Hstr Hn Hb. destruct (running_task _ _ _ _ _ _ _ _ Hr) as (E & Ht & Hok).
  destruct (task_cd_run k p t cd Ht Hstr) as (a & Ea & Hc). unfold syscall_get_cwd.
  rewrite (bind_run _ _ _ _ _ E), (bind_run _ _ _ _ _ Ea), (bind_lift _ _ _ _ (c_string_strlen _ _ Hc)).
  destruct Hc as [_ [rest ->]]. pose proof (Zlen_nonneg cd). unfold lift, ku_memcpy.
  assert ((if n >? Zlen cd then Zlen cd else n) = Z.min n (Zlen cd)) as Hm by (destruct (Z.gtb_spec n (Zlen cd)); lia).
  rewrite !Hm. clear Hm.
  destruct (_ && _) eqn:E'; [|unfold Zlen in *; rewrite length_app in E'; cbn [length] in E'; lia]. cbn [obind]. do 3 f_equal.
  rewrite (take_app_le cd) by (unfold Zlen in *; lia). destruct (Z.le_ge_cases n (Zlen cd)).
  - by rewrite Z.min_l.
  - rewrite Z.min_r, Zlen_to_nat, !take_ge by (unfold Zlen in *; lia). done.
Qed.

(** The records of the tasks are neither files nor character blocks. *)
Definition is_task (o : Obj) : Prop := exists t : Task, o = to_obj t.
Context `{TF : !Keeps is_task File, TB : !Keeps is_task Block}.

Lemma typed_not_task `{!Object A Obj, !Keeps is_task A} k k' p (t : Task) q (x : A) :
  same_except {[p]} (objects k) (objects k') -> typed_at (objects k) p t -> typed_at (objects k) q x ->
  typed_at (objects k') q x.
Proof using.
  clear TF TB. intros Hs Ht Hx. eapply same_except_typed; [exact Hs| |done]. intros ->%elem_of_singleton.
  apply (keeps (P := is_task) x). exists t. unfold typed_at in *. congruence.
Qed.

Lemma lowest_free_spec r i :
  lowest_free r = Some i -> r !! i = Some 0 /\ forall j f, (j < i)%nat -> r !! j = Some f -> f <> 0.
Proof using.
  clear. unfold lowest_free. intros H. destruct (list_find _ r) as [[i' x]|] eqn:E; [|done]. injection H as <-.
  apply list_find_Some in E as (Hi & -> & Hj). split; [done|]. intros j f Hlt Hf. by eapply Hj.
Qed.

Lemma resources_length (r : list Z) fd f : Zlen (<[fd := f]> r) = Zlen r.
Proof using. clear. unfold Zlen. by rewrite length_insert. Qed.

Context (printf : list Z -> Mem unit).
Context (core slack : Z) (junk_Block : Z -> Block) (junk_File : Z -> File) (stale : Z -> Z -> list Z).
Abbreviation open := (open core slack junk_Block junk_File stale).
Abbreviation syscall_open := (syscall_open core slack junk_Block junk_File stale).

(** A call that stores the result of [open]. *)
Definition holds_descriptor (k : Vfs) (p fd f md : Z) : Prop :=
  (f = 0 /\ (forall b n, syscall_write printf core fd b n k = Fault /\ syscall_read printf core fd b n k = Fault) /\
     syscall_close core fd k = Fault) \/
  (exists r : File, typed_at (objects k) f r /\ f_present r = true /\ mode r = md /\
     (forall b n, syscall_write printf core fd b n k = write printf f b n k /\
        syscall_read printf core fd b n k = read f b n k) /\
     syscall_close core fd k = (close f ;;; on_objs (set_field p (set_resource fd 0))) k).

Lemma syscall_open_stores k ts tks cs cur p t cd s a fl md i f k1 :
  framed P k -> running core k ts tks cs cur p t -> Zlen (resources t) = NUM_RESOURCES ->
  string_at (objects k) (current_dir t) cd -> cd <> [] -> c_string s a -> s <> [] -> 0 <= slack ->
  Zlen s < 2 ^ 30 -> Zlen cd < 2 ^ 30 ->
  lowest_free (resources t) = Some i -> open a fl md k = Ok (f, k1) ->
  exists k2 t', syscall_open a fl md k = Ok (Z.of_nat i, k2) /\ t' = set_resource (Z.of_nat i) f t /\
    running core k2 ts (<[cur := t']> tks) cs cur p t' /\ vfs_kept P k k1 /\ k2 = set_objs (objects k2) k1 /\
    same_except {[p]} (objects k1) (objects k2) /\ typed_at (objects k1) p t /\ opened md f k1.
Proof using KV KN KT KB.
  clear TF TB KF printf. intros Hk Hr Hlen Hstr Hcd Hs Hne Hsl Hl1 Hl2 Hi Hopen.
  pose proof (running_directory _ _ _ _ _ _ _ _ _ Hr Hstr) as Hdir.
  destruct (open_kept P core slack junk_Block junk_File stale k cd s a fl md f k1 Hk Hdir Hcd Hs Hne Hsl Hl1 Hl2 Hopen)
    as [Hkept Ho].
  pose proof (running_kept _ _ _ _ _ _ _ _ _ Hkept Hr) as Hr1.
  destruct (running_update _ _ _ _ _ _ _ _ (set_resource (Z.of_nat i) f) Hr1) as (k2 & E & Hr2 & Hse & Hk2 & _).
  exists k2, (set_resource (Z.of_nat i) f t). split_and!; try done.
  - rewrite (syscall_open_run _ _ _ _ _ k ts tks cs cur p t a fl md Hr Hlen), Hi.
    by rewrite (bind_run _ _ _ _ _ Hopen), (bind_run _ _ _ _ _ E).
  - apply (running_task _ _ _ _ _ _ _ _ Hr1).
Qed.

(** C13: File descriptors.  [syscall_open] with all [NUM_RESOURCES] descriptors
    taken returns -1 and changes nothing; otherwise it returns the lowest free
    one, which from then on stands for the file [open] has made: reading,
    writing and closing it are [read], [write] and [close] on that file, and
    closing frees the descriptor.  No other descriptor, no other task and no
    vector of the task list changes.  When [open] finds no file, the descriptor
    is returned all the same, holding NULL, and reading, writing or closing it
    dereferences NULL. *)
Theorem syscall_descriptors k ts tks cs cur p t cd s a fl md :
  framed P k -> running core k ts tks cs cur p t -> Zlen (resources t) = NUM_RESOURCES ->
  string_at (objects k) (current_dir t) cd -> cd <> [] -> c_string s a -> s <> [] -> 0 <= slack ->
  Zlen s < 2 ^ 30 -> Zlen cd < 2 ^ 30 ->
  match lowest_free (resources t) with
  | None => syscall_open a fl md k = Ok (-1, k)
  | Some i =>
      resources t !! i = Some 0 /\ (forall j f, (j < i)%nat -> resources t !! j = Some f -> f <> 0) /\
      match open a fl md k with
      | Ok (f, k1) =>
          exists k2 t', syscall_open a fl md k = Ok (Z.of_nat i, k2) /\ t' = set_resource (Z.of_nat i) f t /\
            running core k2 ts (<[cur := t']> tks) cs cur p t' /\
            same_except {[p]} (objects k1) (objects k2) /\ holds_descriptor k2 p (Z.of_nat i) f md
      | Halted => syscall_open a fl md k = Halted
      | Fault => syscall_open a fl md k = Fault
      | Spin => syscall_open a fl md k = Spin
      end
  end.
Proof using KV KN KT KB TF.
  intros Hk Hr Hlen Hstr Hcd Hs Hne Hsl Hl1 Hl2.
  pose proof (syscall_open_run core slack junk_Block junk_File stale k ts tks cs cur p t a fl md Hr Hlen) as Hrun.
  destruct (lowest_free (resources t)) as [i|] eqn:Hi; [|done].
  destruct (lowest_free_spec _ _ Hi) as [H0 Hlow]. split; [done|]. split; [done|].
  destruct (open a fl md k) as [[f k1]| | |] eqn:Hopen; [|by rewrite Hrun; unfold bind; rewrite Hopen..].
  destruct (syscall_open_stores k ts tks cs cur p t cd s a fl md i f k1 Hk Hr Hlen Hstr Hcd Hs Hne Hsl Hl1 Hl2 Hi Hopen)
    as (k2 & t' & E & Ht' & Hr2 & _ & Hk2 & Hse & Ht & Ho).
  exists k2, t'. split_and!; try done.
  assert (resources t' !! Z.to_nat (Z.of_nat i) = Some f) as Hf.
  { rewrite Ht'. cbn [set_resource set_resources resources]. rewrite Nat2Z.id. apply list_lookup_insert_eq.
    by eapply lookup_lt_Some. }
  assert (Zlen (resources t') = NUM_RESOURCES) as Hlen' by (rewrite Ht'; cbn; by rewrite resources_length).
  destruct Ho as [-> |(r & Hx & Hp & Hmd)]; [left; split; [done|]|right].
  - by eapply (syscall_null printf core); [exact Hr2|lia|by left|].
  - pose proof (typed_not_task k1 k2 p t f r Hse Ht Hx) as Hx2. exists r. split_and!; try done.
    + intros b n. split; [by eapply syscall_write_run; [exact Hr2|lia|..]|by eapply syscall_read_run; [exact Hr2|lia|..]].
    + by eapply syscall_close_run; [exact Hr2|lia|].
Qed.
End Theory.

(** ** Events *)

Section EventCalls.
Context `{AL : Allocator} {Obj : Type}.
Context `{OV : !Object Vector Obj, ON : !Object VectorNode Obj, OE : !Object Event Obj}.
Context `{OT : !Object Task Obj, OB : !Object Block Obj, OL : !Object File Obj}.
Abbreviation Mem := (M (Vfs (Obj := Obj))).
Abbreviation objects k := (store (scheduler k)).

Definition is_event (o : Obj) : Prop := exists e : Event, o = to_obj e.
Context `{EV : !Keeps is_event Vector, EN : !Keeps is_event VectorNode, ET : !Keeps is_event Task}.

(** Computations that make no objects. *)
Definition no_new {A} (m : M (Store Obj) A) : Prop :=
  forall s a s' p, m s = Ok (a, s') -> objs s !! p = None -> objs s' !! p = None.

Lemma no_new_bind {A B} (m : M (Store Obj) A) (f : A -> M (Store Obj) B) :
  no_new m -> (forall a, no_new (f a)) -> no_new (bind m f).
Proof using. intros Hm Hf s b s' p (a & s1 & H1 & H2)%bind_ok Hp. by eapply Hf, Hm. Qed.
Lemma no_new_ret {A} (a : A) : no_new (ret a).
Proof using. by intros s b s' p [= _ <-]. Qed.
Lemma no_new_get A `{!Object A Obj} p : no_new (get_obj A p).
Proof using. intros s a s' q H Hq. unfold get_obj in H. destruct (_ ≫= _); [|done]. by injection H as _ <-. Qed.
Lemma no_new_put `{!Object A Obj} p (x : A) : no_new (put_obj p x).
Proof using.
  intros s a s' q H Hq. unfold put_obj in H. destruct (objs s !! p) eqn:Hp; [|done]. cbn in H. destruct (of_obj o); [|done].
  injection H as _ <-. cbn [objs]. rewrite lookup_insert_ne; [done|congruence].
Qed.
Lemma no_new_free p : no_new (free_obj p).
Proof using.
  intros s a s' q H Hq. unfold free_obj in H. apply obind_ok in H as ([u h] & _ & [= _ <-]). cbn [objs].
  destruct (decide (q = p)) as [->|Hne]; [apply lookup_delete_eq|by rewrite lookup_delete_ne].
Qed.

Ltac no_new := repeat first [apply no_new_ret | apply no_new_get | apply no_new_put | apply no_new_free
  | apply no_new_bind; [|intros ?] | match goal with |- no_new (if ?b then _ else _) => destruct b end].
Lemma no_new_walk n : forall a, no_new (walk n a).
Proof using. unfold walk. induction n as [|n IH]; intros a; cbn [linked_walk]; [apply no_new_ret|no_new; apply IH]. Qed.
Lemma no_new_pop v i : no_new (vector_pop v i).
Proof using. unfold vector_pop. pose proof no_new_walk. no_new; eauto. Qed.

Lemma take_event_run core (m : Z -> M (Store Obj) Z) k ts tks cs cur p t :
  running core k ts tks cs cur p t ->
  take_event core m k = on_objs (
    let* this_event := m (event_queue t) in
    let* e := get_obj Event this_event in
    free_obj this_event ;;;
    ret e) k.
Proof using.
  intros Hr. destruct (running_task _ _ _ _ _ _ _ _ Hr) as (E & Ht & _). unfold take_event.
  rewrite (bind_run _ _ _ _ _ E). unfold on_objs, on_sched, on_store. by rewrite (bind_run _ _ _ _ _ (get_obj_run _ _ _ Ht)).
Qed.

(** Taking the event [e] at [q] out of the store [s1]. *)
Lemma take_run core (m : Z -> M (Store Obj) Z) k ts tks cs cur p t q (e : Event) s1 :
  running core k ts tks cs cur p t -> m (event_queue t) (objects k) = Ok (q, s1) -> store_ok s1 -> typed_at s1 q e ->
  exists st, take_event core m k = Ok (e, set_objs st k) /\ store_ok st /\ objs st = delete q (objs s1).
Proof using.
  intros Hr Hm Hok He. destruct (free_obj_spec s1 q Hok) as (st & E & Hok' & Ho); [by eapply elem_of_dom_2|].
  exists st. split; [|done]. rewrite (take_event_run _ _ _ _ _ _ _ _ _ Hr). apply on_objs_run.
  by rewrite (bind_run _ _ _ _ _ Hm), (bind_run _ _ _ _ _ (get_obj_run _ _ _ He)), (bind_run _ _ _ _ _ E).
Qed.

Lemma take_halted core (m : Z -> M (Store Obj) Z) k ts tks cs cur p t :
  running core k ts tks cs cur p t ->
  (m (event_queue t) (objects k) = Halted -> take_event core m k = Halted) /\
  (m (event_queue t) (objects k) = Fault -> take_event core m k = Fault).
Proof using.
  intros Hr. rewrite (take_event_run _ _ _ _ _ _ _ _ _ Hr). unfold on_objs, on_sched, on_store, bind.
  split; by intros ->.
Qed.

(** The events of a queue without the newest, whose record is gone. *)
Lemma syscall_peek_dangles core k ts tks cs cur p t ns ps es :
  running core k ts tks cs cur p t -> queue (objects k) (event_queue t) ns ps es -> es <> [] ->
  exists k', syscall_peek core k = Ok (List.last es no_event, k') /\ running core k' ts tks cs cur p t /\
    syscall_peek core k' = Fault /\ forall r, syscall_poll core k' <> Ok r.
Proof using EV EN ET.
  intros Hr Hq Hne. destruct (running_task _ _ _ _ _ _ _ _ Hr) as (_ & Ht & Hok).
  pose proof (peek_spec _ _ _ _ _ Hok Hq) as Hpeek. pose proof (queue_length _ _ _ _ _ Hq) as Hl.
  assert (exists q e, peek (event_queue t) (objects k) = Ok (q, objects k) /\ List.last ps 0 = q /\ List.last es no_event = e /\
    typed_at (objects k) q e) as (q & e & E & Hlast & He & Hqe) by (by destruct es). clear Hpeek.
  destruct (take_run core peek k ts tks cs cur p t q e _ Hr E Hok Hqe) as (st & E' & Hok' & Ho).
  exists (set_objs st k). split; [by rewrite He|].
  assert (vfs_kept is_event k (set_objs st k)) as Hkept.
  { exists st. split; [done|]. split; [done|]. exists {[q]}. split.
    - intros x Hx _. rewrite Ho. apply lookup_delete_ne. by intros ->; apply Hx, elem_of_singleton.
    - intros x o ->%elem_of_singleton Hx. exists e. unfold typed_at in Hqe. congruence. }
  pose proof (running_kept is_event _ _ _ _ _ _ _ _ _ Hkept Hr) as Hr'. split; [done|].
  assert (objs st !! q = None) as Hnone by (rewrite Ho; apply lookup_delete_eq).
  destruct Hq as [Hv Hes Hap Hnd].
  assert (q ∈ ps) as Hqps.
  { destruct ps as [|x ps] using rev_ind; [destruct es; [done|zlen]|]. rewrite List.last_last in Hlast. subst. set_solver. }
  assert (vec st (event_queue t) ns ps) as Hv'.
  { eapply (vec_frame {[q]}); [|set_solver|exact Hv]. intros x Hx _. rewrite Ho. apply lookup_delete_ne. set_solver. }
  destruct ps as [|x ps' _] using rev_ind; [set_solver|]. rewrite List.last_last in Hlast. subst x.
  pose proof Hv' as (r & Hrv & Hlen & Hb & _).
  assert ((length_ r =? 0) = false) as Hz by (rewrite Hlen; zlen).
  assert (vector_at (event_queue t) (u64 (length_ r - 1)) st = Ok (q, st)) as Hat.
  { rewrite (vector_at_spec st _ ns (ps' ++ [q]) _ Hok' Hv') by apply u64_range. rewrite Hlen, u64_small by zlen.
    replace (Zlen (ps' ++ [q]) - 1) with (Zlen ps') by zlen. by rewrite Zlen_to_nat, list_lookup_middle. }
  split.
  - unfold syscall_peek. rewrite (take_event_run _ _ _ _ _ _ _ _ _ Hr'). unfold on_objs, on_sched, on_store.
    cbn [scheduler set_objs store set_store].
    assert (peek (event_queue t) st = Ok (q, st)) as Ep.
    { unfold peek. by rewrite (bind_run _ _ _ _ _ (get_obj_run _ _ _ Hrv)), Hz. }
    rewrite (bind_run _ _ _ _ _ Ep). unfold bind. by rewrite (get_obj_none _ _ Hnone).
  - intros r'. unfold syscall_poll. rewrite (take_event_run _ _ _ _ _ _ _ _ _ Hr'). intros H.
    destruct r' as [e' k']. apply on_objs_ok in H as (st' & H & _). cbn [scheduler set_objs store set_store] in H.
    apply bind_ok in H as (q' & s1 & H1 & H). unfold poll in H1.
    rewrite (bind_run _ _ _ _ _ (get_obj_run _ _ _ Hrv)), Hz, (bind_run _ _ _ _ _ Hat),
      (bind_run _ _ _ _ _ (get_obj_run _ _ _ Hrv)) in H1.
    apply bind_ok in H1 as ([] & s2 & H1 & [= <- <-]). pose proof (no_new_pop _ _ _ _ _ _ H1 Hnone) as Hnone'.
    unfold bind in H. by rewrite (get_obj_none _ _ Hnone') in H.
Qed.

(** C23: The events a program gets.  [syscall_poll] on an empty queue gives an
    event whose [do_handle] is false, on one event gives that event and empties
    the queue, and on more dereferences NULL.  [syscall_peek] gives the newest
    event; it frees the event's record although the queue still holds it, so
    that the next [syscall_peek] reads a freed block and [syscall_poll] never
    returns again. *)
Theorem syscall_events core k ts tks cs cur p t ns ps es :
  running core k ts tks cs cur p t -> queue (objects k) (event_queue t) ns ps es ->
  match es with
  | [] => (syscall_poll core k = Halted \/ exists k', syscall_poll core k = Ok (no_event, k')) /\
          (syscall_peek core k = Halted \/ exists k', syscall_peek core k = Ok (no_event, k'))
  | [e] => exists k' ns', syscall_poll core k = Ok (e, k') /\ queue (objects k') (event_queue t) ns' [] []
  | _ => syscall_poll core k = Fault
  end /\
  (es <> [] ->
   exists k', syscall_peek core k = Ok (List.last es no_event, k') /\ running core k' ts tks cs cur p t /\
     syscall_peek core k' = Fault /\ forall r, syscall_poll core k' <> Ok r).
Proof using EV EN ET.
  intros Hr Hq. split; [|by eapply syscall_peek_dangles].
  destruct (running_task _ _ _ _ _ _ _ _ Hr) as (_ & Ht & Hok).
  pose proof (poll_spec _ _ _ _ _ Hok Hq) as Hpoll. pose proof (peek_spec _ _ _ _ _ Hok Hq) as Hpeek.
  destruct es as [|e [|e' es]].
  - split.
    + destruct Hpoll as [(q & s1 & E & Hok1 & Hx & _)|E]; [right|left; by eapply take_halted].
      destruct (take_run core poll k _ _ _ _ _ _ q _ s1 Hr E Hok1 Hx) as (st & E' & _). by eexists.
    + destruct Hpeek as [(q & s1 & E & Hok1 & Hx & _)|E]; [right|left; by eapply take_halted].
      destruct (take_run core peek k _ _ _ _ _ _ q _ s1 Hr E Hok1 Hx) as (st & E' & _). by eexists.
  - destruct Hpoll as (q & s1 & ns' & E & Hok1 & Hx & Hq1).
    destruct (take_run core poll k _ _ _ _ _ _ q _ s1 Hr E Hok1 Hx) as (st & E' & Hok' & Ho).
    exists (set_objs st k), ns'. split; [exact E'|]. destruct Hq1 as [Hv _ Hap Hnd]. split; [|constructor|done|done].
    eapply (vec_frame {[q]}); [| |exact Hv].
    + intros x Hx' _. cbn. rewrite Ho. apply lookup_delete_ne. by intros ->; apply Hx', elem_of_singleton.
    + eapply (vec_apart is_event s1); [|exact Hv]. intros x o ->%elem_of_singleton Hx'. exists e.
      unfold typed_at in Hx. congruence.
  - by eapply take_halted.
Qed.
End EventCalls.

(** ** The invariant of the system calls *)

Section Types.
Context `{AL : Allocator} {Obj : Type}.
Context `{OV : !Object Vector Obj, ON : !Object VectorNode Obj, OE : !Object Event Obj}.
Context `{OT : !Object Task Obj, OB : !Object Block Obj, OL : !Object File Obj}.
Abbreviation Mem := (M (Vfs (Obj := Obj))).
Abbreviation objects k := (store (scheduler k)).

(** The objects of the task list. *)
Definition of_tasks (o : Obj) : Prop :=
  (exists t : Task, o = to_obj t) \/ (exists v : Vector, o = to_obj v) \/ exists n : VectorNode, o = to_obj n.
Context `{LF : !Keeps of_tasks File, LB : !Keeps of_tasks Block}.

#[local] Instance task_writes : Writes of_tasks Task.
Proof using. intros t. left. by exists t. Qed.
#[local] Instance node_writes : Writes of_tasks VectorNode.
Proof using. intros n. right. right. by exists n. Qed.

(** *** Task switches keep files and blocks *)

Definition sframes {A} (m : M (Sched Obj) A) : Prop :=
  forall k a k', store_ok (store k) -> m k = Ok (a, k') -> kept of_tasks (store k) (store k').

Lemma sframes_bind {A B} (m : M (Sched Obj) A) (f : A -> M (Sched Obj) B) :
  sframes m -> (forall a, sframes (f a)) -> sframes (bind m f).
Proof using.
  intros Hm Hf k b k' Hk (a & k1 & H1 & H2)%bind_ok. pose proof (Hm _ _ _ Hk H1) as Hk1.
  eapply kept_trans; [exact Hk1|]. eapply Hf; [apply Hk1|exact H2].
Qed.
Lemma sframes_on_store {A} (m : M (Store Obj) A) : frames of_tasks m -> sframes (on_store m).
Proof using.
  intros Hm k a k' Hk H. unfold on_store in H. apply obind_ok in H as ([b st] & H & [= _ <-]). by eapply Hm.
Qed.
Lemma sframes_same {A} (m : M (Sched Obj) A) :
  (forall k a k', m k = Ok (a, k') -> store k' = store k) -> sframes m.
Proof using. intros Hm k a k' Hk H. rewrite (Hm _ _ _ H). by apply kept_refl. Qed.

Lemma sframes_ret {A} (a : A) : sframes (ret a).
Proof using. apply sframes_same. by intros k b k' [= _ <-]. Qed.
Lemma sframes_get : sframes get.
Proof using. apply sframes_same. by intros k b k' [= _ <-]. Qed.
Lemma sframes_aquire held put : (forall b k, store (put b k) = store k) -> sframes (spinlock_aquire held put).
Proof using. intros Hp. apply sframes_same. intros k b k' H. unfold spinlock_aquire in H. destruct (held k); [done|]. by injection H as _ <-. Qed.
Lemma sframes_release put : (forall b k, store (put b k) = store k) -> sframes (spinlock_release put).
Proof using. intros Hp. apply sframes_same. by intros k b k' [= _ <-]. Qed.

Lemma frames_vector_at v i : frames of_tasks (vector_at v i).
Proof using. pose proof (@frames_linked_walk _ _ of_tasks VectorNode). unfold vector_at, walk. frames. Qed.
Lemma frames_vector_set v i x : frames of_tasks (vector_set v i x).
Proof using. pose proof (@frames_linked_walk _ _ of_tasks VectorNode). unfold vector_set, walk. frames. Qed.

Ltac sframes := repeat first
  [ apply sframes_ret | apply sframes_get | by apply sframes_aquire | by apply sframes_release
  | apply sframes_on_store; solve [auto using frames_vector_at, frames_vector_set with frames]
  | apply sframes_bind; [|intros ?] | match goal with |- sframes (if ?b then _ else _) => destruct b end ].

Lemma sframes_get_task n : sframes (get_task n).
Proof using. unfold get_task. sframes. Qed.
Lemma sframes_get_current_task core : sframes (get_current_task core).
Proof using. unfold get_current_task. sframes; apply sframes_get_task. Qed.
Lemma sframes_task_select core fuel : sframes (task_select core fuel).
Proof using.
  induction fuel as [|fuel IH]; [by intros k a k' _ H|]. cbn [task_select].
  sframes; first [apply sframes_get_task|apply sframes_get_current_task|exact IH].
Qed.

(** A switch changes flags of tasks only. *)
Definition same_files (t t' : Task) : Prop := resources t' = resources t /\ current_dir t' = current_dir t.

Lemma same_files_trans l1 l2 l3 : Forall2 same_files l1 l2 -> Forall2 same_files l2 l3 -> Forall2 same_files l1 l3.
Proof using. clear. intros H1 H2. revert l3 H2. induction H1 as [|x y l l' [A1 A2] _ IH]; intros l3 H2; inversion H2 as [|y' z l'' l3' [B1 B2] H3]; subst; [constructor|]. constructor; [split; congruence|by apply IH]. Qed.

Lemma same_files_refl l : Forall2 same_files l l.
Proof using. clear. induction l; by constructor. Qed.

Lemma same_files_alter (f : Task -> Task) i l : (forall t, same_files t (f t)) -> Forall2 same_files l (alter f i l).
Proof using.
  clear. intros Hf. revert i. induction l as [|t l IH]; intros [|i]; cbn; constructor;
    first [apply Hf|apply same_files_refl|by split|apply IH|done].
Qed.

Lemma same_files_insert l i t t' : l !! i = Some t -> same_files t t' -> Forall2 same_files l (<[i := t']> l).
Proof using.
  clear. intros Ht Hs. rewrite <- (list_insert_id l i t Ht) at 1. apply Forall2_insert; [apply same_files_refl|done].
Qed.

Lemma task_select_ok core : forall fuel k ts tks cs cur p k',
  Tasks.sched k ts tks cs -> unlocked k -> 0 <= core -> cs !! Z.to_nat core = Some (Z.of_nat cur) ->
  (cur < length ts)%nat -> (1 < length ts)%nat -> task_select core fuel k = Ok (p, k') ->
  exists tks' j, Tasks.sched k' ts tks' (<[Z.to_nat core := Z.of_nat j]> cs) /\ unlocked k' /\ (j < length ts)%nat /\
    Forall2 same_files tks tks'.
Proof using.
  clear. intros fuel. induction fuel as [|fuel IH]; intros k ts tks cs cur p k' Hs Hu Hcore Hcur Hlt H1 H; [done|].
  pose proof (select_step core fuel k ts tks cs cur Hs Hu Hcore Hcur Hlt H1) as Hst. cbv zeta in Hst.
  destruct (tks !! S cur) as [t|] eqn:Ht; [|by rewrite H in Hst].
  assert (S cur < length ts)%nat as Hlt' by (rewrite (sched_tasks_length _ _ _ _ Hs); by eapply lookup_lt_Some).
  assert (Forall2 same_files tks (alter (clear_flag TASK_RUNNING) cur tks)) as Hsame by (by apply same_files_alter).
  destruct (runnable t).
  - destruct Hst as (k1 & E & Hs1 & Hu1). rewrite H in E. injection E as -> ->.
    eexists _, (S cur). split_and!; [exact Hs1|done|done|]. eapply same_files_trans; [exact Hsame|].
    apply (same_files_insert _ _ t); [|done]. by rewrite list_lookup_alter_ne by lia.
  - destruct Hst as (k1 & E & Hs1 & Hu1). rewrite E in H.
    assert (<[Z.to_nat core := Z.of_nat (S cur)]> cs !! Z.to_nat core = Some (Z.of_nat (S cur))) as Hcur1
      by (apply list_lookup_insert_eq; by eapply lookup_lt_Some).
    destruct (IH k1 ts _ _ (S cur) p k' Hs1 Hu1 Hcore Hcur1 Hlt' H1 H) as (tks' & j & Hs' & Hu' & Hj & Hsame').
    rewrite list_insert_insert_eq in Hs'. exists tks', j. split_and!; try done. by eapply same_files_trans.
Qed.

(** *** Reachable states *)

Context (P : Obj -> Prop).
Context `{KV : !Keeps P Vector, KN : !Keeps P VectorNode, KT : !Keeps P Task, KB : !Keeps P Block, KF : !Keeps P File}.

(** Every descriptor of the task is NULL or an open file, and its directory is a
    string. *)
Definition usable (k : Vfs) (t : Task) : Prop :=
  Zlen (resources t) = NUM_RESOURCES /\
  Forall (fun f => f = 0 \/ exists r : File, typed_at (objects k) f r) (resources t) /\
  exists cd, string_at (objects k) (current_dir t) cd /\ cd <> [] /\ Zlen cd < 2 ^ 30.

(** The kernel with its own task and those of the users; each of the [cpus]
    processors runs one of them. *)
Record system (cpus : Z) (k : Vfs) (ts : list Z) (tks : list Task) (cs : list Z) : Prop := {
  sys_framed : framed P k;
  sys_sched : Tasks.sched (scheduler k) ts tks cs;
  sys_unlocked : unlocked (scheduler k);
  sys_cpus : Zlen cs = cpus;
  sys_current : Forall (fun c => exists n, c = Z.of_nat n /\ (n < length ts)%nat) cs;
  sys_tasks : Forall (usable k) tks;
  sys_many : (1 < length ts)%nat
}.

Lemma system_running cpus k ts tks cs core :
  system cpus k ts tks cs -> 0 <= core < cpus -> exists cur p t, running core k ts tks cs cur p t /\ usable k t.
Proof using.
  clear. intros [_ Hs Hu Hc Hcs Ht _] Hcore. destruct (lookup_lt_is_Some_2 cs (Z.to_nat core)) as [c Hcur];
    [unfold Zlen in Hc; lia|].
  destruct (Forall_lookup_1 _ _ _ _ Hcs Hcur) as (cur & -> & Hlt).
  destruct (lookup_lt_is_Some_2 ts cur Hlt) as [p Hp]. rewrite (sched_tasks_length _ _ _ _ Hs) in Hlt.
  destruct (lookup_lt_is_Some_2 tks cur Hlt) as [t Htk]. exists cur, p, t.
  split; [split; try done; lia|]. by apply (Forall_lookup_1 _ _ _ _ Ht Htk).
Qed.

(** Files and blocks stay. *)
Definition files_stay (k k' : Vfs) : Prop :=
  (forall q (r : File), typed_at (objects k) q r -> typed_at (objects k') q r) /\
  (forall q (b : Block), typed_at (objects k) q b -> typed_at (objects k') q b).

Lemma usable_stays k k' t t' : files_stay k k' -> same_files t t' -> usable k t -> usable k' t'.
Proof using.
  clear. intros [Hf Hb] [Er Ed] (Hl & Hr & cd & (b & Hd & Hc) & Hcd). split; [by rewrite Er|]. split.
  - rewrite Er. eapply Forall_impl; [exact Hr|]. intros f [->|[r Hx]]; [by left|right; exists r; by apply Hf].
  - exists cd. split; [|done]. rewrite Ed. exists b. split; [by apply Hb|done].
Qed.

Lemma kept_files_stay (Q : Obj -> Prop) `{!Keeps Q File, !Keeps Q Block} k k' :
  kept Q (objects k) (objects k') -> files_stay k k'.
Proof using. clear LF LB KV KN KT KB KF. intros Hk. split; intros; by eapply kept_typed. Qed.

Lemma system_kept cpus k k' ts tks cs : vfs_kept P k k' -> system cpus k ts tks cs -> system cpus k' ts tks cs.
Proof using KV KN KT KB KF.
  intros Hk [Hf Hs Hu Hc Hcs Ht Hm]. split; try done.
  - by eapply vfs_kept_framed.
  - by eapply sched_kept.
  - by destruct Hk as (st & -> & _).
  - eapply Forall_impl; [exact Ht|]. intros t. apply usable_stays; [|done].
    destruct Hk as (st & -> & Hst). by apply (kept_files_stay P).
Qed.

(** A new record for the running task. *)
Lemma system_update cpus k ts tks cs core cur p t f k' :
  system cpus k ts tks cs -> running core k ts tks cs cur p t ->
  on_objs (set_field p f) k = Ok (tt, k') -> usable k (f t) ->
  system cpus k' ts (<[cur := f t]> tks) cs.
Proof using LF LB.
  intros [[Hok Hd] Hs Hu Hc Hcs Ht Hm] Hr E Huse.
  destruct (running_update _ _ _ _ _ _ _ _ f Hr) as (k2 & E2 & Hr2 & _ & Hk2 & _). rewrite E in E2. injection E2 as <-.
  pose proof E as E1. apply on_objs_ok in E1 as (st & E1 & Hst). 
  assert (files_stay k k') as Hstay.
  { apply (kept_files_stay of_tasks). subst k'. eapply (frames_set_field of_tasks); [exact Hok|exact E1]. }
  split; try done.
  - split; [by destruct Hr2 as [[]]|]. rewrite Hk2. exact Hd.
  - apply Hr2.
  - apply Hr2.
  - apply Forall_insert; [eapply Forall_impl; [exact Ht|]; intros u; by apply usable_stays|by eapply usable_stays].
Qed.

Context (printf : list Z -> Mem unit) (printf_ok : forall b, vframes P (printf b)).
Context (slack : Z) (junk_Block : Z -> Block) (junk_File : Z -> File) (stale : Z -> Z -> list Z).
Context (slack_ok : 0 <= slack).

(** A call on files, of the directory or of the error number that returns, on any
    of the processors, or a switch of its task.  The calls that make and end
    tasks, map memory or take events (spawn, exit, mmap, poll, peek) are no steps
    of this relation: they have theorems of their own. *)
Inductive file_step (cpus : Z) (k k' : Vfs) : Prop :=
  | step_read core fd b n r :
      0 <= core < cpus -> syscall_read printf core fd b n k = Ok (r, k') -> file_step cpus k k'
  | step_write core fd b n r :
      0 <= core < cpus -> syscall_write printf core fd b n k = Ok (r, k') -> file_step cpus k k'
  | step_open core s a fl md fd :
      0 <= core < cpus -> c_string s a -> s <> [] -> Zlen s < 2 ^ 30 ->
      syscall_open core slack junk_Block junk_File stale a fl md k = Ok (fd, k') -> file_step cpus k k'
  | step_close core fd :
      0 <= core < cpus -> 0 <= fd -> syscall_close core fd k = Ok (tt, k') -> file_step cpus k k'
  | step_get_cwd core b n r :
      0 <= core < cpus -> syscall_get_cwd core b n k = Ok (r, k') -> file_step cpus k k'
  | step_get_errno core r :
      0 <= core < cpus -> syscall_get_errno core k = Ok (r, k') -> file_step cpus k k'
  | step_switch core fuel p :
      0 <= core < cpus -> on_sched (task_select core fuel) k = Ok (p, k') -> file_step cpus k k'.

Create HintDb calls.
#[local] Hint Resolve vframes_ret vframes_lift vframes_on_objs vframes_get_current_task : calls.
Ltac vcalls := repeat first [solve [eauto with calls frames] | apply vframes_bind; [|intros ?]
  | match goal with |- vframes _ (if ?b then _ else _) => destruct b | |- vframes _ (let '(_, _) := ?x in _) => destruct x end].

Lemma vframes_resource p fd : vframes P (resource p fd).
Proof using. unfold resource. vcalls. Qed.
Lemma frames_bytes_at p : frames P (bytes_at p).
Proof using. unfold bytes_at. frames. Qed.
#[local] Hint Resolve vframes_resource frames_bytes_at vframes_read : calls.

Lemma vframes_syscall_read core fd b n : vframes P (syscall_read printf core fd b n).
Proof using printf_ok. unfold syscall_read. vcalls. Qed.
Lemma vframes_syscall_write core fd b n : vframes P (syscall_write printf core fd b n).
Proof using printf_ok. pose proof (vframes_write P printf printf_ok). unfold syscall_write. vcalls. Qed.
Lemma vframes_get_cwd core b n : vframes P (syscall_get_cwd core b n).
Proof using. pose proof frames_bytes_at. unfold syscall_get_cwd, task_cd. vcalls. apply vframes_on_objs. frames. Qed.
Lemma vframes_get_errno core : vframes P (syscall_get_errno core).
Proof using. unfold syscall_get_errno. vcalls. Qed.

Lemma usable_descriptor k t fd f :
  usable k t -> f = 0 \/ (exists r : File, typed_at (objects k) f r) -> usable k (set_resource fd f t).
Proof using.
  clear. intros (Hl & Hr & Hcd) Hf. split; [cbn; by rewrite resources_length|]. split; [|exact Hcd].
  cbn. by apply Forall_insert.
Qed.

Lemma system_open cpus k ts tks cs core s a fl md fd k' :
  system cpus k ts tks cs -> 0 <= core < cpus -> c_string s a -> s <> [] -> Zlen s < 2 ^ 30 ->
  syscall_open core slack junk_Block junk_File stale a fl md k = Ok (fd, k') ->
  exists tks', system cpus k' ts tks' cs.
Proof using LF LB KV KN KT KB KF slack_ok.
  intros Hsys Hcore Hs Hne Hl H. destruct (system_running _ _ _ _ _ _ Hsys Hcore) as (cur & p & t & Hr & Huse).
  pose proof Huse as (Hlen & _ & cd & Hstr & Hcd & Hlcd). pose proof H as H'.
  rewrite (syscall_open_run core slack junk_Block junk_File stale k ts tks cs cur p t a fl md Hr Hlen) in H'.
  destruct (lowest_free (resources t)) as [i|] eqn:Hi; [|injection H' as _ <-; by exists tks].
  apply bind_ok in H' as (f & k1 & Hopen & H').
  destruct (syscall_open_stores P core slack junk_Block junk_File stale k ts tks cs cur p t cd s a fl md i f k1
    (sys_framed _ _ _ _ _ Hsys) Hr Hlen Hstr Hcd Hs Hne slack_ok Hl Hlcd Hi Hopen)
    as (k2 & t' & E & Ht' & _ & Hkept & _ & _ & _ & Ho).
  apply bind_ok in H' as ([] & k3 & H3 & [= _ <-]).
  pose proof (system_kept _ _ _ _ _ _ Hkept Hsys) as Hsys1.
  pose proof (running_kept P _ _ _ _ _ _ _ _ _ Hkept Hr) as Hr1.
  exists (<[cur := t']> tks). subst t'. eapply system_update; [exact Hsys1|exact Hr1|exact H3|].
  apply usable_descriptor.
  - apply (usable_stays k k1 t); [|done|done]. destruct Hkept as (st & -> & Hst). by apply (kept_files_stay P).
  - destruct Ho as [->|(r & Hx & _)]; [by left|right; by exists r].
Qed.

Lemma system_close cpus k ts tks cs core fd k' :
  system cpus k ts tks cs -> 0 <= core < cpus -> 0 <= fd -> syscall_close core fd k = Ok (tt, k') ->
  exists tks', system cpus k' ts tks' cs.
Proof using LF LB KV KN KT KB KF.
  intros Hsys Hcore Hfd H. destruct (system_running _ _ _ _ _ _ Hsys Hcore) as (cur & p & t & Hr & Huse).
  destruct (running_task _ _ _ _ _ _ _ _ Hr) as (E & Ht & _). unfold syscall_close in H.
  rewrite (bind_run _ _ _ _ _ E) in H. apply bind_ok in H as (f & k1 & H1 & H).
  assert (k1 = k) as -> by (rewrite (resource_run k p t fd Ht) in H1; destruct (rd _ _); [by injection H1|done..]).
  apply bind_ok in H as ([] & k2 & H2 & H3).
  pose proof (vframes_close P f k tt k2 (sys_framed _ _ _ _ _ Hsys) H2) as Hkept.
  exists (<[cur := set_resource fd 0 t]> tks). eapply system_update; [by eapply system_kept|by eapply running_kept|exact H3|].
  apply usable_descriptor; [|by left]. apply (usable_stays k k2 t); [|done|done].
  destruct Hkept as (st & -> & Hst). by apply (kept_files_stay P).
Qed.

Lemma system_switch cpus k ts tks cs core fuel p k' :
  system cpus k ts tks cs -> 0 <= core < cpus -> on_sched (task_select core fuel) k = Ok (p, k') ->
  exists tks' cs', system cpus k' ts tks' cs'.
Proof using LF LB.
  intros Hsys Hcore H. destruct (system_running _ _ _ _ _ _ Hsys Hcore) as (cur & q & t & Hr & _).
  destruct Hsys as [[Hok Hd] Hs Hu Hc Hcs Ht Hm]. unfold on_sched in H. apply obind_ok in H as ([q' s'] & H & [= -> <-]).
  destruct (task_select_ok core fuel _ ts tks cs cur p s' Hs Hu ltac:(lia) (run_current _ _ _ _ _ _ _ _ Hr)
    ltac:(eapply lookup_lt_Some; exact (run_address _ _ _ _ _ _ _ _ Hr)) Hm H) as (tks' & j & Hs' & Hu' & Hj & Hsame).
  pose proof (sframes_task_select core fuel (scheduler k) p s' Hok H) as Hk.
  exists tks', (<[Z.to_nat core := Z.of_nat j]> cs). split; try done.
  - split; [apply Hk|exact Hd].
  - by rewrite resources_length.
  - apply Forall_insert; [done|]. by exists j.
  - pose proof (kept_files_stay of_tasks k (MkVfs s' (drives k) (filesystems k)) Hk) as Hstay.
    clear -Ht Hsame Hstay. induction Hsame as [|t t' l l' Htt _ IH]; [constructor|]. apply Forall_cons in Ht as [Ht Hl].
    constructor; [by eapply usable_stays|by apply IH].
Qed.

(** C12: Descriptors are well typed under the calls on files.  On a system of more
    than one task, in every state that any sequence of [syscall_read],
    [syscall_write], [syscall_open], [syscall_close], [syscall_get_cwd],
    [syscall_get_errno] and task switches ([file_step]) on any of the processors
    reaches, every descriptor of every task is NULL or an open file in the store,
    every task has its [NUM_RESOURCES] of them and a directory, the task list
    holds the same tasks at the same addresses, every processor runs one of them
    and the locks of the scheduler are free.  The paths are strings of less than
    2^30 characters, the file systems of the drives any that keep
    [FileSystemFrame], and [printf], which a write to a file of the type stdout
    calls, any that keeps the same objects. *)
Theorem descriptors_well_typed cpus k ts tks cs k' :
  system cpus k ts tks cs -> rtc (file_step cpus) k k' -> exists tks' cs', system cpus k' ts tks' cs'.
Proof using LF LB KV KN KT KB KF printf_ok slack_ok.
  intros Hsys Hsteps. revert tks cs Hsys.
  induction Hsteps as [k|k k1 k' Hstep _ IH]; intros tks cs Hsys; [by exists tks, cs|].
  assert (exists tks1 cs1, system cpus k1 ts tks1 cs1) as (tks1 & cs1 & Hsys1); [|by eapply IH].
  pose proof (sys_framed _ _ _ _ _ Hsys) as Hf.
  destruct Hstep as [core fd b n r _ H|core fd b n r _ H|core s a fl md fd Hcore Hs Hne Hl H|core fd Hcore Hfd H
    |core b n r _ H|core r _ H|core fuel p Hcore H].
  - exists tks, cs. by apply (system_kept cpus k k1 ts tks cs (vframes_syscall_read _ _ _ _ _ _ _ Hf H)).
  - exists tks, cs. by apply (system_kept cpus k k1 ts tks cs (vframes_syscall_write _ _ _ _ _ _ _ Hf H)).
  - destruct (system_open _ _ _ _ _ _ _ _ _ _ _ _ Hsys Hcore Hs Hne Hl H) as [tks1 H1]. by exists tks1, cs.
  - destruct (system_close _ _ _ _ _ _ _ _ Hsys Hcore Hfd H) as [tks1 H1]. by exists tks1, cs.
  - exists tks, cs. by apply (system_kept cpus k k1 ts tks cs (vframes_get_cwd _ _ _ _ _ _ Hf H)).
  - exists tks, cs. by apply (system_kept cpus k k1 ts tks cs (vframes_get_errno _ _ _ _ Hf H)).
  - by eapply system_switch.
Qed.
End Types.

(** ** Interrupt 0x80 *)

(** On a table of gates [e], [init_syscalls] installs the gate of the system
    calls, a trap gate programs may use, and no other. *)
Lemma init_syscalls_gate isr e (m : Machine) :
  let t := idtr_offset (idtr m) in
  table_space t -> 0 <= isr < 2 ^ 64 -> (forall j, 0 <= j < 256 -> gate_at (kernel m) t j = e j) ->
  exists m', init_syscalls isr m = Ok (tt, m') /\ in_page t (kernel m) (kernel m') /\
    forall j, 0 <= j < 256 -> gate_at (kernel m') t j = if 0x80 =? j then MkGate isr 8 0xEF else e j.
Proof.
  intros t Ht Hi He. destruct (set_IDT_entry_triple t Ht e 0x80 isr 0xEF ltac:(lia) Hi ltac:(lia) (kernel m) He) as (k' & E & Hp & Hg).
  exists (set_kernel k' m). unfold init_syscalls. rewrite bind_get. unfold on_kernel. fold t. rewrite E. split_and!; [done|done|].
  intros j Hj. exact (Hg j Hj).
Qed.

(** ** Examples *)

(** The objects of the file system among all. *)
Definition fs_object (o : VfsObj) : Prop := match o with inr _ | inl (inr _) | inl (inl (inr _)) => True | _ => False end.

#[export] Instance fs_object_inode : Writes fs_object Inode.
Proof. by intros x. Qed.
#[export] Instance fs_object_entry : Writes fs_object DirEntryNode.
Proof. by intros x. Qed.
#[export] Instance fs_object_node : Writes fs_object FileNode.
Proof. by intros x. Qed.

#[export] Instance fs_keeps_vector : Keeps fs_object Vector.
Proof. intros x H. exact H. Qed.
#[export] Instance fs_keeps_vector_node : Keeps fs_object VectorNode.
Proof. intros x H. exact H. Qed.
#[export] Instance fs_keeps_task : Keeps fs_object Task.
Proof. intros x H. exact H. Qed.
#[export] Instance fs_keeps_block : Keeps fs_object Block.
Proof. intros x H. exact H. Qed.
#[export] Instance fs_keeps_file : Keeps fs_object File.
Proof. intros x H. exact H. Qed.

#[export] Instance tasks_keep_file : Keeps (Obj := VfsObj) of_tasks File.
Proof. intros x [[y E]|[[y E]|[y E]]]; discriminate E. Qed.
#[export] Instance tasks_keep_block : Keeps (Obj := VfsObj) of_tasks Block.
Proof. intros x [[y E]|[[y E]|[y E]]]; discriminate E. Qed.
#[export] Instance task_keeps_file : Keeps (Obj := VfsObj) is_task File.
Proof. intros x [y E]. discriminate E. Qed.
#[export] Instance task_keeps_block : Keeps (Obj := VfsObj) is_task Block.
Proof. intros x [y E]. discriminate E. Qed.
#[export] Instance event_keeps_vector : Keeps (Obj := VfsObj) is_event Vector.
Proof. intros x [y E]. discriminate E. Qed.
#[export] Instance event_keeps_vector_node : Keeps (Obj := VfsObj) is_event VectorNode.
Proof. intros x [y E]. discriminate E. Qed.
#[export] Instance event_keeps_task : Keeps (Obj := VfsObj) is_event Task.
Proof. intros x [y E]. discriminate E. Qed.

Lemma demo_fs_frame : FileSystemFrame fs_object demo_fs.
Proof. apply (TempFS_frame fs_object); intros; apply (frames_ret fs_object). Qed.

Definition demo_drives : list (Drive VfsObj) :=
  <[17%nat := {| present := true; drive_fs := demo_fs; in_memory := true; mem_offset := 4096; partition := 0 |}]>
    (replicate 26 no_drive).
Lemma demo_drives_framed : Forall (fun d => FileSystemFrame fs_object (drive_fs d)) demo_drives.
Proof.
  apply Forall_insert; [|exact demo_fs_frame]. apply Forall_replicate. exact (no_fs_frame fs_object).
Qed.

(** Two tasks in [R:/]. *)
Definition boot_system : M (Store VfsObj) unit :=
  fun s => let+ (_, k) := (init_tasklist 2 (fun _ => zero_Task) (fun _ => []) 0 2 0 ;;;
      create_task 0 2 (fun _ => zero_Task) (fun _ => []) 4096 8192 0 1) (MkSched s 0 0 false false) in
    Ok (tt, store k).

Lemma system_start : exists (k : vfs) ts tks, system fs_object 2 k ts tks [0; 0] /\
  forall i t, tks !! i = Some t -> lowest_free (resources t) = Some 0%nat.
Proof.
  destruct (on_boot_start (Obj := VfsObj) boot_system tt) as (s0 & s & E & Hok & _); [vm_compute; reflexivity|].
  destruct (init_tasklist_spec 2 (fun _ => zero_Task) (fun _ => []) 0 2 0 (MkSched s0 0 0 false false) Hok
    ltac:(done) ltac:(done) ltac:(done)) as [(k & p & q & b & E' & Hs & Hu & Hstr & _)|E'];
    [|exfalso; unfold boot_system, bind in E; rewrite E' in E; discriminate E].
  unfold boot_system, bind in E. rewrite E' in E. cbn [obind] in E.
  destruct (create_task_spec 0 2 (fun _ => zero_Task) (fun _ => []) k _ _ _ 0 _ root_path 4096 8192 0 1 Hs Hu
    ltac:(done) eq_refl eq_refl Hstr ltac:(done) ltac:(done) ltac:(done)) as [E2|(p' & b' & k1 & _ & Hu1 & Hs1 & Hstr1)];
    [by rewrite E2 in E|].
  destruct (update_task k1 _ _ _ 0 p _ (set_current_dir (MkPtr b' 1)) Hs1 eq_refl eq_refl)
    as (k2 & _ & Hs2 & [st ->] & Hse).
  set (v := MkVfs (set_store st k1) demo_drives [demo_fs]).
  assert (string_at (store (scheduler v)) (MkPtr b' 1) root_path) as Hstr2.
  { destruct Hstr1 as (d & Hd & Hb). exists d. split; [|exact Hb].
    apply (typed_not_task (MkVfs k1 demo_drives [demo_fs]) v p _ _ _ Hse (sched_task _ _ _ _ 0 p _ Hs1 eq_refl eq_refl) Hd). }
  match type of Hs2 with Tasks.sched _ ?ts ?tks _ => exists v, ts, tks end.
  split; [|intros [|[|i]] u Hiu; [by injection Hiu as <-..|discriminate Hiu]]. split; [|exact Hs2|exact Hu1|done| | |].
  - split; [by destruct Hs2|exact demo_drives_framed].
  - repeat constructor; (exists 0%nat; split; [done|cbn; lia]).
  - assert (forall u, resources u = replicate 20 0 -> current_dir u = MkPtr b' 1 -> usable v u) as Huse.
    { intros u Hr Hc. split; [by rewrite Hr|]. split; [rewrite Hr; apply Forall_replicate; by left|].
      exists root_path. by rewrite Hc. }
    apply Forall_cons. split; [by apply Huse|]. apply Forall_cons. split; [by apply Huse|done].
  - cbn. lia.
Qed.

(** A path on no drive: [open] returns NULL. *)
Lemma open_bad_drive (k : vfs) core c p : 0 <= c < 65 -> on_sched (get_current_task core) k = Ok (p, k) ->
  forall fl md, open core 2 (fun _ => []) (fun _ => zero_File) (fun _ _ => []) [c; 58; 47; 0] fl md k = Ok (0, k).
Proof.
  intros Hc E fl md. unfold open. rewrite (bind_run _ _ _ _ _ E).
  assert (forall b : vfs, extend_path 2 (fun _ => []) p [c; 58; 47; 0] b = Ok ([c; 58; 47; 0], b)) as E2 by done.
  rewrite (bind_run _ _ _ _ _ (E2 k)), (bind_lift _ c) by done. unfold bad_drive. by replace (c <? 65) with true by lia.
Qed.

Lemma descriptors_well_typed_witness : exists (k k' : vfs) ts tks tks' cs',
  system fs_object 2 k ts tks [0; 0] /\
  syscall_open 0 2 (fun _ => []) (fun _ => zero_File) (fun _ _ => []) [49; 58; 47; 0] 0 1 k = Ok (0, k') /\
  system fs_object 2 k' ts tks' cs'.
Proof.
  destruct system_start as (k & ts & tks & Hsys & Hfree).
  destruct (system_running _ _ _ _ _ _ 0 Hsys ltac:(lia)) as (cur & p & t & Hr & Huse).
  destruct (running_task _ _ _ _ _ _ _ _ Hr) as (E & _ & _).
  destruct (running_update _ _ _ _ _ _ _ _ (set_resource 0 0) Hr) as (k' & E' & _).
  assert (syscall_open 0 2 (fun _ => []) (fun _ => zero_File) (fun _ _ => []) [49; 58; 47; 0] 0 1 k = Ok (0, k')) as Eo.
  { rewrite (syscall_open_run 0 2 _ _ _ k ts tks [0; 0] cur p t _ 0 1 Hr (proj1 Huse)).
    rewrite (Hfree cur t (run_task _ _ _ _ _ _ _ _ Hr)).
    by rewrite (bind_run _ _ _ _ _ (open_bad_drive k 0 49 p ltac:(lia) E 0 1)), (bind_run _ _ _ _ _ E'). }
  destruct (descriptors_well_typed fs_object (fun _ => ret tt) (fun _ => vframes_ret fs_object tt) 2 (fun _ => []) (fun _ => zero_File)
    (fun _ _ => []) ltac:(lia) 2 k ts tks [0; 0] k' Hsys) as (tks' & cs' & Hsys').
  { eapply rtc_l; [|apply rtc_refl]. eapply (step_open _ _ _ _ _ 2 k k' 0 [49; 58; 47] [49; 58; 47; 0]);
      [lia|split; [repeat constructor; done|by exists []]|done|done|exact Eo]. }
  exists k, k', ts, tks, tks', cs'. split; [exact Hsys|]. split; [exact Eo|exact Hsys'].
Defined.

Lemma syscall_descriptors_witness : exists k k2 : vfs,
  syscall_open 0 2 (fun _ => []) (fun _ => zero_File) (fun _ _ => []) [49; 58; 47; 0] 0 1 k = Ok (0, k2) /\
  forall b n, syscall_write (fun _ => ret tt) 0 0 b n k2 = Fault.
Proof.
  destruct system_start as (k & ts & tks & Hsys & Hfree).
  destruct (system_running _ _ _ _ _ _ 0 Hsys ltac:(lia)) as (cur & p & t & Hr & Hlen & _ & cd & Hstr & Hne & Hl).
  destruct (running_task _ _ _ _ _ _ _ _ Hr) as (E & _ & _).
  pose proof (syscall_descriptors fs_object (fun _ => ret tt) 0 2 (fun _ => []) (fun _ => zero_File) (fun _ _ => []) k ts tks [0; 0] cur p t
    cd [49; 58; 47] [49; 58; 47; 0] 0 1 (sys_framed _ _ _ _ _ _ Hsys) Hr Hlen Hstr Hne
    ltac:(split; [repeat constructor; done|by exists []]) ltac:(done) ltac:(lia) ltac:(done) Hl) as H.
  rewrite (Hfree cur t (run_task _ _ _ _ _ _ _ _ Hr)), (open_bad_drive k 0 49 p ltac:(lia) E 0 1) in H.
  destruct H as (_ & _ & k2 & t' & Eo & _ & Hr2 & _ & [(_ & Hw & _)|(r & Hx & _)]).
  - exists k, k2. split; [exact Eo|]. intros b n. exact (proj1 (Hw b n)).
  - exfalso. destruct (running_task _ _ _ _ _ _ _ _ Hr2) as (_ & _ & A & _ & _ & H0).
    apply H0. by eapply elem_of_dom_2.
Defined.

(** An event for the first task. *)
Definition boot_event : M (Store VfsObj) unit :=
  fun s => let+ (_, k) := init_tasklist 2 (fun _ => zero_Task) (fun _ => []) 0 1 0 (MkSched s 0 0 false false) in
    (let* v := get_obj Vector (tasks k) in
     let* n := get_obj VectorNode (Vector.first_node v) in
     let* t := get_obj Task (data_addr n) in
     add_event (event_queue t) EVENT_TASK_EXITED 3 4) (store k).

Lemma event_start : exists (k : vfs) p t ns ps,
  running 0 k [p] [t] [0] 0 p t /\
  queue (store (scheduler k)) (event_queue t) ns ps [{| do_handle := true; event_id := EVENT_TASK_EXITED; data0 := 3; data1 := 4 |}].
Proof.
  destruct (on_boot_start (Obj := VfsObj) boot_event tt) as (s0 & s & E & Hok & _); [vm_compute; reflexivity|].
  destruct (init_tasklist_spec 2 (fun _ => zero_Task) (fun _ => []) 0 1 0 (MkSched s0 0 0 false false) Hok
    ltac:(done) ltac:(done) ltac:(done)) as [(k & p & q & b & E' & Hs & Hu & _ & Hq & Ha)|E'];
    [|exfalso; unfold boot_event in E; rewrite E' in E; discriminate E].
  unfold boot_event in E. rewrite E' in E. cbn [obind] in E.
  pose proof Hs as [Hok1 (ns & ms & Hv & _) Hts _]. destruct Hv as (v' & Hv' & _ & _ & Hch & _).
  rewrite (bind_run _ _ _ _ _ (get_obj_run _ _ _ Hv')) in E.
  destruct ns as [|n ns]; [done|]. cbn [linked] in Hch. destruct Hch as (Hfirst & r & Hn & Hdata & _).
  rewrite Hfirst, (bind_run _ _ _ _ _ (get_obj_run _ _ _ Hn)), Hdata in E.
  apply Forall2_cons in Hts as [Ht _]. rewrite (bind_run _ _ _ _ _ (get_obj_run _ _ _ Ht)) in E. cbn [first_Task event_queue] in E.
  destruct (add_event_full (store k) q [] [] [] EVENT_TASK_EXITED 3 4 Hok1 Hq ltac:(done)) as [(st & n' & p' & E2 & Hok2 & Hq2 & _ & _ & Hse)|E2];
    rewrite E in E2; [|discriminate E2]. injection E2 as <-.
  exists (MkVfs (set_store s k) [] []), p, (first_Task p q 0 0 (MkPtr b 0)), ([] ++ [n']), ([] ++ [p']). split; [|exact Hq2].
  split; try done. eapply sched_frame; [exact Hs| |exact Hok2|exact Hse].
  destruct Ha as (A & B & C). split_and!; [set_solver|intros ns' H; specialize (B ns' H); set_solver|].
  intros ms' H. specialize (C ms' H). set_solver.
Qed.

Lemma syscall_events_witness : exists k k1 k2 : vfs, exists e : Event,
  e = {| do_handle := true; event_id := EVENT_TASK_EXITED; data0 := 3; data1 := 4 |} /\
  syscall_poll 0 k = Ok (e, k1) /\
  syscall_peek 0 k = Ok (e, k2) /\ syscall_peek 0 k2 = Fault.
Proof.
  destruct event_start as (k & p & t & ns & ps & Hr & Hq).
  destruct (syscall_events 0 k [p] [t] [0] 0 p t ns ps _ Hr Hq) as [(k1 & _ & E1 & _) Hp].
  destruct (Hp ltac:(done)) as (k2 & E2 & _ & E3 & _). exists k, k1, k2. eexists. split; [reflexivity|].
  split; [exact E1|]. split; [exact E2|exact E3].
Defined.
