(* ===== verification/Process.v ===== *)
(** * tasks/mmap.c, tasks/spawn.c: memory and programs

    The calls that bring the address space of a task and the kernel's objects
    together: the store's heap is the kernel's memory ([KHeap_Allocator]), in
    which [kmalloc] takes pages and [map_pages] writes page tables. *)
From S2P Require Import Prelude Allocator Chain Memory PMM KHeap Strings Vector Events Paging Elf Apic.
From S2P Require Import Blocks Tasks TempFS VFS Mount Frames Syscalls.

Definition MAP_ANONYMOUS : Z := 0x20.
Definition PROT_WRITE : Z := 2.
Definition USER_STACK_PAGES : Z := 2.
Definition USER_STACK_PTR : Z := 0x700000000000.
Definition USER_STACK_ADDR : Z := USER_STACK_PTR - USER_STACK_PAGES * PAGE_SIZE.
Definition ARGV_DATA_ADDR : Z := 0x700000001000.

Definition set_mmap_upto (v : Z) (t : Task) : Task :=
  {| is_user := is_user t; event_queue := event_queue t; current_dir := current_dir t; argc := argc t;
     argv := argv t; pml4_addr := pml4_addr t; kernel_rsp := kernel_rsp t; current_rsp := current_rsp t;
     entry_point := entry_point t; resources := resources t; parent := parent t; flags := flags t;
     errno := errno t; mmap_upto := v |}.
Definition set_errno (v : Z) (t : Task) : Task :=
  {| is_user := is_user t; event_queue := event_queue t; current_dir := current_dir t; argc := argc t;
     argv := argv t; pml4_addr := pml4_addr t; kernel_rsp := kernel_rsp t; current_rsp := current_rsp t;
     entry_point := entry_point t; resources := resources t; parent := parent t; flags := flags t;
     errno := v; mmap_upto := mmap_upto t |}.
Definition set_args (c v : Z) (t : Task) : Task :=
  {| is_user := is_user t; event_queue := event_queue t; current_dir := current_dir t; argc := c;
     argv := v; pml4_addr := pml4_addr t; kernel_rsp := kernel_rsp t; current_rsp := current_rsp t;
     entry_point := entry_point t; resources := resources t; parent := parent t; flags := flags t;
     errno := errno t; mmap_upto := mmap_upto t |}.
Definition set_event_queue (q : Z) (t : Task) : Task :=
  {| is_user := is_user t; event_queue := q; current_dir := current_dir t; argc := argc t;
     argv := argv t; pml4_addr := pml4_addr t; kernel_rsp := kernel_rsp t; current_rsp := current_rsp t;
     entry_point := entry_point t; resources := resources t; parent := parent t; flags := flags t;
     errno := errno t; mmap_upto := mmap_upto t |}.
Definition set_parent (p : Z) (t : Task) : Task :=
  {| is_user := is_user t; event_queue := event_queue t; current_dir := current_dir t; argc := argc t;
     argv := argv t; pml4_addr := pml4_addr t; kernel_rsp := kernel_rsp t; current_rsp := current_rsp t;
     entry_point := entry_point t; resources := resources t; parent := p; flags := flags t;
     errno := errno t; mmap_upto := mmap_upto t |}.

(** A store of the running task through its own page tables; an address without
    a page is a page fault. *)
Definition store_user (root virt v : Z) : M Kernel unit :=
  let* k := get in
  let phys := virt_to_phys root virt k in
  if phys =? 0xDEAD then fault else modify (set_mem (fun m => store64 m (u64 (phys + hhdm k)) v)).

(** [n] bytes of memory from [a] on. *)
Definition load_bytes (m : memory) (a n : Z) : list Z := map (fun i => load8 m (a + i)) (seqZ 0 n).

(** ** The heap and the tables in one memory *)

(** The heap is untouched where its pools are. *)
Lemma heap_inv_outside k k' l :
  heap_inv k l -> same_config k k' -> (forall c, block_ok k c -> block_ok k' c) ->
  (forall a, a ∈ l -> agree (mem k') (mem k) a sizeof_Pool) ->
  heap_inv k' l /\ forall p n, live k l p n -> live k' l p n.
Proof.
  intros Hinv Hcfg Hb Hag. destruct Hinv as [Hwf Hc Hne Hnd Hp Hd]. pose proof Hcfg as (_ & Hh & _ & _ & _ & Hks).
  assert (forall a, a ∈ l -> pool_ok k' a /\ pool_len (mem k') a = pool_len (mem k) a) as Hall.
  { intros a Ha. apply (pool_same k k' a Hh (Hag a Ha)); [|by apply Hp].
    intros (c & Hcb & H1 & H2). exists c. rewrite Hh. split; [by apply Hb|done]. }
  split.
  - constructor; try done.
    + by eapply wf_same_config.
    + rewrite Hks. eapply chain_agree; [|exact Hc]. intros x Hx. by destruct (pool_agree _ _ _ (Hag x Hx)) as (_ & _ & _ & ? & _).
    + intros a Ha. by apply Hall.
    + intros a b Ha Hb' Hne'. destruct (Hall a Ha) as [_ ->], (Hall b Hb') as [_ ->]. auto.
  - intros p n (a & Ha & -> & Hf & Hr). exists a. destruct (pool_agree _ _ _ (Hag a Ha)) as (_ & _ & Er & _ & Ef).
    split_and!; [done|done|congruence|congruence].
Qed.

(** The pages of a pool of the heap are none of the tables. *)
Definition pool_apart (k : Kernel) (T : tables) (a : Z) : Prop :=
  exists c, block_ok k c /\ fst c + hhdm k <= a /\ a + sizeof_Pool <= fst c + hhdm k + snd c * 4096 /\
    forall x b, T !! x = Some b -> disjoint b 4096 (fst c + hhdm k) (snd c * 4096).

(** The memory of the kernel: a heap in which the addresses [A] are allocated,
    and the page tables [T] of a task. *)
Definition address_space (k : Kernel) (root : Z) (T : tables) (A : gset Z) : Prop :=
  pt_inv k root T /\ exists l, heap_inv k l /\ (forall p, p ∈ A -> exists n, live k l p n) /\
    forall a, a ∈ l -> pool_apart k T a.

Lemma address_space_extends k root T A k' T' :
  address_space k root T A -> pt_inv k' root T' -> extends k T k' T' -> address_space k' root T' A.
Proof.
  intros [_ (l & Hinv & HA & Hl)] Hpt Hext. split; [done|]. pose proof (ext_config _ _ _ _ Hext) as Hcfg. pose proof Hcfg as (_ & Hh & _).
  destruct (heap_inv_outside k k' l Hinv Hcfg (ext_block _ _ _ _ Hext)) as [Hinv' Hlive].
  { intros a Ha x Hx. destruct (Hl a Ha) as (c & Hc & H1 & H2 & Hdis). apply (ext_frame _ _ _ _ Hext c Hc Hdis). lia. }
  exists l. split; [done|]. split.
  - intros p Hp. destruct (HA p Hp) as [n Hn]. exists n. by apply Hlive.
  - intros a Ha. destruct (Hl a Ha) as (c & Hc & H1 & H2 & Hdis). exists c. rewrite Hh.
    split_and!; [by apply (ext_block _ _ _ _ Hext)|done|done|]. intros x b Hx.
    destruct (T !! x) as [b'|] eqn:Hx0.
    + apply (Hdis x). pose proof (lookup_weaken _ _ _ _ Hx0 (ext_tables _ _ _ _ Hext)). congruence.
    + by apply (ext_fresh _ _ _ _ Hext x).
Qed.

(** A fresh tree next to a heap. *)
Lemma address_space_new k l A root k' :
  heap_inv k l -> (forall p, p ∈ A -> exists n, live k l p n) ->
  pt_inv k' root {[(0, 0) := root]} -> same_config k k' ->
  (forall c, block_ok k c -> block_ok k' c /\ agree (mem k') (mem k) (fst c + hhdm k) (snd c * 4096) /\
    disjoint root 4096 (fst c + hhdm k) (snd c * 4096)) ->
  address_space k' root {[(0, 0) := root]} A.
Proof.
  intros Hinv HA Hpt Hcfg Hkeep. pose proof Hcfg as (_ & Hh & _).
  assert (forall a, a ∈ l -> exists c, block_ok k c /\ fst c + hhdm k <= a /\
    a + sizeof_Pool <= fst c + hhdm k + snd c * 4096) as Hpool.
  { intros a Ha. destruct (ok_block _ _ (inv_pool _ _ Hinv a Ha)) as (c & Hc & H1 & H2).
    destruct (pool_space k a (inv_wf _ _ Hinv) (inv_pool _ _ Hinv a Ha)) as (_ & _ & _ & Hl).
    exists c. unfold sizeof_Pool. split_and!; [done|lia|lia]. }
  destruct (heap_inv_outside k k' l Hinv Hcfg) as [Hinv' Hlive]; [by intros c [? _]%Hkeep| |].
  { intros a Ha x Hx. destruct (Hpool a Ha) as (c & Hc & H1 & H2).
    destruct (Hkeep c Hc) as (_ & Hag & _). apply Hag. lia. }
  split; [done|]. exists l. split; [done|]. split.
  - intros x Hx. destruct (HA x Hx) as [n Hn]. exists n. by apply Hlive.
  - intros a Ha. destruct (Hpool a Ha) as (c & Hc & H1 & H2).
    destruct (Hkeep c Hc) as (Hc' & _ & Hdis). exists c. rewrite Hh. split_and!; [done..|].
    intros x y [_ <-]%lookup_singleton_Some. exact Hdis.
Qed.

Section Process.
Context {Obj : Type}.
Context `{OV : !Object Vector Obj, ON : !Object VectorNode Obj, OE : !Object Event Obj}.
Context `{OT : !Object Task Obj, OB : !Object Block Obj, OL : !Object File Obj}.
Abbreviation Vfs := (Vfs (AL := KHeap_Allocator) (Obj := Obj)).
Abbreviation Mem := (M Vfs).
Abbreviation objects k := (store (scheduler k)).

(** A call of the page allocator or the paging code. *)
Definition in_kernel {A} (m : M Kernel A) : Mem A :=
  on_objs (fun s => let+ (a, h) := m (store_heap s) in Ok (a, MkStore (H := KHeap_Allocator) h (objs s))).

Section Core.
Context (core : Z).

(** ** mmap.c *)

Definition syscall_mmap (addr length prot flags fd offset : Z) : Mem Z :=
  let* current_task := on_sched (get_current_task core) in
  let* t := on_objs (get_obj Task current_task) in
  let* hh := in_kernel (let* k := get in ret (hhdm k)) in
  let root := u64 (pml4_addr t + hh) in
  if length <=? 0 then
    in_kernel (store_user root (errno t) 3) ;;;
    ret 0
  else
    let* addr :=
      (if addr =? 0 then
         on_objs (set_field current_task (set_mmap_upto (PAGE_ALIGN_UP (u64 (mmap_upto t + length))))) ;;;
         ret (mmap_upto t)
       else ret addr) in
    let map_flags := Z.lor KERNEL_PFLAG_PRESENT KERNEL_PFLAG_USER in
    let map_flags := if negb (Z.land flags PROT_WRITE =? 0) then Z.lor map_flags KERNEL_PFLAG_WRITE else map_flags in
    let* frame := in_kernel (kmalloc (PAGE_ALIGN_UP length / 4096)) in
    let buf := u64 (frame + hh) in
    in_kernel (map_pages root addr (u64 (buf - hh)) length map_flags) ;;;
    if negb (Z.land flags MAP_ANONYMOUS =? 0) then ret addr
    else
      let* src := resource current_task fd in
      let* b := in_kernel (let* k := get in ret (load_bytes (mem k) buf length)) in
      let* (_, b) := read src b length in
      in_kernel (modify (set_mem (fun m => store_bytes m buf b))) ;;;
      ret addr.
(** ** spawn.c *)

Section Spawn.
Context (slack : Z) (junk_Task : Z -> Task) (junk_Block : Z -> Block) (junk_File : Z -> File).
Context (stale : Z -> Z -> list Z).
(** Where the kernel is in memory, and the rest of the kernel's state that
    [map_apic_into_task] reads. *)
Context (img : KernelImage) `{Hardware} (apic : Kernel -> Apic).
Abbreviation open := (open core slack junk_Block junk_File stale).

Definition user_flags : Z := Z.lor (Z.lor KERNEL_PFLAG_PRESENT KERNEL_PFLAG_WRITE) KERNEL_PFLAG_USER.

(** The file at [path] in a buffer: its address and its bytes, or the status of
    an early return. *)
Definition read_program (path : list Z) : Mem (Z + Z * list Z) :=
  let* f := open path 0 MODE_READONLY in
  if f =? 0 then ret (inl 2)
  else
    let* flength := file_length f in
    let* p := on_objs (malloc_block slack junk_Block flength) in
    let* buffer := on_objs (get_obj Block (block p)) in
    let* (status, buffer) := read f buffer flength in
    on_objs (put_obj (block p) buffer) ;;;
    close f ;;;
    if negb (status =? 0) then ret (inl 1) else ret (inr (block p, buffer)).

(** The address space of the new task with its program, stack and arguments:
    its page table, the end of its last segment and the size of the arguments. *)
Definition make_space (buffer : list Z) (table num_program_header_entries : Z) (argv : list (list Z))
    : M Kernel (Z * Z * Z) :=
  let* (first_segment, last_segment, copyto_pages, pages_to_map) := load_segments buffer table num_program_header_entries in
  let* new_pml4 := init_paging_task img in
  map_pages new_pml4 (virtual_address first_segment) copyto_pages pages_to_map user_flags ;;;
  alloc_pages new_pml4 USER_STACK_ADDR KERNEL_STACK_PAGES user_flags ;;;
  let* k := get in
  let new_pml4_phys := u64 (new_pml4 - hhdm k) in
  let* frame := kmalloc 1 in
  let arg_page := u64 (frame + hhdm k) in
  map_pages new_pml4 ARGV_DATA_ADDR (u64 (arg_page - hhdm k)) 2 user_flags ;;;
  let* arg_size := write_args argv arg_page 0 in
  write_arg_pointers argv arg_page arg_size 0 0 ;;;
  (fun h => let+ (_, s) := map_apic_into_task new_pml4_phys (apic h) in Ok (tt, kernel s)) ;;;
  ret (new_pml4_phys, u64 (virtual_address last_segment + size_in_memory last_segment), arg_size).

(** "D:/stdin", "D:/stdout" and "D:/stderr" *)
Definition stdin_path : list Z := [68; 58; 47; 115; 116; 100; 105; 110; 0].
Definition stdout_path : list Z := [68; 58; 47; 115; 116; 100; 111; 117; 116; 0].
Definition stderr_path : list Z := [68; 58; 47; 115; 116; 100; 101; 114; 114; 0].

Definition spawn (path : list Z) (argv : list (list Z)) : Mem Z :=
  let* r := read_program path in
  match r with
  | inl status => ret status
  | inr (p, buffer) =>
      let* table := lift (program_header_offset buffer) in
      let* num_program_header_entries := lift (program_header_entry_count buffer) in
      let* valid := lift (validate_elf buffer) in
      if negb valid then ret 1
      else
        let* (new_pml4_phys, program_end, arg_size) :=
          in_kernel (make_space buffer table num_program_header_entries argv) in
        let* e := lift (entry buffer) in
        let* new_task := on_sched (create_task core slack junk_Task junk_Block new_pml4_phys e USER_STACK_PTR
          (Z.lor TASK_PRESENT TASK_FIRST_EXEC)) in
        on_objs (
          set_field new_task (set_mmap_upto (PAGE_ALIGN_UP program_end)) ;;;
          set_field new_task (set_errno (USER_STACK_PTR - 8)) ;;;
          set_field new_task (set_args (Zlen argv) (u64 (ARGV_DATA_ADDR + arg_size))) ;;;
          let* q := new_event_queue in
          set_field new_task (set_event_queue q)) ;;;
        let* cur := on_sched (get_current_task core) in
        on_objs (set_field new_task (set_parent cur) ;;; free_obj p) ;;;
        let* f := open stdin_path 0 MODE_READONLY in
        on_objs (set_field new_task (set_resource 0 f)) ;;;
        let* f := open stdout_path O_CREATALL MODE_READWRITE in
        on_objs (set_field new_task (set_resource 1 f)) ;;;
        let* f := open stderr_path O_CREATALL MODE_READWRITE in
        on_objs (set_field new_task (set_resource 2 f)) ;;;
        ret 0
  end.
Definition syscall_spawn (path : list Z) (argv : list (list Z)) : Mem Z := spawn path argv.
End Spawn.
End Core.

(** ** Lemmas *)

Lemma in_kernel_run {A} (m : M Kernel A) (k : Vfs) a h :
  m (store_heap (objects k)) = Ok (a, h) -> in_kernel m k = Ok (a, set_objs (MkStore (H := KHeap_Allocator) h (objs (objects k))) k).
Proof using. intros H. unfold in_kernel. apply on_objs_run. by rewrite H. Qed.

Lemma in_kernel_halted {A} (m : M Kernel A) (k : Vfs) : m (store_heap (objects k)) = Halted -> in_kernel m k = Halted.
Proof using. intros H. unfold in_kernel. apply on_objs_halted. by rewrite H. Qed.

Lemma in_kernel_read {A} (m : M Kernel A) (k : Vfs) a :
  m (store_heap (objects k)) = Ok (a, store_heap (objects k)) -> in_kernel m k = Ok (a, k).
Proof using. intros H. rewrite (in_kernel_run _ _ _ _ H). by destruct k as [[[] ? ? ? ?] ? ?]. Qed.

(** The tasks survive a change of the memory that keeps the heap. *)
Lemma running_memory core (k : Vfs) ts tks cs cur p t h root T :
  running core k ts tks cs cur p t -> address_space h root T (dom (objs (objects k))) ->
  running core (set_objs (MkStore (H := KHeap_Allocator) h (objs (objects k))) k) ts tks cs cur p t.
Proof using.
  intros [Hs Hu Hc Hcur Hp Ht] [_ (l & Hinv & HA & _)]. split; try done.
  eapply (sched_frame _ _ _ _ ∅); [exact Hs|apply apart_empty| |done].
  exists (dom (objs (objects k))). split_and!; [|done|].
  - exists l. split; [exact Hinv|exact HA].
  - destruct Hs as [(A & _ & _ & H0) _ _ _]. exact H0.
Qed.

(** Taking pages. *)
Lemma kmalloc_space h root T A n :
  address_space h root T A -> 1 <= n < 2 ^ 64 ->
  kmalloc n h = Halted \/
  exists frame h', kmalloc n h = Ok (frame, h') /\ address_space h' root T A /\ extends h T h' T /\
    block_ok h' (frame, n) /\ (forall c, block_ok h c -> blocks_disjoint (frame, n) c) /\
    0 <= frame /\ frame mod 4096 = 0 /\ frame + hhdm h + n * 4096 < 2 ^ 64 /\ forall q, pte h' T q = pte h T q.
Proof using.
  intros Has Hn. pose proof Has as [Hpt _]. pose proof (pt_wf _ _ _ Hpt) as Hwf.
  destruct (kmalloc_spec h n Hwf Hn) as [(i & e & p & Hr & E)|[E _]]; [right|by left].
  pose proof (after_alloc_post h i e p n Hwf ltac:(lia) Hr) as Hpost.
  set (h' := after_alloc h e p n) in *. clearbody h'. exists (page_addr e p), h'.
  destruct (pt_frame h root T h' Hpt (post_config _ _ _ _ _ _ Hpost)) as (Hpt' & Hext & Hpte).
  { intros c Hc. split; [exact (block_ok_alloc h i e p n h' c Hwf Hpost Hc)|].
    by destruct (block_alloc_frame h i e p n h' c Hwf ltac:(lia) Hpost Hc). }
  pose proof (block_ok_new h i e p n h' Hwf ltac:(lia) Hpost) as Hb.
  pose proof (post_config _ _ _ _ _ _ Hpost) as (_ & Hh & _).
  destruct (block_space h' _ (pt_wf _ _ _ Hpt') Hb) as (_ & Htop & _). cbn [fst snd] in Htop.
  pose proof Hr as (Hi & Hu & Hp & Hpn & Hfree). pose proof (pt_aligned _ _ _ Hpt i e Hi Hu) as Hal.
  destruct (wf_entry h Hwf i e Hi Hu) as [He0 _ _].
  split_and!; [exact E|by eapply address_space_extends|done|done| | |unfold page_addr; divlia|lia|done].
  - intros c Hc. exact (fresh_disjoint h i e p n c Hwf ltac:(lia) Hr Hc).
  - unfold page_addr. lia.
Qed.

(** [PAGE_ALIGN_UP(length) / 4096] *)
Definition pages_of_length (length : Z) : Z := (length + 4095) / 4096.
Lemma page_count_of length : 1 <= length < 2 ^ 40 ->
  PAGE_ALIGN_UP length / 4096 = pages_of_length length /\ 1 <= pages_of_length length <= length.
Proof using.
  clear. intros Hl. unfold Paging.PAGE_ALIGN_UP, pages_of_length. rewrite (u64_small (_ + 4095)) by lia.
  rewrite u64_small by divlia. split; divlia.
Qed.

(** The record of the task after the choice of the address. *)
Definition mmap_task (addr length : Z) (t : Task) : Task :=
  if addr =? 0 then set_mmap_upto (PAGE_ALIGN_UP (u64 (mmap_upto t + length))) t else t.
Definition mmap_address (addr : Z) (t : Task) : Z := if addr =? 0 then mmap_upto t else addr.

Lemma mmap_address_run core (k : Vfs) ts tks cs cur p t addr length {B} (f : Z -> Mem B) :
  running core k ts tks cs cur p t ->
  exists k1, running core k1 ts (<[cur := mmap_task addr length t]> tks) cs cur p (mmap_task addr length t) /\
    store_heap (objects k1) = store_heap (objects k) /\ dom (objs (objects k1)) = dom (objs (objects k)) /\
    (let* addr :=
      (if addr =? 0 then
         on_objs (set_field p (set_mmap_upto (PAGE_ALIGN_UP (u64 (mmap_upto t + length))))) ;;;
         ret (mmap_upto t)
       else ret addr) in f addr) k = f (mmap_address addr t) k1.
Proof using.
  intros Hr. unfold mmap_task, mmap_address. destruct (Z.eqb_spec addr 0) as [->|Hne].
  - destruct (running_update _ _ _ _ _ _ _ _ (set_mmap_upto (PAGE_ALIGN_UP (u64 (mmap_upto t + length)))) Hr)
      as (k1 & E & Hr1 & _). destruct (running_task _ _ _ _ _ _ _ _ Hr) as (_ & Ht & _).
    exists k1. pose proof E as E1. rewrite (on_objs_run _ _ _ _ (set_field_run _ _ _ _ Ht)) in E1. injection E1 as <-.
    split_and!; [done|done| |].
    + cbn. apply dom_insert_lookup_L. by exists (to_obj t).
    + by rewrite bind_assoc, (bind_run _ _ _ _ _ E).
  - exists k. split_and!; [|done|done|done]. destruct Hr as [Hs Hu Hc Hcur Hp Ht].
    by rewrite list_insert_id by done.
Qed.

Definition map_flags (flags : Z) : Z := if Z.land flags PROT_WRITE =? 0 then 5 else 7.

Lemma map_flags_of flags :
  (if negb (Z.land flags PROT_WRITE =? 0) then Z.lor (Z.lor KERNEL_PFLAG_PRESENT KERNEL_PFLAG_USER) KERNEL_PFLAG_WRITE
   else Z.lor KERNEL_PFLAG_PRESENT KERNEL_PFLAG_USER) = map_flags flags /\ 0 < map_flags flags < 4096.
Proof using. clear. unfold map_flags. by destruct (_ =? 0). Qed.

Lemma heap_read (k : Vfs) : in_kernel (let* h := get in ret (hhdm h)) k = Ok (hhdm (store_heap (objects k)), k).
Proof using. by apply in_kernel_read. Qed.

(** C14: An anonymous [syscall_mmap].  It halts for want of pages or returns the
    address asked for, or [mmap_upto] when none is, which moves up by the length
    rounded to pages.  The pages are new: clear of every block in use.  The
    heap, the task list and the tables stay well formed, and every other address
    translates as before.  But the range that is mapped has [length] pages, not
    [length] bytes: behind the [pages_of_length length] pages that were taken
    the task gets the physical memory that follows, whoever uses it.  Whether
    the pages can be written depends on bit 1 of [flags]; [prot] is not used. *)
Theorem syscall_mmap_maps core (k : Vfs) ts tks cs cur p t T addr length prot flags fd offset :
  let h := store_heap (objects k) in
  let root := u64 (pml4_addr t + hhdm h) in
  let a := mmap_address addr t in
  let t' := mmap_task addr length t in
  running core k ts tks cs cur p t -> address_space h root T (dom (objs (objects k))) ->
  1 <= length < 2 ^ 40 -> 4096 * length <= hhdm h -> 0 <= a -> Z.land flags MAP_ANONYMOUS <> 0 ->
  syscall_mmap core addr length prot flags fd offset k = Halted \/
  exists frame k' T', syscall_mmap core addr length prot flags fd offset k = Ok (a, k') /\
    let h' := store_heap (objects k') in
    running core k' ts (<[cur := t']> tks) cs cur p t' /\ address_space h' root T' (dom (objs (objects k'))) /\
    block_ok h' (frame, pages_of_length length) /\
    (forall c, block_ok h c -> blocks_disjoint (frame, pages_of_length length) c) /\
    (forall q, page_of a <= q < page_of a + length ->
       pte h' T' q = Z.lor (frame + (q - page_of a) * 4096) (map_flags flags)) /\
    forall v, 0 <= v ->
      virt_to_phys root v h' =
        if (page_of a <=? page_of v) && (page_of v <? page_of a + length)
        then frame + (page_of v - page_of a) * 4096 + v mod 4096
        else virt_to_phys root v h.
Proof using.
  intros h root a t' Hr Has Hlen Hhh Ha Hanon. destruct (running_task _ _ _ _ _ _ _ _ Hr) as (E & Ht & _).
  unfold syscall_mmap. rewrite (bind_run _ _ _ _ _ E), (bind_run _ _ _ _ _ (on_objs_read _ _ _ (get_obj_run _ _ _ Ht))).
  rewrite (bind_run _ _ _ _ _ (heap_read k)). cbv zeta. fold h. fold root.
  destruct (Z.leb_spec length 0); [lia|]. destruct (map_flags_of flags) as [-> Hf].
  match goal with |- context [bind (if addr =? 0 then _ else _) ?f] =>
    destruct (mmap_address_run core k ts tks cs cur p t addr length f Hr) as (k1 & Hr1 & Hheap & Hdom & ->) end.
  fold a. fold t' in Hr1. destruct (page_count_of length Hlen) as [-> Hn].
  rewrite <- Hdom in Has. unfold h in Has. rewrite <- Hheap in Has.
  destruct (kmalloc_space _ _ _ _ (pages_of_length length) Has ltac:(lia))
    as [E2|(frame & h1 & E2 & Has1 & Hext1 & Hb & Hfresh & Hf0 & Hfm & Htop & Hsame)];
    [left; unfold bind; by rewrite (in_kernel_halted _ _ E2)|].
  rewrite (bind_run _ _ _ _ _ (in_kernel_run _ _ _ _ E2)).
  pose proof (running_memory _ _ _ _ _ _ _ _ _ _ _ Hr1 Has1) as Hr2.
  rewrite Hheap in Htop. fold h in Htop. rewrite (u64_small (frame + hhdm h)) by lia.
  replace (frame + hhdm h - hhdm h) with frame by lia. rewrite (u64_small frame) by lia.
  set (k2 := set_objs _ k1) in *. change h1 with (store_heap (objects k2)) in Has1.
  pose proof Has1 as [Hpt1 _].
  destruct (map_pages_run _ root T a frame length (map_flags flags) Hpt1 Ha Hf0 ltac:(lia) ltac:(lia) Hf)
    as [E3|(h' & T' & E3 & Hpt' & Hext' & Hpte & _ & Htr)]; [left; unfold bind; by rewrite (in_kernel_halted _ _ E3)|right].
  rewrite Hfm, Z.sub_0_r in Htr.
  rewrite (bind_run _ _ _ _ _ (in_kernel_run _ _ _ _ E3)).
  destruct (Z.eqb_spec (Z.land flags MAP_ANONYMOUS) 0) as [|_]; [done|]. cbn [negb].
  pose proof (address_space_extends _ _ _ _ _ _ Has1 Hpt' Hext') as Has'.
  exists frame. eexists _, T'. split; [reflexivity|]. cbv zeta.
  split_and!.
  - by eapply running_memory.
  - exact Has'.
  - exact (ext_block _ _ _ _ Hext' _ Hb).
  - unfold h. rewrite <- Hheap. exact Hfresh.
  - exact Hpte.
  - intros v Hv. etransitivity; [by apply Htr|]. destruct (_ && _); [done|].
    unfold h. rewrite <- Hheap. rewrite (virt_to_phys_spec _ root T v Hpt1 Hv), (virt_to_phys_spec _ root T v (proj1 Has) Hv).
    unfold translate. by rewrite Hsame.
Qed.
End Process.

(** ** Examples *)

(** One task and an empty tree of page tables; the memory map is that of the
    machine. *)
Definition boot_mmap : M (Store VfsObj) (Z * list memmap_entry) :=
  fun s => let+ (_, k) := init_tasklist 2 (fun _ => zero_Task) (fun _ => []) 0 1 0 (MkSched s 0 0 false false) in
    let+ (root, h) := new_root (store_heap (store k)) in
    Ok ((root, memmap (store_heap (store k))), MkStore (H := KHeap_Allocator) h (objs (store k))).

Definition set_pml4 (a : Z) (t : Task) : Task :=
  {| is_user := is_user t; event_queue := event_queue t; current_dir := current_dir t; argc := argc t;
     argv := argv t; pml4_addr := a; kernel_rsp := kernel_rsp t; current_rsp := current_rsp t;
     entry_point := entry_point t; resources := resources t; parent := parent t; flags := flags t;
     errno := errno t; mmap_upto := mmap_upto t |}.

Abbreviation heap_of k := (store_heap (store (scheduler k))).

Lemma mmap_start : exists (k : vfs) p t T, running 0 k [p] [t] [0] 0 p t /\
  address_space (heap_of k) (u64 (pml4_addr t + hhdm (heap_of k))) T (dom (objs (store (scheduler k)))) /\
  hhdm (heap_of k) = 2 ^ 47.
Proof.
  destruct (on_boot_start (Obj := VfsObj)
    (let* r := boot_mmap in let* s := get in ret (r, hhdm (store_heap (H := KHeap_Allocator) s)))
    ((140737488433152, memmap small_kernel), 2 ^ 47)) as (s0 & s & E & Hok & _); [vm_compute; reflexivity|].
  apply bind_ok in E as (r & s1 & E & E0). rewrite bind_get in E0. injection E0 as -> Hhh <-.
  destruct (init_tasklist_spec 2 (fun _ => zero_Task) (fun _ => []) 0 1 0 (MkSched s0 0 0 false false) Hok
    ltac:(done) ltac:(done) ltac:(done)) as [(k & p & q & b & E' & Hs & Hu & _)|E'];
    [|exfalso; unfold boot_mmap in E; rewrite E' in E; discriminate E].
  unfold boot_mmap in E. rewrite E' in E. cbn [obind] in E. apply obind_ok in E as ([root h] & Er & E).
  injection E as -> Hmap <-. cbn [store_heap] in Hhh.
  destruct (Hs) as [(A & (l & Hinv & HA) & Hd & H0) _ _ _].
  assert (aligned (store_heap (store k))) as Hal by (unfold aligned; rewrite Hmap; apply small_kernel_aligned).
  destruct (new_root_spec _ (inv_wf _ _ Hinv) Hal) as [E2|(root' & h' & E2 & Hpt & Hcfg & _ & Hkeep)];
    rewrite Er in E2; [discriminate E2|]. injection E2 as <- <-.
  pose proof Hcfg as (_ & Hh & _). set (T := {[(0, 0) := 140737488433152]} : tables) in *.
  assert (address_space h 140737488433152 T (dom (objs (store k)))) as Has.
  { eapply address_space_new; [exact Hinv| |done..]. intros x Hx. by apply HA, Hd. }
  set (v0 := MkVfs k [] [] : vfs).
  assert (running 0 v0 [p] [first_Task p q 0 0 (MkPtr b 0)] [0] 0 p (first_Task p q 0 0 (MkPtr b 0))) as Hr0 by (split; done).
  pose proof (running_memory _ _ _ _ _ _ _ _ h _ T Hr0 Has) as Hr.
  destruct (running_update _ _ _ _ _ _ _ _ (set_pml4 77824) Hr) as (v & Ev & Hrv & _).
  destruct (running_task _ _ _ _ _ _ _ _ Hr) as (_ & Ht & _).
  rewrite (on_objs_run _ _ _ _ (set_field_run _ _ _ _ Ht)) in Ev. injection Ev as <-.
  eexists _, p, _, T. split; [exact Hrv|]. cbn [set_objs scheduler store set_store store_heap objs] in *.
  split; [|exact Hhh].
  cbn [set_pml4 pml4_addr]. rewrite Hhh. change (u64 (77824 + 2 ^ 47)) with 140737488433152.
  rewrite dom_insert_lookup_L; [exact Has|]. by exists (to_obj (first_Task p q 0 0 (MkPtr b 0))).
Qed.

Lemma syscall_mmap_maps_witness : exists (k : vfs) root,
  syscall_mmap 0 0x400000 3 1 0x22 (-1) 0 k = Halted \/
  exists frame k', syscall_mmap 0 0x400000 3 1 0x22 (-1) 0 k = Ok (0x400000, k') /\
    block_ok (heap_of k') (frame, 1) /\ virt_to_phys root 0x402010 (heap_of k') = frame + 2 * 4096 + 16.
Proof.
  destruct mmap_start as (k & p & t & T & Hr & Has & Hh). exists k, (u64 (pml4_addr t + hhdm (heap_of k))).
  destruct (syscall_mmap_maps 0 k [p] [t] [0] 0 p t T 0x400000 3 1 0x22 (-1) 0 Hr Has ltac:(lia) ltac:(rewrite Hh; lia)
    ltac:(vm_compute; discriminate) ltac:(vm_compute; discriminate)) as [E|(frame & k' & T' & E & _ & _ & Hb & _ & _ & Htr)];
    [by left|right].
  exists frame, k'. split; [exact E|]. split; [exact Hb|]. exact (Htr 0x402010 ltac:(lia)).
Defined.

(** *** A program is started *)

Definition demo_machine : Kernel :=
  {| memmap := [MemmapEntry 65536 (4096 * 90) 0]; hhdm := 2 ^ 47; last_freed_page := -1; last_freed_section := -1;
     last_freed_num_pages := 0; total_memory_allocated := 0; kheap_start := 0; mem := fun _ => 0 |}.
Definition demo_image : KernelImage :=
  {| kernel_start := 2 ^ 63; writeallowed_start := 2 ^ 63 + 4096; kernel_end := 2 ^ 63 + 8192;
     physical_base := 4096; virtual_base := 2 ^ 63 |}.

(** A 64-bit x86 file with the segment of [demo_program] (Elf.v). *)
Definition demo_elf : list Z :=
  elf_magic ++ [2; 1] ++ replicate 12 0 ++ [0x3E; 0] ++ replicate 4 0 ++ [0; 0; 64; 0; 0; 0; 0; 0] ++
  [64; 0; 0; 0; 0; 0; 0; 0] ++ replicate 16 0 ++ [1; 0] ++ replicate 6 0 ++ drop 64 demo_program.

(** Two drives, and the file [R:/a]. *)
Definition demo_setup : M vfs unit :=
  let* r := on_objs (tempfs_new (fun _ => zero_Inode) (fun _ => zero_DirEntryNode)) in
  mount 82 0 true r 0 0 ;;;
  let* d := on_objs (tempfs_new (fun _ => zero_Inode) (fun _ => zero_DirEntryNode)) in
  mount 68 0 true d 0 0 ;;;
  let* f := demo_open [97; 0] O_CREATALL MODE_READWRITE in
  write (fun _ => ret tt) f demo_elf (Zlen demo_elf) ;;;
  ret tt.

#[local] Existing Instance demo_hardware.
Definition demo_spawn (path : list Z) (argv : list (list Z)) : M vfs Z :=
  spawn 0 2 (fun _ => zero_Task) (fun _ => []) (fun _ => zero_File) (fun _ _ => [97; 0]) demo_image (fun k => demo_apic k 0) path argv.

Definition run_machine {A} (m : M vfs A) : option A :=
  match init_kheap demo_machine with
  | Ok (_, h) => value_of ((demo_boot ;;; demo_setup ;;; m) (MkVfs (MkSched (MkStore (H := KHeap_Allocator) h ∅) 0 0 false false) [] []))
  | _ => None
  end.

(** A byte of the address space of the second task. *)
Definition demo_byte (virt : Z) : M vfs Z :=
  let* t := on_sched (get_task 1 : M (Sched VfsObj) Z) in
  let* x := on_objs (get_obj Task t : M (Store VfsObj) Task) in
  let* k := get in
  let h := heap_of k in
  ret (load8 (mem h) (virt_to_phys (u64 (pml4_addr x + hhdm h)) virt h + hhdm h)).

(** The program and its arguments are in the new address space; a file that is
    missing or no ELF file is refused. *)
Example spawn_demo :
  run_machine (
    let* missing := demo_spawn [98; 0] [] in
    let* status := demo_spawn [97; 0] [[97; 0]; [98; 99; 0]] in
    let* a := demo_byte 0x400001 in
    let* b := demo_byte (ARGV_DATA_ADDR + 3) in
    ret (missing, status, a, b)) = Some (2, 0, 8, 99).
Proof. vm_compute. reflexivity. Qed.
