(* ===== verification/Libc.v ===== *)
(** * src/libc and src/userspace: the C library of user programs, and the shell

    A program reaches the kernel through interrupt 0x80 only: [System] is the
    system calls as a program sees them, whatever implements them.  The library
    is text over [sys_write]; [Terminal] is what it relies on of a standard
    output, and the kernel's own console (Printf.v), which the file [stdout] is
    written to (VFS.v), is one.  Buffers are lists of bytes, as in Strings.v,
    whose loops the library repeats under other names. *)
From stdpp Require Import strings.
From S2P Require Import Prelude Memory Strings Events Screen Printf.

(** The system calls: the buffer a call fills is part of its result. *)
Class System (St : Type) := {
  sys_read (fd : Z) (buf : list Z) (count : Z) : M St (Z * list Z);
  sys_write (fd : Z) (buf : list Z) (count : Z) : M St Z;
  sys_spawn (path : list Z) (argv : list (list Z)) (argc : Z) : M St Z;
  sys_getcwd (buf : list Z) (size : Z) : M St (list Z);
  sys_poll : M St Event;
  sys_peek : M St Event;
  sys_exit (status : Z) : M St unit
}.

(** ** string.c *)

Fixpoint strlen (str : list Z) : outcome Z :=
  match str with
  | [] => Fault
  | c :: str' => if negb (c =? 0) then let+ len := strlen str' in Ok (len + 1) else Ok 0
  end.

(** [rep movsb] between two arrays. *)
Definition memcpy (dest from : list Z) (n : Z) : outcome (list Z) :=
  if (n <=? Zlen dest) && (n <=? Zlen from)
  then Ok (take (Z.to_nat n) from ++ drop (Z.to_nat n) dest)
  else Fault.

(** [for (size_t c = 0; c < size; c++)], [n] iterations from [c] on. *)
Fixpoint memcmp_from (n : nat) (str1 str2 : list Z) (c : Z) : outcome Z :=
  match n with
  | O => Ok 0
  | S n' =>
      let+ x := rd str1 c in
      let+ y := rd str2 c in
      if negb (x =? y) then
        let+ x0 := rd str1 0 in
        let+ y0 := rd str2 0 in
        Ok (x0 - y0)
      else memcmp_from n' str1 str2 (c + 1)
  end.
Definition memcmp (str1 str2 : list Z) (size : Z) : outcome Z := memcmp_from (Z.to_nat size) str1 str2 0.

(** ** printf.c, the conversions *)

Definition reverse (str : list Z) (length : Z) : outcome (list Z) :=
  reverse_loop (S (Z.to_nat length)) str 0 (length - 1).

(** [buffer] is the local array, as it is found on the stack. *)
Definition int_to_hex_string (num : Z) (buffer str : list Z) : outcome (list Z) :=
  let+ (buffer, index) := fill_digits hex_digit (fun n => Z.shiftr n 4) num buffer in
  let+ (buffer, index) := pad_loop 17 buffer index in
  let+ buffer := wr buffer index 0 in
  let+ buffer := reverse buffer index in
  memcpy str buffer 17.

Definition get_num_length (num : Z) : outcome Z := num_length_loop 65 num 0.

Definition int_to_string (num : Z) (str : list Z) : outcome (list Z) :=
  let+ length := get_num_length num in
  let+ str := wr str length 0 in
  dec_loop 65 num str (length - 1).

(** ** The wrappers of the system calls *)

Definition stdin : Z := 0.
Definition stdout : Z := 1.
Definition stderr : Z := 2.

Section Code.
Context {St : Type} `{SY : !System St}.

(** The results are a [size_t] and a [uint64_t], the arguments of type [int]
    are cut to their width by their callers. *)
Definition write (fd : Z) (buf : list Z) (count : Z) : M St Z :=
  let* r := sys_write fd buf count in ret (u64 r).
Definition read (fd : Z) (buf : list Z) (count : Z) : M St (Z * list Z) :=
  let* (_, buf) := sys_read fd buf count in ret (count, buf).
Definition getcwd (buf : list Z) (size : Z) : M St (list Z) := sys_getcwd buf size.
Definition spawn (path : list Z) (argv : list (list Z)) (argc : Z) : M St Z :=
  let* r := sys_spawn path argv argc in ret (u64 r).
Definition poll : M St Event := sys_poll.
Definition peek : M St Event := sys_peek.
Definition exit (status : Z) : M St unit := sys_exit status.

Definition fputs (str : list Z) (stream : Z) : M St Z :=
  let* len := lift (strlen str) in
  let* r := write stream str len in ret (s32 r).
Definition fgets (str : list Z) (n fd : Z) : M St (list Z) :=
  let* (_, str) := read fd str n in ret str.

(** ** printf *)

Context (junk : nat -> list Z).

(** The conversion [c] behind a percent sign. *)
Definition convert (c : Z) (args : list Arg) : M St (list Arg) :=
  if (c =? 100) || (c =? 105) then
    let* (n, args) := lift (va_num args) in
    let* buffer := lift (int_to_string n (junk 10%nat)) in
    let* buffer := lift (wr buffer 9 0) in
    fputs buffer stdout ;;; ret args
  else if c =? 99 then
    let* (n, args) := lift (va_num args) in
    let* buffer := lift (wr (junk 10%nat) 0 (u8 n)) in
    let* buffer := lift (wr buffer 1 0) in
    fputs buffer stdout ;;; ret args
  else if c =? 120 then
    let* (n, args) := lift (va_num args) in
    let* bufferx := lift (int_to_hex_string n (junk 17%nat) (junk 20%nat)) in
    let* bufferx := lift (wr bufferx 19 0) in
    fputs bufferx stdout ;;; ret args
  else if c =? 115 then
    let* (s, args) := lift (va_str args) in
    fputs s stdout ;;; ret args
  else ret args.

(** [format] is the rest of the format; each iteration moves on in it. *)
Fixpoint format_loop (fuel : nat) (format : list Z) (args : list Arg) : M St unit :=
  match fuel with
  | O => fun _ => Spin
  | S fuel' =>
      let* c := lift (rd format 0) in
      if c =? 0 then ret tt
      else if c =? 37 then
        let* c := lift (rd (tail format) 0) in
        let* args := convert c args in
        format_loop fuel' (tail (tail format)) args
      else
        fputs [c; 0] stdout ;;;
        format_loop fuel' (tail format) args
  end.
Definition printf (format : list Z) (args : list Arg) : M St unit := format_loop (S (length format)) format args.
End Code.

(** ** The C functions *)

Lemma strlen_spec s a : c_string s a -> strlen a = Ok (Zlen s).
Proof.
  intros [Hs [rest ->]]. induction Hs as [|c s Hc _ IH]; cbn [strlen app]; [done|].
  destruct (Z.eqb_spec c 0); [done|]. cbn [negb]. rewrite IH. cbn [obind]. f_equal. zlen.
Qed.

Lemma fill_digits_any b ch digit next num post :
  2 <= b -> ch 0 = chr_0 -> (forall n, 0 <= n -> digit n = ch (n mod b)) -> (forall n, 0 <= n -> next n = n / b) ->
  is_u64 num -> Zlen (digits 65 b num) <= Zlen post ->
  fill_digits digit next num post =
    Ok (map ch (digits 65 b num) ++ drop (length (digits 65 b num)) post, Zlen (digits 65 b num)).
Proof.
  intros Hb Hch Hd Hn Hnum Hlen. unfold fill_digits. destruct (Z.eqb_spec num 0) as [->|Hne].
  - rewrite digits_zero in *. destruct post as [|y post]; [zlen|]. rewrite wr_hd. cbn. by rewrite Hch.
  - pose proof (digit_loop_spec b ch digit next 64 num [] post 0) as H. cbn [app] in H. rewrite H; try done.
    + rewrite digits_64 by done. destruct (Z.leb_spec (Zlen (digits 65 b num)) (Zlen post)); [done|lia].
    + unfold is_u64 in Hnum. split; [lia|]. apply Z.lt_le_trans with (2 ^ 64); [lia|]. apply Z.pow_le_mono_l. lia.
Qed.

Lemma int_to_hex_string_spec num buffer str :
  is_u64 num -> Zlen buffer = 17 -> 17 <= Zlen str ->
  int_to_hex_string num buffer str = Ok (hex16 num ++ 0 :: drop 17 str).
Proof.
  intros Hn Hb Hs. unfold int_to_hex_string, hex16, numeral.
  assert (Zlen (digits 65 16 num) <= 16) as Hd by (apply (digits_length 16 ltac:(lia) 65 16); [apply Hn|lia]).
  rewrite (fill_digits_any 16 hex_char) by first [done | lia | apply hex_digit_char | apply shiftr_4]. cbn [obind].
  set (ds := digits 65 16 num) in *.
  edestruct (pad_loop_spec 17 (map hex_char ds) (drop (length ds) buffer) (Zlen ds)) as (y & rest & ->);
    [zlen|rewrite length_map; unfold Zlen in *; lia|rewrite Zlen_map; unfold Zlen in *; rewrite length_drop; lia|lia|].
  cbn [obind]. rewrite length_map. set (text := map hex_char ds ++ _).
  assert (Zlen text = 16) as Ht by (unfold text; autorewrite with zlen; unfold Zlen in *; lia).
  rewrite wr_mid by done. cbn [obind]. unfold reverse. pose proof (ku_reverse_spec text (0 :: rest) 16 ltac:(done)) as Hr.
  unfold ku_reverse in Hr. rewrite Hr. cbn [obind]. unfold memcpy. case_if; [|zlen].
  change (0 :: rest) with ([0] ++ rest). rewrite app_assoc, take_app_eq.
  - change (Z.to_nat 17) with 17%nat. unfold text. f_equal. by rewrite rev_app_distr, map_rev, rev_replicate, <- !app_assoc.
  - rewrite length_app, length_rev. unfold Zlen in Ht. cbn [length]. lia.
Qed.

Lemma int_to_string_spec num str :
  is_u64 num ->
  int_to_string num str =
    if Zlen (decimal num) <? Zlen str
    then Ok (decimal num ++ 0 :: drop (S (length (decimal num))) str) else Fault.
Proof. exact (ku_uint64_to_string_spec num str). Qed.

(** The comparison answers with the first bytes as soon as any two differ. *)
Lemma memcmp_from_spec n s1 s2 : forall pre1 pre2 c,
  c = Zlen pre1 -> c = Zlen pre2 -> (n <= length s1)%nat -> (n <= length s2)%nat ->
  memcmp_from n (pre1 ++ s1) (pre2 ++ s2) c =
    if bool_decide (take n s1 = take n s2) then Ok 0
    else let+ x0 := rd (pre1 ++ s1) 0 in let+ y0 := rd (pre2 ++ s2) 0 in Ok (x0 - y0).
Proof.
  revert s1 s2. induction n as [|n IH]; intros s1 s2 pre1 pre2 c Hc1 Hc2 H1 H2; [done|].
  destruct s1 as [|x s1], s2 as [|y s2]; cbn [length] in *; try lia. cbn [memcmp_from take].
  rewrite !rd_mid by done. cbn [obind]. destruct (Z.eqb_spec x y) as [->|Hne]; cbn [negb].
  - replace (pre1 ++ y :: s1) with ((pre1 ++ [y]) ++ s1) by (by rewrite <- app_assoc).
    replace (pre2 ++ y :: s2) with ((pre2 ++ [y]) ++ s2) by (by rewrite <- app_assoc).
    rewrite IH by (lia || zlen).
    rewrite (bool_decide_ext (y :: take n s1 = y :: take n s2) (take n s1 = take n s2)) by (split; congruence). done.
  - rewrite bool_decide_false by congruence. done.
Qed.

(** ** Standard output *)

(** What the library relies on: a write of a string that [shows] appends it to
    the output, [wrote].  Characters of the printable range without escape and
    percent sign show on every terminal. *)
Class Terminal (St : Type) `{SY : !System St} := {
  ready : St -> Prop;
  shows : list Z -> Prop;
  wrote : list Z -> St -> St -> Prop;
  shows_plain s : plain s -> 37 ∉ s -> shows s;
  wrote_nil s : wrote [] s s;
  wrote_app a b s1 s2 s3 : wrote a s1 s2 -> wrote b s2 s3 -> wrote (a ++ b) s1 s3;
  sys_write_shows s a st : ready st -> c_string s a -> shows s -> Zlen s < 2 ^ 31 ->
    exists st', sys_write stdout a (Zlen s) st = Ok (0, st') /\ wrote s st st' /\ ready st'
}.

Section Theory.
Context {St : Type} `{SY : !System St} `{TM : !Terminal St}.

Lemma fputs_run s a st :
  ready st -> c_string s a -> shows s -> Zlen s < 2 ^ 31 ->
  exists st', fputs a stdout st = Ok (0, st') /\ wrote s st st' /\ ready st'.
Proof using.
  intros Hr Hs Hsh Hl. destruct (sys_write_shows s a st Hr Hs Hsh Hl) as (st' & E & H). exists st'. split; [|done].
  unfold fputs, write. by rewrite (bind_lift _ _ _ _ (strlen_spec _ _ Hs)), bind_assoc, (bind_run _ _ _ _ _ E).
Qed.

(** The text of a format and its arguments. *)
Inductive formatted : list Z -> list Arg -> list Z -> Prop :=
  | put_end args : formatted [] args []
  | put_char c f args out : c <> 37 -> c <> 0 -> shows [c] -> formatted f args out -> formatted (c :: f) args (c :: out)
  | put_decimal c n f args out : c = 100 \/ c = 105 -> 0 <= n < 10 ^ 9 -> formatted f args out ->
      formatted (37 :: c :: f) (Num n :: args) (decimal n ++ out)
  | put_character n f args out : u8 n <> 0 -> shows [u8 n] -> formatted f args out ->
      formatted (37 :: 99 :: f) (Num n :: args) (u8 n :: out)
  | put_hex n f args out : is_u64 n -> formatted f args out ->
      formatted (37 :: 120 :: f) (Num n :: args) (hex16 n ++ out)
  | put_string s a f args out : c_string s a -> shows s -> Zlen s < 2 ^ 31 -> formatted f args out ->
      formatted (37 :: 115 :: f) (Str a :: args) (s ++ out)
  | put_unknown c f args out : c ∉ [99; 100; 105; 115; 120] -> c <> 0 -> formatted f args out ->
      formatted (37 :: c :: f) args out.

Context (junk : nat -> list Z) (junk_length : forall n, length (junk n) = n).

Lemma numeral_shows b ch n :
  2 <= b -> is_u64 n -> (forall d, 0 <= d < b -> 37 < ch d < 128) -> shows (numeral b ch n).
Proof using.
  intros Hb Hn Hch. assert (Forall (fun c => 37 < c < 128) (numeral b ch n)) as H.
  { eapply Forall_impl; [by apply digits_char|]. intros x (d & Hd & ->). auto. }
  rewrite Forall_forall in H. apply shows_plain.
  - apply Forall_forall. intros c Hc%H. lia.
  - intros Hc%H. lia.
Qed.

Lemma decimal_shows n : is_u64 n -> shows (decimal n).
Proof using. intros Hn. apply numeral_shows; [lia|done|]. intros d Hd. unfold dec_char, chr_0. lia. Qed.

Lemma hex16_shows n : is_u64 n -> shows (hex16 n).
Proof using.
  intros Hn. assert (Forall (fun c => 37 < c < 128) (hex16 n)) as H.
  { apply Forall_app. split; [by apply Forall_replicate|]. eapply Forall_impl; [apply digits_char; [lia|done]|].
    intros x (d & Hd & ->). unfold hex_char, chr_0, chr_A. case_bool. }
  rewrite Forall_forall in H. apply shows_plain; [by apply hex16_plain|]. intros Hc%H. lia.
Qed.

(** A text in a local buffer whose last byte is cleared. *)
Lemma put_buffer_run {A} s r i (k : Z -> M St A) st :
  Forall (fun c => c <> 0) s -> shows s -> Zlen s < 2 ^ 31 -> ready st -> Zlen s <= i -> i <= Zlen s + Zlen r ->
  exists st', (let* b := lift (wr (s ++ 0 :: r) i 0) in bind (fputs b stdout) k) st = k 0 st' /\ wrote s st st' /\ ready st'.
Proof using.
  clear junk junk_length. intros Hz Hs Hl Hr H1 H2. destruct (wr_terminator s r i H1 H2) as [r' E].
  rewrite (bind_lift _ _ _ _ E).
  destruct (fputs_run s (s ++ 0 :: r') st Hr ltac:(split; [done|by exists r']) Hs Hl) as (st' & E' & H).
  exists st'. by rewrite (bind_run _ _ _ _ _ E').
Qed.

Lemma plain_nonzero s : plain s -> Forall (fun c => c <> 0) s.
Proof using. clear. intros H. eapply Forall_impl; [exact H|]. cbn. lia. Qed.

(** What a conversion of the format does. *)
Definition converts (c : Z) (args args' : list Arg) (out : list Z) : Prop :=
  forall st, ready st -> exists st', convert junk c args st = Ok (args', st') /\ wrote out st st' /\ ready st'.

Lemma junk_drop n k : (k <= n)%nat -> Zlen (drop k (junk n)) = Z.of_nat n - Z.of_nat k.
Proof using junk_length. intros Hk. unfold Zlen. rewrite length_drop, junk_length. lia. Qed.

Lemma converts_decimal c n args : c = 100 \/ c = 105 -> 0 <= n < 10 ^ 9 -> converts c (Num n :: args) args (decimal n).
Proof using junk_length.
  intros Hc Hn st Hr. assert (is_u64 n) as Hu by (unfold is_u64; lia).
  pose proof (proj2 (decimal_length n Hu) (proj2 Hn)) as Hl. pose proof (Zlen_nonneg (decimal n)).
  unfold convert. replace ((c =? 100) || (c =? 105)) with true by lia. rewrite (bind_lift _ (n, args)) by done.
  rewrite int_to_string_spec by done. unfold Zlen at 2. rewrite junk_length.
  destruct (Z.ltb_spec (Zlen (decimal n)) (Z.of_nat 10)); [|lia]. rewrite (bind_lift _ _ _ _ eq_refl).
  apply (put_buffer_run (decimal n) _ 9 (fun _ => ret args)); [by apply plain_nonzero, decimal_plain|by apply decimal_shows|lia|done|lia|].
  rewrite junk_drop by (unfold Zlen in *; lia). unfold Zlen in *. lia.
Qed.

Lemma converts_character n args : u8 n <> 0 -> shows [u8 n] -> converts 99 (Num n :: args) args [u8 n].
Proof using junk_length.
  intros Hn Hs st Hr. unfold convert. cbn [Z.eqb Pos.eqb orb]. rewrite (bind_lift _ (n, args)) by done.
  pose proof (junk_length 10) as Hj. destruct (junk 10) as [|x [|y l]]; [discriminate Hj..|].
  rewrite (bind_lift _ _ _ _ (wr_hd _ _ _)), (bind_lift _ _ _ _ (wr_snd _ _ _ _)).
  destruct (fputs_run [u8 n] (u8 n :: 0 :: l) st Hr ltac:(split; [by repeat constructor|by exists l]) Hs eq_refl)
    as (st' & E & H). exists st'. by rewrite (bind_run _ _ _ _ _ E).
Qed.

Lemma converts_hex n args : is_u64 n -> converts 120 (Num n :: args) args (hex16 n).
Proof using junk_length.
  intros Hn st Hr. pose proof (hex16_length n Hn) as Hl. unfold convert. cbn [Z.eqb Pos.eqb orb].
  rewrite (bind_lift _ (n, args)) by done.
  rewrite int_to_hex_string_spec by (done || (unfold Zlen; rewrite junk_length; lia)). rewrite (bind_lift _ _ _ _ eq_refl).
  apply (put_buffer_run (hex16 n) _ 19 (fun _ => ret args)); [by apply plain_nonzero, hex16_plain|by apply hex16_shows|lia|done|lia|].
  rewrite junk_drop; lia.
Qed.

Lemma converts_string s a args : c_string s a -> shows s -> Zlen s < 2 ^ 31 -> converts 115 (Str a :: args) args s.
Proof using.
  clear junk_length. intros Hs Hsh Hl st Hr. unfold convert. cbn [Z.eqb Pos.eqb orb]. rewrite (bind_lift _ (a, args)) by done.
  destruct (fputs_run s a st Hr Hs Hsh Hl) as (st' & E & H). exists st'. by rewrite (bind_run _ _ _ _ _ E).
Qed.

Lemma converts_unknown c args : c ∉ [99; 100; 105; 115; 120] -> converts c args args [].
Proof using.
  clear junk_length. rewrite !not_elem_of_cons. intros (H1 & H2 & H3 & H4 & H5 & _) st Hr. exists st.
  split; [|split; [apply wrote_nil|done]]. unfold convert. case_bool.
Qed.

(** [format_loop] on a format it can print, up to the rest [tl]. *)
Definition prints (fuel : nat) (f tl : list Z) (args : list Arg) (out : list Z) : Prop :=
  forall st, ready st -> exists fuel' args' st', (fuel - length f <= fuel')%nat /\ wrote out st st' /\ ready st' /\
    format_loop junk fuel (f ++ tl) args st = format_loop junk fuel' tl args' st'.

Lemma prints_conversion fuel c f tl args args' o1 o2 :
  converts c args args' o1 -> prints fuel f tl args' o2 -> prints (S fuel) (37 :: c :: f) tl args (o1 ++ o2).
Proof using.
  clear junk_length. intros Hc Hf st Hr. destruct (Hc st Hr) as (st1 & E1 & H1 & Hr1).
  destruct (Hf st1 Hr1) as (fuel' & args2 & st2 & Hfu & H2 & Hr2 & E2). exists fuel', args2, st2.
  split; [cbn [length]; lia|]. split; [by eapply wrote_app|]. split; [done|].
  cbn [format_loop app tail]. rewrite (bind_lift _ 37) by done. cbn [Z.eqb Pos.eqb]. rewrite (bind_lift _ c) by done.
  by rewrite (bind_run _ _ _ _ _ E1).
Qed.

Lemma format_loop_prints f args out : formatted f args out -> forall fuel tl, (length f <= fuel)%nat -> prints fuel f tl args out.
Proof using junk_length.
  assert (forall (f' : list Z) fuel c1 c2, (length (c1 :: c2 :: f') <= S fuel)%nat -> (length f' <= fuel)%nat) as Hfu by (cbn; lia).
  induction 1 as [args|c f args out Hc H0 Hs _ IH|c n f args out Hc Hn _ IH|n f args out Hn Hs _ IH|n f args out Hn _ IH|
    s a f args out Hs Hsh Hl _ IH|c f args out Hc H0 _ IH]; intros fuel tl Hf.
  - intros st Hr. exists fuel, args, st. split; [cbn; lia|]. split; [apply wrote_nil|done].
  - destruct fuel as [|fuel]; [cbn in Hf; lia|]. intros st Hr.
    destruct (fputs_run [c] [c; 0] st Hr ltac:(split; [by repeat constructor|by exists []]) Hs eq_refl) as (st1 & E1 & H1 & Hr1).
    destruct (IH fuel tl ltac:(cbn in Hf; lia) st1 Hr1) as (fuel' & args' & st2 & Hle & H2 & Hr2 & E2).
    exists fuel', args', st2. split; [cbn; lia|]. split; [change (c :: out) with ([c] ++ out); by eapply wrote_app|].
    split; [done|]. cbn [format_loop app tail]. rewrite (bind_lift _ c) by done.
    destruct (Z.eqb_spec c 0); [done|]. destruct (Z.eqb_spec c 37); [done|]. by rewrite (bind_run _ _ _ _ _ E1).
  - destruct fuel as [|fuel]; [cbn in Hf; lia|]. eapply prints_conversion; [by apply converts_decimal|]. apply IH. by eapply Hfu.
  - destruct fuel as [|fuel]; [cbn in Hf; lia|]. change (u8 n :: out) with ([u8 n] ++ out).
    eapply prints_conversion; [by apply converts_character|]. apply IH. by eapply Hfu.
  - destruct fuel as [|fuel]; [cbn in Hf; lia|]. eapply prints_conversion; [by apply converts_hex|]. apply IH. by eapply Hfu.
  - destruct fuel as [|fuel]; [cbn in Hf; lia|]. eapply prints_conversion; [by apply converts_string|]. apply IH. by eapply Hfu.
  - destruct fuel as [|fuel]; [cbn in Hf; lia|]. change out with ([] ++ out). eapply prints_conversion; [by apply converts_unknown|].
    apply IH. by eapply Hfu.
Qed.

Lemma libc_printf_run f args out rest st :
  ready st -> formatted f args out ->
  exists st', printf junk (f ++ 0 :: rest) args st = Ok (tt, st') /\ wrote out st st' /\ ready st'.
Proof using junk_length.
  intros Hr Hf. unfold printf.
  destruct (format_loop_prints f args out Hf (S (length (f ++ 0 :: rest))) (0 :: rest) ltac:(rewrite length_app; lia) st Hr)
    as (fuel' & args' & st' & Hle & Hw & Hr' & E). exists st'. rewrite E.
  destruct fuel' as [|fuel']; [rewrite length_app in Hle; cbn [length] in Hle; lia|]. by split.
Qed.
End Theory.

(** ** userspace/shell.c *)

Section Shell.
Context {St : Type} `{SY : !System St} (junk : nat -> list Z).

(** [while (true)], at most [fuel] polls. *)
Fixpoint wait_for_event (fuel : nat) (event_type : Z) : M St unit :=
  match fuel with
  | O => fun _ => Spin
  | S fuel' =>
      let* this_event := poll in
      if do_handle this_event && (event_id this_event =? event_type) then ret tt
      else wait_for_event fuel' event_type
  end.

Definition argvals : list (list Z) :=
  [c_text "R:/exec/shell" ++ [0]; c_text "Arg test 1!" ++ [0]; c_text "Second :D" ++ [0]].

(** [__DATE__], and the upper half of the register of the argument [status],
    which is an [int] although [%i] reads 64 bits. *)
Context (date : list Z) (upper : Z) (patience : nat).

Definition banner : list Z :=
  c_text "PotatOS PowerlessShell, compiled on " ++ date ++ [10] ++
  c_text "This is free & open source software under the Mozilla Public License 2.0. See LICENSE in the GitHub repository for more information."
  ++ [10; 10; 0].
Definition failure_format : list Z :=
  c_text "Couldn't execute program " ++ [34] ++ c_text "%s" ++ [34] ++
  c_text ". The program may not exist (status code: %i)" ++ [10; 0].

(** The body of the loop of [main], over the two static buffers. *)
Definition turn (cwd_buffer input_buffer : list Z) : M St (list Z * list Z) :=
  let* cwd_buffer := getcwd cwd_buffer 99 in
  printf junk (c_text "SH %s> " ++ [0]) [Str cwd_buffer] ;;;
  let* input_buffer := fgets input_buffer 200 stdin in
  printf junk [10; 0] [] ;;;
  let* r := spawn input_buffer argvals 3 in
  let status := s32 r in
  if negb (status =? 0) then
    printf junk failure_format [Str input_buffer; Num (u32 status + 2 ^ 32 * u32 upper)] ;;;
    ret (cwd_buffer, input_buffer)
  else
    wait_for_event patience EVENT_TASK_EXITED ;;;
    ret (cwd_buffer, input_buffer).

(** [turns] iterations of [while (true)]. *)
Fixpoint shell_loop (turns : nat) (cwd_buffer input_buffer : list Z) : M St unit :=
  match turns with
  | O => fun _ => Spin
  | S turns' =>
      let* (cwd_buffer, input_buffer) := turn cwd_buffer input_buffer in
      shell_loop turns' cwd_buffer input_buffer
  end.
Definition shell_main (turns : nat) : M St unit :=
  fputs banner stdout ;;;
  shell_loop turns (replicate 100 0) (replicate 200 0).
End Shell.

(** helloworld.c *)
Definition hello_main {St} `{!System St} : M St Z := fputs (c_text "Hello, world!" ++ [10; 0]) stdout ;;; ret 0.

(** ** The kernel's console as a terminal *)

Section Console.
Context (line_status : nat -> Z) (patience : nat) (junk : nat -> list Z).

(** What a program that prints needs: a write to the file [stdout] is a
    [printf] of the buffer (fs/vfs.c); the calls that are not about output
    are refused here. *)
Definition console_system : System Console := {|
  sys_write fd buf count :=
    if fd =? stdout then Printf.printf line_status patience junk buf [] ;;; ret 0 else halt;
  sys_read _ _ _ := halt; sys_spawn _ _ _ := halt; sys_getcwd _ _ := halt;
  sys_poll := halt; sys_peek := halt; sys_exit _ := halt |}.
#[local] Existing Instance console_system.

(** Text the kernel's [printf] takes for its own output. *)
Definition verbatim (s : list Z) : Prop := Forall (fun c => 0 < c < 128 /\ c <> 27 /\ c <> 37) s.

Lemma verbatim_formats font s : verbatim s -> formats font s [] s.
Proof using. induction 1 as [|c s Hc _ IH]; [constructor|]. by apply fmt_char; [lia|lia|]. Qed.

Context (line_ready : forall n, exists k, (k < patience)%nat /\ Z.land (line_status (n + k)%nat) 0x20 <> 0).
Context (junk_length : forall n, length (junk n) = n).

Lemma verbatim_plain s : plain s -> 37 ∉ s -> verbatim s.
Proof using.
  clear. unfold plain, verbatim. rewrite !Forall_forall. intros H Hn c Hc. specialize (H c Hc). split; [lia|].
  split; [lia|]. by intros ->.
Qed.

Lemma console_write s a c :
  serial_lock c = false /\ works c -> c_string s a -> verbatim s ->
  exists c', sys_write stdout a (Zlen s) c = Ok (0, c') /\
    (serial c' = serial c ++ s /\ drawn (screen c) (screen c')) /\ serial_lock c' = false /\ works c'.
Proof using line_ready junk_length.
  intros [Hl Hw] [Hz [rest ->]] Hv.
  destruct (Printf.printf_run line_status patience junk s rest [] s c line_ready junk_length Hz Hl Hw (verbatim_formats _ _ Hv))
    as (c' & E & H1 & H2 & H3 & H4 & _). exists c'. split; [|done]. cbn [sys_write console_system].
  change (stdout =? stdout) with true. cbn match. by rewrite (bind_run _ _ _ _ _ E).
Qed.

Definition console_terminal : Terminal Console.
Proof using line_ready junk_length.
  refine {| ready c := serial_lock c = false /\ works c; shows := verbatim;
    wrote s c c' := serial c' = serial c ++ s /\ drawn (screen c) (screen c') |}.
  - exact verbatim_plain.
  - intros c. split; [by rewrite app_nil_r|apply drawn_refl].
  - intros a b c1 c2 c3 [H1 D1] [H2 D2]. split; [by rewrite H2, H1, app_assoc|by eapply drawn_trans].
  - intros s a c Hr Hs Hv _. by apply console_write.
Defined.

(** The kernel takes the program's text for a format: a conversion in it asks
    for an argument nobody has passed. *)
Lemma console_format_attack rest c : serial_lock c = false ->
  sys_write stdout (37 :: 115 :: 0 :: rest) 2 c = Fault.
Proof using.
  clear line_ready junk_length. intros Hl. cbn [sys_write console_system]. change (stdout =? stdout) with true. cbn match.
  unfold Printf.printf, aquire_serial_lock. unfold bind at 1 2. rewrite Hl. done.
Qed.
End Console.

(** ** Theorems *)

(** C40: The library's [printf].  On every terminal, the kernel's console among
    them, [printf] writes exactly the text of its format and arguments, decimal
    numbers below 10^9, 64-bit hexadecimal numbers, characters and strings.  A
    decimal conversion of a number from 10^9 on writes outside its local buffer,
    and behind a percent sign at the end of a format it reads past the end. *)
Theorem libc_printf_formats `{SY : !System St} `{TM : !Terminal St} junk f args out rest (st : St) :
  (forall n, length (junk n) = n) -> ready st -> formatted f args out ->
  (exists st', printf junk (f ++ 0 :: rest) args st = Ok (tt, st') /\ wrote out st st' /\ ready st') /\
  printf junk (f ++ [37; 0]) args st = Fault /\
  forall n rest' args', 10 ^ 9 <= n < 2 ^ 64 -> printf junk (37 :: 105 :: 0 :: rest') (Num n :: args') st = Fault.
Proof.
  intros Hj Hr Hf. split; [by apply libc_printf_run|]. split.
  - unfold printf. destruct (format_loop_prints junk Hj f args out Hf (S (length (f ++ [37; 0]))) [37; 0]
      ltac:(rewrite length_app; lia) st Hr) as (fuel & args' & st' & Hle & _ & _ & ->).
    rewrite length_app in Hle. cbn [length] in Hle. destruct fuel as [|[|fuel]]; [lia..|done].
  - intros n rest' args' Hn. assert (is_u64 n) as Hu by (unfold is_u64; lia). pose proof (decimal_length n Hu).
    unfold printf. cbn [length format_loop]. rewrite (bind_lift _ 37) by done. cbn [Z.eqb Pos.eqb].
    rewrite (bind_lift _ 105) by done. unfold convert. cbn [Z.eqb Pos.eqb orb].
    rewrite bind_assoc, (bind_lift _ (n, args')) by done. rewrite bind_assoc. unfold bind at 1. unfold lift at 1.
    rewrite int_to_string_spec by done. destruct (Z.ltb_spec (Zlen (decimal n)) (Zlen (junk 10%nat))) as [Hlt|]; [|done].
    unfold Zlen at 2 in Hlt. rewrite Hj in Hlt. lia.
Qed.

(** The library's [memcmp] compares only in part.  On equal ranges it is 0,
    on different ones it is the difference of the first bytes, not of the bytes
    that differ: two ranges that differ behind an equal first byte are equal to
    it. *)
Theorem memcmp_first_bytes a b n :
  0 <= n -> n <= Zlen a -> n <= Zlen b ->
  exists r, memcmp a b n = Ok r /\
    (r = 0 <-> take (Z.to_nat n) a = take (Z.to_nat n) b \/ head a = head b) /\
    (take (Z.to_nat n) a <> take (Z.to_nat n) b -> exists x y, head a = Some x /\ head b = Some y /\ r = x - y).
Proof.
  intros Hn Ha Hb. unfold memcmp. pose proof (memcmp_from_spec (Z.to_nat n) a b [] [] 0 eq_refl eq_refl) as H.
  cbn [app] in H. rewrite H by (unfold Zlen in *; lia). clear H. case_bool_decide as He.
  - exists 0. split; [done|]. split; [|done]. split; [by left|done].
  - destruct a as [|x a]; [destruct (Z.to_nat n) eqn:E; [done|unfold Zlen in Ha; cbn in Ha; lia]|].
    destruct b as [|y b]; [destruct (Z.to_nat n) eqn:E; [done|unfold Zlen in Hb; cbn in Hb; lia]|].
    exists (x - y). split; [done|]. split; [|intros _; by exists x, y].
    split; [intros H; right; cbn; f_equal; lia|]. intros [H|[= ->]]; [done|lia].
Qed.

(** ** Examples *)

(** A kernel for the shell: a list of lines typed in, programs that exist, and
    the events to come. *)
Record Demo := MkDemo { lines : list (list Z); output : list Z; events : list Event }.
Definition demo_system : System Demo := {|
  sys_read _ buf count k :=
    match lines k with
    | [] => Halted
    | l :: ls => Ok ((0, l ++ drop (length l) buf), MkDemo ls (output k) (events k))
    end;
  sys_write _ buf count k := Ok (0, MkDemo (lines k) (output k ++ take (Z.to_nat count) buf) (events k));
  sys_spawn path _ _ k := Ok (if bool_decide (take 3 path = c_text "R:/") then 0 else 2, k);
  sys_getcwd buf _ k := Ok (c_text "R:/" ++ drop 3 buf, k);
  sys_poll k := Ok (hd no_event (events k), MkDemo (lines k) (output k) (tl (events k)));
  sys_peek k := Ok (hd no_event (events k), k);
  sys_exit _ _ := Halted |}.
#[local] Existing Instance demo_system.

(** A program that does not exist, then one that ends with the second event. *)
Example shell_demo :
  let exited := {| do_handle := true; event_id := EVENT_TASK_EXITED; data0 := 1; data1 := 0 |} in
  match (let* (c, i) := turn (fun n => replicate n 7) 0 3 (replicate 100 0) (replicate 200 0) in
         turn (fun n => replicate n 7) 0 3 c i)
        (MkDemo [c_text "sh" ++ [0]; c_text "R:/x" ++ [0]] [] [no_event; exited; no_event]) with
  | Ok (_, k) => output k = c_text "SH R:/> " ++ [10] ++ c_text "Couldn't execute program " ++ [34] ++ c_text "sh" ++ [34] ++
        c_text ". The program may not exist (status code: 2)" ++ [10] ++ c_text "SH R:/> " ++ [10] /\
      events k = [no_event]
  | _ => False
  end.
Proof. vm_compute. done. Qed.

(** The upper half of the register of the status, set, overruns the buffer. *)
Example shell_status_overrun :
  turn (fun n => replicate n 7) 1 3 (replicate 100 0) (replicate 200 0) (MkDemo [c_text "sh" ++ [0]] [] []) = Fault.
Proof. vm_compute. done. Qed.

Lemma libc_printf_formats_witness :
  exists c', printf (SY := console_system (fun n => if Nat.even n then 0 else 0x20) 3 (fun n => replicate n 7))
    (fun n => replicate n 5) (c_text "n=%i %s" ++ [0]) [Num 2024; Str (c_text "hi" ++ [0])] (demo_console_of demo_screen true) = Ok (tt, c') /\
  serial c' = [] ++ c_text "n=2024 hi".
Proof.
  assert (forall n, exists k, (k < 3)%nat /\ Z.land (if Nat.even (n + k) then 0 else 0x20) 0x20 <> 0) as Hline.
  { intros n. destruct (Nat.even n) eqn:Hn.
    - exists 1%nat. split; [lia|]. by rewrite Nat.add_1_r, Nat.even_succ, <- Nat.negb_even, Hn.
    - exists 0%nat. split; [lia|]. by rewrite Nat.add_0_r, Hn. }
  assert (forall n, length (replicate n 7) = n) as Hjunk by (intros n; apply length_replicate).
  set (TM := console_terminal (fun n => if Nat.even n then 0 else 0x20) 3 (fun n => replicate n 7) Hline Hjunk).
  destruct (libc_printf_formats (TM := TM) (fun n => replicate n 5) (c_text "n=%i %s") [Num 2024; Str (c_text "hi" ++ [0])]
    (c_text "n=2024 hi") [] (demo_console_of demo_screen true)) as [(c' & E & [Hs _] & _) _].
  - intros n. apply length_replicate.
  - split; [done|]. intros _. apply demo_console.
  - apply (put_char 110); [done|done|repeat constructor; done|]. apply (put_char 61); [done|done|repeat constructor; done|].
    apply (put_decimal 105 2024 _ _ (c_text " hi")); [by right|lia|]. apply (put_char 32); [done|done|repeat constructor; done|].
    apply (put_string (c_text "hi") (c_text "hi" ++ [0]) _ _ []); [|repeat constructor; done|done|apply put_end].
    split; [repeat constructor; done|by exists []].
  - exists c'. split; [exact E|exact Hs].
Defined.

Lemma memcmp_first_bytes_witness : exists r, memcmp (c_text "ab") (c_text "ac") 2 = Ok r /\ r = 0.
Proof.
  destruct (memcmp_first_bytes (c_text "ab") (c_text "ac") 2 ltac:(done) ltac:(done) ltac:(done)) as (r & E & H & _).
  exists r. split; [exact E|]. apply H. by right.
Defined.
