(* ===== verification/Panic.v ===== *)
(** * kernel/panic.c: processor exceptions

    The handler of the exceptions reports on the console and stops the
    processor.  What is on the stack of the interrupted code is a parameter:
    [frame_at] gives the two words of the [struct stackFrame] at an address, or
    nothing where the address is not mapped. *)
From stdpp Require Import strings.
From S2P Require Import Prelude Memory Strings Screen Printf.

(** The registers the entry code of the exceptions has pushed. *)
Record IDTEFrame := {
  cr2 : Z; r15 : Z; r14 : Z; r13 : Z; r12 : Z; r11 : Z; r10 : Z; r9 : Z; r8 : Z; rbp : Z; rdi : Z; rsi : Z;
  rdx : Z; rcx : Z; rbx : Z; rax : Z; type : Z; code : Z; rip : Z; cs : Z; flags : Z; rsp : Z; ss : Z
}.

(** What [sgdt], [sidt] and the moves from the control registers give. *)
Record Control := { gdtr : Z; idtr : Z; control_cr2 : Z; control_cr3 : Z }.

Definition set_colours (fg bg : Z) (c : Console) : Console :=
  let s := screen c in
  set_screen (MkScreen (kernel s) (display s) (font s) fg bg (ch_X s) (ch_Y s)) c.

(** The console and the handler's two static variables. *)
Record Panic := MkPanic { console_of : Console; in_exception_handler : bool; label_designate : list Z }.

(** The texts. *)
Definition trace_title : list Z := [10] ++ c_text "Stack Trace (Most recent call last): " ++ [10].
Definition trace_format : list Z := c_text " 0x%x" ++ [10].
Definition registers_title : list Z := [10] ++ c_text "Registers: " ++ [10].
Definition registers_format : list Z :=
  c_text "  r8: 0x%x     r9: 0x%x     rax: 0x%x" ++ [10] ++
  c_text " r10: 0x%x    r11: 0x%x     rbx: 0x%x" ++ [10] ++
  c_text " r12: 0x%x    r13: 0x%x     rcx: 0x%x" ++ [10] ++
  c_text " r14: 0x%x    r15: 0x%x     rdx: 0x%x" ++ [10].
Definition control_format : list Z :=
  c_text "GDTR: 0x%x   IDTR: 0x%x" ++ [10] ++ c_text " CR3: 0x%x    CR2: 0x%x" ++ [10].
Definition panic_title : list Z := [10] ++ c_text "[KPANIC] The potato has gone rotten!" ++ [10].
Definition exception_format : list Z := c_text "Exception:  %s" ++ [10] ++ c_text "Error code: 0b%b" ++ [10].

Section Code.
Context (line_status : nat -> Z) (patience : nat) (junk : nat -> list Z).
Context (frame_at : Z -> option (Z * Z)) (control : Control).
Abbreviation printf := (printf line_status patience junk).

(** [while (stack)], at most [fuel] frames. *)
Fixpoint trace_loop (fuel : nat) (stack : Z) : M Console unit :=
  if stack =? 0 then ret tt
  else
    match fuel with
    | O => fun _ => Spin
    | S fuel' =>
        match frame_at stack with
        | None => fault
        | Some (rbp, rip) => printf (cstr trace_format) [Num rip] ;;; trace_loop fuel' rbp
        end
    end.

Definition stack_trace (fuel : nat) (rbp rip : Z) : M Console unit :=
  printf (cstr trace_title) [] ;;;
  printf (cstr trace_format) [Num rip] ;;;
  trace_loop fuel rbp.

Definition register_dump (r : IDTEFrame) : M Console unit :=
  printf (cstr registers_title) [] ;;;
  printf (cstr registers_format)
    [Num (r8 r); Num (r9 r); Num (rax r); Num (r10 r); Num (r11 r); Num (rbx r); Num (r12 r); Num (r13 r); Num (rcx r);
     Num (r14 r); Num (r15 r); Num (rdx r)] ;;;
  printf (cstr control_format) [Num (gdtr control); Num (idtr control); Num (control_cr3 control); Num (control_cr2 control)].

(** [kpanic] up to its call of [halt]. *)
Definition kpanic_report (fuel : nat) (message : list Z) (r : IDTEFrame) : M Console unit :=
  modify (set_colours 0xFF0000 0xFFFF00) ;;;
  printf (cstr panic_title) [] ;;;
  modify (set_colours 0xd8d9d7 0x012456) ;;;
  printf (cstr exception_format) [Str message; Num (code r)] ;;;
  register_dump r ;;;
  stack_trace fuel (rbp r) (rip r) ;;;
  printf [10; 0] [].
Definition kpanic (fuel : nat) (message : list Z) (r : IDTEFrame) : M Console unit := kpanic_report fuel message r ;;; halt.

(** The label of the exception, and the static buffer; the call cuts the type
    to 16 bits. *)
Definition exception_label (r : IDTEFrame) (buffer : list Z) : outcome (list Z * list Z) :=
  if type r =? 14 then let+ buffer := wr buffer 29 0 in Ok (cstr (c_text "Page Fault"), buffer)
  else if type r =? 13 then let+ buffer := wr buffer 29 0 in Ok (cstr (c_text "General Protection Fault"), buffer)
  else
    let+ buffer := ku_uint16_to_string (u16 (type r)) buffer in
    let+ buffer := wr buffer 29 0 in Ok (buffer, buffer).

Definition exception_handler (fuel : nat) (r : IDTEFrame) : M Panic unit :=
  let* p := get in
  if in_exception_handler p then halt
  else
    modify (fun p => MkPanic (console_of p) true (label_designate p)) ;;;
    let* (label, buffer) := lift (exception_label r (label_designate p)) in
    modify (fun p => MkPanic (console_of p) (in_exception_handler p) buffer) ;;;
    fun p => let+ (_, c) := kpanic fuel label r (console_of p) in
      Ok (tt, MkPanic c (in_exception_handler p) (label_designate p)).
End Code.

(** ** What is reported *)

(** The chain of frames from [stack] on, with its return addresses. *)
Inductive frames (frame_at : Z -> option (Z * Z)) : Z -> list Z -> Prop :=
  | frames_end : frames frame_at 0 []
  | frames_step stack rbp rip rips : stack <> 0 -> frame_at stack = Some (rbp, rip) -> is_u64 rip ->
      frames frame_at rbp rips -> frames frame_at stack (rip :: rips).

Definition label_text (r : IDTEFrame) : list Z :=
  if type r =? 14 then c_text "Page Fault"
  else if type r =? 13 then c_text "General Protection Fault" else decimal (u16 (type r)).
Definition trace_text (rips : list Z) : list Z := flat_map (fun rip => c_text " 0x" ++ hex16 rip ++ [10]) rips.
Definition registers_text (r : IDTEFrame) (control : Control) : list Z :=
  registers_title ++
  c_text "  r8: 0x" ++ hex16 (r8 r) ++ c_text "     r9: 0x" ++ hex16 (r9 r) ++ c_text "     rax: 0x" ++ hex16 (rax r) ++ [10] ++
  c_text " r10: 0x" ++ hex16 (r10 r) ++ c_text "    r11: 0x" ++ hex16 (r11 r) ++ c_text "     rbx: 0x" ++ hex16 (rbx r) ++ [10] ++
  c_text " r12: 0x" ++ hex16 (r12 r) ++ c_text "    r13: 0x" ++ hex16 (r13 r) ++ c_text "     rcx: 0x" ++ hex16 (rcx r) ++ [10] ++
  c_text " r14: 0x" ++ hex16 (r14 r) ++ c_text "    r15: 0x" ++ hex16 (r15 r) ++ c_text "     rdx: 0x" ++ hex16 (rdx r) ++ [10] ++
  c_text "GDTR: 0x" ++ hex16 (gdtr control) ++ c_text "   IDTR: 0x" ++ hex16 (idtr control) ++ [10] ++
  c_text " CR3: 0x" ++ hex16 (control_cr3 control) ++ c_text "    CR2: 0x" ++ hex16 (control_cr2 control) ++ [10].
Definition report (message : list Z) (r : IDTEFrame) (control : Control) (rips : list Z) : list Z :=
  panic_title ++ c_text "Exception:  " ++ message ++ [10] ++ c_text "Error code: 0b" ++ numeral 2 dec_char (code r) ++ [10] ++
  registers_text r control ++ trace_title ++ trace_text (rip r :: rips) ++ [10].

(** Registers hold 64 bits. *)
Definition registers_ok (r : IDTEFrame) (control : Control) : Prop :=
  Forall is_u64 [r8 r; r9 r; r10 r; r11 r; r12 r; r13 r; r14 r; r15 r; rax r; rbx r; rcx r; rdx r; code r; rip r; type r;
    gdtr control; idtr control; control_cr2 control; control_cr3 control].

Section Theory.
Context (line_status : nat -> Z) (patience : nat) (junk : nat -> list Z).
Context (ready : forall n, exists k, (k < patience)%nat /\ Z.land (line_status (n + k)%nat) 0x20 <> 0).
Context (junk_length : forall n, length (junk n) = n).
Abbreviation printf := (printf line_status patience junk).
Abbreviation emits_printf := (emits_printf line_status patience junk ready junk_length).

Lemma emits_colours fg bg m out : emits m out -> emits (modify (set_colours fg bg) ;;; m) out.
Proof using.
  intros H. change out with ([] ++ out). apply emits_seq; [|done]. intros c [Hl Hw].
  exists (set_colours fg bg c). split; [done|]. split; [by rewrite app_nil_r|]. split; [done|].
  intros Hf. destruct (Hw Hf) as [[] Hcur]. split; [split; [by destruct con_geometry|done..]|exact Hcur].
Qed.

Lemma emits_trace frame_at stack rips : frames frame_at stack rips -> forall fuel, (length rips <= fuel)%nat ->
  emits (trace_loop line_status patience junk frame_at fuel stack) (trace_text rips).
Proof using ready junk_length.
  induction 1 as [|stack rbp rip rips Hne Hat Hrip _ IH]; intros fuel Hf.
  - intros c Hc. exists c. split; [by destruct fuel|]. split; [by rewrite app_nil_r|done].
  - destruct fuel as [|fuel]; [cbn in Hf; lia|]. cbn [trace_loop]. destruct (Z.eqb_spec stack 0); [done|]. rewrite Hat.
    unfold trace_text. cbn [flat_map]. apply emits_seq; [|apply IH; cbn in Hf; lia].
    apply emits_printf; [repeat constructor; done|]. intros font. unfold trace_format. spell. fmt.
Qed.

Lemma emits_registers control r : registers_ok r control ->
  emits (register_dump line_status patience junk control r) (registers_text r control).
Proof using ready junk_length.
  unfold registers_ok. rewrite !Forall_cons.
  intros (H8 & H9 & H10 & H11 & H12 & H13 & H14 & H15 & HA & HB & HC & HD & _ & _ & _ & G & I & C2 & C3 & _).
  unfold register_dump, registers_text.
  apply emits_seq; [apply emits_printf; [repeat constructor; done|]; intros font; unfold registers_title; spell; fmt|].
  evar (o1 : list Z). evar (o2 : list Z).
  assert (emits (printf (cstr registers_format) [Num (r8 r); Num (r9 r); Num (rax r); Num (r10 r); Num (r11 r); Num (rbx r);
     Num (r12 r); Num (r13 r); Num (rcx r); Num (r14 r); Num (r15 r); Num (rdx r)]) o1) as E1.
  { subst o1. apply emits_printf; [repeat constructor; done|]. intros font. unfold registers_format. spell. fmt. }
  assert (emits (printf (cstr control_format) [Num (gdtr control); Num (idtr control); Num (control_cr3 control);
     Num (control_cr2 control)]) o2) as E2.
  { subst o2. apply emits_printf; [repeat constructor; done|]. intros font. unfold control_format. spell. fmt. }
  pose proof (emits_seq _ _ _ _ E1 E2) as H. subst o1 o2.
  match type of H with emits _ ?o => match goal with |- emits _ ?o' => replace o' with o end end; [exact H|].
  spell. repeat (rewrite <- app_assoc; cbn [app]). done.
Qed.

Lemma emits_report frame_at control fuel message a r rips :
  registers_ok r control -> frames frame_at (rbp r) rips -> (length rips <= fuel)%nat ->
  c_string message a -> plain message -> Zlen message < 2 ^ 31 ->
  emits (kpanic_report line_status patience junk frame_at control fuel a r) (report message r control rips).
Proof using ready junk_length.
  intros Hr Hf Hfuel Ha Hp Hl. unfold kpanic_report, report. apply emits_colours.
  apply emits_seq; [apply emits_printf; [repeat constructor; done|]; intros font; unfold panic_title; spell; fmt|].
  apply emits_colours. pose proof Hr as Hall. unfold registers_ok in Hr. rewrite !Forall_cons in Hr.
  destruct Hr as (_ & _ & _ & _ & _ & _ & _ & _ & _ & _ & _ & _ & Hcode & Hrip & _).
  assert (emits (printf (cstr exception_format) [Str a; Num (code r)])
    (c_text "Exception:  " ++ message ++ [10] ++ c_text "Error code: 0b" ++ numeral 2 dec_char (code r) ++ [10])) as E1.
  { apply emits_printf; [repeat constructor; done|]. intros font. unfold exception_format. spell. fmt.
    apply fmt_string; [done|done|intros _; destruct Ha as [_ [rest ->]]; by apply plain_ansi|]. fmt. }
  assert (emits (stack_trace line_status patience junk frame_at fuel (rbp r) (rip r) ;;; printf [10; 0] [])
    (trace_title ++ trace_text (rip r :: rips) ++ [10])) as E2.
  { unfold stack_trace. intros c Hc. rewrite bind_assoc. revert c Hc. change (emits
      (printf (cstr trace_title) [] ;;; ((printf (cstr trace_format) [Num (rip r)] ;;;
        trace_loop line_status patience junk frame_at fuel (rbp r)) ;;; printf [10; 0] []))
      (trace_title ++ trace_text (rip r :: rips) ++ [10])).
    apply emits_seq; [apply emits_printf; [repeat constructor; done|]; intros font; unfold trace_title; spell; fmt|].
    apply emits_seq; [|apply (emits_printf [10]); [repeat constructor; done|]; intros font; fmt].
    change (trace_text (rip r :: rips)) with ((c_text " 0x" ++ hex16 (rip r) ++ [10]) ++ trace_text rips).
    apply emits_seq; [|by apply emits_trace]. apply emits_printf; [repeat constructor; done|].
    intros font. unfold trace_format. spell. fmt. }
  pose proof (emits_seq _ _ _ _ E1 (emits_seq _ _ _ _ (emits_registers control r Hall) E2)) as H.
  rewrite <- !app_assoc in H. exact H.
Qed.

(** The label fits its buffer. *)
Lemma exception_label_run r buffer :
  0 <= type r -> Zlen buffer = 30 ->
  exists label buffer', exception_label r buffer = Ok (label, buffer') /\ c_string (label_text r) label /\ plain (label_text r) /\
    Zlen (label_text r) <= 30 /\ Zlen buffer' = 30.
Proof using.
  clear ready junk_length. intros Ht Hb. unfold exception_label, label_text.
  assert (forall l : list Z, Zlen l = 30 -> exists l', wr l 29 0 = Ok l' /\ Zlen l' = 30) as Hwr.
  { intros l Hl. unfold wr. fold (Zlen l). rewrite Hl. cbn. eexists. split; [reflexivity|]. unfold Zlen in *. by rewrite length_insert. }
  destruct (type r =? 14); [|destruct (type r =? 13)].
  - destruct (Hwr buffer Hb) as (b & -> & Hb'). exists (cstr (c_text "Page Fault")), b. split; [done|].
    split; [split; [repeat constructor; done|by exists []]|]. split; [repeat constructor; done|done].
  - destruct (Hwr buffer Hb) as (b & -> & Hb'). exists (cstr (c_text "General Protection Fault")), b. split; [done|].
    split; [split; [repeat constructor; done|by exists []]|]. split; [repeat constructor; done|done].
  - assert (0 <= u16 (type r) < 2 ^ 16) as Hu by (apply Z.mod_pos_bound; lia).
    assert (is_u64 (u16 (type r))) as Hu' by (unfold is_u64; lia).
    pose proof (proj2 (decimal_length _ Hu') ltac:(lia)) as Hl. pose proof (Zlen_nonneg (decimal (u16 (type r)))).
    rewrite ku_uint16_to_string_spec, ku_uint64_to_string_spec by done. rewrite Hb.
    destruct (Z.ltb_spec (Zlen (decimal (u16 (type r)))) 30); [|lia]. cbn [obind].
    set (d := decimal (u16 (type r))) in *. set (rest := drop _ buffer).
    assert (Zlen rest = 29 - Zlen d) as Hrest by (unfold rest, Zlen in *; rewrite length_drop; lia).
    destruct (wr_terminator d rest 29 ltac:(lia) ltac:(lia)) as [rest' E].
    destruct (Hwr (d ++ 0 :: rest) ltac:(zlen)) as (b & E' & Hb'). rewrite E in E'. injection E' as <-. rewrite E.
    exists (d ++ 0 :: rest'), (d ++ 0 :: rest'). pose proof (decimal_plain _ Hu') as Hpl. split; [done|].
    split; [split; [|by exists rest']|split; [done|split; [lia|done]]].
    eapply Forall_impl; [exact Hpl|]. cbn. lia.
Qed.

(** A frame that names itself as its caller. *)
Lemma trace_cycle frame_at stack rip : stack <> 0 -> frame_at stack = Some (stack, rip) -> is_u64 rip ->
  forall fuel c, usable c -> trace_loop line_status patience junk frame_at fuel stack c = Spin.
Proof using ready junk_length.
  intros Hne Hat Hrip. induction fuel as [|fuel IH]; intros c Hc; cbn [trace_loop]; (destruct (Z.eqb_spec stack 0); [done|]); [done|].
  rewrite Hat. assert (emits (printf (cstr trace_format) [Num rip]) (c_text " 0x" ++ hex16 rip ++ [10])) as E.
  { apply emits_printf; [repeat constructor; done|]. intros font. unfold trace_format. spell. fmt. }
  destruct (E c Hc) as (c1 & E1 & _ & U1). rewrite (bind_run _ _ _ _ _ E1). by apply IH.
Qed.
End Theory.

(** ** Theorems *)

(** C39: Exceptions.  When the chain of frames of the interrupted code ends and
    the console works, an exception is reported with its name, its error code,
    the registers and the return addresses of the chain, and the processor
    stops; an exception within the handler stops it at once, without a report.
    An exception that comes while the console's lock is held, as in the middle
    of a [printf], reports nothing: the handler waits for the lock forever. *)
Theorem exception_reports line_status patience junk frame_at control fuel r rips p :
  (forall n, exists k, (k < patience)%nat /\ Z.land (line_status (n + k)%nat) 0x20 <> 0) ->
  (forall n, length (junk n) = n) ->
  registers_ok r control -> frames frame_at (rbp r) rips -> (length rips <= fuel)%nat ->
  Zlen (label_designate p) = 30 -> works (console_of p) ->
  exception_handler line_status patience junk frame_at control fuel r p =
    (if in_exception_handler p then Halted else if serial_lock (console_of p) then Spin else Halted) /\
  (in_exception_handler p = false -> serial_lock (console_of p) = false ->
   exists label buffer c', exception_label r (label_designate p) = Ok (label, buffer) /\
     kpanic_report line_status patience junk frame_at control fuel label r (console_of p) = Ok (tt, c') /\
     serial c' = serial (console_of p) ++ report (label_text r) r control rips).
Proof.
  intros Hready Hjunk Hr Hf Hfuel Hb Hw.
  assert (is_u64 (type r)) as Ht by (unfold registers_ok in Hr; rewrite !Forall_cons in Hr; apply Hr).
  destruct (exception_label_run r (label_designate p) (proj1 Ht) Hb) as (label & buffer & E & Hl & Hp & Hlen & _).
  unfold exception_handler. rewrite bind_get. destruct (in_exception_handler p); [by split|].
  rewrite bind_modify, (bind_lift _ _ _ _ E), bind_modify. cbn [console_of in_exception_handler label_designate].
  unfold kpanic. destruct (serial_lock (console_of p)) eqn:Hlock.
  - split; [|done]. unfold kpanic_report. unfold bind at 1. rewrite bind_modify. unfold Printf.printf, aquire_serial_lock.
    unfold bind at 1 2. change (serial_lock (set_colours 0xFF0000 0xFFFF00 (console_of p))) with (serial_lock (console_of p)).
    by rewrite Hlock.
  - destruct (emits_report line_status patience junk Hready Hjunk frame_at control fuel (label_text r) label r rips
      Hr Hf Hfuel Hl Hp ltac:(lia) (console_of p) ltac:(by split)) as (c' & E' & Hs & _).
    split; [by rewrite (bind_run _ _ _ _ _ E')|]. intros _ _. by exists label, buffer, c'.
Qed.

(** ** Examples *)

Definition demo_frame : IDTEFrame := {|
  cr2 := 0; r15 := 15; r14 := 14; r13 := 13; r12 := 12; r11 := 11; r10 := 10; r9 := 9; r8 := 8; rbp := 0x7000; rdi := 0;
  rsi := 0; rdx := 0; rcx := 0; rbx := 0; rax := 0; type := 14; code := 2; rip := 0x401000; cs := 8; flags := 2; rsp := 0x6FF0;
  ss := 16 |}.
Definition demo_control : Control := {| gdtr := 1; idtr := 2; control_cr2 := 0xDEAD; control_cr3 := 0x1000 |}.
Definition demo_stack (a : Z) : option (Z * Z) :=
  if a =? 0x7000 then Some (0x7100, 0x402000) else if a =? 0x7100 then Some (0, 0x403000) else None.
Definition demo_panic (lock : bool) : Panic :=
  MkPanic (set_serial_lock lock (demo_console_of demo_screen false)) false (replicate 30 0).

Lemma exception_reports_witness :
  exists label buffer c', exception_label demo_frame (label_designate (demo_panic false)) = Ok (label, buffer) /\
    kpanic_report (fun _ => 0x20) 1 (fun n => replicate n 7) demo_stack demo_control 2 label demo_frame
      (console_of (demo_panic false)) = Ok (tt, c') /\
    serial c' = report (c_text "Page Fault") demo_frame demo_control [0x402000; 0x403000].
Proof.
  destruct (exception_reports (fun _ => 0x20) 1 (fun n => replicate n 7) demo_stack demo_control 2 demo_frame [0x402000; 0x403000]
    (demo_panic false)) as [_ H].
  - intros n. exists 0%nat. split; [lia|done].
  - intros n. apply length_replicate.
  - unfold registers_ok. repeat constructor; done.
  - eapply frames_step; [done|reflexivity|done|]. eapply frames_step; [done|reflexivity|done|]. apply frames_end.
  - done.
  - done.
  - discriminate.
  - destruct (H eq_refl eq_refl) as (label & buffer & c' & E1 & E2 & Hs). exists label, buffer, c'.
    split; [exact E1|]. split; [exact E2|exact Hs].
Defined.
