(* ===== verification/Smp.v ===== *)
(** * processors/smp.c: starting the other processors

    A transition system.  The boot processor starts the others one after the
    other; [init_lock], which it takes and a started processor gives back, is
    what keeps two of them from initialising at once.  A started processor goes
    through the stages of [ap_entry] over the kernel's memory, which all share,
    and its own registers. *)
From S2P Require Import Prelude Bits Memory PMM Apic Paging Descriptors.

(** ** The code *)

(** Where in [ap_entry] a processor is: not started; then before the segment
    descriptor, the GDT, the task register, the IDT, the page tables, the stack's
    pages, the stack, the local APIC, its timer and the release of the lock;
    halted at the end; or stopped before it, for want of a page or waiting
    forever. *)
Inductive Stage :=
  | Parked | AtDescriptor | AtGDT | AtTask | AtIDT | AtPages | AtStackPages | AtStack | AtLapic | AtTimer | AtRelease
  | Halted_ | Stopped.

#[export] Instance Stage_eq_dec : EqDecision Stage.
Proof. solve_decision. Defined.

Section Smp.
Context `{HW : Apic.Hardware}.

(** What the kernel's record holds: the table registers, the address of the TSS,
    the root of the page tables and the local APIC's address. *)
Context (gdtr : GDTR) (idtr : IDTR) (tss_addr kernel_cr3 lapic : Z).

(** A processor: [smp_info->processor_id], its registers and its view of the
    interrupt controllers. *)
Record Core := MkCore {
  processor_id : Z; stage : Stage; registers : Processor; cr3_register : Z; rsp_register : Z; controllers : Apic.Apic
}.
Definition set_stage (s : Stage) (c : Core) : Core :=
  MkCore (processor_id c) s (registers c) (cr3_register c) (rsp_register c) (controllers c).
Definition set_registers (f : Machine -> Machine) (c : Core) : Core :=
  let m := f (MkMachine (Apic.kernel (controllers c)) (MkTSS KERNEL_STACK_PTR) gdtr idtr (registers c)) in
  MkCore (processor_id c) (stage c) (processor m) (cr3_register c) (rsp_register c) (controllers c).
Definition set_cr3 (v : Z) (c : Core) : Core :=
  MkCore (processor_id c) (stage c) (registers c) v (rsp_register c) (controllers c).
Definition set_rsp (v : Z) (c : Core) : Core :=
  MkCore (processor_id c) (stage c) (registers c) (cr3_register c) v (controllers c).
Definition set_controllers (a : Apic.Apic) (c : Core) : Core :=
  MkCore (processor_id c) (stage c) (registers c) (cr3_register c) (rsp_register c) a.

(** The lowest page and the top of the processor's stack. *)
Definition this_ap_stack_addr (id : Z) : Z := u64 (KERNEL_STACK_ADDR - PAGE_SIZE * KERNEL_STACK_PAGES * id).
Definition this_ap_stack_ptr (id : Z) : Z := u64 (KERNEL_STACK_PTR - PAGE_SIZE * KERNEL_STACK_PAGES * id).

Definition on_controllers {A} (m : M Apic.Apic A) (c : Core) : outcome Core :=
  let+ (_, a) := m (controllers c) in Ok (set_controllers a c).

(** The next statement of [ap_entry]: memory, processor and the lock after it.
    [schedule] are the ticks of the PIT during the calibration. *)
Definition ap_step (schedule : list nat) (k : Kernel) (c : Core) : outcome (Kernel * Core * option bool) :=
  match stage c with
  | AtDescriptor =>
      let+ (_, k) := create_system_segment_descriptor (gdtr_offset gdtr) 5 tss_addr (sizeof_TSS - 1) 0x89 0 k in
      Ok (k, set_stage AtGDT c, None)
  | AtGDT => Ok (k, set_stage AtTask (set_registers (fun m => reload_segments 0x08 0x10 (lgdt m)) c), None)
  | AtTask => Ok (k, set_stage AtIDT (set_registers (ltr 0x28) c), None)
  | AtIDT => Ok (k, set_stage AtPages (set_registers lidt c), None)
  | AtPages => Ok (k, set_stage AtStackPages (set_cr3 kernel_cr3 c), None)
  | AtStackPages =>
      let+ (_, k) := alloc_pages (u64 (kernel_cr3 + hhdm k)) (this_ap_stack_addr (processor_id c)) KERNEL_STACK_PAGES
        (Z.lor KERNEL_PFLAG_PRESENT KERNEL_PFLAG_WRITE) k in
      Ok (k, set_stage AtStack c, None)
  | AtStack => Ok (k, set_stage AtLapic (set_rsp (u64 (this_ap_stack_ptr (processor_id c) - 8)) c), None)
  | AtLapic => let+ c := on_controllers (Apic.init_local_apic lapic) c in Ok (k, set_stage AtTimer c, None)
  | AtTimer => let+ c := on_controllers (Apic.init_lapic_timer schedule) c in Ok (k, set_stage AtRelease c, None)
  | AtRelease => Ok (k, set_stage Halted_ c, Some false)
  | Parked | Halted_ | Stopped => Fault
  end.

(** Where in [init_smp] the boot processor is: before it takes the lock for the
    processor at an index, before it writes its [goto_address], or at the end.
    The processors but the first of [cpus] are a list. *)
Inductive Main := Aquire (i : nat) | Start (i : nat) | Initialised.

Record Smp := MkSmp { init_lock : bool; main : Main; memory_of : Kernel; cores : list Core }.

Definition running (s : Stage) : Prop := s <> Parked /\ s <> Halted_ /\ s <> Stopped.

(** Iterations of the waiting loop that find the lock taken change nothing and
    are no steps. *)
Inductive smp_step : Smp -> Smp -> Prop :=
  | step_aquire i k cs : (i < length cs)%nat ->
      smp_step (MkSmp false (Aquire i) k cs) (MkSmp true (Start i) k cs)
  | step_start l i k cs c : cs !! i = Some c -> stage c = Parked ->
      smp_step (MkSmp l (Start i) k cs) (MkSmp l (Aquire (S i)) k (<[i := set_stage AtDescriptor c]> cs))
  | step_last k cs : smp_step (MkSmp false (Aquire (length cs)) k cs) (MkSmp true Initialised k cs)
  | step_core schedule l m k cs i c k' c' r : cs !! i = Some c -> running (stage c) ->
      ap_step schedule k c = Ok (k', c', r) ->
      smp_step (MkSmp l m k cs) (MkSmp (default l r) m k' (<[i := c']> cs))
  | step_stop schedule l m k cs i c : cs !! i = Some c -> running (stage c) ->
      (forall r, ap_step schedule k c <> Ok r) ->
      smp_step (MkSmp l m k cs) (MkSmp l m k (<[i := set_stage Stopped c]> cs)).

(** ** What holds *)

Definition rank_of (s : Stage) : nat :=
  match s with
  | Parked => 0 | AtDescriptor => 1 | AtGDT => 2 | AtTask => 3 | AtIDT => 4 | AtPages => 5 | AtStackPages => 6 | AtStack => 7
  | AtLapic => 8 | AtTimer => 9 | AtRelease => 10 | Halted_ => 11 | Stopped => 11
  end%nat.
Definition main_rank (s : Smp) : nat :=
  match main s with Aquire i => 2 * i | Start i => 2 * i + 1 | Initialised => 2 * length (cores s) + 1 end.
Definition smp_rank (s : Smp) : nat := main_rank s + sum_list_with (fun c => rank_of (stage c)) (cores s).

(** The pages of a processor's stack. *)
Definition stack_page (id : Z) : Z := 2 ^ 36 - 3 - 2 * id.
Definition own_stack (id q : Z) : Prop := stack_page id <= q < stack_page id + 2.

(** The processor has done stage [n] of [ap_entry]. *)
Definition past (n : nat) (c : Core) : Prop := stage c <> Stopped /\ (n < rank_of (stage c))%nat.

(** The registers a processor has set up so far. *)
Record core_ok (c : Core) : Prop := {
  core_id : 0 <= processor_id c < 2 ^ 32;
  core_gdt : past 2 c -> lgdt_register (registers c) = gdtr /\ code_segment (registers c) = 0x08 /\ data_segments (registers c) = 0x10;
  core_task : past 3 c -> task_register (registers c) = 0x28;
  core_idt : past 4 c -> lidt_register (registers c) = idtr;
  core_cr3 : past 5 c -> cr3_register c = kernel_cr3;
  core_rsp : past 7 c -> rsp_register c = KERNEL_STACK_PTR - 8192 * processor_id c - 8
}.

(** The pages of the stacks made so far. *)
Definition mapped (cs : list Core) (q : Z) : Prop :=
  exists i c, cs !! i = Some c /\ past 6 c /\ own_stack (processor_id c) q.

(** Each page of [Q] is backed by a writable page of its own. *)
Definition stacks (k : Kernel) (T : tables) (Q : Z -> Prop) : Prop :=
  (forall q, Q q -> exists ph, pte k T q = Z.lor ph 3 /\ 0 <= ph < 2 ^ 64 /\ ph mod 4096 = 0 /\ block_ok k (ph, 1)) /\
  (forall q q', Q q -> Q q' -> q <> q' -> apart_entries (pte k T q) (pte k T q')).

(** The page tables and the page of the GDT. *)
Record memory_ok (k : Kernel) (T : tables) : Prop := {
  mem_tables : pt_inv k (u64 (kernel_cr3 + hhdm k)) T;
  mem_gdt : block_ok k (gdtr_offset gdtr - hhdm k, 1);
  mem_apart x b : T !! x = Some b -> disjoint b 4096 (gdtr_offset gdtr) 4096
}.

(** Who runs, by the place of the boot processor. *)
Definition phase (l : bool) (m : Main) (cs : list Core) : Prop :=
  match m with
  | Aquire i => (i <= length cs)%nat /\ (i = 0%nat -> l = false) /\
      forall j c, cs !! j = Some c ->
        ((S j < i)%nat -> stage c = Halted_) /\
        ((S j = i)%nat -> if l then running (stage c) \/ stage c = Stopped else stage c = Halted_) /\
        ((i <= j)%nat -> stage c = Parked)
  | Start i => l = true /\ (i < length cs)%nat /\
      forall j c, cs !! j = Some c -> ((j < i)%nat -> stage c = Halted_) /\ ((i <= j)%nat -> stage c = Parked)
  | Initialised => l = true /\ forall j c, cs !! j = Some c -> stage c = Halted_
  end.

Record smp_ok (s : Smp) (T : tables) : Prop := {
  smp_memory : memory_ok (memory_of s) T;
  smp_cores : Forall core_ok (cores s);
  smp_ids : NoDup (processor_id <$> cores s);
  smp_stacks : stacks (memory_of s) T (mapped (cores s));
  smp_phase : phase (init_lock s) (main s) (cores s)
}.

(** *** The statements of [ap_entry] *)

Lemma stack_addr_page id : 0 <= id < 2 ^ 32 -> 0 <= this_ap_stack_addr id /\ page_of (this_ap_stack_addr id) = stack_page id.
Proof using.
  intros Hid. unfold this_ap_stack_addr, page_of, stack_page, KERNEL_STACK_ADDR, KERNEL_STACK_PAGES, PAGE_SIZE, KERNEL_STACK_PTR.
  rewrite u64_small by lia. split; [lia|]. divlia.
Qed.

Lemma stacks_keep k T k' T' Q :
  (forall c, block_ok k c -> block_ok k' c) -> (forall q, Q q -> pte k' T' q = pte k T q) -> stacks k T Q -> stacks k' T' Q.
Proof using.
  intros Hb Hp [H1 H2]. split.
  - intros q Hq. rewrite Hp by done. destruct (H1 q Hq) as (ph & ? & ? & ? & ?). exists ph. split_and!; auto; lia.
  - intros q q' Hq Hq'. rewrite !Hp by done. auto.
Qed.

Lemma descriptor_step k T k' :
  memory_ok k T -> create_system_segment_descriptor (gdtr_offset gdtr) 5 tss_addr (sizeof_TSS - 1) 0x89 0 k = Ok (tt, k') ->
  memory_ok k' T /\ forall Q, stacks k T Q -> stacks k' T Q.
Proof using.
  intros [Hpt Hg Ha] E. set (t := gdtr_offset gdtr) in *. pose proof (pt_wf _ _ _ Hpt) as Hwf.
  destruct (block_space k _ Hwf Hg) as (H1 & H2 & _). cbn [fst snd] in H1, H2.
  destruct (system_descriptor_triple t ltac:(split; lia) (fun j => get_entry t j k) 5 tss_addr (sizeof_TSS - 1) 0x89 0 ltac:(lia) k
    ltac:(by intros j Hj)) as (k1 & E1 & [Hcfg Hf] & _).
  rewrite E in E1. injection E1 as <-. pose proof Hcfg as (_ & Hh & _).
  assert (forall c, block_ok k c -> block_ok k' c) as Hb.
  { intros c Hc. eapply (block_ok_frame k k' _ c Hwf Hcfg Hg Hc). intros x Hx. cbn [fst snd] in Hx. apply Hf. lia. }
  destruct (pt_keep k _ T k' Hpt Hcfg Hb) as [Hpt' Hpte].
  { intros x a Hx y Hy. apply Hf. specialize (Ha x a Hx). unfold disjoint in Ha. lia. }
  split; [|intros Q; by apply stacks_keep]. split; rewrite ?Hh; [exact Hpt'|by apply Hb|exact Ha].
Qed.

Lemma stack_step k T id k' Q :
  memory_ok k T -> 0 <= id < 2 ^ 32 -> (forall q, Q q -> ~ own_stack id q) ->
  alloc_pages (u64 (kernel_cr3 + hhdm k)) (this_ap_stack_addr id) KERNEL_STACK_PAGES
    (Z.lor KERNEL_PFLAG_PRESENT KERNEL_PFLAG_WRITE) k = Ok (tt, k') ->
  stacks k T Q ->
  exists T', memory_ok k' T' /\ stacks k' T' (fun q => Q q \/ own_stack id q).
Proof using.
  intros [Hpt Hg Ha] Hid HQ E [HS1 HS2]. destruct (stack_addr_page id Hid) as [Hs0 Hsp].
  change (Z.lor KERNEL_PFLAG_PRESENT KERNEL_PFLAG_WRITE) with 3 in E. change KERNEL_STACK_PAGES with 2 in E.
  destruct (alloc_pages_run k _ T (this_ap_stack_addr id) 2 3 Hpt Hs0 ltac:(lia) ltac:(lia))
    as [E'|(k1 & T' & E' & Hpt' & Hext & Hin & Hout & Hap)]; rewrite E in E'; [discriminate E'|]. injection E' as <-.
  rewrite Hsp in *. pose proof (ext_config _ _ _ _ Hext) as (_ & Hh & _). exists T'. split.
  - split; rewrite ?Hh; [exact Hpt'|by apply (ext_block _ _ _ _ Hext)|].
    intros x b Hx. destruct (T !! x) as [b'|] eqn:Hx'.
    + pose proof (lookup_weaken _ _ _ _ Hx' (ext_tables _ _ _ _ Hext)). assert (b' = b) as -> by congruence. by eapply Ha.
    + pose proof (ext_fresh _ _ _ _ Hext x b _ Hx Hx' Hg) as Hd. cbn [fst snd] in Hd.
      by replace (gdtr_offset gdtr - hhdm k + hhdm k) with (gdtr_offset gdtr) in Hd by lia.
  - assert (forall q, Q q -> pte k' T' q = pte k T q) as Hold by (intros q Hq; apply Hout; by apply HQ).
    assert (forall q q', Q q -> own_stack id q' -> apart_entries (pte k' T' q) (pte k' T' q')) as Hcross.
    { intros q q' Hq Hq'. rewrite (Hold q Hq). destruct (HS1 q Hq) as (ph & -> & Hr & Hm & Hb).
      destruct (Hin q' Hq') as (ph' & -> & Hr' & Hm' & _ & Hd). unfold apart_entries.
      destruct (flagged_entry ph 3) as (_ & -> & _); [lia..|]. destruct (flagged_entry ph' 3) as (_ & -> & _); [lia..|].
      specialize (Hd _ Hb). unfold blocks_disjoint, disjoint in *. lia. }
    split.
    + intros q [Hq|Hq].
      * rewrite (Hold q Hq). destruct (HS1 q Hq) as (ph & ? & ? & ? & Hb). exists ph. split_and!; try done; try lia.
        by apply (ext_block _ _ _ _ Hext).
      * destruct (Hin q Hq) as (ph & -> & Hr & Hm & Hb & _). exists ph. split; [done|]. split; [done|]. by split.
    + intros q q' [Hq|Hq] [Hq'|Hq'] Hne.
      * rewrite !Hold by done. by apply HS2.
      * by apply Hcross.
      * specialize (Hcross q' q Hq' Hq). unfold apart_entries, blocks_disjoint, disjoint in *. lia.
      * destruct (Z.lt_total q q') as [Hlt|[->|Hlt]]; [|done|].
        -- apply Hap; unfold own_stack in *; lia.
        -- specialize (Hap q' q ltac:(unfold own_stack in *; lia) ltac:(unfold own_stack in *; lia)).
           unfold apart_entries, blocks_disjoint, disjoint in *. lia.
Qed.

Lemma stacks_mono k T (Q Q' : Z -> Prop) : (forall q, Q' q -> Q q) -> stacks k T Q -> stacks k T Q'.
Proof using. intros H [H1 H2]. split; auto. Qed.

Ltac past :=
  constructor; cbn [processor_id stage registers cr3_register rsp_register controllers]; try done;
  intros [Hp0 Hp]; cbn in Hp; try lia; try (split_and!; done);
  try match goal with H : past _ _ -> _ |- _ => apply H; split; [done|cbn; lia] end.

Lemma ap_step_ok schedule k T c Q k' c' r :
  memory_ok k T -> core_ok c -> running (stage c) -> stacks k T Q ->
  (forall q, own_stack (processor_id c) q -> Q q <-> past 6 c) ->
  ap_step schedule k c = Ok (k', c', r) ->
  exists T', memory_ok k' T' /\ core_ok c' /\ processor_id c' = processor_id c /\
    rank_of (stage c') = S (rank_of (stage c)) /\ stage c' <> Stopped /\
    (r = None /\ running (stage c') \/ r = Some false /\ stage c' = Halted_) /\
    stacks k' T' (fun q => Q q \/ past 6 c' /\ own_stack (processor_id c) q).
Proof using.
  intros Hm Hc Hrun HS HQ E.
  assert (forall c1, (past 6 c1 -> past 6 c) -> stacks k T (fun q => Q q \/ past 6 c1 /\ own_stack (processor_id c) q)) as Hsame.
  { intros c1 H1. eapply stacks_mono; [|exact HS]. intros q [Hq|[Hp Hq]]; [done|]. apply HQ; auto. }
  destruct c as [id st reg cr3 rsp ctl]. cbn [processor_id stage] in *. unfold ap_step in E. cbn [stage] in E.
  destruct Hc as [Hid Hg Ht Hi Hr Hs]. cbn [processor_id registers cr3_register rsp_register] in *.
  destruct st; try (by destruct Hrun as (? & ? & ?)).
  - apply obind_ok in E as ([[] k1] & E1 & [= <- <- <-]). destruct (descriptor_step _ _ _ Hm E1) as [Hm' HS'].
    exists T. split; [done|]. split; [past|]. do 3 (split; [done|]). split; [by left|].
    apply HS', Hsame. intros [_ H]. cbn in H. lia.
  - injection E as <- <- <-. exists T. split; [done|]. split; [past|]. do 3 (split; [done|]). split; [by left|].
    apply Hsame. intros [_ H]. cbn in H. lia.
  - injection E as <- <- <-. exists T. split; [done|]. split; [past|]. do 3 (split; [done|]). split; [by left|].
    apply Hsame. intros [_ H]. cbn in H. lia.
  - injection E as <- <- <-. exists T. split; [done|]. split; [past|]. do 3 (split; [done|]). split; [by left|].
    apply Hsame. intros [_ H]. cbn in H. lia.
  - injection E as <- <- <-. exists T. split; [done|]. split; [past|]. do 3 (split; [done|]). split; [by left|].
    apply Hsame. intros [_ H]. cbn in H. lia.
  - apply obind_ok in E as ([[] k1] & E1 & [= <- <- <-]).
    destruct (stack_step k T id k1 Q Hm Hid) as (T' & Hm' & HS'); [|exact E1|done|].
    { intros q Hq Ho. apply HQ in Hq as [_ H]; [cbn in H; lia|done]. }
    exists T'. split; [done|]. split; [past|]. do 3 (split; [done|]). split; [by left|].
    eapply stacks_mono; [|exact HS']. intros q [Hq|[_ Hq]]; auto.
  - injection E as <- <- <-. exists T. split; [done|].
    split; [|do 3 (split; [done|]); split; [by left|]; apply Hsame; intros _; split; [done|cbn; lia]].
    past. unfold this_ap_stack_ptr, PAGE_SIZE, KERNEL_STACK_PAGES, KERNEL_STACK_PTR. rewrite (u64_small (_ - _ * id)) by lia.
    rewrite u64_small by lia. cbn [rsp_register set_stage set_rsp processor_id]. lia.
  - apply obind_ok in E as (c1 & E1 & [= <- <- <-]). apply obind_ok in E1 as ([[] a] & _ & [= <-]).
    exists T. split; [done|]. split; [past|]. do 3 (split; [done|]). split; [by left|]. apply Hsame. intros _. split; [done|cbn; lia].
  - apply obind_ok in E as (c1 & E1 & [= <- <- <-]). apply obind_ok in E1 as ([rest a] & _ & [= <-]).
    exists T. split; [done|]. split; [past|]. do 3 (split; [done|]). split; [by left|]. apply Hsame. intros _. split; [done|cbn; lia].
  - injection E as <- <- <-. exists T. split; [done|]. split; [past|]. do 3 (split; [done|]). split; [by right|].
    apply Hsame. intros _. split; [done|cbn; lia].
Qed.

(** *** The system *)

Lemma phase_running l m cs i c :
  phase l m cs -> cs !! i = Some c -> running (stage c) -> m = Aquire (S i) /\ l = true.
Proof using.
  intros Hph Hi (H1 & H2 & _). destruct m as [i'|i'|]; cbn [phase] in Hph.
  - destruct Hph as (_ & _ & Hst). destruct (Hst i c Hi) as (A & B & C).
    destruct (Nat.lt_trichotomy (S i) i') as [H|[H|H]]; [destruct H2; by apply A| |].
    + specialize (B H). split; [by rewrite H|]. by destruct l.
    + destruct H1. apply C. lia.
  - destruct Hph as (_ & _ & Hst). destruct (Hst i c Hi) as (A & B).
    destruct (Nat.lt_ge_cases i i'); [destruct H2; by apply A|destruct H1; by apply B].
  - destruct Hph as [_ Hst]. destruct H2. by eapply Hst.
Qed.

(** The phase after a change of the processor that runs. *)
Lemma phase_update l (l' : bool) (i : nat) (cs : list Core) (c c' : Core) :
  phase l (Aquire (S i)) cs -> cs !! i = Some c ->
  (if l' then running (stage c') \/ stage c' = Stopped else stage c' = Halted_) ->
  phase l' (Aquire (S i)) (<[i := c']> cs).
Proof using.
  intros (Hle & _ & Hst) Hi Hc. cbn [phase]. rewrite length_insert. split; [done|]. split; [done|].
  intros j d Hj. destruct (decide (j = i)) as [->|Hne].
  - rewrite list_lookup_insert_eq in Hj by (by eapply lookup_lt_Some). injection Hj as <-.
    split; [lia|]. split; [done|lia].
  - rewrite list_lookup_insert_ne in Hj by done. destruct (Hst j d Hj) as (A & B & C). split; [exact A|]. split; [lia|exact C].
Qed.

Lemma own_stack_id id id' q : own_stack id q -> own_stack id' q -> id = id'.
Proof using. unfold own_stack, stack_page. lia. Qed.

Lemma mapped_own (cs : list Core) i (c : Core) q : NoDup (processor_id <$> cs) -> cs !! i = Some c -> own_stack (processor_id c) q ->
  mapped cs q <-> past 6 c.
Proof using.
  intros Hnd Hi Hq. split.
  - intros (j & d & Hj & Hp & Hq'). pose proof (own_stack_id _ _ _ Hq Hq') as Hid.
    assert (j = i) as ->.
    { eapply (NoDup_lookup _ j i (processor_id c) Hnd); rewrite list_lookup_fmap; [by rewrite Hj, Hid|by rewrite Hi]. }
    by simplify_eq.
  - intros Hp. by exists i, c.
Qed.

Lemma mapped_insert (cs : list Core) (i : nat) (c' : Core) q :
  mapped (<[i := c']> cs) q -> mapped cs q \/ past 6 c' /\ own_stack (processor_id c') q.
Proof using.
  intros (j & d & Hj & Hp & Hq). destruct (decide (j = i)) as [->|Hne].
  - destruct (Nat.lt_ge_cases i (length cs)).
    + rewrite list_lookup_insert_eq in Hj by done. simplify_eq. by right.
    + rewrite list_insert_ge in Hj by done. left. by exists i, d.
  - rewrite list_lookup_insert_ne in Hj by done. left. by exists j, d.
Qed.

Lemma ids_insert (cs : list Core) (i : nat) (c c' : Core) : cs !! i = Some c -> processor_id c' = processor_id c ->
  processor_id <$> <[i := c']> cs = processor_id <$> cs.
Proof using.
  intros Hi Hid. rewrite list_fmap_insert, Hid. apply list_insert_id. by rewrite list_lookup_fmap, Hi.
Qed.

Lemma sum_list_insert {A} (f : A -> nat) l i x y : l !! i = Some x ->
  (sum_list_with f (<[i := y]> l) + f x = sum_list_with f l + f y)%nat.
Proof using.
  revert i. induction l as [|z l IH]; intros [|i] H; simplify_eq/=; [lia|].
  specialize (IH i H). change (list_insert i y l) with (<[i := y]> l) in *. lia.
Qed.

Lemma smp_step_ok s s' T : smp_ok s T -> smp_step s s' ->
  (exists T', smp_ok s' T') /\ length (cores s') = length (cores s) /\ (smp_rank s < smp_rank s')%nat.
Proof using.
  intros [Hm Hc Hid HS Hph] Hstep. unfold smp_rank, main_rank.
  destruct Hstep as [i k cs Hi|l i k cs c Hi Hp|k cs|sch l m k cs i c k' c' r Hi Hrun E|sch l m k cs i c Hi Hrun _];
    cbn [init_lock main memory_of cores] in *.
  - split; [|split; [done|lia]]. exists T. split; cbn [init_lock main memory_of cores]; try done.
    destruct Hph as (_ & _ & Hst). split; [done|]. split; [done|]. intros j c Hj. destruct (Hst j c Hj) as (A & B & C).
    split; [|exact C]. intros Hlt. destruct (decide (S j = i)) as [Heq|]; [by apply B|apply A; lia].
  - pose proof (sum_list_insert (fun c => rank_of (stage c)) cs i c (set_stage AtDescriptor c) Hi) as Hsum.
    cbn [stage set_stage] in Hsum. rewrite Hp in Hsum. cbn [rank_of] in Hsum.
    split; [|split; [by rewrite length_insert|lia]]. destruct Hph as (-> & Hlt & Hst).
    exists T. split; cbn [init_lock main memory_of cores].
    + done.
    + apply Forall_insert; [done|]. rewrite Forall_lookup in Hc. destruct (Hc i c Hi) as [Hcid _ _ _ _ _].
      split; [exact Hcid|..]; intros [_ H]; cbn in H; lia.
    + by rewrite (ids_insert _ _ c).
    + eapply stacks_mono; [|exact HS]. intros q [H|[[_ H] _]]%mapped_insert; [done|cbn in H; lia].
    + split; [rewrite length_insert; lia|]. split; [done|]. intros j d Hj. destruct (decide (j = i)) as [->|Hne].
      * rewrite list_lookup_insert_eq in Hj by done. injection Hj as <-. split; [lia|]. split; [by left|lia].
      * rewrite list_lookup_insert_ne in Hj by done. destruct (Hst j d Hj) as (A & B).
        split; [intros; apply A; lia|]. split; [lia|intros; apply B; lia].
  - split; [|split; [done|lia]]. exists T. split; cbn [init_lock main memory_of cores]; try done.
    destruct Hph as (_ & _ & Hst). split; [done|]. intros j c Hj. destruct (Hst j c Hj) as (A & B & _).
    apply lookup_lt_Some in Hj. destruct (decide (S j = length cs)); [by apply B|apply A; lia].
  - destruct (phase_running _ _ _ _ _ Hph Hi Hrun) as [-> ->]. rewrite Forall_lookup in Hc.
    destruct (ap_step_ok sch k T c (mapped cs) k' c' r Hm (Hc i c Hi) Hrun HS) as (T' & Hm' & Hc' & Hid' & Hrank & _ & Hr & HS');
      [intros q Hq; by eapply mapped_own|exact E|].
    pose proof (sum_list_insert (fun c => rank_of (stage c)) cs i c c' Hi) as Hsum. cbn beta in Hsum. rewrite Hrank in Hsum.
    split; [|split; [by rewrite length_insert|lia]]. exists T'. split; cbn [init_lock main memory_of cores].
    + done.
    + apply Forall_insert; [by apply Forall_lookup|done].
    + by rewrite (ids_insert _ _ c).
    + eapply stacks_mono; [|exact HS']. intros q [H|[H1 H2]]%mapped_insert; [by left|right]. by rewrite Hid' in H2.
    + eapply phase_update; [exact Hph|exact Hi|]. destruct Hr as [[-> Hr]|[-> Hr]]; cbn; auto.
  - destruct (phase_running _ _ _ _ _ Hph Hi Hrun) as [-> ->].
    pose proof (sum_list_insert (fun c => rank_of (stage c)) cs i c (set_stage Stopped c) Hi) as Hsum. cbn [stage set_stage rank_of] in Hsum.
    assert (rank_of (stage c) < 11)%nat as Hlt by (destruct Hrun as (H1 & H2 & H3), (stage c); cbn; lia || done).
    split; [|split; [by rewrite length_insert|lia]]. exists T. split; cbn [init_lock main memory_of cores]; try done.
    + apply Forall_insert; [done|]. rewrite Forall_lookup in Hc. destruct (Hc i c Hi) as [Hcid _ _ _ _ _].
      split; [exact Hcid|..]; by intros [H _].
    + by rewrite (ids_insert _ _ c).
    + eapply stacks_mono; [|exact HS]. by intros q [H|[[H _] _]]%mapped_insert.
    + eapply phase_update; [exact Hph|exact Hi|]. by right.
Qed.

Lemma smp_steps_ok n s s' T : nsteps smp_step n s s' -> smp_ok s T ->
  (exists T', smp_ok s' T') /\ length (cores s') = length (cores s) /\ (smp_rank s + n <= smp_rank s')%nat.
Proof using.
  intros Hn. revert T. induction Hn as [s|n s s1 s' Hstep _ IH]; intros T Hok.
  - split; [by exists T|]. split; [done|lia].
  - destruct (smp_step_ok _ _ _ Hok Hstep) as ([T1 H1] & Hl & Hr). destruct (IH T1 H1) as (H & Hl' & Hr').
    split; [done|]. split; [congruence|lia].
Qed.

Lemma smp_rank_bound s T : smp_ok s T -> (smp_rank s <= 13 * length (cores s) + 1)%nat.
Proof using.
  intros [_ _ _ _ Hph]. unfold smp_rank, main_rank.
  assert (sum_list_with (fun c => rank_of (stage c)) (cores s) <= 11 * length (cores s))%nat as Hs.
  { clear Hph. induction (cores s) as [|c cs IH]; [done|]. simpl sum_list_with. simpl length.
    assert (rank_of (stage c) <= 11)%nat by (destruct (stage c); cbn; lia). lia. }
  destruct (main s) as [i|i|]; cbn [phase] in Hph; lia.
Qed.

(** Where no step is possible. *)
Lemma smp_stuck s T : smp_ok s T -> (forall s', ~ smp_step s s') ->
  main s = Initialised \/ exists i c, cores s !! i = Some c /\ stage c = Stopped.
Proof using.
  destruct s as [l m k cs]. intros [_ _ _ _ Hph] Hno. cbn [main cores init_lock] in *. destruct m as [i|i|]; [| |by left]; right.
  - destruct Hph as (Hle & H0 & Hst). destruct l.
    + destruct i as [|i]; [by discriminate H0|]. destruct (lookup_lt_is_Some_2 cs i ltac:(lia)) as [c Hc].
      exists i, c. split; [done|]. destruct (Hst i c Hc) as (_ & [Hr|Hr] & _); [done| |done]. exfalso.
      destruct (ap_step [] k c) as [[[k' c'] r]| | |] eqn:E; [by eapply Hno, (step_core [])|..];
        eapply Hno, (step_stop [] _ _ _ _ _ c); try done; intros r; by rewrite E.
    + exfalso. destruct (decide (i = length cs)) as [->|Hne]; [by eapply Hno, step_last|]. eapply Hno, step_aquire. lia.
  - exfalso. destruct Hph as (_ & Hlt & Hst). destruct (lookup_lt_is_Some_2 cs i Hlt) as [c Hc].
    eapply Hno, step_start; [done|]. by apply (Hst i c Hc).
Qed.

(** The kernel before [init_smp]: page tables, the GDT in a page of its own, the
    lock free and the other processors parked. *)
Record smp_start (s : Smp) (T : tables) : Prop := {
  start_memory : memory_ok (memory_of s) T;
  start_lock : init_lock s = false;
  start_main : main s = Aquire 0;
  start_cores : Forall (fun c => stage c = Parked /\ 0 <= processor_id c < 2 ^ 32) (cores s);
  start_ids : NoDup (processor_id <$> cores s)
}.

Lemma smp_start_ok s T : smp_start s T -> smp_ok s T /\ smp_rank s = 0%nat.
Proof using.
  intros [Hm Hl Hmain Hc Hid]. pose proof Hc as Hc'. rewrite Forall_lookup in Hc'. split; [split; try done|].
  - eapply Forall_impl; [exact Hc|]. intros c [Hp Hi]. split; [exact Hi|..]; intros [_ H]; rewrite Hp in H; cbn in H; lia.
  - split; [intros q (i & c & Hi & [_ H] & _)|intros q q' (i & c & Hi & [_ H] & _)];
      destruct (Hc' i c Hi) as [Hp _]; rewrite Hp in H; cbn in H; lia.
  - rewrite Hmain. split; [lia|]. split; [done|]. intros j c Hj. split; [lia|]. split; [lia|]. intros _. by apply (Hc' j c).
  - unfold smp_rank, main_rank. rewrite Hmain. clear -Hc. induction Hc as [|c cs [Hp _] _ IH]; [done|].
    cbn [sum_list_with]. rewrite Hp. cbn. lia.
Qed.
End Smp.

(** ** Theorems *)

(** C38: Starting the processors.  In every interleaving of the boot processor
    with the ones it starts, at most one of them is initialising; the start ends
    after at most 13 steps for each processor; and when nothing can go on,
    [init_smp] has returned or a processor has stopped for want of a page.  When
    [init_smp] has returned, every processor has finished, with the kernel's
    GDT, IDT, segments, task register and page tables in its registers, and its
    stack pointer at the top of a stack of two writable pages that no other
    processor's stack shares. *)
Theorem smp_initialises `{Apic.Hardware} gdtr idtr tss_addr kernel_cr3 lapic n s0 s T :
  smp_start gdtr kernel_cr3 s0 T -> nsteps (smp_step gdtr idtr tss_addr kernel_cr3 lapic) n s0 s ->
  (n <= 13 * length (cores s0) + 1)%nat /\
  (forall i j c d, cores s !! i = Some c -> cores s !! j = Some d -> running (stage c) -> running (stage d) -> i = j) /\
  ((forall s', ~ smp_step gdtr idtr tss_addr kernel_cr3 lapic s s') ->
     main s = Initialised \/ exists i c, cores s !! i = Some c /\ stage c = Stopped) /\
  (main s = Initialised -> length (cores s) = length (cores s0) /\
   (forall i c, cores s !! i = Some c ->
      stage c = Halted_ /\
      registers c = MkProcessor gdtr idtr 0x28 0x08 0x10 /\ cr3_register c = kernel_cr3 /\
      rsp_register c = KERNEL_STACK_PTR - 8192 * processor_id c - 8) /\
   exists T', memory_ok gdtr kernel_cr3 (memory_of s) T' /\
     stacks (memory_of s) T' (fun q => exists i c, cores s !! i = Some c /\ own_stack (processor_id c) q)).
Proof.
  intros Hstart Hn. destruct (smp_start_ok gdtr idtr kernel_cr3 s0 T Hstart) as [Hok0 Hrank0].
  destruct (smp_steps_ok _ _ _ _ _ _ _ _ _ Hn Hok0) as ([T' Hok] & Hlen & Hrank).
  pose proof (smp_rank_bound _ _ _ _ _ Hok) as Hb. split; [lia|]. split; [|split; [by eapply smp_stuck|]].
  - intros i j c d Hi Hj Hc Hd. pose proof (smp_phase _ _ _ _ _ Hok) as Hph.
    destruct (phase_running _ _ _ _ _ Hph Hi Hc) as [E1 _]. destruct (phase_running _ _ _ _ _ Hph Hj Hd) as [E2 _]. congruence.
  - intros Hmain. destruct Hok as [Hm Hc Hid HS Hph]. rewrite Hmain in Hph. destruct Hph as [_ Hst]. split; [done|].
    rewrite Forall_lookup in Hc. assert (forall i c m, cores s !! i = Some c -> (m < 11)%nat -> past m c) as Hpast.
    { intros i c m Hi Hlt. unfold past. rewrite (Hst i c Hi). done. }
    split.
    + intros i c Hi. destruct (Hc i c Hi) as [_ Hg Ht Hi' Hr Hs]. split; [by eapply Hst|].
      destruct (Hg (Hpast i c 2%nat Hi ltac:(lia))) as (G1 & G2 & G3). split; [|split].
      * rewrite <- G1 at 1. rewrite <- (Hi' (Hpast i c 4%nat Hi ltac:(lia))) at 1. rewrite <- (Ht (Hpast i c 3%nat Hi ltac:(lia))) at 1.
        rewrite <- G2 at 1. rewrite <- G3 at 1. by destruct (registers c).
      * apply Hr. eapply Hpast; [exact Hi|lia].
      * apply Hs. eapply Hpast; [exact Hi|lia].
    + exists T'. split; [exact Hm|]. eapply stacks_mono; [|exact HS]. intros q (i & c & Hi & Hq). exists i, c.
      split; [done|]. split; [|done]. eapply Hpast; [exact Hi|lia].
Qed.

(** ** Examples *)

(** Page tables, then a page for the GDT. *)
Lemma memory_example {A} (m : Z -> Z -> M Kernel A) x :
  value_of ((let* root := new_root in let* t := new_table in m root t) small_kernel) = Some x ->
  exists k root t T k', memory_ok (MkGDTR 55 t) (root - hhdm k) k T /\ m root t k = Ok (x, k').
Proof.
  intros H. destruct (root_example (fun root => let* t := new_table in m root t) x H) as (k & root & T & k' & Hpt & E).
  apply bind_ok in E as (t & k1 & E1 & E). pose proof (pt_wf _ _ _ Hpt) as Hwf.
  destruct (new_table_spec k Hwf) as [E'|(t' & k1' & E' & (i & e & p & Ht & Hpost) & _)];
    rewrite E1 in E'; [discriminate E'|]. injection E' as <- <-.
  pose proof (post_config _ _ _ _ _ _ Hpost) as (_ & Hh & _).
  destruct (alloc_page_inv k root T i e p k1 (fun m => m) Hpt Hpost ltac:(done)) as (Hpt' & _ & _ & Hb).
  assert (set_mem (fun m => m) k1 = k1) as Hk1 by (by destruct k1). rewrite Hk1 in *.
  exists k1, root, t, T, k'. split; [|done].
  destruct (Paging.table_space _ _ _ _ _ _ Hpt (pt_root _ _ _ Hpt)).
  split; cbn [gdtr_offset].
  - replace (root - hhdm k1 + hhdm k1) with root by lia. rewrite u64_small by lia. exact Hpt'.
  - by rewrite Hh, Ht.
  - intros [d q] b Hx. destruct (block_alloc_frame k i e p 1 k1 _ Hwf ltac:(lia) Hpost (pt_block _ _ _ Hpt _ _ _ Hx)) as [_ Hd].
    unfold page_block, disjoint in *. cbn [fst snd] in Hd. lia.
Qed.

#[local] Existing Instance Apic.demo_hardware.

(** The local APIC and its timer. *)
Lemma controllers_example : exists a rest a',
  Apic.init_local_apic Apic.demo_lapic (Apic.demo_apic small_kernel 0) = Ok (tt, a) /\ Apic.init_lapic_timer [6; 6]%nat a = Ok (rest, a').
Proof.
  assert (value_of ((Apic.init_local_apic Apic.demo_lapic ;;; Apic.init_lapic_timer [6; 6]%nat) (Apic.demo_apic small_kernel 0)) = Some []) as H
    by (vm_compute; reflexivity).
  apply value_of_some in H as (a' & H). apply bind_ok in H as ([] & a & E1 & E2). by exists a, [], a'.
Qed.

Definition demo_core (s : Stage) (p : Processor) (cr3 rsp : Z) (a : Apic.Apic) : Core := MkCore 1 s p cr3 rsp a.
Definition demo_idtr : IDTR := MkIDTR 4095 0x9000.
Definition demo_tss : Z := 0xFFFFFFFF80002000.

(** One processor goes all the way. *)
Lemma smp_initialises_witness : exists gdtr cr3 s0 T s,
  smp_start gdtr cr3 s0 T /\ length (cores s0) = 1%nat /\
  nsteps (smp_step gdtr demo_idtr demo_tss cr3 Apic.demo_lapic) 13 s0 s /\ main s = Initialised /\
  exists c, cores s !! 0%nat = Some c /\ stage c = Halted_ /\ registers c = MkProcessor gdtr demo_idtr 0x28 0x08 0x10.
Proof.
  destruct (memory_example (fun root t => let* k := get in
    create_system_segment_descriptor t 5 demo_tss (sizeof_TSS - 1) 0x89 0 ;;;
    let* k' := get in
    alloc_pages (u64 (root - hhdm k + hhdm k')) (this_ap_stack_addr 1) KERNEL_STACK_PAGES
      (Z.lor KERNEL_PFLAG_PRESENT KERNEL_PFLAG_WRITE)) tt) as (k & root & t & T & k3 & Hm & E); [vm_compute; reflexivity|].
  rewrite bind_get in E. apply bind_ok in E as ([] & k2 & E1 & E2). rewrite bind_get in E2.
  destruct controllers_example as (a & rest & a' & Ea & Ea').
  set (g := MkGDTR 55 t) in *. set (cr3 := root - hhdm k) in *.
  set (c0 := demo_core Parked (MkProcessor (MkGDTR 0 0) (MkIDTR 0 0) 0 0 0) 0 0 (Apic.demo_apic small_kernel 0)).
  set (s0 := MkSmp false (Aquire 0) k [c0]).
  assert (smp_start g cr3 s0 T) as Hstart.
  { split; try done; [by repeat constructor|]. apply NoDup_singleton. }
  eassert (nsteps (smp_step g demo_idtr demo_tss cr3 Apic.demo_lapic) 13 s0 _) as Hn.
  { eapply nsteps_l; [apply step_aquire; cbn; lia|]. eapply nsteps_l; [by apply (step_start _ _ _ _ _ true 0 k [c0] c0)|].
    cbn [insert list_insert].
    eapply nsteps_l; [eapply (step_core _ _ _ _ _ [] _ _ _ _ 0); [reflexivity|by split_and!|unfold ap_step; cbn [stage set_stage c0 demo_core]; change (gdtr_offset g) with t; rewrite E1; reflexivity]|].
    cbn [insert list_insert default].
    do 4 (eapply nsteps_l; [eapply (step_core _ _ _ _ _ [] _ _ _ _ 0); [reflexivity|by split_and!|reflexivity]|]; cbn [insert list_insert default]).
    eapply nsteps_l; [eapply (step_core _ _ _ _ _ [] _ _ _ _ 0);
      [reflexivity|by split_and!|unfold ap_step; cbn [stage set_stage set_cr3 set_registers processor_id c0 demo_core]; rewrite E2; reflexivity]|].
    cbn [insert list_insert default].
    eapply nsteps_l; [eapply (step_core _ _ _ _ _ [] _ _ _ _ 0); [reflexivity|by split_and!|reflexivity]|]; cbn [insert list_insert default].
    eapply nsteps_l; [eapply (step_core _ _ _ _ _ [] _ _ _ _ 0); [reflexivity|by split_and!|unfold ap_step, on_controllers;
      cbn [stage set_stage set_cr3 set_registers set_rsp processor_id c0 demo_core controllers]; rewrite Ea; reflexivity]|].
    cbn [insert list_insert default].
    eapply nsteps_l; [eapply (step_core _ _ _ _ _ [6; 6]%nat _ _ _ _ 0); [reflexivity|by split_and!|unfold ap_step, on_controllers;
      cbn [stage set_stage set_cr3 set_registers set_rsp set_controllers processor_id c0 demo_core controllers]; rewrite Ea'; reflexivity]|].
    cbn [insert list_insert default].
    eapply nsteps_l; [eapply (step_core _ _ _ _ _ [] _ _ _ _ 0); [reflexivity|by split_and!|reflexivity]|]; cbn [insert list_insert default].
    eapply nsteps_l; [exact (step_last _ _ _ _ _ k3 [_])|]. apply nsteps_O. }
  match type of Hn with nsteps _ _ _ ?s => exists g, cr3, s0, T, s end.
  split; [exact Hstart|]. split; [reflexivity|]. split; [exact Hn|]. split; [reflexivity|].
  destruct (smp_initialises g demo_idtr demo_tss cr3 Apic.demo_lapic 13 s0 _ T Hstart Hn) as (_ & _ & _ & H).
  destruct (H eq_refl) as (_ & Hc & _). eexists. split; [reflexivity|]. destruct (Hc 0%nat _ eq_refl) as (Hs & Hr & _).
  split; [exact Hs|exact Hr].
Defined.
