(* ===== verification/Boot.v ===== *)
(** * kernel/entry.c, mem/print_mem.c: the start of the kernel

    What [_start] does before the first interrupt: the kernel's data from the
    answers of the boot loader, the report on the serial port, and the memory
    system: the page allocator, the heap and the first page tables, which map
    the physical memory, the kernel and its stack (mem/map.c). *)
From stdpp Require Import strings.
From S2P Require Import Prelude Allocator Memory Strings Vector Events Elf Apic Blocks Tasks TempFS VFS Mount.
From S2P Require Import Screen Printf Process KHeap PMM Paging.

(** ** The code *)

(** *** The kernel's data *)

(** What the boot loader answers to the requests of bootinfo.h, [None] where it
    has not answered.  The memory map is an array of pointers to entries; the
    second component is the entry a pointer leads to. *)
Record Responses := {
  memmap_response : option (list Z * (Z -> memmap_entry));
  hhdm_response : option Z;
  kernel_address_response : option (Z * Z);
  framebuffer_response : option Z;
  module_response : option (list Z);
  rsdp_response : option Z;
  smp_response : option Z
}.

(** The fields of [kernel] that [init_kernel_data] sets. *)
Record KernelData := {
  memory_map : list memmap_entry; data_hhdm : Z; kernel_addr : Z * Z; framebuffers : Z; initial_ramdisk : Z;
  rsdp_table : Z; cpu_count : option Z; data_font_avaliable : bool; data_ch_X : Z; data_ch_Y : Z; fg_colour : Z;
  bg_colour : Z; total_memory : Z
}.

(** A response that is a null pointer. *)
Definition response {A} (r : option A) : outcome A := match r with Some a => Ok a | None => Fault end.

Definition sizeof_memmap_entry : Z := 24.

(** [( *kernel.memmap.entries)[i]]: the entries are taken for an array at the
    first pointer. *)
Definition nth_entry (m : list Z * (Z -> memmap_entry)) (i : Z) : outcome memmap_entry :=
  let+ first := rd (fst m) 0 in Ok (snd m (u64 (first + sizeof_memmap_entry * i))).
Fixpoint entries_from (n : nat) (m : list Z * (Z -> memmap_entry)) (i : Z) : outcome (list memmap_entry) :=
  match n with
  | O => Ok []
  | S n' => let+ e := nth_entry m i in let+ es := entries_from n' m (i + 1) in Ok (e :: es)
  end.

Definition init_kernel_data (r : Responses) : outcome KernelData :=
  let+ m := response (memmap_response r) in
  let entry_count := Zlen (fst m) in
  let+ es := entries_from (length (fst m)) m 0 in
  let+ h := response (hhdm_response r) in
  let+ a := response (kernel_address_response r) in
  let+ f := response (framebuffer_response r) in
  let+ modules := response (module_response r) in
  let+ initrd := rd modules 0 in
  let+ rsdp := response (rsdp_response r) in
  let+ last := nth_entry m (u64 (entry_count - 1)) in
  Ok {| memory_map := es; data_hhdm := h; kernel_addr := a; framebuffers := f; initial_ramdisk := initrd;
        rsdp_table := rsdp; cpu_count := smp_response r; data_font_avaliable := false; data_ch_X := 5; data_ch_Y := 5;
        fg_colour := 0xd8d9d7; bg_colour := 0x012456; total_memory := u64 (base last + length_ last) |}.

(** The allocator's part of [kernel], which starts zeroed; [m] is what the
    memory holds. *)
Definition memory_of (d : KernelData) (m : memory) : Kernel :=
  {| memmap := memory_map d; hhdm := data_hhdm d; last_freed_page := 0; last_freed_section := 0;
     last_freed_num_pages := 0; total_memory_allocated := 0; kheap_start := 0; mem := m |}.

(** *** Reports *)

Definition entry_format : list Z := [10] ++ c_text "Base: 0x%x | Length: 0x%x | Type: %i".
Definition hhdm_format : list Z := c_text "Higher Half Direct Mapping (HHDM): 0x%x" ++ [10].
Definition processors_format : list Z := c_text "Number of processors detected: %i" ++ [10].
Definition map_title : list Z := c_text "Memory map recieved from bootloader:".
Definition memory_format : list Z := c_text "Memory: %i MB/%i MB" ++ [10].
Definition trying_text : list Z := c_text "Trying to run init process..." ++ [10].
Definition no_init_text : list Z := c_text "Could not run init application. Halting." ++ [10].
Definition all_ended_text : list Z := c_text "All tasks halted, nothing left to do." ++ [10; 10].
Definition smashed_text : list Z := c_text "Stack smashing detected. Halting." ++ [10].

(** The kernel, its console, and the flag that lets the timer's interrupt switch
    tasks. *)
Record Machine (K : Type) := MkMachine { parts : K; output : Console; can_task_switch : bool }.
Arguments MkMachine {K}.
Arguments parts {K}.
Arguments output {K}.
Arguments can_task_switch {K}.

(** tasks/switchutils.c *)
Definition check_task_switch_allowed {K} : M (Machine K) bool := let* s := get in ret (can_task_switch s).

Definition on_output {K} (m : M Console unit) : M (Machine K) unit :=
  fun s => let+ (_, c) := m (output s) in Ok (tt, MkMachine (parts s) c (can_task_switch s)).
Definition on_parts {K A} (m : M K A) : M (Machine K) A :=
  fun s => let+ (a, k) := m (parts s) in Ok (a, MkMachine k (output s) (can_task_switch s)).

Section Reports.
Context (line_status : nat -> Z) (patience : nat) (junk : nat -> list Z) (file : list Z).
Abbreviation printf := (printf line_status patience junk).
Abbreviation kdebugf := (kdebugf line_status patience junk file).
Abbreviation kstatusf := (kstatusf line_status patience junk file).
Abbreviation kfailf := (kfailf line_status patience junk file).
Fixpoint print_memory_loop (es : list memmap_entry) : M Console unit :=
  match es with
  | [] => ret tt
  | e :: es' =>
      printf (cstr entry_format) [Num (base e); Num (length_ e); Num (type e)] ;;;
      print_memory_loop es'
  end.
Definition print_memory (d : KernelData) : M Console unit :=
  print_memory_loop (memory_map d) ;;;
  printf (cstr [10]) [].

Definition show_boot_info (d : KernelData) : M Console unit :=
  kdebugf hhdm_format [Num (data_hhdm d)] ;;;
  let* n := lift (response (cpu_count d)) in
  kdebugf processors_format [Num n] ;;;
  kdebugf map_title [] ;;;
  print_memory d ;;;
  printf (cstr [10]) [].

(** [for (;;);] *)
Definition all_tasks_ended : M Console unit := kstatusf all_ended_text [] ;;; (fun _ => Spin).
Definition __stack_chk_fail : M Console unit := kfailf smashed_text [] ;;; halt.

(** *** The first program *)
Definition shell_path : list Z := cstr (c_text "R:/exec/shell").
Definition init_argv : list (list Z) := [shell_path; cstr (c_text "Arg test 1!"); cstr (c_text "Second :D")].

Section Init.
Context {Obj : Type}.
Context `{OV : !Object Vector Obj, ON : !Object VectorNode Obj, OE : !Object Event Obj}.
Context `{OT : !Object Task Obj, OB : !Object Block Obj, OL : !Object File Obj}.
Context (core slack : Z) (junk_Task : Z -> Task) (junk_Block : Z -> Block) (junk_File : Z -> File).
Context (stale : Z -> Z -> list Z) (img : KernelImage) `{Hardware} (apic : Kernel -> Apic).
Abbreviation Vfs := (Vfs (AL := KHeap_Allocator) (Obj := Obj)).
Abbreviation spawn := (spawn core slack junk_Task junk_Block junk_File stale img apic).

Definition try_spawn_init (total : Z) : M (Machine Vfs) unit :=
  let* s := get in
  on_output (kdebugf memory_format [Num (total_memory_allocated (store_heap (store (scheduler (parts s)))) / 1000000);
    Num (total / 1000000)]) ;;;
  on_output (kstatusf trying_text []) ;;;
  let* status := on_parts (spawn shell_path init_argv) in
  if negb (status =? 0) then
    on_output (kfailf no_init_text []) ;;;
    halt
  else modify (fun s => MkMachine (parts s) (output s) true).
End Init.
End Reports.

(** *** The memory *)

(** The first steps of [_start] on the memory; the result is the value of
    [kernel.cr3]. *)
Definition boot_memory (img : KernelImage) : M Kernel Z :=
  init_PMM ;;;
  init_kheap ;;;
  init_paging img.

(** ** The layout of the address space

    Page [q] of the address space is [in_range] of the [n] pages from the
    address [virt] on. *)
Definition covers (virt n q : Z) : bool := (page_of virt <=? q) && (q <? page_of virt + n).

Definition section_covers (h q : Z) (e : memmap_entry) : bool :=
  mapped_type (type e) && covers (base e + h) (length_ e / 4096) q.
Definition in_sections (h : Z) (es : list memmap_entry) (q : Z) : bool := existsb (section_covers h q) es.

Definition read_only_pages (img : KernelImage) : Z := (writeallowed_start img - kernel_start img + 4095) / 4096.
Definition writable_pages (img : KernelImage) : Z := (kernel_end img - writeallowed_start img + 4095) / 4096.
Definition in_read_only (img : KernelImage) (q : Z) : bool := covers (kernel_start img) (read_only_pages img) q.
Definition in_writable (img : KernelImage) (q : Z) : bool := covers (writeallowed_start img) (writable_pages img) q.
Definition in_image (img : KernelImage) (q : Z) : bool := in_read_only img q || in_writable img q.
Definition on_stack (q : Z) : bool := covers KERNEL_STACK_ADDR KERNEL_STACK_PAGES q.

(** What the boot loader reports: physical memory of 48 bits, sections that
    start at a page and have at least one. *)
Definition section_ok (h : Z) (e : memmap_entry) : Prop :=
  mapped_type (type e) = true ->
  0 <= base e /\ base e mod 4096 = 0 /\ 4096 <= length_ e /\ base e + length_ e <= 2 ^ 48 /\
  base e + h + length_ e <= 2 ^ 64.

(** The image, loaded at a page; [writeallowed_start] need not start a page. *)
Record image_ok (img : KernelImage) : Prop := {
  img_phys : 0 <= physical_base img /\ physical_base img mod 4096 = 0;
  img_virt : 0 <= virtual_base img /\ virtual_base img mod 4096 = 0;
  img_order : virtual_base img <= kernel_start img < writeallowed_start img /\ writeallowed_start img < kernel_end img;
  img_end : kernel_end img + 4096 <= 2 ^ 64;
  img_room : physical_base img + (kernel_end img - virtual_base img) + 4096 <= 2 ^ 48
}.

(** An address shifted by [h], in the 48 bits the tables translate. *)
Definition shifted (h v : Z) : Z := (v - h) mod 2 ^ 48.

(** The address space every task starts from, its tables made from the state
    [k0]: the direct map of the sections, else the kernel's stack on pages of
    its own, else the kernel's image, and nothing else. *)
Record kernel_space (img : KernelImage) (k0 k : Kernel) (root : Z) (T : tables) : Prop := {
  ks_sections v : 0 <= v -> in_sections (hhdm k0) (memmap k0) (page_of v) = true ->
    virt_to_phys root v k = shifted (hhdm k0) v;
  ks_stack q : on_stack q = true -> in_sections (hhdm k0) (memmap k0) q = false ->
    fresh_entry 3 k0 k q (pte k T q);
  ks_stack_apart q q' : on_stack q = true -> on_stack q' = true -> q < q' ->
    in_sections (hhdm k0) (memmap k0) q = false -> in_sections (hhdm k0) (memmap k0) q' = false ->
    apart_entries (pte k T q) (pte k T q');
  ks_image v : 0 <= v -> in_image img (page_of v) = true ->
    in_sections (hhdm k0) (memmap k0) (page_of v) = false -> on_stack (page_of v) = false ->
    virt_to_phys root v k = shifted (virtual_base img - physical_base img) v;
  ks_none v : 0 <= v -> in_image img (page_of v) = false ->
    in_sections (hhdm k0) (memmap k0) (page_of v) = false -> on_stack (page_of v) = false ->
    virt_to_phys root v k = 0xDEAD
}.

(** ** Lemmas *)

Lemma page_of_split v : v mod 2 ^ 48 = page_of v * 4096 + v mod 4096.
Proof.
  unfold page_of. rewrite <- (Z.mod_mod_divide v (2 ^ 48) 4096) by (by exists (2 ^ 36)).
  pose proof (Z.div_mod (v mod 2 ^ 48) 4096). lia.
Qed.

(** A mapping of pages in order shifts the addresses. *)
Lemma shifted_range virt phys n h v :
  virt mod 4096 = 0 -> phys = virt - h -> 0 <= phys -> phys + n * 4096 <= 2 ^ 48 ->
  covers virt n (page_of v) = true ->
  phys + (page_of v - page_of virt) * 4096 + v mod 4096 = shifted h v.
Proof.
  intros Hm -> H0 H1 Hc. unfold covers in Hc. unfold shifted.
  pose proof (page_of_split v) as Hv. pose proof (page_of_split virt) as Hw. rewrite Hm, Z.add_0_r in Hw.
  pose proof (Z.mod_pos_bound v 4096 ltac:(lia)).
  apply (Z.mod_unique _ _ (v / 2 ^ 48 - virt / 2 ^ 48)); [left; nia|].
  pose proof (Z.div_mod v (2 ^ 48)). pose proof (Z.div_mod virt (2 ^ 48)). lia.
Qed.

(** Pages with the same entry translate alike. *)
Lemma same_entry_translates k T k' T' root v :
  pt_inv k root T -> pt_inv k' root T' -> 0 <= v -> pte k' T' (page_of v) = pte k T (page_of v) ->
  virt_to_phys root v k' = virt_to_phys root v k.
Proof.
  intros H H' Hv E. rewrite (virt_to_phys_spec k root T v), (virt_to_phys_spec k' root T' v) by done.
  unfold translate. by rewrite E.
Qed.

Lemma empty_entry_translates k T root v :
  pt_inv k root T -> 0 <= v -> pte k T (page_of v) = 0 -> virt_to_phys root v k = 0xDEAD.
Proof. intros H Hv E. rewrite (virt_to_phys_spec k root T v) by done. unfold translate. by rewrite E. Qed.

Lemma page_of_wrap v : 0 <= v -> page_of (u64 v) = page_of v.
Proof.
  intros Hv. unfold page_of, u64. by rewrite (Z.mod_mod_divide v (2 ^ 64) (2 ^ 48)) by (by exists (2 ^ 16)).
Qed.

(** One mapping; pages elsewhere keep their entries. *)
Lemma map_shifted k root T virt phys n flags h :
  pt_inv k root T -> 0 <= virt -> virt mod 4096 = 0 -> 0 <= phys -> phys - phys mod 4096 = virt - h ->
  phys + n * 4096 <= 2 ^ 48 -> 1 <= n -> 0 < flags < 4096 ->
  map_pages root virt phys n flags k = Halted \/
  exists k' T', map_pages root virt phys n flags k = Ok (tt, k') /\ pt_inv k' root T' /\ extends k T k' T' /\
    (forall v, 0 <= v -> covers virt n (page_of v) = true -> virt_to_phys root v k' = shifted h v) /\
    forall q, covers virt n q = false -> pte k' T' q = pte k T q.
Proof.
  intros Hinv Hv Hm Hp Hh Hroom Hn Hf.
  destruct (map_pages_run k root T virt phys n flags Hinv Hv Hp ltac:(lia) Hn Hf)
    as [E|(k' & T' & E & Hinv' & Hext & _ & Hout & Htr)]; [by left|right].
  exists k', T'. split_and!; try done.
  - intros v Hv0 Hc. rewrite Htr by done. unfold covers in Hc. rewrite Hc.
    apply (shifted_range virt _ n h); try done; divlia.
  - intros q Hq. apply Hout. unfold covers in Hq. lia.
Qed.

Lemma map_sections_run es : forall k root T,
  pt_inv k root T -> hhdm k mod 4096 = 0 -> Forall (section_ok (hhdm k)) es ->
  map_sections_loop es root k = Halted \/
  exists k' T', map_sections_loop es root k = Ok (tt, k') /\ pt_inv k' root T' /\ extends k T k' T' /\
    (forall v, 0 <= v -> in_sections (hhdm k) es (page_of v) = true -> virt_to_phys root v k' = shifted (hhdm k) v) /\
    forall q, in_sections (hhdm k) es q = false -> pte k' T' q = pte k T q.
Proof.
  induction es as [|e es IH]; intros k root T Hinv Hh Hes.
  { right. exists k, T. split_and!; try done. apply extends_refl. }
  apply Forall_cons in Hes as [He Hes]. cbn [map_sections_loop]. pose proof (wf_hhdm _ (pt_wf _ _ _ Hinv)) as Hh0.
  unfold in_sections. cbn [existsb]. unfold section_covers at 1 3.
  destruct (mapped_type (type e)) eqn:Ht; cbn [andb orb]; [|by apply IH].
  destruct (He Ht) as (H0 & Hm & Hl & H48 & H64). unfold bind, get. cbn [obind]. rewrite u64_small by lia.
  destruct (map_shifted k root T (base e + hhdm k) (base e) (length_ e / 4096)
    (Z.lor KERNEL_PFLAG_PRESENT KERNEL_PFLAG_WRITE) (hhdm k) Hinv)
    as [->|(k1 & T1 & -> & Hinv1 & Hext1 & Htr1 & Hout1)]; [lia|divlia|lia|lia|divlia|divlia|done|by left|].
  cbn [obind]. pose proof (ext_config _ _ _ _ Hext1) as (_ & Hhh & _). rewrite <- Hhh in Hh, Hes.
  destruct (IH k1 root T1 Hinv1 Hh Hes) as [E|(k2 & T2 & E & Hinv2 & Hext2 & Htr2 & Hout2)]; [by left|right].
  rewrite Hhh in *. exists k2, T2. split_and!; try done; [by eapply extends_trans| |].
  - intros v Hv Hc. fold (in_sections (hhdm k) es (page_of v)) in Hc.
    destruct (in_sections (hhdm k) es (page_of v)) eqn:E2; [by apply Htr2|]. rewrite orb_false_r in Hc.
    rewrite (same_entry_translates k1 T1 k2 T2 root v) by auto. by apply Htr1.
  - intros q [Hc1 Hc2]%orb_false_elim. by rewrite Hout2, Hout1.
Qed.

(** ** The image and the stack *)

Lemma align_up_pages n : 0 < n -> n + 4095 < 2 ^ 64 -> PAGE_ALIGN_UP n / 4096 = (n + 4095) / 4096.
Proof. intros H0 H1. unfold PAGE_ALIGN_UP. rewrite (u64_small (n + 4095)), u64_small by divlia. divlia. Qed.

Lemma covers_aligned v n q : 0 <= v < 2 ^ 64 -> covers (PAGE_ALIGN_DOWN v) n q = covers v n q.
Proof.
  intros Hv. unfold covers, page_of. rewrite align_down_mod by done.
  replace ((v - v mod 4096) mod 2 ^ 48 / 4096) with (v mod 2 ^ 48 / 4096); [done|]. divlia.
Qed.

(** One half of the image, from [lo] to [hi]. *)
Lemma map_image_run img k root T lo hi flags :
  pt_inv k root T -> image_ok img -> virtual_base img <= lo -> lo < hi -> hi <= kernel_end img -> 0 < flags < 4096 ->
  let m := map_pages root (PAGE_ALIGN_DOWN lo) (u64 (physical_base img + u64 (lo - virtual_base img)))
    (PAGE_ALIGN_UP (u64 (hi - lo)) / 4096) flags k in
  m = Halted \/
  exists k' T', m = Ok (tt, k') /\ pt_inv k' root T' /\ extends k T k' T' /\
    (forall v, 0 <= v -> covers lo ((hi - lo + 4095) / 4096) (page_of v) = true ->
       virt_to_phys root v k' = shifted (virtual_base img - physical_base img) v) /\
    forall q, covers lo ((hi - lo + 4095) / 4096) q = false -> pte k' T' q = pte k T q.
Proof.
  intros Hinv [[P0 P1] [V0 V1] _ He Hr] Hlo Hlt Hhi Hf. cbv zeta.
  rewrite !(u64_small (_ - _)), u64_small, align_up_pages by lia.
  set (phys := physical_base img + (lo - virtual_base img)). set (n := (hi - lo + 4095) / 4096).
  assert (phys mod 4096 = lo mod 4096) as Hmod.
  { unfold phys. rewrite Z.add_mod, P1, Zminus_mod, V1 by lia. rewrite Z.sub_0_r, Z.add_0_l, !Z.mod_mod by lia. done. }
  pose proof (align_down_mod lo ltac:(lia)) as Hlo'.
  destruct (map_shifted k root T (PAGE_ALIGN_DOWN lo) phys n flags (virtual_base img - physical_base img) Hinv)
    as [E|(k' & T' & E & Hinv' & Hext & Htr & Hout)];
    [divlia|divlia|unfold phys; lia|unfold phys in *; lia|unfold phys, n; divlia|unfold n; divlia|done|by left|right].
  exists k', T'. split_and!; try done.
  - intros v Hv Hc. apply Htr; [done|]. by rewrite covers_aligned by lia.
  - intros q Hq. apply Hout. by rewrite covers_aligned by lia.
Qed.

(** The image and the stack, in the order the code maps them: where they meet,
    the later mapping wins, and the two halves of the image agree. *)
Lemma map_kernel_run img k root T :
  pt_inv k root T -> image_ok img ->
  map_kernel img root k = Halted \/
  exists k' T', map_kernel img root k = Ok (tt, k') /\ pt_inv k' root T' /\ extends k T k' T' /\
    (forall v, 0 <= v -> on_stack (page_of v) = false -> in_image img (page_of v) = true ->
       virt_to_phys root v k' = shifted (virtual_base img - physical_base img) v) /\
    (forall q, on_stack q = true -> fresh_entry 3 k k' q (pte k' T' q)) /\
    (forall q q', on_stack q = true -> on_stack q' = true -> q < q' -> apart_entries (pte k' T' q) (pte k' T' q')) /\
    forall q, on_stack q = false -> in_image img q = false -> pte k' T' q = pte k T q.
Proof.
  intros Hinv Himg. pose proof (img_order _ Himg) as ([Ho1 Ho2] & Ho3). unfold map_kernel.
  destruct (map_image_run img k root T (kernel_start img) (writeallowed_start img) KERNEL_PFLAG_PRESENT Hinv Himg)
    as [E|(k1 & T1 & E1 & Hinv1 & Hext1 & Htr1 & Hout1)]; [lia|lia|lia|done|left; unfold bind; by rewrite E|].
  rewrite (bind_run _ _ _ _ _ E1).
  destruct (map_image_run img k1 root T1 (writeallowed_start img) (kernel_end img)
    (Z.lor KERNEL_PFLAG_PRESENT KERNEL_PFLAG_WRITE) Hinv1 Himg)
    as [E|(k2 & T2 & E2 & Hinv2 & Hext2 & Htr2 & Hout2)]; [lia|lia|lia|done|left; unfold bind; by rewrite E|].
  rewrite (bind_run _ _ _ _ _ E2).
  destruct (alloc_pages_run k2 root T2 KERNEL_STACK_ADDR KERNEL_STACK_PAGES
    (Z.lor KERNEL_PFLAG_PRESENT KERNEL_PFLAG_WRITE) Hinv2) as [E|(k3 & T3 & E3 & Hinv3 & Hext3 & Hf & Hout3 & Hap)];
    [done|done|done|by left|right].
  exists k3, T3. pose proof (extends_trans _ _ _ _ _ _ Hext1 Hext2) as Hext12.
  assert (forall q, on_stack q = false -> pte k3 T3 q = pte k2 T2 q) as Hkeep.
  { intros q Hq. apply Hout3. unfold on_stack, covers in Hq. lia. }
  split_and!; try done.
  - by eapply extends_trans.
  - intros v Hv Hs Hi. rewrite (same_entry_translates k2 T2 k3 T3 root v) by auto.
    destruct (in_writable img (page_of v)) eqn:Hw; [by apply Htr2|].
    unfold in_image in Hi. rewrite Hw, orb_false_r in Hi.
    rewrite (same_entry_translates k1 T1 k2 T2 root v) by auto. by apply Htr1.
  - intros q Hq. unfold on_stack, covers in Hq.
    apply (fresh_mono 3 k k2 k3 k3 q); [apply (ext_block _ _ _ _ Hext12)|done|apply Hf; lia].
  - intros q q' Hq Hq' Hlt. unfold on_stack, covers in Hq, Hq'. apply Hap; lia.
  - intros q Hq [Hr Hw]%orb_false_elim. by rewrite Hkeep, Hout2, Hout1.
Qed.

(** The pages of an address space: what the tables of a new task map. *)
Lemma init_paging_task_run img k :
  wf_pmm k -> aligned k -> hhdm k mod 4096 = 0 -> Forall (section_ok (hhdm k)) (memmap k) -> image_ok img ->
  init_paging_task img k = Halted \/
  exists root k' T, init_paging_task img k = Ok (root, k') /\ kernel_space img k k' root T /\ hhdm k' = hhdm k /\
    forall l A, heap_inv k l -> (forall p, p ∈ A -> exists n, live k l p n) -> address_space k' root T A.
Proof.
  intros Hwf Hal Hh Hes Himg.
  assert (init_paging_task img k = (let* r := new_root in map_all img r ;;; ret r) k) as ->.
  { unfold init_paging_task, new_root. by rewrite !bind_assoc. }
  destruct (new_root_spec k Hwf Hal) as [E|(root & k1 & E1 & Hinv1 & Hcfg1 & Hz & Hnew)]; [left; unfold bind; by rewrite E|].
  rewrite (bind_run _ _ _ _ _ E1). pose proof Hcfg1 as (Hmap1 & Hh1 & _). unfold map_all. rewrite bind_assoc.
  destruct (map_kernel_run img k1 root _ Hinv1 Himg) as [E|(k2 & T2 & E2 & Hinv2 & Hext2 & Htr2 & Hf2 & Hap2 & Hout2)];
    [left; unfold bind; by rewrite E|].
  rewrite (bind_run _ _ _ _ _ E2). pose proof (ext_config _ _ _ _ Hext2) as (Hmap2 & Hh2 & _).
  unfold map_sections. rewrite bind_assoc, bind_get.
  destruct (map_sections_run (memmap k2) k2 root T2 Hinv2) as [E|(k3 & T3 & E3 & Hinv3 & Hext3 & Htr3 & Hout3)];
    [congruence|congruence|left; unfold bind; by rewrite E|right].
  rewrite (bind_run _ _ _ _ _ E3). exists root, k3, T3.
  pose proof (ext_config _ _ _ _ Hext3) as (_ & Hh3 & _). rewrite Hh3, Hmap2, Hmap1, Hh2, Hh1 in *.
  split; [done|]. split; [|split; [done|]].
  2:{ intros l A Hl HA. eapply address_space_extends; [by eapply address_space_new|done|by eapply extends_trans]. }
  constructor.
  - done.
  - intros q Hq Hs. rewrite Hout3 by done. eapply (fresh_mono 3 k k1 k2 k3);
      [by intros c [? _]%Hnew|apply (ext_block _ _ _ _ Hext3)|by apply Hf2].
  - intros q q' Hq Hq' Hlt Hs Hs'. rewrite !Hout3 by done. by apply Hap2.
  - intros v Hv Hi Hs Hst. rewrite (same_entry_translates k2 T2 k3 T3 root v) by auto. by apply Htr2.
  - intros v Hv Hi Hs Hst. apply (empty_entry_translates k3 T3); [done..|]. by rewrite Hout3, Hout2.
Qed.

(** ** The reports *)

Definition entry_text (e : memmap_entry) : list Z :=
  [10] ++ c_text "Base: 0x" ++ hex16 (base e) ++ c_text " | Length: 0x" ++ hex16 (length_ e) ++ c_text " | Type: " ++
  decimal (type e).
Definition boot_text (file : list Z) (d : KernelData) (n : Z) : list Z :=
  let debug := tag 53 (c_text "[KDEBUG]") file in
  debug ++ c_text "Higher Half Direct Mapping (HHDM): 0x" ++ hex16 (data_hhdm d) ++ [10] ++
  debug ++ c_text "Number of processors detected: " ++ decimal n ++ [10] ++
  debug ++ map_title ++ flat_map entry_text (memory_map d) ++ [10; 10].
Definition init_text (file : list Z) (used total : Z) : list Z :=
  tag 53 (c_text "[KDEBUG]") file ++ c_text "Memory: " ++ decimal (used / 1000000) ++ c_text " MB/" ++
  decimal (total / 1000000) ++ c_text " MB" ++ [10] ++ tag 51 (c_text "[STATUS]") file ++ trying_text.

Definition entry_words (e : memmap_entry) : Prop := is_u64 (base e) /\ is_u64 (length_ e) /\ 0 <= type e < 10 ^ 9.

Section ReportLemmas.
Context (line_status : nat -> Z) (patience : nat) (junk : nat -> list Z) (file : list Z).
Context (ready : forall n, exists k, (k < patience)%nat /\ Z.land (line_status (n + k)%nat) 0x20 <> 0).
Context (junk_length : forall n, length (junk n) = n).
Context (file_plain : plain file) (file_short : Zlen file < 2 ^ 30).

Lemma emits_print_memory es :
  Forall entry_words es -> emits (print_memory_loop line_status patience junk es) (flat_map entry_text es).
Proof using ready junk_length.
  induction 1 as [|e es (Hb & Hl & Ht) _ IH]; [apply emits_ret|]. cbn [print_memory_loop flat_map].
  apply emits_seq; [|done]. apply emits_printf; [done|done|repeat constructor; done|]. intros font.
  unfold entry_format, entry_text. spell. fmt. rewrite <- (app_nil_r (decimal _)). apply fmt_decimal; [by right|lia|apply fmt_end].
Qed.

Lemma emits_boot_info d n : cpu_count d = Some n -> 0 <= n < 10 ^ 9 -> is_u64 (data_hhdm d) -> Forall entry_words (memory_map d) ->
  emits (show_boot_info line_status patience junk file d) (boot_text file d n).
Proof using All.
  intros Hn Hr Hh Hes. unfold show_boot_info, boot_text, print_memory. rewrite Hn. set (debug := tag _ _ _).
  pose proof (emits_tagged line_status patience junk file ready junk_length file_plain file_short 53 (c_text "[KDEBUG]")) as Htag.
  assert (emits (kdebugf line_status patience junk file hhdm_format [Num (data_hhdm d)])
    (debug ++ c_text "Higher Half Direct Mapping (HHDM): 0x" ++ hex16 (data_hhdm d) ++ [10])) as E1.
  { apply Htag; [lia|repeat constructor; done|done|repeat constructor; done|]. intros font. unfold hhdm_format. spell. fmt. }
  assert (emits (kdebugf line_status patience junk file processors_format [Num n])
    (debug ++ c_text "Number of processors detected: " ++ decimal n ++ [10])) as E2.
  { apply Htag; [lia|repeat constructor; done|done|repeat constructor; done|]. intros font. unfold processors_format. spell. fmt.
    apply fmt_decimal; [by right|done|]. fmt. }
  assert (emits (kdebugf line_status patience junk file map_title []) (debug ++ map_title)) as E3.
  { apply Htag; [lia|repeat constructor; done|done|repeat constructor; done|]. intros font. unfold map_title. spell. fmt. }
  assert (emits (printf line_status patience junk (cstr [10]) []) [10]) as E4.
  { apply emits_printf; [done|done|repeat constructor; done|]. intros font. fmt. }
  pose proof (emits_seq _ _ _ _ E1 (emits_seq _ _ _ _ E2 (emits_seq _ _ _ _ E3
    (emits_seq _ _ _ _ (emits_seq _ _ _ _ (emits_print_memory _ Hes) E4) E4)))) as H.
  rewrite <- !app_assoc in H. exact H.
Qed.

(** The first program: the switching of tasks starts exactly when it has been
    loaded; without it the kernel halts. *)
Lemma try_spawn_init_run {Obj : Type} `{OV : !Object Vector Obj, ON : !Object VectorNode Obj, OE : !Object Event Obj}
    `{OT : !Object Task Obj, OB : !Object Block Obj, OL : !Object File Obj} core slack junk_Task junk_Block junk_File stale img
    `{Hardware} (apic : Kernel -> Apic) total (s : Machine (Vfs (AL := KHeap_Allocator) (Obj := Obj))) status k' :
  let used := total_memory_allocated (store_heap (store (scheduler (parts s)))) in
  spawn core slack junk_Task junk_Block junk_File stale img apic shell_path init_argv (parts s) = Ok (status, k') ->
  0 <= used < 10 ^ 15 -> 0 <= total < 10 ^ 15 -> Printf.usable (output s) ->
  let r := try_spawn_init line_status patience junk file core slack junk_Task junk_Block junk_File stale img apic total s in
  if status =? 0 then
    exists c', r = Ok (tt, MkMachine k' c' true) /\ Printf.usable c' /\ serial c' = serial (output s) ++ init_text file used total
  else r = Halted.
Proof using All.
  intros used Hs Hu Ht Hc. cbv zeta. unfold try_spawn_init. rewrite bind_get. fold used.
  assert (emits (kdebugf line_status patience junk file memory_format [Num (used / 1000000); Num (total / 1000000)])
    (tag 53 (c_text "[KDEBUG]") file ++ c_text "Memory: " ++ decimal (used / 1000000) ++ c_text " MB/" ++
       decimal (total / 1000000) ++ c_text " MB" ++ [10])) as E1.
  { apply emits_tagged; [done|done|done|done|lia|repeat constructor; done|done|repeat constructor; done|]. intros font. unfold memory_format. spell. fmt.
    apply fmt_decimal; [by right|divlia|]. fmt. apply fmt_decimal; [by right|divlia|]. fmt. }
  assert (emits (kstatusf line_status patience junk file trying_text [])
    (tag 51 (c_text "[STATUS]") file ++ trying_text)) as E2.
  { apply emits_tagged; [done|done|done|done|lia|repeat constructor; done|done|repeat constructor; done|]. intros font. unfold trying_text. spell. fmt. }
  assert (emits (kfailf line_status patience junk file no_init_text []) (tag 49 (c_text "[ FAIL ]") file ++ no_init_text)) as E3.
  { apply emits_tagged; [done|done|done|done|lia|repeat constructor; done|done|repeat constructor; done|]. intros font. unfold no_init_text. spell. fmt. }
  destruct (E1 _ Hc) as (c1 & R1 & S1 & U1). destruct (E2 _ U1) as (c2 & R2 & S2 & U2).
  unfold bind, on_output, on_parts, modify, halt. rewrite R1. cbn [obind output parts]. rewrite R2. cbn [obind output parts can_task_switch].
  rewrite Hs. cbn [obind output parts can_task_switch]. destruct (status =? 0); cbn [negb].
  - exists c2. split; [done|]. split; [done|]. rewrite S2, S1. unfold init_text. by rewrite <- !app_assoc.
  - destruct (E3 _ U2) as (c3 & R3 & _). cbn [obind output]. by rewrite R3.
Qed.

(** When nothing is left to run the kernel says so and waits. *)
Lemma all_tasks_ended_waits c : Printf.usable c -> all_tasks_ended line_status patience junk file c = Spin.
Proof using All.
  intros Hc. unfold all_tasks_ended.
  assert (emits (kstatusf line_status patience junk file all_ended_text []) (tag 51 (c_text "[STATUS]") file ++ all_ended_text)) as E.
  { apply emits_tagged; [done|done|done|done|lia|repeat constructor; done|done|repeat constructor; done|]. intros font. unfold all_ended_text. spell. fmt. }
  destruct (E c Hc) as (c1 & R & _). by rewrite (bind_run _ _ _ _ _ R).
Qed.
End ReportLemmas.

(** ** The answers of the boot loader

    An answer that is missing is a null pointer.  The map the kernel works with
    is the boot loader's when its entries lie behind one another, which the
    protocol does not promise. *)
Lemma entries_from_run first at_ ptrs n : forall i,
  0 <= i -> n = (length ptrs - Z.to_nat i)%nat -> rd ptrs 0 = Ok first ->
  (forall j p, ptrs !! j = Some p -> p = u64 (first + sizeof_memmap_entry * Z.of_nat j)) ->
  entries_from n (ptrs, at_) i = Ok (map at_ (drop (Z.to_nat i) ptrs)).
Proof.
  induction n as [|n IH]; intros i Hi Hn Hf Hp.
  - cbn [entries_from]. by rewrite drop_ge by lia.
  - cbn [entries_from]. unfold nth_entry. cbn [fst snd]. rewrite Hf. cbn [obind].
    rewrite (IH (i + 1)) by (try done; lia). cbn [obind]. replace (Z.to_nat (i + 1)) with (S (Z.to_nat i)) by lia.
    destruct (lookup_lt_is_Some_2 ptrs (Z.to_nat i)) as [p Hpi]; [lia|].
    rewrite (drop_S _ _ _ Hpi). cbn [map]. by rewrite <- (Z2Nat.id i) at 1 by done; rewrite <- (Hp _ _ Hpi).
Qed.

Lemma init_kernel_data_map r ptrs at_ h a f m ms rsdp :
  memmap_response r = Some (ptrs, at_) -> hhdm_response r = Some h -> kernel_address_response r = Some a ->
  framebuffer_response r = Some f -> module_response r = Some (m :: ms) -> rsdp_response r = Some rsdp ->
  ptrs <> [] -> Zlen ptrs < 2 ^ 64 ->
  (forall j p, ptrs !! j = Some p -> p = u64 (nth 0 ptrs 0 + sizeof_memmap_entry * Z.of_nat j)) ->
  exists d e, init_kernel_data r = Ok d /\ memory_map d = map at_ ptrs /\ data_hhdm d = h /\ kernel_addr d = a /\
    last (map at_ ptrs) = Some e /\ total_memory d = u64 (base e + length_ e).
Proof.
  intros Hm Hh Ha Hf Hmod Hr Hne Hlen Hp. unfold init_kernel_data. rewrite Hm, Hh, Ha, Hf, Hmod, Hr. cbn [response obind fst].
  destruct ptrs as [|p0 ptrs]; [done|]. cbn [nth] in Hp. rewrite (entries_from_run p0 at_ (p0 :: ptrs)) by (done || lia).
  assert (rd (m :: ms) 0 = Ok m) as -> by done. pose proof (Zlen_nonneg ptrs). cbn [obind]. rewrite Zlen_cons in *. rewrite u64_small by lia. unfold nth_entry.
  assert (rd (p0 :: ptrs) 0 = Ok p0) as E0 by done. cbn [fst snd]. rewrite E0. cbn [obind].
  destruct (lookup_lt_is_Some_2 (p0 :: ptrs) (length ptrs)) as [q Hq]; [cbn; lia|].
  replace (Zlen ptrs + 1 - 1) with (Z.of_nat (length ptrs)) by (unfold Zlen; lia). rewrite <- (Hp _ _ Hq).
  eexists _, (at_ q). split; [reflexivity|]. cbn [memory_map data_hhdm kernel_addr total_memory].
  split_and!; try done. rewrite last_lookup, length_map. cbn [length pred]. by rewrite list_lookup_fmap, Hq.
Qed.

(** ** The start *)

Lemma init_kheap_config k k' : wf_pmm k -> init_kheap k = Ok (tt, k') -> memmap k' = memmap k /\ hhdm k' = hhdm k.
Proof.
  intros Hwf. unfold init_kheap.
  destruct (kmalloc_spec k 2 Hwf) as [(i & e & p & Hr & Hk)|[Hk _]]; [lia| |by (unfold bind; rewrite Hk)].
  rewrite (bind_run _ _ _ _ _ Hk), bind_modify. intros [= <-]. done.
Qed.

(** ** Theorems *)

(** C18: The memory system starts.  On whatever the memory of the machine holds,
    the page allocator, the heap and the first page tables are set up, or the
    kernel halts for want of a page.  Behind them the heap is well formed and has
    nothing allocated, the tables are a tree of pages apart from it, and the
    address space is the kernel's: every address of a mapped section translates
    to its physical address through the direct map, the kernel's image to where
    the boot loader has put it, the stack to pages of its own that were free,
    and no other address is mapped. *)
Theorem boot_maps_memory img k0 :
  bootable k0 -> aligned k0 -> hhdm k0 mod 4096 = 0 -> Forall (section_ok (hhdm k0)) (memmap k0) -> image_ok img ->
  boot_memory img k0 = Halted \/
  exists k1 cr3 k T, (init_PMM ;;; init_kheap) k0 = Ok (tt, k1) /\ boot_memory img k0 = Ok (cr3, k) /\
    address_space k (u64 (cr3 + hhdm k)) T ∅ /\ kernel_space img k1 k (u64 (cr3 + hhdm k)) T /\
    memmap k1 = memmap k0 /\ hhdm k1 = hhdm k0.
Proof.
  intros Hb Hal Hh Hes Himg. unfold boot_memory.
  destruct (init_PMM_spec k0 Hb) as (k1 & E1 & Hwf1 & Hmap1 & Hh1 & _). rewrite !(bind_run _ _ _ _ _ E1).
  destruct (init_kheap_spec k1 Hwf1) as [(k2 & E2 & Hinv2 & _)|[E2 _]]; [|left; unfold bind; by rewrite E2].
  destruct (init_kheap_config k1 k2 Hwf1 E2) as [Hmap2 Hh2]. rewrite Hmap1 in Hmap2. rewrite Hh1 in Hh2.
  rewrite (bind_run _ _ _ _ _ E2). unfold init_paging.
  destruct (init_paging_task_run img k2) as [E|(root & k & T & E & Hks & Hhk & Has)];
    [apply (inv_wf _ _ Hinv2)|unfold aligned; by rewrite Hmap2|by rewrite Hh2|by rewrite Hh2, Hmap2|done
    |left; unfold bind; by rewrite E|right].
  rewrite (bind_run _ _ _ _ _ E), bind_get. exists k2, (u64 (root - hhdm k)), k, T.
  pose proof (Has _ ∅ Hinv2 ltac:(set_solver)) as Hsp.
  destruct (table_space _ _ _ _ _ _ (proj1 Hsp) (pt_root _ _ _ (proj1 Hsp))).
  assert (u64 (u64 (root - hhdm k) + hhdm k) = root) as ->.
  { unfold u64. rewrite Zplus_mod_idemp_l, Z.sub_add. apply Z.mod_small. lia. }
  by split_and!.
Qed.

(** A machine with dirty memory and an image whose writable part does not start
    a page. *)
Definition dirty_machine : Kernel := set_mem (fun _ _ => 255) (set_last_freed 5 5 demo_machine).
Definition unaligned_image : KernelImage :=
  {| kernel_start := 2 ^ 63; writeallowed_start := 2 ^ 63 + 5000; kernel_end := 2 ^ 63 + 3 * 4096;
     physical_base := 4096; virtual_base := 2 ^ 63 |}.

Lemma boot_maps_memory_witness :
  exists cr3 k, boot_memory unaligned_image dirty_machine = Ok (cr3, k) /\
    virt_to_phys (u64 (cr3 + hhdm k)) (2 ^ 47 + 70000) k = 70000 /\
    virt_to_phys (u64 (cr3 + hhdm k)) (2 ^ 63 + 8195) k = 4096 + 8195 /\
    virt_to_phys (u64 (cr3 + hhdm k)) 0x400000 k = 0xDEAD.
Proof.
  destruct (boot_maps_memory unaligned_image dirty_machine) as [E|(k1 & cr3 & k & T & _ & E & _ & Hks & Hmap & Hh)].
  - constructor; simpl; try lia.
    + intros [|i] e Hi Hu; simplify_eq/=; done.
    + intros [|i] [|j] e f Hi Hj Hu Hu' Hne; simplify_eq/=; done.
  - intros [|i] e Hi Hu; simplify_eq/=; done.
  - done.
  - repeat constructor; done.
  - constructor; vm_compute; repeat split; done.
  - exfalso. assert (value_of (boot_memory unaligned_image dirty_machine) = Some 77824) as E' by (vm_compute; reflexivity).
    rewrite E in E'. discriminate E'.
  - exists cr3, k. split; [exact E|].
    split; [|split].
    + rewrite (ks_sections _ _ _ _ _ Hks) by (rewrite ?Hmap, ?Hh; done). rewrite Hh. done.
    + by rewrite (ks_image _ _ _ _ _ Hks) by (rewrite ?Hmap, ?Hh; done).
    + by rewrite (ks_none _ _ _ _ _ Hks) by (rewrite ?Hmap, ?Hh; done).
Defined.
