(* ===== verification/Drivers.v ===== *)
(** * The devices enter the kernel: the [init_] functions of the drivers

    drivers/serial.c, drivers/framebuffer.c, drivers/renderfont.c and
    drivers/keyboard.c each have a function that [_start] calls once: it tests
    the serial port, allocates the back buffer and creates the device files,
    loads the font, and connects the keyboard.  They work on several parts of
    the kernel at once: the file system with the memory below it, and the
    console. *)
From stdpp Require Import strings.
From S2P Require Import Prelude Allocator Memory PMM KHeap Strings Vector Events Descriptors Elf Apic Blocks Tasks TempFS.
From S2P Require Import Keyboard Screen Printf VFS Mount Process.

(** ** serial.c: [init_serial]

    The ports of a serial line, the data port being [PORT]. *)
Definition PORT : Z := 0x3f8.

Class Ports := {
  ports : Type;
  port_in : Z -> ports -> Z * ports;
  port_out : Z -> Z -> ports -> ports
}.

Section Serial.
Context `{Ports} (line_status : nat -> Z) (patience : nat) (junk : nat -> list Z).

Record Line := MkLine { line_ports : ports; line_console : Console }.
Definition outb (port val : Z) : M Line unit := modify (fun s => MkLine (port_out port val (line_ports s)) (line_console s)).
Definition inb (port : Z) : M Line Z :=
  fun s => let (v, d) := port_in port (line_ports s) in Ok (v, MkLine d (line_console s)).
Definition on_line (m : M Console unit) : M Line unit :=
  fun s => let+ (_, c) := m (line_console s) in Ok (tt, MkLine (line_ports s) c).

Definition initialised_text : list Z := c_text "Serial output initialised." ++ [10].
Definition serial_setup : M Line Z :=
  outb (PORT + 1) 0x00 ;;;
  outb (PORT + 3) 0x80 ;;;
  outb (PORT + 0) 0x03 ;;;
  outb (PORT + 1) 0x00 ;;;
  outb (PORT + 3) 0x03 ;;;
  outb (PORT + 2) 0xC7 ;;;
  outb (PORT + 4) 0x0B ;;;
  outb (PORT + 4) 0x1E ;;;
  outb (PORT + 0) 0xAE ;;;
  inb (PORT + 0).
Definition init_serial (file : list Z) : M Line Z :=
  let* b := serial_setup in
  if negb (b =? 0xAE) then ret 1
  else
    outb (PORT + 4) 0x0F ;;;
    on_line (printf line_status patience junk (cstr [10]) []) ;;;
    on_line (kstatusf line_status patience junk file initialised_text []) ;;;
    ret 0.
End Serial.

(** ** The drivers that make device files *)

Definition PSF_FONT_MAGIC : Z := 0x0436.
Definition sizeof_psf1Header : Z := 4.
Definition font_path : list Z := cstr (c_text "R:/sys/zap-light16.psf").
Definition fb_path : list Z := cstr (c_text "D:/fb0").
Definition fbinfo_path : list Z := cstr (c_text "D:/fbinfo0").
Definition initiating_font : list Z := c_text "Initiating graphical font drawing...".
Definition no_font_text : list Z :=
  c_text "Font file could not be opened! All output will now be through serial." ++ [10].
Definition unread_font_text : list Z :=
  c_text "Font file could not be read (but could be opened)! All output will now be through serial." ++ [10].
Definition invalid_font_text : list Z :=
  c_text "Tried to parse font file, appears to be invalid. " ++
  c_text "Make sure that it's a PSF1 font file format. All output will now be through serial." ++ [10].
(** In white. *)
Definition font_enabled_text : list Z :=
  [27; 91; 48; 59; 51; 55; 109] ++ c_text "Graphical font rendering enabled. " ++
  c_text "Allocator, VFS, TempFS, devices, initial ramdisk, and heap have already been set up." ++ [10].

(** The file system and the console. *)
Record Devices (K : Type) := MkDevices { files : K; console_of : Console }.
Arguments MkDevices {K}.
Arguments files {K}.
Arguments console_of {K}.
Definition on_files {K A} (m : M K A) : M (Devices K) A :=
  fun s => let+ (a, k) := m (files s) in Ok (a, MkDevices k (console_of s)).
Definition on_console {K} (m : M Console unit) : M (Devices K) unit :=
  fun s => let+ (_, c) := m (console_of s) in Ok (tt, MkDevices (files s) c).

(** [kernel.font_info] and [kernel.font_data]; [kernel.font_avaliable]. *)
Definition set_font (f : Font) (c : Console) : Console :=
  let s := screen c in
  set_screen (MkScreen (kernel s) (display s) f (fg_colour s) (bg_colour s) (ch_X s) (ch_Y s)) c.
Definition set_font_avaliable (b : bool) (c : Console) : Console :=
  MkConsole (screen c) b (serial c) (polls c) (serial_lock c).

Section Drivers.
Context {Obj : Type}.
Context `{OV : !Object Vector Obj, ON : !Object VectorNode Obj, OE : !Object Event Obj}.
Context `{OT : !Object Task Obj, OB : !Object Block Obj, OL : !Object File Obj}.
Context (core slack : Z) (junk_Block : Z -> Block) (junk_File : Z -> File) (stale : Z -> Z -> list Z).
Abbreviation Vfs := (Vfs (AL := KHeap_Allocator) (Obj := Obj)).
Abbreviation open := (open core slack junk_Block junk_File stale).
Abbreviation create_device := (create_device core slack junk_Block).

(** *** framebuffer.c: the two devices; the addresses are those of the functions
    of Screen.v, and there is no [write] for the second. *)
Definition create_fb_devices (read_fb write_fb open_fb close_fb read_info open_info close_info : Z) : M Vfs unit :=
  create_device fb_path {| dev_read := read_fb; dev_write := write_fb; dev_open := open_fb; dev_close := close_fb |} ;;;
  create_device fbinfo_path {| dev_read := read_info; dev_write := 0; dev_open := open_info; dev_close := close_info |} ;;;
  ret tt.

(** *** renderfont.c: [init_font] *)
Context (line_status : nat -> Z) (patience : nat) (junk : nat -> list Z) (file : list Z).
Abbreviation kstatusf := (kstatusf line_status patience junk file).
Abbreviation kfailf := (kfailf line_status patience junk file).

(** The font file in a new buffer: the status of [read] and the buffer, which is
    never freed. *)
Definition read_font (f : Z) : M Vfs (Z * list Z) :=
  let* file_size := file_length f in
  let* p := on_objs (malloc_block slack junk_Block file_size) in
  let* buffer := on_objs (get_obj Block (block p)) in
  let* buffer := lift (ku_memset buffer 0 file_size) in
  on_objs (put_obj (block p) buffer) ;;;
  let* (read_status, buffer) := read f buffer file_size in
  on_objs (put_obj (block p) buffer) ;;;
  ret (read_status, buffer).

(** [font_info->magic_bytes], and the font behind the header. *)
Definition parse_font (buffer : list Z) : outcome (Z * Font) :=
  let+ magic_bytes := le_field 2 buffer 0 in
  let+ char_size := rd buffer 3 in
  Ok (magic_bytes, MkFont char_size (drop (Z.to_nat sizeof_psf1Header) buffer)).

Definition init_font : M (Devices Vfs) unit :=
  on_console (kstatusf initiating_font []) ;;;
  let* f := on_files (open font_path 0 MODE_READONLY) in
  if f =? 0 then on_console (kfailf no_font_text [])
  else
    let* (read_status, buffer) := on_files (read_font f) in
    if negb (read_status =? 0) then
      on_console (kfailf unread_font_text []) ;;;
      on_files (close f)
    else
      on_files (close f) ;;;
      let* (magic_bytes, font) := lift (parse_font buffer) in
      on_console (modify (set_font font)) ;;;
      if negb (magic_bytes =? PSF_FONT_MAGIC) then on_console (kfailf invalid_font_text [])
      else
        on_console (modify (set_font_avaliable true)) ;;;
        on_console (on_screen (write_string (cstr font_enabled_text))) ;;;
        on_console (write_serial line_status patience ok_text).

(** *** framebuffer.c, keyboard.c: opening and closing *)
Definition fbinfo_mode_text : list Z := c_text "Can only open framebuffer info devices as MODE_READONLY." ++ [10].
Definition open_fb_device (mode : Z) : M Console unit := ret tt.
Definition close_fb_device : M Console unit := ret tt.
Definition close_fbinfo_device : M Console unit := ret tt.
Definition open_fbinfo_device (mode : Z) : M Console unit :=
  if negb (mode =? MODE_READONLY) then kfailf fbinfo_mode_text [] else ret tt.
Definition close_ps2_kb `{OI : !Object Inode Obj} (filev : Z) : M (Store (H := KHeap_Allocator) Obj) unit :=
  let* inode := get_obj Inode filev in
  free_obj (private inode).

(** *** keyboard.c: [init_ps2_keyboard] *)
Context `{Hardware} (apic : Kernel -> Apic).
Definition POLARITY_HIGH : bool := false.
Definition TRIGGER_EDGE : bool := false.
Definition keyboard_text : list Z := c_text "Initiating PS/2 keyboard..." ++ [10].
Definition stdin_path : list Z := cstr (c_text "D:/stdin").

(** The gate of the keyboard in the table at [idt], and the pin of the I/O
    APIC; the controllers of the machine are [apic] of its memory. *)
Definition connect_keyboard (isr idt : Z) : M Kernel Apic :=
  set_IDT_entry 33 isr 0x8E idt ;;;
  fun h => let+ (_, s) := map_ioapic 33 1 0 POLARITY_HIGH TRIGGER_EDGE (apic h) in Ok (s, Apic.kernel s).
Definition init_ps2_keyboard (read_kb open_kb close_kb isr idt : Z) : M (Devices Vfs) Apic :=
  on_console (kstatusf keyboard_text []) ;;;
  on_files (create_device stdin_path {| dev_read := read_kb; dev_write := 0; dev_open := open_kb; dev_close := close_kb |}) ;;;
  on_files (in_kernel (connect_keyboard isr idt)).
End Drivers.

(** ** What the functions do *)

(** A line in loopback mode, bit 4 of the register behind [PORT + 4], gives back
    the byte it is sent. *)
Class LoopbackLaws `{Ports} : Prop :=
  loopback d v : 0 <= v < 256 -> fst (port_in PORT (port_out PORT v (port_out (PORT + 4) 0x1E d))) = v.

Section Lemmas.
Context (line_status : nat -> Z) (patience : nat) (junk : nat -> list Z) (file : list Z).
Context (ready : forall n, exists k, (k < patience)%nat /\ Z.land (line_status (n + k)%nat) 0x20 <> 0).
Context (junk_length : forall n, length (junk n) = n).
Context (file_plain : Printf.plain file) (file_short : Zlen file < 2 ^ 30).

(** [init_serial] fails without a text when the line does not give the test byte
    back. *)
Lemma init_serial_run `{Ports} (s : Line) :
  Printf.usable (line_console s) ->
  exists b s', serial_setup s = Ok (b, s') /\ line_console s' = line_console s /\
    (LoopbackLaws -> b = 0xAE) /\
    (b <> 0xAE -> init_serial line_status patience junk file s = Ok (1, s')) /\
    (b = 0xAE -> exists s'', init_serial line_status patience junk file s = Ok (0, s'') /\
       Printf.usable (line_console s'') /\
       serial (line_console s'') =
         serial (line_console s) ++ [10] ++ tag 51 (c_text "[STATUS]") file ++ initialised_text).
Proof using All.
  intros Hu. destruct s as [d c]. cbn [line_console] in *.
  assert (exists b d', serial_setup (MkLine d c) = Ok (b, MkLine d' c) /\ (LoopbackLaws -> b = 0xAE)) as (b & d' & E & Hb).
  { unfold serial_setup, outb, inb. rewrite !bind_modify. cbn [line_ports line_console].
    change (PORT + 0) with PORT. set (d0 := port_out (PORT + 4) 0x0B _).
    destruct (port_in PORT (port_out PORT 174 (port_out (PORT + 4) 30 d0))) as [v d'] eqn:Ev. exists v, d'. split; [done|].
    intros HL. pose proof (loopback (LoopbackLaws := HL) d0 0xAE ltac:(lia)) as Hv. by rewrite Ev in Hv. }
  exists b, (MkLine d' c). split; [done|]. split; [done|]. split; [done|]. unfold init_serial. rewrite (bind_run _ _ _ _ _ E).
  split; intros Hne; destruct (Z.eqb_spec b 0xAE); try done; cbn [negb].
  unfold outb at 1. rewrite bind_modify. cbn [line_ports line_console].
  assert (emits (printf line_status patience junk (cstr [10]) []) [10]) as E1.
  { apply emits_printf; [done|done|repeat constructor; done|]. intros font. fmt. }
  assert (emits (kstatusf line_status patience junk file initialised_text []) (tag 51 (c_text "[STATUS]") file ++ initialised_text)) as E2.
  { apply emits_tagged; [done|done|done|done|lia|repeat constructor; done|done|repeat constructor; done|].
    intros font. unfold initialised_text. spell. fmt. }
  destruct (E1 c Hu) as (c1 & R1 & S1 & U1). destruct (E2 c1 U1) as (c2 & R2 & S2 & U2).
  unfold bind, on_line. cbn [line_console line_ports]. rewrite R1. cbn [obind line_console line_ports]. rewrite R2. cbn [obind].
  eexists. split; [reflexivity|]. split; [exact U2|]. cbn [line_console]. by rewrite S2, S1, <- app_assoc.
Qed.

(** The header of a PSF1 file is its first four bytes. *)
Lemma parse_font_run m0 m1 font_mode size glyphs :
  parse_font (m0 :: m1 :: font_mode :: size :: glyphs) = Ok (m0 + 256 * (m1 + 256 * 0), MkFont size glyphs).
Proof using. unfold parse_font. cbn [le_field]. done. Qed.

(** What the start of the font driver comes to. *)
Definition font_of (f status : Z) (buffer : list Z) : option Font :=
  if (f =? 0) || negb (status =? 0) then None
  else
    match parse_font buffer with
    | Ok (magic_bytes, font) => if magic_bytes =? PSF_FONT_MAGIC then Some font else None
    | _ => None
    end.

Lemma parse_font_total buffer : sizeof_psf1Header <= Zlen buffer -> exists m font, parse_font buffer = Ok (m, font).
Proof using.
  clear. intros H. unfold sizeof_psf1Header in H.
  destruct buffer as [|m0 [|m1 [|fm [|sz glyphs]]]]; try (exfalso; zlen). rewrite parse_font_run. by eexists _, _.
Qed.

Lemma says colour name text c :
  48 <= colour < 56 -> Printf.plain name -> Zlen name < 100 -> Forall (fun ch => ch <> 0) text ->
  (forall font, formats font text [] text) -> Printf.usable c -> font_avaliable c = false ->
  exists c', klogf line_status patience junk (cstr (tag colour name file)) (cstr text) [] c = Ok (tt, c') /\
    Printf.usable c' /\ font_avaliable c' = false /\ screen c' = screen c.
Proof using All.
  intros Hc Hn Hl Hz Hf Hu Hno.
  destruct (tagged_run line_status patience junk file ready junk_length file_plain file_short colour name text [] text c Hc Hn Hl Hz Hf Hu)
    as (c' & E & _ & Hu' & F & S). exists c'. split_and!; [done|done|congruence|by apply S].
Qed.

(** The first text on the new font. *)
Lemma font_enabled_run c :
  Printf.serial_lock c = false -> console (screen c) -> cursor_ok (screen c) ->
  exists c', (on_screen (write_string (cstr font_enabled_text)) ;;; write_serial line_status patience ok_text) c = Ok (tt, c') /\
    Printf.usable c' /\ font_avaliable c' = font_avaliable c /\ font (screen c') = font (screen c).
Proof using ready.
  intros Hl Hc Hcur. unfold write_string.
  destruct (write_string_run (cstr font_enabled_text) (screen c) (S (length (cstr font_enabled_text))) Hc Hcur)
    as (s' & E & Hd & Hcur'); [|lia|].
  { unfold cstr, font_enabled_text. spell. apply text_escape; [lia|]. cbn [app]. repeat (apply text_char; [lia|done|]). apply text_end. }
  assert (on_screen (write_string_loop (S (length (cstr font_enabled_text))) (cstr font_enabled_text)) c = Ok (tt, set_screen s' c)) as E1
    by (unfold on_screen; by rewrite E).
  rewrite (bind_run _ _ _ _ _ E1). unfold write_serial. set (c1 := set_screen s' c).
  assert (c_string (removelast ok_text) ok_text) as Hs by (split; [repeat constructor; done|by exists []]).
  rewrite (bind_lift _ _ _ _ (c_string_strlen _ _ Hs)), s32_small, Zlen_to_nat by done.
  destruct (write_serial_loop_run line_status patience ready (removelast ok_text) [] [0] c1) as [n En].
  exists (sent (removelast ok_text) c1 n). split; [exact En|]. destruct (drawn_setup _ _ Hd) as (D & F & _).
  split; [|done]. split; [done|]. intros _. split; [by eapply drawn_console|exact Hcur'].
Qed.

Section FontLemmas.
Context {Obj : Type}.
Context `{OV : !Object Vector Obj, ON : !Object VectorNode Obj, OE : !Object Event Obj}.
Context `{OT : !Object Task Obj, OB : !Object Block Obj, OL : !Object File Obj}.
Context (core slack : Z) (junk_Block : Z -> Block) (junk_File : Z -> File) (stale : Z -> Z -> list Z).
Abbreviation Vfs := (Vfs (AL := KHeap_Allocator) (Obj := Obj)).

(** The console has a font afterwards exactly when the file could be opened and
    read and starts with the magic number; otherwise output stays on the serial
    line. *)
Lemma init_font_run (s : Devices Vfs) f k1 status buffer k2 k3 :
  Printf.usable (console_of s) -> font_avaliable (console_of s) = false ->
  open core slack junk_Block junk_File stale font_path 0 MODE_READONLY (files s) = Ok (f, k1) ->
  (f <> 0 -> read_font slack junk_Block f k1 = Ok ((status, buffer), k2) /\ close f k2 = Ok (tt, k3) /\
     sizeof_psf1Header <= Zlen buffer) ->
  (forall font, font_of f status buffer = Some font ->
     console (screen (set_font font (console_of s))) /\ cursor_ok (screen (set_font font (console_of s)))) ->
  exists c', init_font core slack junk_Block junk_File stale line_status patience junk file s =
      Ok (tt, MkDevices (if f =? 0 then k1 else k3) c') /\ Printf.usable c' /\
    match font_of f status buffer with
    | Some font => font_avaliable c' = true /\ Screen.font (screen c') = font
    | None => font_avaliable c' = false
    end.
Proof using All.
  intros Hu Hno Hopen Hread Hfont. unfold init_font, font_of in *.
  destruct (says 51 (c_text "[STATUS]") initiating_font (console_of s)) as (c1 & E1 & U1 & F1 & S1);
    [lia|repeat constructor; done|done|repeat constructor; done|intros font; unfold initiating_font; spell; fmt|done|done|].
  assert (forall text c, Forall (fun ch => ch <> 0) text -> (forall font, formats font text [] text) ->
    Printf.usable c -> font_avaliable c = false ->
    exists c', kfailf line_status patience junk file text [] c = Ok (tt, c') /\ Printf.usable c' /\ font_avaliable c' = false) as Hfail.
  { intros text c Hz Hf Huc Hn. destruct (says 49 (c_text "[ FAIL ]") text c) as (c' & E & U & F & _);
      [lia|repeat constructor; done|done|done|done|done|done|]. by exists c'. }
  unfold bind, on_console, on_files, lift. cbn [files console_of]. unfold kstatusf. rewrite E1. cbn [obind files console_of].
  rewrite Hopen. cbn [obind files console_of].
  destruct (Z.eqb_spec f 0) as [Hf|Hf]; cbn [orb] in *.
  { destruct (Hfail no_font_text c1) as (c2 & E2 & U2 & F2);
      [repeat constructor; done|intros font; unfold no_font_text; spell; fmt|done|done|].
    cbn [files console_of obind]. rewrite E2. by exists c2. }
  destruct (Hread Hf) as (Er & Ec & Hlen). cbn [files console_of obind]. rewrite Er. cbn [obind files console_of].
  destruct (status =? 0); cbn [negb] in *.
  2:{ destruct (Hfail unread_font_text c1) as (c2 & E2 & U2 & F2);
        [repeat constructor; done|intros font; unfold unread_font_text; spell; fmt|done|done|].
      cbn [files console_of obind]. rewrite E2. cbn [files console_of obind]. rewrite Ec. by exists c2. }
  cbn [files console_of obind]. rewrite Ec. cbn [files console_of obind].
  destruct (parse_font_total buffer Hlen) as (m & fnt & Ep). rewrite Ep in *. cbn [obind files console_of modify].
  destruct (m =? PSF_FONT_MAGIC); cbn [negb] in *.
  2:{ destruct (Hfail invalid_font_text (set_font fnt c1)) as (c2 & E2 & U2 & F2);
        [repeat constructor; done|intros font; unfold invalid_font_text; spell; fmt| |exact F1|].
      { split; [apply U1|]. intros Hx. cbn in Hx. congruence. }
      cbn [files console_of obind]. rewrite E2. by exists c2. }
  destruct (Hfont fnt eq_refl) as [Hc Hcur].
  destruct (font_enabled_run (set_font_avaliable true (set_font fnt c1))) as (c2 & E2 & U2 & F2 & S2).
  { apply U1. }
  { unfold set_font in *. cbn [screen set_screen set_font_avaliable] in *. by rewrite S1. }
  { unfold set_font in *. cbn [screen set_screen set_font_avaliable] in *. by rewrite S1. }
  apply bind_ok in E2 as ([] & c3 & E3 & E4). cbn [files console_of obind]. rewrite E3. cbn [files console_of obind]. rewrite E4.
  exists c2. split; [done|]. split; [done|]. split; [by rewrite F2|by rewrite S2].
Qed.
End FontLemmas.
End Lemmas.

(** A line with a modem control register and one byte. *)
#[local] Instance demo_ports : Ports := {
  ports := Z * Z;
  port_in p d := (if Z.testbit (fst d) 4 then snd d else 0, d);
  port_out p v d := if p =? PORT then (fst d, v) else if p =? PORT + 4 then (v, snd d) else d }.

#[local] Instance demo_loopback : LoopbackLaws.
Proof. intros [m b] v Hv. done. Qed.

Example init_serial_demo :
  match init_serial (fun _ => 0x20) 1 (fun n => replicate n 7) (c_text "a.c") (MkLine (0, 0) (demo_console_of demo_screen false)) with
  | Ok (status, s) => status = 0 /\ fst (line_ports s) = 0x0F
  | _ => False
  end.
Proof. vm_compute. done. Qed.
